(* ===== verification/_CoqProject ===== *)
-Q . S2P
Prelude.v
GoStd.v
Base64.v
Utf8.v
External.v
GRT.v
Horizon.v
Aggregator.v
Proto.v
Repository.v
InMemory.v
InMemoryProps.v
Runtime.v
Gateway.v
GatewayProps.v
Accounting.v
GatewayFunds.v
SessionService.v
UsageService.v
AuthService.v
PluginSession.v
PluginSessionProps.v
PluginMetering.v
Endpoint.v
PluginAuth.v
OperatorAuth.v
Consumer.v
Operator.v
OperatorSessions.v
CollectDaemon.v
PaymentClient.v
Oracle.v
Discovery.v
Bootstrap.v
Ingress.v
IngressProps.v
Postgres.v
PostgresProps.v
Contracts.v
ChainClient.v
Commands.v
Funding.v
FundingProps.v
Collect.v
UsageTracker.v
Tools.v
Startup.v
OperatorMetrics.v
