(* ===== verification/Prelude.v ===== *)
(** * Substreams Data Service: a verified model

    The program meters Substreams usage and pays for it with signed vouchers of
    The Graph's Horizon payments.  A consumer sidecar ([consumer/sidecar], client
    state in [sidecar]) finds a provider through an oracle ([oracle]), opens a
    session at its gateway ([provider/gateway]), proxies the stream of blocks, and
    signs RAVs (receipt aggregate vouchers, [horizon]) on a bidirectional payment
    stream beside it.  Plugins of the data plane ([provider/plugin], inside
    firehose-core) authenticate requests ([provider/auth]), borrow workers
    ([provider/session]) and report usage ([provider/usage]); every service shares
    one repository ([provider/repository]), in memory or in Postgres.  Operators
    watch and settle accepted RAVs on chain ([handler_operator.go],
    [operator_metrics.go], [cmd/sds/provider_operator_collect*.go],
    [contracts]); payers fund their escrow and authorize signers
    ([cmd/sds/consumer_funding.go], [consumer_signer.go]).

    ** Files and what they model

    Foundations:
    - [Prelude]: Go errors with [errors.Is], results and their bind, machine
      integers, record update, the tactics and hint database of the development.
    - [GoStd]: positional numerals, bytes and [math/big] text, package [strings],
      hexadecimal text.  [Base64]: [encoding/base64] with its round trip.
      [Utf8]: validity of UTF-8 and [strings.ToValidUTF8].
    - [External]: interfaces of third-party packages as type classes with their
      documented laws: 256-bit integers ([holiman/uint256]) and Ethereum
      primitives ([eth-go]); module [Reference] has one instance of each, so the
      laws hold of something and runs can be evaluated.

    Vouchers and data:
    - [GRT] ([grt.go]): token amounts, their text and JSON forms, prices.
    - [Horizon] ([horizon/types.go], [eip712.go], [signature.go],
      [signed_message.go]): vouchers, EIP-712 hashing, signing, recovery and
      signature normal form.  [Aggregator] ([horizon/aggregator.go]).
    - [Proto] ([types_helpers.go], [sidecar/convert.go]): wire values.
    - [Repository] ([provider/repository/repository.go]): sessions, workers,
      quotas, collection records, and the class [GlobalRepository] with the laws
      its clients rely on.  [InMemory] ([inmemory.go]) implements it;
      [InMemoryProps] proves the laws and the invariants of its reachable states.
      [Postgres] ([provider/repository/psql]): column types, tables, one function
      per SQL statement, and the operations; [PostgresProps] proves it
      interchangeable with the in-memory backend.

    Provider:
    - [Runtime] ([gateway.go], [funds.go], [rav_request_runtime.go],
      [runtime_manager.go]) and [Gateway] ([handler_start_session.go],
      [handler_submit_rav.go], [handler_get_session_status.go],
      [handler_payment_session.go]): the gateway's live payment control and its
      handlers; the stream is a step function over its local state.
      [GatewayProps], [Accounting] and [GatewayFunds] prove the gateway correct
      against the repository interface: what an accepted RAV implies, accounting
      over whole runs ([gw_step]), funds control, and session start.
    - [SessionService] ([provider/session]), [UsageService] ([provider/usage]),
      [AuthService] ([provider/auth], and the headers built in
      [consumer/sidecar/ingress.go]): the services of the data plane.
    - [PluginSession], [PluginSessionProps] ([plugin/session.go]),
      [PluginMetering] ([metering.go]), [PluginAuth] ([auth.go],
      [auth_sanitizer.go], [plugin.go]): the plugins, the first two as transition
      systems of their goroutines.
    - [OperatorAuth] ([internal/operatorauth]), [Operator], [OperatorSessions]
      ([handler_operator.go]) and [OperatorMetrics] ([operator_metrics.go]): the
      operator surface.
    - [UsageTracker] ([usage.go]): the counters of a sink under concurrency.

    Consumer and oracle:
    - [Consumer] ([sidecar/session.go], [rav_request_signing.go], [signRAV],
      [effectiveSessionPricing], [handler_end_session.go]) and [PaymentClient]
      ([payment_session_manager.go]): the consumer's side of a payment.
    - [Endpoint] ([sidecar/endpoint.go]), [Oracle] ([oracle/config.go],
      [oracle.go]), [Discovery] ([discovery.go]), [Bootstrap]
      ([managed_session.go], [handler_init.go]): finding a provider and opening a
      session.  [Ingress], [IngressProps] ([ingress.go]): the stream proxy.

    Chain and commands:
    - [Contracts] ([contracts/horizon], [contracts/erc20], the two queriers of
      [sidecar]) and [ChainClient] ([contracts/chain/client.go]).
    - [Commands] ([consumer_common.go], [provider_operator.go]): flags, keys and
      the operator client.  [Funding], [FundingProps]: the payer's commands.
    - [CollectDaemon] ([provider_operator_collect_daemon.go]) and [Collect]
      ([provider_operator_collect.go]): settlement.
    - [Tools] ([tools_rav.go]): creating and inspecting RAVs.  [Startup]
      ([cmd/sds/impl], [consumer_sidecar.go], [server_transport.go],
      [pricing_config.go], [repository.go]): from flags to the servers started.

    ** How the code is represented

    A handler is a function from the state it reads (the repository, the runtime
    manager, a cache) and its request to a response and the new state, with the
    code's guards in the code's order; an early return is a branch.  A pointer
    that may be nil is an option; a nil dereference or another run-time panic the
    code can reach is the error [GoPanic].  [uint64] and [int64] counters wrap;
    [int] counters (quotas, attempts, metric counts) are unbounded integers except
    where the code multiplies them; [big.Int] is [Z].  A time is its number of
    nanoseconds since the zero [time.Time], which is 0; the clock is an argument.
    Maps are [gmap]s; where the iteration order is visible the theorems hold for
    every order.  Log lines are dropped, printed lines are kept as the values they
    report, and error messages keep their format string only.  Case mapping is
    that of ASCII.

    A section of code under one mutex, or a compare-and-swap loop, is one atomic
    step.  Where calls overlap in a way that matters the pieces are separate
    steps of a transition system: [SessionService.pool_step] (overlapping worker
    returns), [PaymentClient.step] (binding, submission and close), the
    goroutines of [PluginSession] and [PluginMetering],
    [UsageTracker.tracker_step] (single atomic operations), and
    [Accounting.gw_step] (all traffic on the gateway).

    Code outside the repository is an argument, with the documented behaviour
    the code relies on as laws: [Uint256], [Eth], [NetURL] ([net/url]),
    [ProtoWire] and [AuthDeps] (protobuf), [Dsession] and [Float64]
    (firehose-core), [PostgresTypes] (what the server does to a value of a column
    type), [ContractABI] and [Geth] (go-ethereum), [EthClient] (a node over an
    abstract world), [FundingChain] (the token and escrow contracts as a ledger),
    [CommandDeps], [YAML] and [StartupDeps] (parsers, files, the database), the
    world one call observes ([Runtime.Env]: clock, escrow balance, signer
    authorization), and the delivery of a remote call ([CollectDaemon.delivery]).
    Each is instantiated by a concrete one where a theorem is applied to an
    example.

    ** What the theorems show

    - Accounting: along every run, accepted voucher values never decrease and
      pay exactly (with the unary submission, at least) for the usage marked as
      settled; every in-flight request asks for exactly that; an accepted
      submission was requested, signed by an authorized key, and for this session;
      a session is stopped exactly when its escrow no longer covers it; an honest
      consumer's answer is never rejected; a round of payment leaves consumer and
      provider in step.
    - Vouchers: aggregation succeeds exactly under the stated conditions and
      never counts a receipt twice; the encoding binds every field; signature
      equality is exactly malleability.
    - Repository: both backends give the same answers to every sequence of
      operations; the in-memory one refines the interface; every accepted RAV has
      a collection record of its value; records follow the settlement state
      machine; termination is final; usage adds up.
    - Services and plugins: authentication and operator authorization are sound,
      and complete for the requests the program itself builds; the sanitizer lets
      only well-formed requests through; worker quotas count live workers and no
      slot is leaked; every metered event is charged once; a stream that is not
      paid for is stopped; metrics are exact.
    - Bootstrap and discovery: a catalog is accepted exactly when well formed; a
      bootstrap opens the same session on both sides or none; the oracle's prices
      are a ceiling.
    - The payment client and the stream proxy: no double close, stranded waiter or
      binding to a dead stream; how a stream ends is decided by what was observed.
    - Settlement and funding: one transaction per claim, for the claimed value;
      collected means confirmed; the manual command does what the daemon does;
      waiting for a receipt ends; a top-up reaches its target and takes the
      difference; a proof is accepted for exactly its payer.
    - Start-up: servers share domain, repository and prices, plain text is
      explicit, and only configured tokens are admitted.
    - Round trips and bounds of amounts, wire values, keys, columns and tools.
    - Behaviour that departs from comments or intent is stated as such: a lost
      write answered as accepted, a session left behind by a failed start,
      negative amounts that wrap, quota released twice, stale claims that are not
      reclaimed, values signed without comparison, prices that Postgres does not
      store, reports that are not snapshots, a password that is logged in part.

    ** Bounds and fuel

    [digits] and [trim_left] take their fuel from the size of their argument
    ([digits_fuel_enough]; each round of [trim_left] drops at least one byte of
    the [length l] it is given); the doubling loop of [backoffFor] has exactly
    [attempt - 1] rounds.  The polls of [WaitReceipt] are bounded by [wait_fuel],
    the ticks that fit before the deadline and one more, and
    [WaitReceipt_terminates] proves that it is not exhausted.  The loops over
    encoded bytes ([wire_loop], the UTF-8 decoder) are structural on the bytes and
    count the ones to skip.  No other definition has fuel.

    ** Not modelled

    Generated protobuf code; HTTP and gRPC servers, clients and transports beyond
    their configuration; supervision and shutdown of processes; database
    connections and migrations; registration of flags, and the commands that only
    print operator answers; the floating-point price conversion of [pricing.go],
    which is for display; and the demo and development environments
    ([horizon/devenv], [cmd/sds/demo_setup.go]), which start containers. *)
From stdpp Require Export base gmap strings list fin_maps numbers.
From Stdlib Require Export ZArith Lia.

#[global] Open Scope Z_scope.

(** ** Errors *)

(** A Go [error] value.  A package-level sentinel ([errors.New]) is known by
    its text, [fmt.Errorf] without [%w] is an opaque message, and [fmt.Errorf]
    with [%w] wraps another error.  Messages keep the format string; the
    formatted operands are not part of the model. *)
Inductive go_error : Type :=
  | ErrorsNew (name : string)
  | Errorf (msg : string)
  | Wrapf (msg : string) (inner : go_error).

#[global] Instance go_error_eq_dec : EqDecision go_error.
Proof. solve_decision. Defined.

(** [errors.Is(err, sentinel)]: follows the wrapping chain. *)
Fixpoint errors_Is (e : go_error) (target : go_error) : bool :=
  bool_decide (e = target) ||
  match e with
  | Wrapf _ inner => errors_Is inner target
  | _ => false
  end.

(** [err.Error()], up to formatted operands. *)
Definition error_string (e : go_error) : string :=
  match e with ErrorsNew s => s | Errorf s => s | Wrapf s _ => s end.

(** ** Results *)

Inductive result (E A : Type) : Type :=
  | Ok (a : A)
  | Err (e : E).
Arguments Ok {E A} a.
Arguments Err {E A} e.

#[global] Instance result_eq_dec {E A} `{EqDecision E, EqDecision A} :
  EqDecision (result E A).
Proof. solve_decision. Defined.

Definition is_ok {E A} (r : result E A) : bool :=
  match r with Ok _ => true | Err _ => false end.

Definition rbind {E A B} (r : result E A) (k : A -> result E B) : result E B :=
  match r with Ok a => k a | Err e => Err e end.

Declare Scope go_scope.
Delimit Scope go_scope with go.
Notation "'let?' x := e 'in' k" := (rbind e (fun x => k))
  (at level 10, x pattern, e at level 100, k at level 200) : go_scope.
#[global] Open Scope go_scope.

Lemma Ok_inj {E A} (a b : A) : @Ok E A a = Ok b -> a = b.
Proof. congruence. Qed.

Lemma rbind_Ok {E A B} (r : result E A) (k : A -> result E B) b :
  rbind r k = Ok b <-> exists a, r = Ok a /\ k a = Ok b.
Proof. destruct r; naive_solver. Qed.

Lemma rbind_Err {E A B} (r : result E A) (k : A -> result E B) e :
  rbind r k = Err e <-> r = Err e \/ exists a, r = Ok a /\ k a = Err e.
Proof. destruct r; naive_solver. Qed.

(** ** Machine integers *)

Definition two64 : Z := 2 ^ 64.
Definition wrap_u64 (z : Z) : Z := z mod two64.
(** Conversion to a signed 64-bit integer, two's complement. *)
Definition wrap_s64 (z : Z) : Z := (z + 2 ^ 63) mod two64 - 2 ^ 63.

Definition u64 (z : Z) : Prop := 0 <= z < two64.
Definition s64 (z : Z) : Prop := - 2 ^ 63 <= z < 2 ^ 63.

Lemma wrap_u64_range z : u64 (wrap_u64 z).
Proof. unfold u64, wrap_u64. apply Z.mod_pos_bound. reflexivity. Qed.

Lemma wrap_u64_small z : u64 z -> wrap_u64 z = z.
Proof. intros H. apply Z.mod_small, H. Qed.

Lemma wrap_s64_range z : s64 (wrap_s64 z).
Proof.
  unfold s64, wrap_s64.
  pose proof (Z.mod_pos_bound (z + 2 ^ 63) two64 eq_refl). unfold two64 in *. lia.
Qed.

Lemma wrap_s64_small z : s64 z -> wrap_s64 z = z.
Proof.
  unfold s64, wrap_s64. intros H. rewrite Z.mod_small; [lia |]. unfold two64. lia.
Qed.

(** ** Comparison results, as [Cmp] returns them *)

Definition cmpZ (a b : Z) : Z :=
  match a ?= b with Lt => -1 | Eq => 0 | Gt => 1 end.

Lemma cmpZ_lt a b : cmpZ a b < 0 <-> a < b.
Proof. unfold cmpZ. destruct (Z.compare_spec a b); lia. Qed.
Lemma cmpZ_gt a b : 0 < cmpZ a b <-> b < a.
Proof. unfold cmpZ. destruct (Z.compare_spec a b); lia. Qed.
Lemma cmpZ_eq a b : cmpZ a b = 0 <-> a = b.
Proof. unfold cmpZ. destruct (Z.compare_spec a b); lia. Qed.
Lemma cmpZ_ltb a b : (cmpZ a b <? 0) = (a <? b).
Proof. apply eq_bool_prop_intro; rewrite !Is_true_true, !Z.ltb_lt; apply cmpZ_lt. Qed.
Lemma cmpZ_gtb a b : (cmpZ a b >? 0) = (a >? b).
Proof.
  apply eq_bool_prop_intro; rewrite !Is_true_true, !Z.gtb_lt; apply cmpZ_gt.
Qed.
Lemma cmpZ_eqb a b : (cmpZ a b =? 0) = (a =? b).
Proof. apply eq_bool_prop_intro; rewrite !Is_true_true, !Z.eqb_eq; apply cmpZ_eq. Qed.

(** ** Record update

    [r <| f := v |>] is the record [r] with field [f] replaced.  A record type
    opts in with an instance of [Eta] that rebuilds a value from its fields;
    the setter of a projection is found by abstracting that projection. *)

Class Eta (R : Type) : Type := eta : R -> R.

Class Setter {R T : Type} (proj : R -> T) : Type := setter : (T -> T) -> R -> R.

Ltac derive_setter proj :=
  lazymatch type of proj with
  | ?R -> ?T =>
      let e := constr:(_ : Eta R) in
      let rebuild := eval hnf in e in
      exact (fun (f : T -> T) (x : R) =>
        ltac:(let body := eval cbv beta in (rebuild x) in
              lazymatch eval pattern (proj x) in body with
              | ?ctx _ => let res := eval cbv beta in (ctx (f (proj x))) in exact res
              end))
  end.
#[global] Hint Extern 0 (Setter ?proj) => derive_setter proj : typeclass_instances.

Notation "r <| f := v |>" := (setter (proj := f) (fun _ => v) r)
  (at level 1, f constr at level 0, v at level 200, left associativity) : go_scope.

(** ** Automation *)

(** Splits every [match] and [if] of the hypotheses and the goal, discarding
    the branches whose equations clash. *)
Ltac go_cases := repeat (case_match; simplify_eq/=; try done).

(** Turns the boolean tests of the context into propositions. *)
Ltac bool_props :=
  repeat match goal with
  | H : (_ && _) = true |- _ => apply andb_true_iff in H as [? ?]
  | H : (_ || _) = false |- _ => apply orb_false_iff in H as [? ?]
  | H : negb _ = true |- _ => apply negb_true_iff in H
  | H : negb _ = false |- _ => apply negb_false_iff in H
  | H : (_ <? _)%Z = true |- _ => apply Z.ltb_lt in H
  | H : (_ <? _)%Z = false |- _ => apply Z.ltb_ge in H
  | H : (_ <=? _)%Z = true |- _ => apply Z.leb_le in H
  | H : (_ <=? _)%Z = false |- _ => apply Z.leb_gt in H
  | H : (_ >? _)%Z = true |- _ => apply Z.gtb_lt in H
  | H : (_ >? _)%Z = false |- _ => rewrite Z.gtb_ltb in H; apply Z.ltb_ge in H
  | H : (_ >=? _)%Z = true |- _ => rewrite Z.geb_leb in H; apply Z.leb_le in H
  | H : (_ >=? _)%Z = false |- _ => rewrite Z.geb_leb in H; apply Z.leb_gt in H
  | H : (_ =? _)%Z = true |- _ => apply Z.eqb_eq in H
  | H : (_ =? _)%Z = false |- _ => apply Z.eqb_neq in H
  | H : String.eqb _ _ = true |- _ => apply String.eqb_eq in H
  | H : String.eqb _ _ = false |- _ => apply String.eqb_neq in H
  | H : bool_decide _ = true |- _ => apply bool_decide_eq_true in H
  | H : bool_decide _ = false |- _ => apply bool_decide_eq_false in H
  end.

Create HintDb sds discriminated.
Create Rewrite HintDb sds.
#[export] Hint Resolve wrap_u64_range wrap_s64_range : sds.
#[export] Hint Rewrite @cmpZ_ltb @cmpZ_gtb @cmpZ_eqb : sds.
