(* ===== verification/GoStd.v ===== *)
(** The parts of Go's standard library the program uses: positional numerals,
    [math/big] text and byte conversions, package [strings] on byte strings,
    [encoding/hex], and [time].  Byte strings are lists of [ascii] inside this
    file and [string] in the rest of the development. *)
From S2P Require Import Prelude.
From Stdlib Require Export Ascii.
From Stdlib.Strings Require Byte.
#[global] Open Scope Z_scope.

(** ** Positional numerals *)

Definition undigits (b : Z) (ds : list Z) : Z :=
  fold_left (fun acc d => acc * b + d) ds 0.

Fixpoint digits_fuel (b : Z) (fuel : nat) (n : Z) : list Z :=
  match fuel with
  | O => []
  | S fuel' => if n <=? 0 then [] else digits_fuel b fuel' (n / b) ++ [n mod b]
  end.

(** Most significant digit first, no leading zero; zero has no digit. *)
Definition digits (b n : Z) : list Z :=
  digits_fuel b (Z.to_nat (Z.log2 n + 1)) n.

Lemma fold_undigits b ds acc :
  fold_left (fun acc d => acc * b + d) ds acc =
  acc * b ^ Z.of_nat (length ds) + undigits b ds.
Proof.
  unfold undigits. revert acc. induction ds as [|d ds IH]; intros acc; simpl fold_left.
  - simpl. lia.
  - rewrite IH, (IH (0 * b + d)). rewrite length_cons, Nat2Z.inj_succ, Z.pow_succ_r by lia.
    ring.
Qed.

Lemma undigits_app b l1 l2 :
  undigits b (l1 ++ l2) = undigits b l1 * b ^ Z.of_nat (length l2) + undigits b l2.
Proof. unfold undigits at 1. rewrite fold_left_app, fold_undigits. reflexivity. Qed.

Lemma undigits_bound b ds :
  0 < b -> Forall (fun d => 0 <= d < b) ds ->
  0 <= undigits b ds < b ^ Z.of_nat (length ds).
Proof.
  intros Hb. induction ds as [|d ds IH] using rev_ind; intros H.
  - unfold undigits. simpl. lia.
  - apply Forall_app in H as [H1 H2]. apply Forall_cons_1 in H2 as [H2 _].
    specialize (IH H1). rewrite undigits_app, length_app. simpl length.
    rewrite Nat2Z.inj_add, Z.pow_add_r by lia. unfold undigits at 2 4. simpl fold_left.
    change (Z.of_nat 1) with 1. rewrite Z.pow_1_r. nia.
Qed.

Lemma digits_fuel_spec b fuel n :
  1 < b -> 0 <= n < b ^ Z.of_nat fuel -> undigits b (digits_fuel b fuel n) = n.
Proof.
  intros Hb. revert n. induction fuel as [|fuel IH]; intros n Hn.
  - simpl in *. unfold undigits. simpl. lia.
  - cbn [digits_fuel]. destruct (Z.leb_spec n 0); [unfold undigits; simpl; lia |].
    rewrite undigits_app, IH.
    + unfold undigits. simpl. pose proof (Z.div_mod n b). nia.
    + rewrite Nat2Z.inj_succ, Z.pow_succ_r in Hn by lia.
      split; [apply Z.div_pos; lia | apply Z.div_lt_upper_bound; lia].
Qed.

Lemma digits_fuel_enough b n :
  1 < b -> 0 <= n -> n < b ^ Z.of_nat (Z.to_nat (Z.log2 n + 1)).
Proof.
  intros Hb Hn. pose proof (Z.log2_nonneg n). rewrite Z2Nat.id by lia.
  destruct (Z.eq_dec n 0) as [->|]; [simpl; lia |].
  pose proof (Z.log2_spec n ltac:(lia)) as [_ H1]. rewrite <- Z.add_1_r in H1.
  eapply Z.lt_le_trans; [exact H1 |]. apply Z.pow_le_mono_l. lia.
Qed.

Lemma undigits_digits b n : 1 < b -> 0 <= n -> undigits b (digits b n) = n.
Proof. intros. apply digits_fuel_spec; [done |]. auto using digits_fuel_enough. Qed.

Lemma digits_fuel_range b fuel n :
  1 < b -> Forall (fun d => 0 <= d < b) (digits_fuel b fuel n).
Proof.
  intros Hb. revert n. induction fuel as [|fuel IH]; intros n; cbn [digits_fuel].
  - constructor.
  - destruct (n <=? 0); [constructor |].
    apply Forall_app; split; [apply IH |]. repeat constructor; apply Z.mod_pos_bound; lia.
Qed.

Lemma digits_range b n : 1 < b -> Forall (fun d => 0 <= d < b) (digits b n).
Proof. apply digits_fuel_range. Qed.

Lemma digits_fuel_length b fuel n k :
  1 < b -> n < b ^ Z.of_nat k -> (length (digits_fuel b fuel n) <= k)%nat.
Proof.
  intros Hb. revert n k. induction fuel as [|fuel IH]; intros n k Hn; cbn [digits_fuel].
  - simpl. lia.
  - destruct (Z.leb_spec n 0); [simpl; lia |].
    destruct k as [|k]; [simpl in Hn; lia |].
    rewrite length_app. simpl length. specialize (IH (n / b) k).
    rewrite Nat2Z.inj_succ, Z.pow_succ_r in Hn by lia.
    assert (n / b < b ^ Z.of_nat k) by (apply Z.div_lt_upper_bound; lia).
    specialize (IH H0). lia.
Qed.

Lemma digits_length b n k :
  1 < b -> n < b ^ Z.of_nat k -> (length (digits b n) <= k)%nat.
Proof. apply digits_fuel_length. Qed.

Lemma undigits_zeros b k ds : undigits b (replicate k 0 ++ ds) = undigits b ds.
Proof.
  rewrite undigits_app. assert (undigits b (replicate k 0) = 0) as ->; [|lia].
  unfold undigits. induction k; simpl; [done |]. replace (0 * b + 0) with 0 by lia. done.
Qed.

(** Two digit lists of one length that denote the same number are equal. *)
Lemma undigits_inj b l1 l2 :
  0 < b -> length l1 = length l2 ->
  Forall (fun d => 0 <= d < b) l1 -> Forall (fun d => 0 <= d < b) l2 ->
  undigits b l1 = undigits b l2 -> l1 = l2.
Proof.
  intros Hb. revert l2. induction l1 as [|d1 l1 IH] using rev_ind; intros l2 Hlen H1 H2 He.
  - destruct l2; [done | discriminate].
  - destruct l2 as [|d2 l2 _] using rev_ind; [rewrite length_app in Hlen; simpl in Hlen; lia |].
    rewrite !length_app in Hlen. simpl in Hlen.
    apply Forall_app in H1 as [H1 H1']. apply Forall_app in H2 as [H2 H2'].
    apply Forall_cons_1 in H1' as [? _]. apply Forall_cons_1 in H2' as [? _].
    rewrite !undigits_app in He. simpl length in He. change (Z.of_nat 1) with 1 in He.
    rewrite Z.pow_1_r in He. unfold undigits at 2 4 in He. simpl fold_left in He.
    destruct (Z.div_mod_unique b (undigits b l1) (undigits b l2) d1 d2) as [Hu ->];
      [by left | by left | lia |].
    rewrite (IH l2); auto; lia.
Qed.

(** ** Bytes *)

Abbreviation byte := Byte.byte.

#[global] Instance byte_eq_dec : EqDecision byte := Byte.byte_eq_dec.

Definition byte_to_Z (x : byte) : Z := Z.of_N (Byte.to_N x).
Definition byte_of_Z (z : Z) : byte :=
  match Byte.of_N (Z.to_N (z mod 256)) with Some x => x | None => Byte.x00 end.

Lemma byte_to_Z_range x : 0 <= byte_to_Z x < 256.
Proof. unfold byte_to_Z. pose proof (Byte.to_N_bounded x). lia. Qed.

Lemma byte_of_to_Z x : byte_of_Z (byte_to_Z x) = x.
Proof.
  unfold byte_of_Z. rewrite Z.mod_small by apply byte_to_Z_range.
  unfold byte_to_Z. rewrite N2Z.id, Byte.of_to_N. done.
Qed.

#[global] Instance byte_countable : Countable byte := inj_countable' byte_to_Z byte_of_Z byte_of_to_Z.

Lemma byte_to_of_Z z : byte_to_Z (byte_of_Z z) = z mod 256.
Proof.
  unfold byte_of_Z. pose proof (Z.mod_pos_bound z 256 eq_refl) as Hz.
  destruct (Byte.of_N (Z.to_N (z mod 256))) as [x|] eqn:E.
  - apply Byte.to_of_N in E. unfold byte_to_Z. lia.
  - apply Byte.of_N_None_iff in E. lia.
Qed.

#[global] Instance byte_to_Z_inj : Inj (=) (=) byte_to_Z.
Proof. intros x y H. rewrite <- (byte_of_to_Z x), <- (byte_of_to_Z y). by f_equal. Qed.

(** [new(big.Int).SetBytes(b)]. *)
Definition SetBytes (l : list byte) : Z := undigits 256 (map byte_to_Z l).
(** [x.Bytes()]: big-endian bytes of the absolute value. *)
Definition Bytes (x : Z) : list byte := map byte_of_Z (digits 256 (Z.abs x)).
(** [x.FillBytes]-like left padding used by fixed-width encodings. *)
Definition zeros (n : nat) : list byte := replicate n Byte.x00.

Lemma map_byte_to_of ds :
  Forall (fun d => 0 <= d < 256) ds -> map byte_to_Z (map byte_of_Z ds) = ds.
Proof.
  induction 1 as [|d ds Hd _ IH]; simpl; [done |].
  rewrite byte_to_of_Z, Z.mod_small, IH by done. done.
Qed.

Lemma SetBytes_Bytes x : SetBytes (Bytes x) = Z.abs x.
Proof.
  unfold SetBytes, Bytes. rewrite map_byte_to_of by (apply digits_range; lia).
  apply undigits_digits; lia.
Qed.

Lemma Bytes_length x n : Z.abs x < 256 ^ Z.of_nat n -> (length (Bytes x) <= n)%nat.
Proof. intros. unfold Bytes. rewrite length_map. apply digits_length; lia. Qed.

Lemma SetBytes_bound l : 0 <= SetBytes l < 256 ^ Z.of_nat (length l).
Proof.
  unfold SetBytes. rewrite <- (length_map byte_to_Z l). apply undigits_bound; [lia |].
  induction l; simpl; constructor; auto using byte_to_Z_range.
Qed.

Lemma SetBytes_inj l1 l2 : length l1 = length l2 -> SetBytes l1 = SetBytes l2 -> l1 = l2.
Proof.
  intros Hlen H. apply (list_fmap_eq_inj byte_to_Z); [apply _ |].
  apply (undigits_inj 256); [lia | by rewrite !length_fmap | | | exact H];
    apply Forall_fmap, Forall_true; intros; apply byte_to_Z_range.
Qed.

Lemma SetBytes_zeros n l : SetBytes (zeros n ++ l) = SetBytes l.
Proof.
  unfold SetBytes, zeros. rewrite map_app.
  change (map byte_to_Z (replicate n Byte.x00)) with (byte_to_Z <$> replicate n Byte.x00).
  rewrite fmap_replicate. change (byte_to_Z Byte.x00) with 0. apply undigits_zeros.
Qed.

(** ** Decimal text, as [math/big] and [fmt] print and parse it *)

Abbreviation chars := (list ascii).

Definition digit_char (d : Z) : ascii := ascii_of_N (Z.to_N (48 + d)).
Definition char_digit (c : ascii) : option Z :=
  let n := Z.of_N (N_of_ascii c) in
  if (48 <=? n) && (n <=? 57) then Some (n - 48) else None.

Lemma char_digit_char d : 0 <= d < 10 -> char_digit (digit_char d) = Some d.
Proof.
  intros H. unfold char_digit, digit_char. rewrite N_ascii_embedding by lia.
  rewrite Z2N.id by lia. destruct (Z.leb_spec 48 (48 + d)); [|lia].
  destruct (Z.leb_spec (48 + d) 57); [|lia]. simpl. f_equal; lia.
Qed.

(** [x.String()] of a [big.Int]; the program prints non-negative values. *)
Definition dec_nat (x : Z) : chars :=
  if x =? 0 then [digit_char 0] else map digit_char (digits 10 x).
Definition big_String (x : Z) : chars :=
  if x <? 0 then "-"%char :: dec_nat (- x) else dec_nat x.

Fixpoint read_digits (acc : Z) (l : chars) : option Z :=
  match l with
  | [] => Some acc
  | c :: l' => match char_digit c with
               | Some d => read_digits (acc * 10 + d) l'
               | None => None
               end
  end.

(** [new(big.Int).SetString(s, 10)]: an optional sign, then one or more digits
    ([_] is accepted for base 0 only). *)
Definition SetString (l : chars) : option Z :=
  match l with
  | [] => None
  | c :: l' =>
      if ascii_dec c "-"%char then
        match l' with [] => None | _ => option_map Z.opp (read_digits 0 l') end
      else if ascii_dec c "+"%char then
        match l' with [] => None | _ => read_digits 0 l' end
      else read_digits 0 l
  end.

(** [fmt.Sprintf("%0<w>d", x)] for a non-negative [x]. *)
Definition Sprintf_0d (w : nat) (x : Z) : chars :=
  replicate (w - length (dec_nat x)) "0"%char ++ dec_nat x.

(** Every character is a decimal digit. *)
Definition all_digits (l : chars) : Prop := Forall (fun c => is_Some (char_digit c)) l.

Lemma read_digits_map acc ds :
  Forall (fun d => 0 <= d < 10) ds ->
  read_digits acc (map digit_char ds) = Some (acc * 10 ^ Z.of_nat (length ds) + undigits 10 ds).
Proof.
  intros H. revert acc. induction H as [|d ds Hd _ IH]; intros acc.
  - simpl. f_equal. unfold undigits. simpl. lia.
  - cbn [map read_digits]. rewrite char_digit_char, IH by done. f_equal.
    unfold undigits at 2. simpl fold_left. rewrite fold_undigits.
    rewrite length_cons, Nat2Z.inj_succ, Z.pow_succ_r by lia. ring.
Qed.

(** [dec_nat] is the image of a digit list that denotes the number. *)
Lemma dec_nat_digits x :
  0 <= x -> exists ds, dec_nat x = map digit_char ds /\ ds <> [] /\
    Forall (fun d => 0 <= d < 10) ds /\ undigits 10 ds = x.
Proof.
  intros Hx. unfold dec_nat. destruct (Z.eqb_spec x 0) as [->|Hne].
  - exists [0]. repeat split; [done | repeat constructor; lia].
  - exists (digits 10 x). split; [done |].
    pose proof (undigits_digits 10 x ltac:(lia) Hx) as Hu.
    split_and!; [| by apply digits_range | done].
    intros E. rewrite E in Hu. unfold undigits in Hu. simpl in Hu. lia.
Qed.

Lemma dec_nat_nonempty x : 0 <= x -> dec_nat x <> [].
Proof. intros H. destruct (dec_nat_digits x H) as ([|] & -> & ? & _); done. Qed.

Lemma dec_nat_length x k :
  0 <= x < 10 ^ Z.of_nat k -> (0 < k)%nat -> (length (dec_nat x) <= k)%nat.
Proof.
  intros Hx Hk. unfold dec_nat. destruct (x =? 0); [simpl; lia |].
  rewrite length_map. apply digits_length; lia.
Qed.

Lemma all_digits_map ds :
  Forall (fun d => 0 <= d < 10) ds -> all_digits (map digit_char ds).
Proof.
  induction 1 as [|d ds Hd _ IH]; constructor; [|done]. rewrite char_digit_char; eauto.
Qed.

Lemma all_digits_dec_nat x : 0 <= x -> all_digits (dec_nat x).
Proof.
  intros H. destruct (dec_nat_digits x H) as (ds & -> & _ & Hd & _). by apply all_digits_map.
Qed.

Lemma digit_not_sign c : is_Some (char_digit c) -> c <> "-"%char /\ c <> "+"%char.
Proof. intros [d H]; split; intros ->; vm_compute in H; discriminate. Qed.

Lemma SetString_digits l : all_digits l -> l <> [] -> SetString l = read_digits 0 l.
Proof.
  intros H Hne. destruct l as [|c l]; [done |]. apply Forall_cons_1 in H as [Hc _].
  apply digit_not_sign in Hc as [? ?]. unfold SetString.
  destruct (ascii_dec c "-"%char); [done |]. by destruct (ascii_dec c "+"%char).
Qed.

Lemma SetString_dec_nat x : 0 <= x -> SetString (dec_nat x) = Some x.
Proof.
  intros H. destruct (dec_nat_digits x H) as (ds & -> & Hne & Hd & <-).
  rewrite SetString_digits; [| by apply all_digits_map | by destruct ds].
  rewrite read_digits_map by done. f_equal; lia.
Qed.

(** Parsing what [x.String()] prints gives [x] back, for every integer. *)
Lemma SetString_big_String x : SetString (big_String x) = Some x.
Proof.
  unfold big_String. destruct (Z.ltb_spec x 0) as [Hx|Hx]; [|by apply SetString_dec_nat].
  pose proof (SetString_dec_nat (- x) ltac:(lia)) as H.
  destruct (dec_nat_digits (- x) ltac:(lia)) as (ds & E & Hne & Hd & _).
  rewrite SetString_digits in H; [| rewrite E; by apply all_digits_map | rewrite E; by destruct ds].
  cbn [SetString]. destruct (ascii_dec "-" "-"); [|done].
  rewrite H. rewrite E. destruct ds; [done |]. simpl. f_equal; lia.
Qed.

Lemma Sprintf_0d_spec w x :
  0 <= x < 10 ^ Z.of_nat w -> (0 < w)%nat ->
  length (Sprintf_0d w x) = w /\ all_digits (Sprintf_0d w x) /\
  SetString (Sprintf_0d w x) = Some x.
Proof.
  intros Hx Hw. pose proof (dec_nat_length x w Hx Hw) as Hlen. unfold Sprintf_0d.
  destruct (dec_nat_digits x ltac:(lia)) as (ds & E & Hne & Hd & Hu).
  assert (replicate (w - length (dec_nat x)) "0"%char ++ dec_nat x =
          map digit_char (replicate (w - length (dec_nat x)) 0 ++ ds)) as ->.
  { rewrite map_app, E. f_equal. symmetry. exact (fmap_replicate digit_char _ 0). }
  assert (Forall (fun d => 0 <= d < 10) (replicate (w - length (dec_nat x)) 0 ++ ds)) as Ha.
  { apply Forall_app; split; [|done]. apply Forall_replicate. lia. }
  split_and!.
  - rewrite length_map, length_app, length_replicate.
    rewrite E, length_map in *. lia.
  - by apply all_digits_map.
  - rewrite SetString_digits; [| by apply all_digits_map |].
    + rewrite read_digits_map by done. rewrite undigits_zeros. f_equal; lia.
    + rewrite map_app. destruct ds; [done |]. by destruct (map _ (replicate _ _)).
Qed.

(** ** Package [strings] *)

Definition ascii_ltb (a b : ascii) : bool := (N_of_ascii a <? N_of_ascii b)%N.
Definition chr (n : N) : ascii := ascii_of_N n.

(** The UTF-8 encodings of the runes [unicode.IsSpace] accepts. *)
Definition space_runes : list chars :=
  [[chr 9]; [chr 10]; [chr 11]; [chr 12]; [chr 13]; [chr 32];
   [chr 194; chr 133]; [chr 194; chr 160]; [chr 225; chr 154; chr 128];
   [chr 226; chr 128; chr 168]; [chr 226; chr 128; chr 169]; [chr 226; chr 128; chr 175];
   [chr 226; chr 129; chr 159]; [chr 227; chr 128; chr 128]]
  ++ map (fun k => [chr 226; chr 128; chr (128 + N.of_nat k)]) (seq 0 11).

Fixpoint strip_prefix (p l : chars) : option chars :=
  match p, l with
  | [], _ => Some l
  | a :: p', b :: l' => if ascii_dec a b then strip_prefix p' l' else None
  | _ :: _, [] => None
  end.

Fixpoint first_stripped (ps : list chars) (l : chars) : option chars :=
  match ps with
  | [] => None
  | p :: ps' => match strip_prefix p l with
                | Some r => Some r
                | None => first_stripped ps' l
                end
  end.

(** Drops leading members of [ps] as long as there is one. *)
Fixpoint trim_left (ps : list chars) (fuel : nat) (l : chars) : chars :=
  match fuel with
  | O => l
  | S fuel' => match first_stripped ps l with
               | Some r => trim_left ps fuel' r
               | None => l
               end
  end.

Definition trim_space_left (l : chars) : chars := trim_left space_runes (length l) l.
Definition trim_space_right (l : chars) : chars :=
  rev (trim_left (map (@rev ascii) space_runes) (length l) (rev l)).
(** [strings.TrimSpace]. *)
Definition trim_space (l : chars) : chars := trim_space_right (trim_space_left l).

(** No encoding of a space starts, respectively ends, with this byte. *)
Definition not_space_start (c : ascii) : bool :=
  forallb (fun p => match p with [] => false | a :: _ => negb (bool_decide (a = c)) end) space_runes.
Definition not_space_end (c : ascii) : bool :=
  forallb (fun p => match rev p with [] => false | a :: _ => negb (bool_decide (a = c)) end) space_runes.

Lemma first_stripped_none (ps : list chars) c l :
  forallb (fun p => match p with [] => false | a :: _ => negb (bool_decide (a = c)) end) ps = true ->
  first_stripped ps (c :: l) = None.
Proof.
  induction ps as [|p ps IH]; simpl; [done |]. intros [H1 H2]%andb_true_iff.
  destruct p as [|a p]; [done |]. simpl. apply negb_true_iff, bool_decide_eq_false in H1.
  destruct (ascii_dec a c); [done | auto].
Qed.

Lemma trim_left_none ps fuel l : first_stripped ps l = None -> trim_left ps fuel l = l.
Proof. destruct fuel; simpl; [done |]. by intros ->. Qed.

Lemma trim_space_left_id c l : not_space_start c = true -> trim_space_left (c :: l) = c :: l.
Proof. intros H. apply trim_left_none, first_stripped_none, H. Qed.

Lemma not_space_end_rev c :
  not_space_end c = true ->
  forallb (fun p => match p with [] => false | a :: _ => negb (bool_decide (a = c)) end)
    (map (@rev ascii) space_runes) = true.
Proof.
  unfold not_space_end. rewrite !forallb_forall. intros H p (q & <- & Hq)%in_map_iff. by apply H.
Qed.

Lemma trim_space_right_id c l : not_space_end c = true -> trim_space_right (l ++ [c]) = l ++ [c].
Proof.
  intros H. unfold trim_space_right. rewrite rev_app_distr.
  change (rev [c] ++ rev l) with (c :: rev l). rewrite trim_left_none.
  - change (c :: rev l) with ([c] ++ rev l). by rewrite rev_app_distr, rev_involutive.
  - by apply first_stripped_none, not_space_end_rev.
Qed.

(** A trailing blank is removed, and nothing else when the rest ends in a
    non-space byte. *)
Lemma trim_space_right_blank c l :
  not_space_end c = true -> trim_space_right ((l ++ [c]) ++ [" "%char]) = l ++ [c].
Proof.
  intros H. unfold trim_space_right. rewrite rev_app_distr.
  rewrite length_app, Nat.add_comm. simpl "+"%nat.
  change (rev [" "%char] ++ rev (l ++ [c])) with (" "%char :: rev (l ++ [c])).
  cbn [trim_left]. change (first_stripped _ (" "%char :: rev (l ++ [c]))) with (Some (rev (l ++ [c]))).
  cbv iota. rewrite rev_app_distr. change (rev [c] ++ rev l) with (c :: rev l).
  rewrite trim_left_none by (by apply first_stripped_none, not_space_end_rev).
  change (c :: rev l) with ([c] ++ rev l). by rewrite rev_app_distr, rev_involutive.
Qed.

(** [strings.Split(s, sep)] for a one-byte separator. *)
Fixpoint split_on (sep : ascii) (l : chars) : list chars :=
  match l with
  | [] => [[]]
  | c :: l' =>
      if ascii_dec c sep then [] :: split_on sep l'
      else match split_on sep l' with
           | [] => [[c]]
           | h :: t => (c :: h) :: t
           end
  end.

Lemma split_on_absent sep l : Forall (fun c => c <> sep) l -> split_on sep l = [l].
Proof.
  induction 1 as [|c l Hc _ IH]; simpl; [done |].
  destruct (ascii_dec c sep); [done |]. by rewrite IH.
Qed.

Lemma split_on_app sep l1 l2 :
  Forall (fun c => c <> sep) l1 -> split_on sep (l1 ++ sep :: l2) = l1 :: split_on sep l2.
Proof.
  induction 1 as [|c l Hc _ IH]; simpl.
  - by destruct (ascii_dec sep sep).
  - destruct (ascii_dec c sep); [done |]. by rewrite IH.
Qed.

(** [strings.TrimRight(s, string(c))]. *)
Fixpoint drop_lead (c : ascii) (l : chars) : chars :=
  match l with
  | [] => []
  | a :: l' => if ascii_dec a c then drop_lead c l' else l
  end.
Definition trim_right (c : ascii) (l : chars) : chars := rev (drop_lead c (rev l)).

Lemma drop_lead_spec c l :
  exists k, l = replicate k c ++ drop_lead c l /\
    match drop_lead c l with [] => True | a :: _ => a <> c end.
Proof.
  induction l as [|a l (k & E & H)]; simpl; [by exists 0%nat |].
  destruct (ascii_dec a c) as [->|]; [exists (S k); simpl; by rewrite <- E | by exists 0%nat].
Qed.

Lemma rev_replicate {A} k (a : A) : rev (replicate k a) = replicate k a.
Proof. induction k; simpl; [done |]. by rewrite IHk, <- replicate_cons_app. Qed.

Lemma trim_right_spec c l :
  exists k, l = trim_right c l ++ replicate k c /\
    (trim_right c l = [] \/ exists l' a, trim_right c l = l' ++ [a] /\ a <> c).
Proof.
  unfold trim_right. destruct (drop_lead_spec c (rev l)) as (k & E & H).
  exists k. split.
  - rewrite <- (rev_involutive l) at 1. rewrite E at 1. rewrite rev_app_distr. f_equal.
    apply rev_replicate.
  - destruct (drop_lead c (rev l)) as [|a r]; [by left | right].
    exists (rev r), a. done.
Qed.

(** ASCII case mapping ([strings.ToUpper], [strings.ToLower] on ASCII text;
    other bytes are left alone). *)
Definition upper_char (c : ascii) : ascii :=
  let n := N_of_ascii c in
  if ((97 <=? n) && (n <=? 122))%N then chr (n - 32) else c.
Definition lower_char (c : ascii) : ascii :=
  let n := N_of_ascii c in
  if ((65 <=? n) && (n <=? 90))%N then chr (n + 32) else c.

Definition has_prefix (p l : chars) : bool :=
  match strip_prefix p l with Some _ => true | None => false end.
Definition has_suffix (p l : chars) : bool := has_prefix (rev p) (rev l).

(** The same operations on [string]. *)
Abbreviation to_chars := String.list_ascii_of_string.
Abbreviation of_chars := String.string_of_list_ascii.

Definition TrimSpace (s : string) : string := of_chars (trim_space (to_chars s)).
Definition ToLower (s : string) : string := of_chars (map lower_char (to_chars s)).
Definition ToUpper (s : string) : string := of_chars (map upper_char (to_chars s)).
Definition EqualFold (s t : string) : bool := String.eqb (ToLower s) (ToLower t).

(** ** Hexadecimal text ([encoding/hex]) *)

Definition hex_digit (d : Z) : ascii :=
  if d <? 10 then ascii_of_N (Z.to_N (48 + d)) else ascii_of_N (Z.to_N (87 + d)).
Definition hex_byte (x : byte) : chars :=
  [hex_digit (byte_to_Z x / 16); hex_digit (byte_to_Z x mod 16)].
Definition hex_chars (l : list byte) : chars := concat (map hex_byte l).
(** [hex.EncodeToString]. *)
Definition EncodeToString (l : list byte) : string := of_chars (hex_chars l).

Lemma hex_byte_inj x y : hex_byte x = hex_byte y -> x = y.
Proof.
  enough (forallb (fun x => forallb (fun y =>
    negb (bool_decide (hex_byte x = hex_byte y)) || bool_decide (x = y))
    (map (fun n => byte_of_Z (Z.of_nat n)) (seq 0 256)))
    (map (fun n => byte_of_Z (Z.of_nat n)) (seq 0 256)) = true) as H.
  - rewrite forallb_forall in H. intros E.
    assert (forall z, In z (map (fun n => byte_of_Z (Z.of_nat n)) (seq 0 256))) as Hin.
    { intros z. apply in_map_iff. exists (Z.to_nat (byte_to_Z z)).
      pose proof (byte_to_Z_range z). rewrite Z2Nat.id, byte_of_to_Z by lia.
      split; [done |]. apply in_seq. lia. }
    specialize (H x (Hin x)). rewrite forallb_forall in H. specialize (H y (Hin y)).
    apply orb_true_iff in H as [H|H]; bool_props; done.
  - vm_compute. reflexivity.
Qed.

Lemma hex_chars_inj l1 l2 : hex_chars l1 = hex_chars l2 -> l1 = l2.
Proof.
  revert l2. induction l1 as [|x l1 IH]; intros [|y l2]; try done.
  unfold hex_chars in *. simpl. intros [= H1 H2 H3].
  f_equal; [|by apply IH]. apply hex_byte_inj. unfold hex_byte. by rewrite H1, H2.
Qed.

Lemma hex_chars_length l : length (hex_chars l) = (2 * length l)%nat.
Proof. unfold hex_chars. induction l; simpl; lia. Qed.

Lemma hex_chars_no_bar l : "|"%char ∉ hex_chars l.
Proof.
  induction l as [|x l IH]; [apply not_elem_of_nil |].
  unfold hex_chars in *. simpl. rewrite !not_elem_of_cons. split_and!; [| | done].
  all: unfold hex_digit; pose proof (byte_to_Z_range x);
    pose proof (Z.mod_pos_bound (byte_to_Z x) 16 eq_refl);
    assert (0 <= byte_to_Z x / 16 < 16)
      by (split; [apply Z.div_pos | apply Z.div_lt_upper_bound]; lia).
  all: case_match; bool_props; intros E; apply (f_equal N_of_ascii) in E;
    rewrite N_ascii_embedding in E by lia; vm_compute (N_of_ascii "|") in E; lia.
Qed.
