(* ===== verification/Base64.v ===== *)
(** Base64 as in Go's [encoding/base64]: [StdEncoding] (with padding) and
    [RawURLEncoding] (URL alphabet, no padding).  The decoders ignore carriage
    returns and line feeds, and do not check the unused bits of the last quantum
    (the decoder's default, not its strict mode). *)
From S2P Require Import Prelude.
From S2P Require Import GoStd.

Definition std_alphabet : chars := to_chars "ABCDEFGHIJKLMNOPQRSTUVWXYZabcdefghijklmnopqrstuvwxyz0123456789+/".
Definition url_alphabet : chars := to_chars "ABCDEFGHIJKLMNOPQRSTUVWXYZabcdefghijklmnopqrstuvwxyz0123456789-_".

Fixpoint index_of (c : ascii) (l : chars) : option Z :=
  match l with
  | [] => None
  | a :: l' => if ascii_dec a c then Some 0 else Z.succ <$> index_of c l'
  end.

Definition b64_char (alphabet : chars) (d : Z) : ascii := nth (Z.to_nat d) alphabet "?"%char.

Definition pad : ascii := "="%char.

(** Four base64 digits of 24 bits, and the three bytes of four digits. *)
Definition sextet (n : Z) (i : Z) : Z := n / 64 ^ i mod 64.
Definition octet (n : Z) (i : Z) : byte := byte_of_Z (n / 256 ^ i).

Fixpoint b64_encode (l : list byte) : chars :=
  match l with
  | [] => []
  | [a] =>
      let n := byte_to_Z a * 65536 in
      [b64_char std_alphabet (sextet n 3); b64_char std_alphabet (sextet n 2); pad; pad]
  | [a; b] =>
      let n := byte_to_Z a * 65536 + byte_to_Z b * 256 in
      [b64_char std_alphabet (sextet n 3); b64_char std_alphabet (sextet n 2);
       b64_char std_alphabet (sextet n 1); pad]
  | a :: b :: c :: rest =>
      let n := byte_to_Z a * 65536 + byte_to_Z b * 256 + byte_to_Z c in
      b64_char std_alphabet (sextet n 3) :: b64_char std_alphabet (sextet n 2) ::
      b64_char std_alphabet (sextet n 1) :: b64_char std_alphabet (sextet n 0) :: b64_encode rest
  end.

(** [base64.StdEncoding.EncodeToString]. *)
Definition StdEncodeToString (l : list byte) : string := of_chars (b64_encode l).

Definition digit (alphabet : chars) (c : ascii) : option Z := index_of c alphabet.

Definition quantum2 (alphabet : chars) (a b : ascii) : option (list byte) :=
  x ← digit alphabet a; y ← digit alphabet b;
  Some [octet (x * 262144 + y * 4096) 2].
Definition quantum3 (alphabet : chars) (a b c : ascii) : option (list byte) :=
  x ← digit alphabet a; y ← digit alphabet b; z ← digit alphabet c;
  let n := x * 262144 + y * 4096 + z * 64 in Some [octet n 2; octet n 1].
Definition quantum4 (alphabet : chars) (a b c d : ascii) : option (list byte) :=
  x ← digit alphabet a; y ← digit alphabet b; z ← digit alphabet c; w ← digit alphabet d;
  let n := x * 262144 + y * 4096 + z * 64 + w in Some [octet n 2; octet n 1; octet n 0].

Fixpoint b64_decode (alphabet : chars) (padded : bool) (l : chars) : option (list byte) :=
  match l with
  | [] => Some []
  | [a; b] => if padded then None else quantum2 alphabet a b
  | [a; b; c] => if padded then None else quantum3 alphabet a b c
  | a :: b :: c :: d :: rest =>
      if padded && bool_decide (d = pad) then
        match rest with
        | [] => if bool_decide (c = pad) then quantum2 alphabet a b else quantum3 alphabet a b c
        | _ => None
        end
      else
        q ← quantum4 alphabet a b c d; r ← b64_decode alphabet padded rest; Some (q ++ r)
  | _ => None
  end.

Definition not_newline (c : ascii) : bool :=
  negb (bool_decide (c = "010"%char)) && negb (bool_decide (c = "013"%char)).

Definition DecodeString (alphabet : chars) (padded : bool) (s : string) : result go_error (list byte) :=
  match b64_decode alphabet padded (List.filter not_newline (to_chars s)) with
  | Some l => Ok l
  | None => Err (Errorf "illegal base64 data at input byte %d")
  end.
Abbreviation StdDecodeString := (DecodeString std_alphabet true).
Abbreviation RawURLDecodeString := (DecodeString url_alphabet false).

(** ** Round trip *)

Definition sextets : list Z := map Z.of_nat (seq 0 64).

Lemma std_char_ok d :
  0 <= d < 64 ->
  digit std_alphabet (b64_char std_alphabet d) = Some d /\ b64_char std_alphabet d <> pad /\
  not_newline (b64_char std_alphabet d) = true.
Proof.
  intros Hd.
  assert (Hall : forallb (fun d => bool_decide (digit std_alphabet (b64_char std_alphabet d) = Some d)
    && negb (bool_decide (b64_char std_alphabet d = pad)) && not_newline (b64_char std_alphabet d)) sextets = true)
    by (vm_compute; reflexivity).
  rewrite forallb_forall in Hall. specialize (Hall d).
  rewrite !andb_true_iff, negb_true_iff, bool_decide_eq_true, bool_decide_eq_false in Hall.
  destruct Hall as [[? ?] ?]; [|done]. apply in_map_iff. exists (Z.to_nat d).
  rewrite Z2Nat.id by lia. split; [done |]. apply in_seq. lia.
Qed.

Lemma sextet_range n i : 0 <= sextet n i < 64.
Proof. apply Z.mod_pos_bound. lia. Qed.

Lemma std_digit n i : digit std_alphabet (b64_char std_alphabet (sextet n i)) = Some (sextet n i).
Proof. apply std_char_ok, sextet_range. Qed.
Lemma std_not_pad n i : b64_char std_alphabet (sextet n i) <> pad.
Proof. apply std_char_ok, sextet_range. Qed.
Lemma std_not_newline n i : not_newline (b64_char std_alphabet (sextet n i)) = true.
Proof. apply std_char_ok, sextet_range. Qed.

(** Reassembling the digits of a 24-bit group. *)
Lemma sextets_sum n :
  0 <= n < 2 ^ 24 -> sextet n 3 * 262144 + sextet n 2 * 4096 + sextet n 1 * 64 + sextet n 0 = n.
Proof.
  unfold sextet. change (64 ^ 3) with 262144. change (64 ^ 2) with 4096. change (64 ^ 1) with 64.
  change (64 ^ 0) with 1. intros. Z.to_euclidean_division_equations. lia.
Qed.

Lemma octet_bytes a b c :
  let n := byte_to_Z a * 65536 + byte_to_Z b * 256 + byte_to_Z c in
  octet n 2 = a /\ octet n 1 = b /\ octet n 0 = c.
Proof.
  pose proof (byte_to_Z_range a). pose proof (byte_to_Z_range b). pose proof (byte_to_Z_range c).
  intros n. unfold octet. change (256 ^ 2) with 65536. change (256 ^ 1) with 256. change (256 ^ 0) with 1.
  split_and!; apply (inj byte_to_Z); rewrite byte_to_of_Z; unfold n; Z.to_euclidean_division_equations; lia.
Qed.

Lemma group_range a b c : 0 <= byte_to_Z a * 65536 + byte_to_Z b * 256 + byte_to_Z c < 2 ^ 24.
Proof.
  pose proof (byte_to_Z_range a). pose proof (byte_to_Z_range b). pose proof (byte_to_Z_range c). lia.
Qed.

(** Induction by groups of three bytes. *)
Lemma list_ind3 {A} (P : list A -> Prop) :
  P [] -> (forall a, P [a]) -> (forall a b, P [a; b]) ->
  (forall a b c l, P l -> P (a :: b :: c :: l)) -> forall l, P l.
Proof.
  intros H0 H1 H2 H3. fix IH 1. intros [|a [|b [|c l]]]; [done | apply H1 | apply H2 | apply H3, IH].
Qed.

Lemma b64_decode_encode l : b64_decode std_alphabet true (b64_encode l) = Some l.
Proof.
  induction l as [|a|a b|a b c l IH] using list_ind3; [done | | |].
  - cbn [b64_encode b64_decode]. rewrite (bool_decide_true (pad = pad)) by done. cbn [andb].
    unfold quantum2. rewrite !std_digit. simpl. do 2 f_equal.
    destruct (octet_bytes a Byte.x00 Byte.x00) as (E & _). simpl in E. rewrite <- E at 3.
    pose proof (group_range a Byte.x00 Byte.x00) as Hr. change (byte_to_Z Byte.x00) with 0 in *.
    replace (byte_to_Z a * 65536 + 0 * 256 + 0) with (byte_to_Z a * 65536) in * by lia.
    pose proof (byte_to_Z_range a). f_equal. unfold octet. f_equal.
    unfold sextet. change (64 ^ 3) with 262144. change (64 ^ 2) with 4096.
    Z.to_euclidean_division_equations. lia.
  - cbn [b64_encode b64_decode]. rewrite (bool_decide_true (pad = pad)) by done. cbn [andb].
    rewrite bool_decide_false by apply std_not_pad. unfold quantum3. rewrite !std_digit. simpl.
    destruct (octet_bytes a b Byte.x00) as (E1 & E2 & _). change (byte_to_Z Byte.x00) with 0 in *.
    rewrite Z.add_0_r in E1, E2. set (n := byte_to_Z a * 65536 + byte_to_Z b * 256) in *.
    assert (sextet n 3 * 262144 + sextet n 2 * 4096 + sextet n 1 * 64 = n) as ->; [|by rewrite E1, E2].
    pose proof (byte_to_Z_range a). pose proof (byte_to_Z_range b).
    unfold sextet, n. change (64 ^ 3) with 262144. change (64 ^ 2) with 4096. change (64 ^ 1) with 64.
    Z.to_euclidean_division_equations. lia.
  - cbn [b64_encode b64_decode]. rewrite bool_decide_false by apply std_not_pad. cbn [andb].
    unfold quantum4. rewrite !std_digit. simpl. rewrite IH. simpl.
    rewrite sextets_sum by apply group_range. destruct (octet_bytes a b c) as (-> & -> & ->). done.
Qed.

Lemma b64_encode_no_newline l : List.filter not_newline (b64_encode l) = b64_encode l.
Proof.
  induction l as [|a|a b|a b c l IH] using list_ind3; [done | | |]; cbn [b64_encode List.filter];
    rewrite !std_not_newline; [done | done |]. by rewrite IH.
Qed.

(** What [StdEncoding] writes, it reads back. *)
Lemma StdDecode_Encode l : StdDecodeString (StdEncodeToString l) = Ok l.
Proof.
  unfold DecodeString, StdEncodeToString. rewrite String.list_ascii_of_string_of_list_ascii.
  by rewrite b64_encode_no_newline, b64_decode_encode.
Qed.
