(* ===== verification/Utf8.v ===== *)
(** UTF-8 as Go's standard library sees it: [utf8.Valid], [utf8.ValidString] and
    [strings.ToValidUTF8(s, "")], on strings as lists of bytes. *)
From S2P Require Import Prelude.
From S2P Require Import GoStd.
From stdpp Require Import list.

(** A byte in a range. *)
Definition between (lo hi : N) (c : ascii) : bool := (lo <=? N_of_ascii c)%N && (N_of_ascii c <=? hi)%N.
Definition continuation (c : ascii) : bool := between 128 191 c.

(** The length of the rune a string starts with, [None] when its first byte does
    not start a valid encoding: overlong forms, surrogates and code points above
    U+10FFFF are invalid. *)
Definition rune_len (l : chars) : option nat :=
  match l with
  | [] => None
  | c0 :: l1 =>
    if between 0 127 c0 then Some 1%nat else
    match l1 with
    | [] => None
    | c1 :: l2 =>
      if between 194 223 c0 then (if continuation c1 then Some 2%nat else None) else
      match l2 with
      | [] => None
      | c2 :: l3 =>
        if between 224 239 c0 then
          let lo := if between 224 224 c0 then 160%N else 128%N in
          let hi := if between 237 237 c0 then 159%N else 191%N in
          if between lo hi c1 && continuation c2 then Some 3%nat else None
        else
        match l3 with
        | [] => None
        | c3 :: _ =>
          if between 240 244 c0 then
            let lo := if between 240 240 c0 then 144%N else 128%N in
            let hi := if between 244 244 c0 then 143%N else 191%N in
            if between lo hi c1 && continuation c2 && continuation c3 then Some 4%nat else None
          else None
        end
      end
    end
  end.

(** [utf8.Valid]; [skip] bytes belong to a rune already recognised. *)
Fixpoint valid_from (skip : nat) (l : chars) : bool :=
  match l with
  | [] => true
  | c :: l' =>
    match skip with
    | S skip => valid_from skip l'
    | O => match rune_len l with Some n => valid_from (n - 1) l' | None => false end
    end
  end.
Definition utf8_Valid (l : chars) : bool := valid_from 0 l.

(** [strings.ToValidUTF8] with an empty replacement: invalid bytes are dropped. *)
Fixpoint to_valid_from (skip : nat) (l : chars) : chars :=
  match l with
  | [] => []
  | c :: l' =>
    match skip with
    | S skip => c :: to_valid_from skip l'
    | O => match rune_len l with Some n => c :: to_valid_from (n - 1) l' | None => to_valid_from 0 l' end
    end
  end.
Definition ToValidUTF8 (l : chars) : chars := to_valid_from 0 l.

(** ** Properties *)

(** A rune is recognised by its own bytes. *)
Lemma rune_len_app l n rest : rune_len l = Some n -> (n <= length l)%nat /\ (1 <= n)%nat /\ rune_len (take n l ++ rest) = Some n.
Proof.
  destruct l as [|c0 [|c1 [|c2 [|c3 l]]]]; cbn [rune_len]; intros E; repeat case_match; simplify_eq; cbn [take app length];
    (split; [lia |]; split; [lia |]); cbn [rune_len];
    repeat match goal with H : ?x = true |- context [?x] => rewrite H | H : ?x = false |- context [?x] => rewrite H end;
    done.
Qed.

Lemma to_valid_skip k l : (k <= length l)%nat -> to_valid_from k l = take k l ++ to_valid_from 0 (drop k l).
Proof.
  revert l. induction k as [|k IH]; intros l Hk; [done |]. destruct l as [|c l]; [cbn in Hk; lia |].
  cbn [to_valid_from take drop app]. rewrite IH by (cbn in Hk; lia). done.
Qed.
Lemma valid_skip k l rest : length l = k -> valid_from k (l ++ rest) = valid_from 0 rest.
Proof. revert l. induction k as [|k IH]; intros [|c l] Hl; try done. cbn. apply IH. by injection Hl. Qed.

(** A string, as its runes and the bytes that start none. *)
Lemma utf8_ind (P : chars -> Prop) :
  P [] ->
  (forall c l, rune_len (c :: l) = None -> P l -> P (c :: l)) ->
  (forall n l, rune_len l = Some n -> P (drop n l) -> P l) ->
  forall l, P l.
Proof.
  intros H0 Hbad Hgood l. remember (length l) as len eqn:E. revert l E.
  induction len as [len IH] using lt_wf_ind. intros l E.
  destruct (rune_len l) as [n|] eqn:En.
  - apply (Hgood n l En). destruct (rune_len_app l n [] En) as (? & ? & _).
    apply (IH (length (drop n l))); [rewrite length_drop; lia | done].
  - destruct l as [|c l]; [done |]. apply (Hbad c l En). apply (IH (length l)); [cbn in E; lia | done].
Qed.

Lemma valid_rune n l : rune_len l = Some n -> utf8_Valid l = utf8_Valid (drop n l).
Proof.
  intros En. destruct (rune_len_app l n [] En) as (Hn & Hp & _). unfold utf8_Valid.
  destruct l as [|c l]; [done |]. cbn [valid_from]. rewrite En. destruct n as [|n]; [lia |].
  rewrite Nat.sub_1_r. cbn [Nat.pred drop]. rewrite <- (take_drop n l) at 1. cbn in Hn.
  apply valid_skip. rewrite length_take. lia.
Qed.

Lemma to_valid_rune n l : rune_len l = Some n -> ToValidUTF8 l = take n l ++ ToValidUTF8 (drop n l).
Proof.
  intros En. destruct (rune_len_app l n [] En) as (Hn & Hp & _). unfold ToValidUTF8.
  destruct l as [|c l]; [done |]. cbn [to_valid_from]. rewrite En. destruct n as [|n]; [lia |].
  rewrite Nat.sub_1_r. cbn [Nat.pred take drop app]. cbn in Hn. by rewrite to_valid_skip by lia.
Qed.

Lemma to_valid_bad c l : rune_len (c :: l) = None -> ToValidUTF8 (c :: l) = ToValidUTF8 l.
Proof. intros En. unfold ToValidUTF8. cbn [to_valid_from]. by rewrite En. Qed.

(** The result is valid, a valid string is left alone, and nothing else is. *)
Lemma ToValidUTF8_valid l : utf8_Valid (ToValidUTF8 l) = true.
Proof.
  induction l as [|c l En IH|n l En IH] using utf8_ind; [done | by rewrite to_valid_bad |].
  rewrite (to_valid_rune n l En).
  destruct (rune_len_app l n (ToValidUTF8 (drop n l)) En) as (Hn & Hp & En').
  rewrite (valid_rune n _ En'), drop_app_length'; [done |]. rewrite length_take. lia.
Qed.

Lemma ToValidUTF8_length l : (length (ToValidUTF8 l) <= length l)%nat /\
  (length (ToValidUTF8 l) = length l -> utf8_Valid l = true).
Proof.
  induction l as [|c l En [IH1 IH2]|n l En [IH1 IH2]] using utf8_ind; [done | |].
  - rewrite to_valid_bad by done. cbn [length]. split; lia.
  - rewrite (to_valid_rune n l En), (valid_rune n l En), length_app, length_take.
    destruct (rune_len_app l n [] En) as (Hn & Hp & _). rewrite length_drop in *. split; [lia |]. intros E. apply IH2. lia.
Qed.

Lemma ToValidUTF8_id l : ToValidUTF8 l = l <-> utf8_Valid l = true.
Proof.
  split.
  - intros E. apply ToValidUTF8_length. by rewrite E.
  - induction l as [|c l En IH|n l En IH] using utf8_ind; intros Hv; [done | |].
    + unfold utf8_Valid in Hv. cbn [valid_from] in Hv. by rewrite En in Hv.
    + rewrite (valid_rune n l En) in Hv. rewrite (to_valid_rune n l En), IH by done. apply take_drop.
Qed.
