(* ===== verification/External.v ===== *)
(** Interfaces of the third-party packages the program calls, as type classes:
    the operations are parameters of every definition that uses them, and the
    laws state the documented behaviour the program relies on.

    - [Uint256], [Uint256Laws]: [github.com/holiman/uint256], 256-bit integers
      under [sds.GRT].
    - [Eth], [EthLaws]: [github.com/streamingfast/eth-go], addresses, Keccak,
      keys and recoverable signatures.

    Module [Reference] gives one executable instance of each interface, so that
    the laws are known to be satisfiable and concrete runs can be evaluated. *)
From S2P Require Import Prelude.
From S2P Require Import GoStd.

Definition two256 : Z := 2 ^ 256.

Class Uint256 : Type := {
  u256 : Type;
  #[global] u256_eq_dec :: EqDecision u256;
  uint256_zero : u256;
  uint256_max : u256;
  uint256_NewInt : Z -> u256;
  uint256_Neg : u256 -> u256;
  uint256_Add : u256 -> u256 -> u256;
  uint256_Sub : u256 -> u256 -> u256;
  uint256_Mul : u256 -> u256 -> u256;
  uint256_Cmp : u256 -> u256 -> Z;
  uint256_IsZero : u256 -> bool;
  (** the converted value and the overflow flag *)
  uint256_FromBig : Z -> u256 * bool;
  uint256_ToBig : u256 -> Z
}.

(** Fixed-width arithmetic modulo [2^256]; conversion from [big.Int] is two's
    complement, with the overflow flag set when the magnitude needs more than
    256 bits. *)
Class Uint256Laws `{Uint256} : Prop := {
  ToBig_range x : 0 <= uint256_ToBig x < two256;
  ToBig_inj x y : uint256_ToBig x = uint256_ToBig y -> x = y;
  ToBig_zero : uint256_ToBig uint256_zero = 0;
  ToBig_max : uint256_ToBig uint256_max = two256 - 1;
  ToBig_NewInt n : u64 n -> uint256_ToBig (uint256_NewInt n) = n;
  ToBig_Neg x : uint256_ToBig (uint256_Neg x) = (- uint256_ToBig x) mod two256;
  ToBig_Add x y :
    uint256_ToBig (uint256_Add x y) = (uint256_ToBig x + uint256_ToBig y) mod two256;
  ToBig_Sub x y :
    uint256_ToBig (uint256_Sub x y) = (uint256_ToBig x - uint256_ToBig y) mod two256;
  ToBig_Mul x y :
    uint256_ToBig (uint256_Mul x y) = (uint256_ToBig x * uint256_ToBig y) mod two256;
  Cmp_spec x y : uint256_Cmp x y = cmpZ (uint256_ToBig x) (uint256_ToBig y);
  IsZero_spec x : uint256_IsZero x = (uint256_ToBig x =? 0);
  FromBig_fits z :
    Z.abs z < two256 ->
    snd (uint256_FromBig z) = false /\ uint256_ToBig (fst (uint256_FromBig z)) = z mod two256;
  FromBig_overflow z : two256 <= Z.abs z -> snd (uint256_FromBig z) = true
}.

(** [eth.Address] is a byte slice; the program builds addresses of 20 bytes. *)
Abbreviation address := (list byte).
Abbreviation signature := (list byte).
Abbreviation hash := (list byte).

Class Eth : Type := {
  PrivateKey : Type;
  key_address : PrivateKey -> address;
  Pretty : address -> string;
  Address_String : address -> string;
  NewAddress : string -> result go_error address;
  Keccak256 : list byte -> hash;
  key_Sign : PrivateKey -> hash -> result go_error signature;
  Signature_Recover : signature -> hash -> result go_error address;
  NewSignatureFromBytes : list byte -> result go_error signature
}.

Class EthLaws `{Eth} : Prop := {
  key_address_length k : length (key_address k) = 20%nat;
  Pretty_inj a b : Pretty a = Pretty b -> a = b;
  Pretty_no_bar a : "|"%char ∉ to_chars (Pretty a);
  NewAddress_Pretty a : length a = 20%nat -> NewAddress (Pretty a) = Ok a;
  NewAddress_length s a : NewAddress s = Ok a -> length a = 20%nat;
  Keccak256_length l : length (Keccak256 l) = 32%nat;
  key_Sign_length k h s : key_Sign k h = Ok s -> length s = 65%nat;
  key_Sign_Recover k h s : key_Sign k h = Ok s -> Signature_Recover s h = Ok (key_address k);
  NewSignatureFromBytes_65 l : length l = 65%nat -> NewSignatureFromBytes l = Ok l;
  NewSignatureFromBytes_length l s : NewSignatureFromBytes l = Ok s -> s = l /\ length l = 65%nat
}.

(** ** Reference instances *)
Module Reference.

Definition fits (z : Z) : Prop := 0 <= z < two256.
#[local] Instance fits_dec z : Decision (fits z) := _.

Definition norm (z : Z) : dsig fits :=
  dexist (z mod two256) (Z.mod_pos_bound z two256 eq_refl).

Lemma norm_val z : proj1_sig (norm z) = z mod two256.
Proof. done. Qed.

Lemma val_range (x : dsig fits) : 0 <= `x < two256.
Proof. exact (proj2_dsig x). Qed.

#[export] Instance uint256_ref : Uint256 := {|
  u256 := dsig fits;
  uint256_zero := norm 0;
  uint256_max := norm (two256 - 1);
  uint256_NewInt := norm;
  uint256_Neg x := norm (- `x);
  uint256_Add x y := norm (`x + `y);
  uint256_Sub x y := norm (`x - `y);
  uint256_Mul x y := norm (`x * `y);
  uint256_Cmp x y := cmpZ (`x) (`y);
  uint256_IsZero x := `x =? 0;
  uint256_FromBig z := (norm z, two256 <=? Z.abs z);
  uint256_ToBig x := `x
|}.

#[export] Instance uint256_ref_laws : Uint256Laws.
Proof.
  split; simpl; intros; rewrite ?norm_val; try done.
  - apply val_range.
  - by apply dsig_eq.
  - apply Z.mod_small. unfold u64, two64, two256 in *. lia.
  - split; [|done]. apply Z.leb_gt. done.
  - by apply Z.leb_le.
Qed.

(** Big-endian bytes at a fixed width. *)
Definition fixed_bytes (n : nat) (z : Z) : list byte :=
  let l := Bytes (z mod 256 ^ Z.of_nat n) in zeros (n - length l) ++ l.

Lemma fixed_bytes_length n z : length (fixed_bytes n z) = n.
Proof.
  unfold fixed_bytes, zeros. rewrite length_app, length_replicate.
  pose proof (Z.mod_pos_bound z (256 ^ Z.of_nat n) ltac:(apply Z.pow_pos_nonneg; lia)).
  pose proof (Bytes_length (z mod 256 ^ Z.of_nat n) n ltac:(rewrite Z.abs_eq; lia)). lia.
Qed.

Definition hex_value (c : ascii) : option Z :=
  let n := Z.of_N (N_of_ascii c) in
  if (48 <=? n) && (n <=? 57) then Some (n - 48)
  else if (97 <=? n) && (n <=? 102) then Some (n - 87) else None.

Fixpoint hex_decode (l : chars) : option (list byte) :=
  match l with
  | [] => Some []
  | a :: b :: l' =>
      x ← hex_value a; y ← hex_value b; r ← hex_decode l';
      Some (byte_of_Z (16 * x + y) :: r)
  | _ => None
  end.

Lemma hex_value_digit d : 0 <= d < 16 -> hex_value (hex_digit d) = Some d.
Proof.
  intros H. unfold hex_value, hex_digit. destruct (Z.ltb_spec d 10);
    rewrite N_ascii_embedding, Z2N.id by lia;
    repeat case_match; bool_props; try (f_equal; lia); exfalso.
  all: repeat match goal with
       | H : (_ && _) = false |- _ => apply andb_false_iff in H as [?|?]
       end; bool_props; lia.
Qed.

Lemma hex_decode_encode l : hex_decode (hex_chars l) = Some l.
Proof.
  unfold hex_chars. induction l as [|x l IH]; [done |].
  cbn [map concat hex_byte app hex_decode].
  pose proof (byte_to_Z_range x). pose proof (Z.mod_pos_bound (byte_to_Z x) 16 eq_refl).
  assert (0 <= byte_to_Z x / 16 < 16)
    by (split; [apply Z.div_pos | apply Z.div_lt_upper_bound]; lia).
  rewrite !hex_value_digit by lia.
  simpl. rewrite IH. simpl. rewrite <- Z_div_mod_eq_full, byte_of_to_Z. done.
Qed.

Definition pretty (a : address) : string :=
  of_chars ("0"%char :: "x"%char :: hex_chars a).

Definition new_address (s : string) : result go_error address :=
  match to_chars s with
  | _ :: _ :: l => match hex_decode l with
                   | Some a => if (length a =? 20)%nat then Ok a else Err (Errorf "length")
                   | None => Err (Errorf "hex")
                   end
  | _ => Err (Errorf "prefix")
  end.

(** A signature of the reference scheme spells out the signer and the hash. *)
Definition sign (k : Z) (h : hash) : signature :=
  fixed_bytes 20 k ++ fixed_bytes 45 (SetBytes h).

#[export] Instance eth_ref : Eth := {|
  PrivateKey := Z;
  key_address := fixed_bytes 20;
  Pretty := pretty;
  Address_String := pretty;
  NewAddress := new_address;
  Keccak256 l := fixed_bytes 32 (SetBytes l);
  key_Sign k h := Ok (sign k h);
  Signature_Recover s h :=
    if decide (drop 20 s = fixed_bytes 45 (SetBytes h)) then Ok (take 20 s)
    else Err (Errorf "recovery failed");
  NewSignatureFromBytes l := if (length l =? 65)%nat then Ok l else Err (Errorf "length")
|}.

Lemma to_chars_pretty a : to_chars (pretty a) = "0"%char :: "x"%char :: hex_chars a.
Proof. unfold pretty. by rewrite String.list_ascii_of_string_of_list_ascii. Qed.

#[export] Instance eth_ref_laws : EthLaws.
Proof.
  split; cbn -[pretty new_address fixed_bytes sign String.list_ascii_of_string]; intros.
  - apply fixed_bytes_length.
  - apply (f_equal to_chars) in H. rewrite !to_chars_pretty in H. simplify_eq.
    by apply hex_chars_inj.
  - rewrite to_chars_pretty, !not_elem_of_cons. split_and!; [done.. |]. apply hex_chars_no_bar.
  - unfold new_address. rewrite to_chars_pretty, hex_decode_encode, H. done.
  - unfold new_address in *. go_cases. by apply Nat.eqb_eq.
  - apply fixed_bytes_length.
  - simplify_eq. unfold sign. rewrite length_app, !fixed_bytes_length. done.
  - simplify_eq. unfold sign.
    rewrite drop_app_length', take_app_length' by (by rewrite fixed_bytes_length).
    by rewrite decide_True.
  - by rewrite H.
  - go_cases. by apply Nat.eqb_eq in H0.
Qed.

End Reference.
