(* ===== verification/GRT.v ===== *)
(** GRT amounts and pricing ([grt.go]): construction from integers, parsing,
    printing, saturating and wrapping arithmetic, text and JSON marshalling, and
    the cost of metered usage.  Amounts are 256-bit integers in base units
    (10^18 base units per GRT) held by the [Uint256] interface. *)
From S2P Require Import Prelude.
From S2P Require Import GoStd.
From S2P Require Import External.

Definition GRTDecimals : nat := 18.
Definition grtBaseBig : Z := 10 ^ 18.

Section GRT.
Context `{Uint256}.

Record GRT : Type := mkGRT { raw : u256 }.

#[global] Instance GRT_eq_dec : EqDecision GRT.
Proof. solve_decision. Defined.

Definition ZeroGRT : GRT := mkGRT uint256_zero.

(** [BigInt]: the amount in base units. *)
Definition GRT_BigInt (g : GRT) : Z := uint256_ToBig (raw g).

Definition NewGRTFromUint64 (n : Z) : GRT := mkGRT (uint256_NewInt n).

Definition NewGRTFromInt64 (n : Z) : GRT :=
  let unsigned := if n <? 0 then wrap_s64 (- n) else n in
  let value := uint256_NewInt (wrap_u64 unsigned) in
  mkGRT (if n <? 0 then uint256_Neg value else value).

Definition NewGRTFromUint256 (x : option u256) : GRT :=
  match x with None => ZeroGRT | Some v => mkGRT v end.

Definition NewGRTFromBigInt (x : option Z) : GRT :=
  match x with
  | None => ZeroGRT
  | Some z =>
      let '(v, overflow) := uint256_FromBig z in
      mkGRT (if overflow : bool then uint256_max else v)
  end.

(** [parseDecimalToGRT]. *)
Definition parseDecimalToGRT (decimal : chars) : result go_error GRT :=
  let decimal := trim_space decimal in
  match decimal with
  | [] => Ok ZeroGRT
  | _ =>
    let '(negative, decimal) :=
      match strip_prefix ["-"%char] decimal with
      | Some rest => (true, rest)
      | None => (false, decimal)
      end in
    let parts := split_on "."%char decimal in
    if (2 <? length parts)%nat then Err (Errorf "invalid decimal format: %s") else
    let intPart := match parts with [] => [] | p :: _ => p end in
    let intPart := match intPart with [] => ["0"%char] | _ => intPart end in
    match SetString intPart with
    | None => Err (Errorf "invalid integer part: %s")
    | Some intValue =>
      let value := intValue * grtBaseBig in
      let? value :=
        match parts with
        | [_; fracPart] =>
            let fracPart :=
              if (GRTDecimals <? length fracPart)%nat then take GRTDecimals fracPart
              else fracPart ++ replicate (GRTDecimals - length fracPart) "0"%char in
            match SetString fracPart with
            | None => Err (Errorf "invalid fractional part: %s")
            | Some fracValue => Ok (value + fracValue)
            end
        | _ => Ok value
        end in
      let value := if negative : bool then - value else value in
      let '(v, overflow) := uint256_FromBig value in
      if overflow : bool then Err (Errorf "value overflow: %s") else Ok (mkGRT v)
    end
  end.

(** [ParseGRT]: the suffix test is on the upper-cased text, the cut on the
    text itself. *)
Definition ParseGRT (s : string) : result go_error GRT :=
  let s := trim_space (to_chars s) in
  match s with
  | [] => Ok ZeroGRT
  | _ =>
    let s := if has_suffix (to_chars "GRT") (map upper_char s)
             then trim_space (take (length s - 3) s) else s in
    parseDecimalToGRT s
  end.

Definition NewGRTFromString (s : string) : result go_error GRT := ParseGRT s.

(** The dynamic types [NewGRT] accepts; every signed (unsigned) machine
    integer is first widened to [int64] ([uint64]). *)
Inductive grt_input : Type :=
  | InSigned (n : Z)
  | InUnsigned (n : Z)
  | InBigInt (x : option Z)
  | InUint256 (x : option u256)
  | InString (s : string)
  | InOther.

Definition NewGRT (input : grt_input) : result go_error GRT :=
  match input with
  | InSigned n => Ok (NewGRTFromInt64 n)
  | InUnsigned n => Ok (NewGRTFromUint64 n)
  | InBigInt x => Ok (NewGRTFromBigInt x)
  | InUint256 x => Ok (NewGRTFromUint256 x)
  | InString s => NewGRTFromString s
  | InOther => Err (Errorf "unsupported input type: %T")
  end.

Definition GRT_IsZero (g : GRT) : bool := uint256_IsZero (raw g).
Definition GRT_Cmp (g other : GRT) : Z := uint256_Cmp (raw g) (raw other).
Definition GRT_Add (g other : GRT) : GRT := mkGRT (uint256_Add (raw g) (raw other)).
Definition GRT_Sub (g other : GRT) : GRT :=
  if uint256_Cmp (raw g) (raw other) <? 0 then ZeroGRT
  else mkGRT (uint256_Sub (raw g) (raw other)).
Definition GRT_Mul (g : GRT) (n : Z) : GRT :=
  mkGRT (uint256_Mul (raw g) (uint256_NewInt n)).

Definition ToDecimalString (g : GRT) : chars :=
  if uint256_IsZero (raw g) then ["0"%char]
  else
    let r := uint256_ToBig (raw g) in
    let grt := r / grtBaseBig in
    let remainder := r mod grtBaseBig in
    if remainder =? 0 then big_String grt
    else
      let fracStr := Sprintf_0d 18 remainder in
      let fracStr := trim_right "0"%char fracStr in
      big_String grt ++ "."%char :: fracStr.

Definition GRT_String (g : GRT) : string :=
  of_chars (ToDecimalString g ++ to_chars " GRT").

Definition MarshalText (g : GRT) : string := GRT_String g.
Definition UnmarshalText (text : string) : result go_error GRT := ParseGRT text.

Definition quote : ascii := chr 34.
Definition MarshalJSON (g : GRT) : string :=
  of_chars (quote :: to_chars (GRT_String g) ++ [quote]).

Definition UnmarshalJSON (data : string) : result go_error GRT :=
  let s := to_chars data in
  let s :=
    match s, rev s with
    | a :: tl, b :: _ =>
        if (2 <=? length s)%nat && bool_decide (a = quote) && bool_decide (b = quote)
        then take (length tl - 1) tl else s
    | _, _ => s
    end in
  UnmarshalText (of_chars s).

(** ** Pricing *)

Record PricingConfig : Type := mkPricingConfig {
  PricePerBlock : GRT;
  PricePerByte : GRT
}.

Definition CalculateUsageCost (c : PricingConfig) (blocksProcessed bytesTransferred : Z) : GRT :=
  let blockCost := GRT_Mul (PricePerBlock c) blocksProcessed in
  let byteCost := GRT_Mul (PricePerByte c) bytesTransferred in
  GRT_Add blockCost byteCost.

(** [x, _ := ParseGRT(...)]: the error is dropped and the value is zero. *)
Definition grt_or_zero (r : result go_error GRT) : GRT :=
  match r with Ok g => g | Err _ => ZeroGRT end.

Definition DefaultPricingConfig : PricingConfig :=
  mkPricingConfig (grt_or_zero (ParseGRT "0.000115 GRT"))
                  (grt_or_zero (ParseGRT "0.0000000061 GRT")).

(** ** Correctness *)
Context `{!Uint256Laws}.

Lemma GRT_BigInt_range g : 0 <= GRT_BigInt g < two256.
Proof. apply ToBig_range. Qed.

Lemma GRT_BigInt_inj g1 g2 : GRT_BigInt g1 = GRT_BigInt g2 -> g1 = g2.
Proof. destruct g1, g2. unfold GRT_BigInt. simpl. intros E. f_equal. by apply ToBig_inj. Qed.

(** Decimal output starts with a digit, ends with a digit, holds no blank,
    and denotes the amount. *)
Lemma all_digits_no_dot l : all_digits l -> Forall (fun c => c <> "."%char) l.
Proof.
  intros Hl. eapply Forall_impl; [|exact Hl]. intros c [d Hc] ->. by vm_compute in Hc.
Qed.

Lemma digit_not_space c :
  is_Some (char_digit c) -> not_space_start c = true /\ not_space_end c = true.
Proof.
  intros [d Hd].
  destruct c as [[] [] [] [] [] [] [] []]; vm_compute in Hd; try discriminate;
    split; vm_compute; reflexivity.
Qed.

(** Texts whose first and last bytes are digits survive [trim_space]. *)
Definition digit_ends (l : chars) : Prop :=
  exists c tl, l = c :: tl /\ is_Some (char_digit c) /\
  exists d init, l = init ++ [d] /\ is_Some (char_digit d).

Lemma trim_space_digit_ends l : digit_ends l -> trim_space l = l.
Proof.
  intros (c & tl & -> & Hc & d & init & E & Hd). unfold trim_space.
  rewrite trim_space_left_id by (by apply digit_not_space).
  rewrite E. apply trim_space_right_id. by apply digit_not_space.
Qed.

Lemma trim_space_digit_blank l : digit_ends l -> trim_space (l ++ [" "%char]) = l.
Proof.
  intros (c & tl & E1 & Hc & d & init & E & Hd). unfold trim_space.
  rewrite E1. simpl ((c :: tl) ++ _). rewrite trim_space_left_id by (by apply digit_not_space).
  change (c :: tl ++ [" "%char]) with ((c :: tl) ++ [" "%char]).
  rewrite <- E1, E. apply trim_space_right_blank. by apply digit_not_space.
Qed.

Lemma all_digits_ends l : all_digits l -> l <> [] -> digit_ends l.
Proof.
  intros Hl Hne. destruct l as [|c tl]; [done |].
  exists c, tl. split; [done |]. split; [by apply Forall_cons_1 in Hl as [? _] |].
  destruct (exists_last Hne) as (init & d & E). exists d, init. split; [done |].
  rewrite E in Hl. apply Forall_app in Hl as [_ Hl]. by apply Forall_cons_1 in Hl as [? _].
Qed.

Lemma strip_minus_digit c l : is_Some (char_digit c) -> strip_prefix ["-"%char] (c :: l) = None.
Proof.
  intros Hc%digit_not_sign. cbn [strip_prefix]. destruct (ascii_dec "-" c); naive_solver.
Qed.

Lemma FromBig_nat z :
  0 <= z < two256 ->
  exists v, uint256_FromBig z = (v, false) /\ uint256_ToBig v = z.
Proof.
  intros Hz. destruct (FromBig_fits z) as [H1 H2]; [by rewrite Z.abs_eq; lia |].
  rewrite Z.mod_small in H2 by done. destruct (uint256_FromBig z) as [v o]. simpl in *.
  exists v. by subst.
Qed.

(** An integer followed by an optional fraction of at most 18 digits. *)
Lemma parse_integer a :
  0 <= a -> a * grtBaseBig < two256 ->
  exists g, parseDecimalToGRT (dec_nat a) = Ok g /\ GRT_BigInt g = a * grtBaseBig.
Proof.
  intros Ha Hb. pose proof (all_digits_dec_nat a Ha) as Hd.
  pose proof (dec_nat_nonempty a Ha) as Hne.
  destruct (FromBig_nat (a * grtBaseBig)) as (v & Ev & Hv); [unfold grtBaseBig in *; lia |].
  exists (mkGRT v). split; [|done]. unfold parseDecimalToGRT.
  rewrite trim_space_digit_ends by (by apply all_digits_ends).
  pose proof (SetString_dec_nat a Ha) as Hs.
  pose proof (split_on_absent _ _ (all_digits_no_dot _ Hd)) as Hsp.
  destruct (dec_nat a) as [|c l]; [done |].
  rewrite strip_minus_digit by (by apply Forall_cons_1 in Hd as [? _]).
  rewrite Hsp. cbn [length Nat.ltb]. rewrite Hs. cbn [rbind]. by rewrite Ev.
Qed.

(** A non-zero remainder prints as a non-empty fraction. *)
Lemma fraction_nonempty f :
  0 < f < grtBaseBig -> trim_right "0"%char (Sprintf_0d 18 f) <> [].
Proof.
  intros Hf E. destruct (Sprintf_0d_spec 18 f) as (Hlen & _ & Hfs);
    [change (10 ^ Z.of_nat 18) with grtBaseBig; lia | lia |].
  destruct (trim_right_spec "0"%char (Sprintf_0d 18 f)) as (k & Ek & _).
  rewrite E in Ek. simpl in Ek. rewrite Ek in Hfs, Hlen. rewrite length_replicate in Hlen.
  subst k. vm_compute in Hfs. simplify_eq. lia.
Qed.

Lemma parse_fraction a f :
  0 <= a -> 0 < f < grtBaseBig -> a * grtBaseBig + f < two256 ->
  exists g, parseDecimalToGRT (dec_nat a ++ "."%char :: trim_right "0"%char (Sprintf_0d 18 f)) = Ok g
    /\ GRT_BigInt g = a * grtBaseBig + f.
Proof.
  intros Ha Hf Hb. pose proof (all_digits_dec_nat a Ha) as Hd.
  destruct (Sprintf_0d_spec 18 f) as (Hlen & Hfd & Hfs);
    [change (10 ^ Z.of_nat 18) with grtBaseBig; lia | lia |].
  destruct (trim_right_spec "0"%char (Sprintf_0d 18 f)) as (k & Ek & Hlast).
  set (fr := trim_right "0"%char (Sprintf_0d 18 f)) in *.
  assert (all_digits fr) as Hfrd by (rewrite Ek in Hfd; by apply Forall_app in Hfd as [? _]).
  assert ((length fr <= 18)%nat /\ (18 - length fr = k)%nat) as [Hl18 Hk].
  { rewrite Ek, length_app, length_replicate in Hlen. lia. }
  assert (fr <> []) as Hfne by (by apply fraction_nonempty).
  destruct (FromBig_nat (a * grtBaseBig + f)) as (v & Ev & Hv); [unfold grtBaseBig in *; lia |].
  exists (mkGRT v). split; [|done]. unfold parseDecimalToGRT.
  pose proof (dec_nat_nonempty a Ha) as Hne.
  rewrite trim_space_digit_ends.
  2:{ destruct (all_digits_ends _ Hd Hne) as (c & tl & E & Hc & _).
      destruct (all_digits_ends _ Hfrd Hfne) as (_ & _ & _ & _ & d & init & E' & Hd').
      exists c, (tl ++ "."%char :: fr). split; [by rewrite E |]. split; [done |].
      exists d, (dec_nat a ++ "."%char :: init). split; [|done].
      rewrite E'. by rewrite <- app_assoc. }
  pose proof (SetString_dec_nat a Ha) as Hs.
  pose proof (split_on_app "."%char _ fr (all_digits_no_dot _ Hd)) as Hsp.
  rewrite (split_on_absent "."%char fr) in Hsp by (by apply all_digits_no_dot).
  destruct (dec_nat a) as [|c l]; [done |]. cbn [app] in *.
  rewrite strip_minus_digit by (by apply Forall_cons_1 in Hd as [? _]).
  rewrite Hsp. change (2 <? length [c :: l; fr])%nat with false. cbv beta iota zeta. rewrite Hs.
  rewrite (proj2 (Nat.ltb_ge GRTDecimals (length fr))) by done.
  unfold GRTDecimals. rewrite Hk, <- Ek, Hfs. cbn [rbind]. by rewrite Ev.
Qed.

Lemma parse_ToDecimalString g : parseDecimalToGRT (ToDecimalString g) = Ok g.
Proof.
  pose proof (GRT_BigInt_range g) as Hr. unfold ToDecimalString, GRT_BigInt in *.
  set (r := uint256_ToBig (raw g)) in *.
  pose proof (Z_div_mod_eq_full r grtBaseBig) as Hdm.
  pose proof (Z.mod_pos_bound r grtBaseBig eq_refl) as Hm.
  assert (0 <= r / grtBaseBig) as Hq by (apply Z.div_pos; [lia | done]).
  assert (forall g', GRT_BigInt g' = r -> Ok (E:=go_error) g' = Ok g) as Hfin
    by (intros g' E; f_equal; apply GRT_BigInt_inj; exact E).
  rewrite IsZero_spec. fold r. destruct (Z.eqb_spec r 0) as [E0|E0].
  - change ["0"%char] with (dec_nat 0).
    destruct (parse_integer 0) as (g' & -> & Hg'); [done | done |].
    apply Hfin. rewrite Hg'. lia.
  - unfold big_String. destruct (Z.ltb_spec (r / grtBaseBig) 0) as [?|_]; [lia |].
    destruct (Z.eqb_spec (r mod grtBaseBig) 0).
    + destruct (parse_integer (r / grtBaseBig)) as (g' & -> & Hg'); [done | lia |].
      apply Hfin. lia.
    + destruct (parse_fraction (r / grtBaseBig) (r mod grtBaseBig)) as (g' & -> & Hg');
        [done | lia | lia |]. apply Hfin. lia.
Qed.

Lemma ToDecimalString_ends g : digit_ends (ToDecimalString g).
Proof.
  pose proof (GRT_BigInt_range g) as Hr. unfold ToDecimalString, GRT_BigInt in *.
  set (r := uint256_ToBig (raw g)) in *.
  assert (0 <= r / grtBaseBig) as Hq by (apply Z.div_pos; [lia | done]).
  pose proof (Z.mod_pos_bound r grtBaseBig eq_refl) as Hm.
  pose proof (all_digits_dec_nat _ Hq) as Hd.
  pose proof (dec_nat_nonempty _ Hq) as Hne.
  case_match; [apply (all_digits_ends (dec_nat 0)); [by apply all_digits_dec_nat | done] |].
  unfold big_String. destruct (Z.ltb_spec (r / grtBaseBig) 0) as [?|_]; [lia |].
  destruct (Z.eqb_spec (r mod grtBaseBig) 0); [by apply all_digits_ends |].
  destruct (Sprintf_0d_spec 18 (r mod grtBaseBig)) as (Hlen & Hfd & Hfs);
    [change (10 ^ Z.of_nat 18) with grtBaseBig; lia | lia |].
  destruct (trim_right_spec "0"%char (Sprintf_0d 18 (r mod grtBaseBig))) as (k & Ek & Hlast).
  destruct (all_digits_ends _ Hd Hne) as (c & tl & E & Hc & _).
  eexists c, _. rewrite E. split; [reflexivity |]. split; [done |].
  destruct Hlast as [E'|(l' & a & E' & _)].
  - exfalso. apply (fraction_nonempty (r mod grtBaseBig)); [lia | done].
  - exists a. rewrite E'. exists ((c :: tl) ++ "."%char :: l'). split.
    + by rewrite <- app_assoc.
    + rewrite Ek in Hfd. rewrite E' in Hfd. apply Forall_app in Hfd as [Hfd _].
      apply Forall_app in Hfd as [_ Hfd]. by apply Forall_cons_1 in Hfd as [? _].
Qed.

Lemma ParseGRT_String g : ParseGRT (GRT_String g) = Ok g.
Proof.
  unfold ParseGRT, GRT_String. rewrite String.list_ascii_of_string_of_list_ascii.
  pose proof (ToDecimalString_ends g) as He. pose proof (parse_ToDecimalString g) as Hp.
  set (d := ToDecimalString g) in *.
  assert (trim_space (d ++ to_chars " GRT") = d ++ to_chars " GRT") as ->.
  { destruct He as (c & tl & E & Hc & _). unfold trim_space. rewrite E. cbn [app].
    rewrite trim_space_left_id by (by apply digit_not_space).
    change (c :: tl ++ to_chars " GRT") with ((c :: tl) ++ to_chars " GR" ++ ["T"%char]).
    rewrite app_assoc. apply trim_space_right_id. reflexivity. }
  assert (has_suffix (to_chars "GRT") (map upper_char (d ++ to_chars " GRT")) = true) as ->.
  { unfold has_suffix, has_prefix. rewrite map_app, rev_app_distr. reflexivity. }
  assert (take (length (d ++ to_chars " GRT") - 3) (d ++ to_chars " GRT") = d ++ [" "%char]) as ->.
  { change (to_chars " GRT") with ([" "%char] ++ to_chars "GRT"). rewrite app_assoc.
    rewrite length_app. change (length (to_chars "GRT")) with 3%nat.
    rewrite Nat.add_sub. apply take_app_length. }
  rewrite trim_space_digit_blank by done.
  destruct (d ++ to_chars " GRT") eqn:E; [|done]. apply app_eq_nil in E as [_ E]. discriminate.
Qed.

Lemma UnmarshalJSON_quoted s : UnmarshalJSON (of_chars (quote :: to_chars s ++ [quote])) = ParseGRT s.
Proof.
  unfold UnmarshalJSON, UnmarshalText. rewrite String.list_ascii_of_string_of_list_ascii.
  assert (rev (quote :: to_chars s ++ [quote]) = quote :: rev (quote :: to_chars s)) as ->.
  { cbn [rev]. rewrite rev_app_distr. done. }
  rewrite length_cons, length_app. change (length [quote]) with 1%nat.
  rewrite (proj2 (Nat.leb_le 2 _)) by lia. rewrite bool_decide_true by done. cbn [andb].
  rewrite Nat.add_sub, take_app_length, String.string_of_list_ascii_of_string. done.
Qed.

(** Every GRT amount survives the text and the JSON encodings: printing it
    as decimal GRT with the suffix and parsing it back gives the same 256-bit
    amount. *)
Theorem GRT_marshal_roundtrip (g : GRT) :
  UnmarshalText (MarshalText g) = Ok g /\ UnmarshalJSON (MarshalJSON g) = Ok g.
Proof.
  unfold MarshalText, MarshalJSON. split; [apply ParseGRT_String |].
  rewrite UnmarshalJSON_quoted. apply ParseGRT_String.
Qed.

Lemma GRT_BigInt_Mul g n :
  u64 n -> GRT_BigInt (GRT_Mul g n) = (GRT_BigInt g * n) mod two256.
Proof. intros. unfold GRT_BigInt, GRT_Mul. simpl. by rewrite ToBig_Mul, ToBig_NewInt. Qed.

Lemma GRT_BigInt_Add g1 g2 :
  GRT_BigInt (GRT_Add g1 g2) = (GRT_BigInt g1 + GRT_BigInt g2) mod two256.
Proof. apply ToBig_Add. Qed.

Lemma CalculateUsageCost_mod c blocks bytes :
  u64 blocks -> u64 bytes ->
  GRT_BigInt (CalculateUsageCost c blocks bytes) =
  (GRT_BigInt (PricePerBlock c) * blocks + GRT_BigInt (PricePerByte c) * bytes) mod two256.
Proof.
  intros. unfold CalculateUsageCost. rewrite GRT_BigInt_Add, !GRT_BigInt_Mul by done.
  symmetry. apply Z.add_mod. done.
Qed.

(** C40: the cost of metered usage is the exact sum of the block price and the
    byte price whenever that sum fits in 256 bits (it does for any counters
    when both prices are below 2^191 base units), and that sum modulo 2^256
    otherwise: the arithmetic wraps and never fails. *)
Theorem CalculateUsageCost_exact (c : PricingConfig) (blocks bytes : Z)
    (Hblocks : u64 blocks) (Hbytes : u64 bytes) :
  let cost := GRT_BigInt (PricePerBlock c) * blocks + GRT_BigInt (PricePerByte c) * bytes in
  GRT_BigInt (CalculateUsageCost c blocks bytes) = cost mod two256 /\
  (cost < two256 -> GRT_BigInt (CalculateUsageCost c blocks bytes) = cost) /\
  (GRT_BigInt (PricePerBlock c) < 2 ^ 191 -> GRT_BigInt (PricePerByte c) < 2 ^ 191 ->
   cost < two256).
Proof.
  intros cost. rewrite CalculateUsageCost_mod by done. fold cost.
  pose proof (GRT_BigInt_range (PricePerBlock c)). pose proof (GRT_BigInt_range (PricePerByte c)).
  unfold u64 in *. split_and!; [done | |].
  - intros. apply Z.mod_small. split; [|done]. unfold cost. nia.
  - intros. unfold cost, two256, two64 in *. change (2 ^ 256) with (2 ^ 191 * 2 ^ 64 * 2). nia.
Qed.

(** Subtraction saturates at zero and comparison is the comparison of
    amounts. *)
Theorem GRT_Sub_saturates (g other : GRT) :
  GRT_BigInt (GRT_Sub g other) = Z.max 0 (GRT_BigInt g - GRT_BigInt other) /\
  (GRT_Cmp g other < 0 <-> GRT_BigInt g < GRT_BigInt other) /\
  (GRT_Cmp g other = 0 <-> g = other).
Proof.
  pose proof (GRT_BigInt_range g). pose proof (GRT_BigInt_range other).
  unfold GRT_Sub, GRT_Cmp. rewrite Cmp_spec. fold (GRT_BigInt g) (GRT_BigInt other).
  rewrite cmpZ_ltb, cmpZ_lt, cmpZ_eq. split_and!; [|done|].
  - destruct (Z.ltb_spec (GRT_BigInt g) (GRT_BigInt other)).
    + unfold GRT_BigInt, ZeroGRT. simpl. rewrite ToBig_zero. fold (GRT_BigInt g) (GRT_BigInt other). lia.
    + unfold GRT_BigInt at 1. simpl. rewrite ToBig_Sub.
      fold (GRT_BigInt g) (GRT_BigInt other). rewrite Z.mod_small; lia.
  - split; [apply GRT_BigInt_inj | by intros ->].
Qed.

Lemma NewGRTFromBigInt_value z :
  0 <= z -> GRT_BigInt (NewGRTFromBigInt (Some z)) = Z.min z (two256 - 1).
Proof.
  intros Hz. unfold NewGRTFromBigInt, GRT_BigInt.
  destruct (Z_lt_le_dec z two256) as [Hlt|Hge].
  - destruct (FromBig_nat z) as (v & -> & Hv); [lia |]. simpl. lia.
  - pose proof (FromBig_overflow z ltac:(lia)) as Ho.
    destruct (uint256_FromBig z) as [v o]. simpl in *. rewrite Ho. rewrite ToBig_max. lia.
Qed.

Lemma ToBig_NewGRTFromBigInt_id g : NewGRTFromBigInt (Some (GRT_BigInt g)) = g.
Proof.
  apply GRT_BigInt_inj. pose proof (GRT_BigInt_range g).
  rewrite NewGRTFromBigInt_value; lia.
Qed.

(** Conversion from [big.Int] is exact up to 2^256 - 1 and clamps above;
    a nil pointer is zero. *)
Theorem NewGRTFromBigInt_clamps (x : option Z) (Hx : 0 <= default 0 x) :
  GRT_BigInt (NewGRTFromBigInt x) = Z.min (default 0 x) (two256 - 1).
Proof.
  destruct x as [z|]; simpl in *; [by apply NewGRTFromBigInt_value |].
  unfold GRT_BigInt. simpl. by rewrite ToBig_zero.
Qed.

Lemma trim_space_minus a : 0 <= a -> trim_space ("-"%char :: dec_nat a) = "-"%char :: dec_nat a.
Proof.
  intros Ha. unfold trim_space. rewrite trim_space_left_id by reflexivity.
  destruct (all_digits_ends _ (all_digits_dec_nat a Ha) (dec_nat_nonempty a Ha))
    as (_ & _ & _ & _ & d & init & -> & Hd).
  apply (trim_space_right_id d ("-"%char :: init)). by apply digit_not_space.
Qed.

Lemma parse_negative a :
  0 < a -> a * grtBaseBig < two256 ->
  exists g, parseDecimalToGRT ("-"%char :: dec_nat a) = Ok g /\
    GRT_BigInt g = two256 - a * grtBaseBig.
Proof.
  intros Ha Hb. pose proof (all_digits_dec_nat a ltac:(lia)) as Hd.
  pose proof (dec_nat_nonempty a ltac:(lia)) as Hne.
  destruct (FromBig_fits (- (a * grtBaseBig))) as [Ho Hv];
    [unfold grtBaseBig in *; rewrite Z.abs_neq; lia |].
  unfold parseDecimalToGRT.
  rewrite trim_space_minus by lia.
  change (strip_prefix ["-"%char] ("-"%char :: dec_nat a)) with (Some (dec_nat a)).
  pose proof (SetString_dec_nat a ltac:(lia)) as Hs.
  pose proof (split_on_absent _ _ (all_digits_no_dot _ Hd)) as Hsp.
  cbv beta iota zeta. rewrite Hsp. change (2 <? length [dec_nat a])%nat with false.
  cbv beta iota zeta. destruct (dec_nat a) as [|c l]; [done |].
  rewrite Hs. cbn [rbind]. destruct (uint256_FromBig (- (a * grtBaseBig))) as [v o].
  simpl in *. subst o. eexists. split; [done |]. unfold GRT_BigInt. simpl. rewrite Hv.
  rewrite <- (Z_mod_plus_full _ 1), Z.mod_small; unfold grtBaseBig in *; lia.
Qed.

Lemma dec_nat_no_suffix a :
  0 <= a -> has_suffix (to_chars "GRT") (map upper_char ("-"%char :: dec_nat a)) = false.
Proof.
  intros Ha. pose proof (all_digits_dec_nat a Ha) as Hd.
  pose proof (dec_nat_nonempty a Ha) as Hne.
  destruct (all_digits_ends _ Hd Hne) as (_ & _ & _ & _ & d & init & -> & [x Hx]).
  unfold has_suffix, has_prefix.
  change ("-"%char :: init ++ [d]) with (("-"%char :: init) ++ [d]).
  rewrite map_app, rev_app_distr. simpl.
  destruct d as [[] [] [] [] [] [] [] []]; vm_compute in Hx; try discriminate; reflexivity.
Qed.

(** A negative decimal is not rejected: the text "-a" parses to the
    two's-complement amount 2^256 - a*10^18, a huge positive number of base
    units. *)
Theorem ParseGRT_negative_wraps (a : Z) (Ha : 0 < a) (Hb : a * grtBaseBig < two256) :
  exists g, ParseGRT (of_chars ("-"%char :: dec_nat a)) = Ok g /\
    GRT_BigInt g = two256 - a * grtBaseBig.
Proof.
  destruct (parse_negative a Ha Hb) as (g & Hp & Hg). exists g. split; [|done].
  unfold ParseGRT. rewrite String.list_ascii_of_string_of_list_ascii.
  rewrite trim_space_minus by lia.
  by rewrite dec_nat_no_suffix by lia.
Qed.
End GRT.

Arguments GRT {_}.
Arguments PricingConfig {_}.

(** ** Witnesses *)
Import Reference.

Lemma GRT_marshal_roundtrip_witness :
  MarshalText (NewGRTFromUint64 1500000000000000000) = "1.5 GRT"%string /\
  UnmarshalText (MarshalText (NewGRTFromUint64 1500000000000000000)) =
    Ok (NewGRTFromUint64 1500000000000000000).
Proof.
  split; [vm_compute; reflexivity |].
  exact (proj1 (GRT_marshal_roundtrip (NewGRTFromUint64 1500000000000000000))).
Defined.

Lemma CalculateUsageCost_exact_witness :
  GRT_BigInt (CalculateUsageCost DefaultPricingConfig 1000 500000) = 118050000000000000.
Proof.
  rewrite (proj1 (CalculateUsageCost_exact DefaultPricingConfig 1000 500000
                    ltac:(vm_compute; split; congruence) ltac:(vm_compute; split; congruence))).
  vm_compute. reflexivity.
Defined.

Lemma GRT_Sub_saturates_witness :
  GRT_BigInt (GRT_Sub (NewGRTFromUint64 3) (NewGRTFromUint64 5)) = 0.
Proof.
  rewrite (proj1 (GRT_Sub_saturates (NewGRTFromUint64 3) (NewGRTFromUint64 5))).
  vm_compute. reflexivity.
Defined.

Lemma NewGRTFromBigInt_clamps_witness :
  GRT_BigInt (NewGRTFromBigInt (Some (2 ^ 300))) = 2 ^ 256 - 1.
Proof.
  rewrite (NewGRTFromBigInt_clamps (Some (2 ^ 300)) ltac:(vm_compute; congruence)).
  vm_compute. reflexivity.
Defined.

Lemma ParseGRT_negative_wraps_witness :
  exists g, ParseGRT "-1" = Ok g /\ GRT_BigInt g = 2 ^ 256 - 10 ^ 18.
Proof. exact (ParseGRT_negative_wraps 1 eq_refl eq_refl). Defined.
