(* ===== verification/Horizon.v ===== *)
(** Horizon vouchers ([horizon/types.go], [eip712.go], [signature.go],
    [signed_message.go]): receipts and receipt aggregate vouchers, their EIP-712
    encoding and hash, signing and signer recovery, and the low-S normal form of
    signatures.  Pointers that may be nil are options; a nil dereference or an
    out-of-range slice is the error value [GoPanic]. *)
From S2P Require Import Prelude.
From S2P Require Import GoStd.
From S2P Require Import External.

Definition GoPanic : go_error := ErrorsNew "runtime panic".

(** ** Types *)

Abbreviation CollectionID := (list byte).

Record Receipt : Type := mkReceipt {
  rcpt_CollectionID : CollectionID;
  rcpt_Payer : address;
  rcpt_DataService : address;
  rcpt_ServiceProvider : address;
  rcpt_TimestampNs : Z;
  rcpt_Nonce : Z;
  rcpt_Value : option Z
}.

Record RAV : Type := mkRAV {
  rav_CollectionID : CollectionID;
  rav_Payer : address;
  rav_ServiceProvider : address;
  rav_DataService : address;
  rav_TimestampNs : Z;
  rav_ValueAggregate : option Z;
  rav_Metadata : list byte
}.

Record SignedMessage (T : Type) : Type := mkSigned {
  Message : option T;
  Signature : signature
}.
Arguments mkSigned {T}.
Arguments Message {T}.
Arguments Signature {T}.

Abbreviation SignedReceipt := (SignedMessage Receipt).
Abbreviation SignedRAV := (SignedMessage RAV).

#[global] Instance Receipt_eq_dec : EqDecision Receipt.
Proof. solve_decision. Defined.
#[global] Instance RAV_eq_dec : EqDecision RAV.
Proof. solve_decision. Defined.
#[global] Instance SignedMessage_eq_dec {T} `{EqDecision T} : EqDecision (SignedMessage T).
Proof. solve_decision. Defined.

Definition MaxUint128 : Z := Z.shiftl 1 128 - 1.

(** ** Fixed-width encodings ([eip712.go] helpers) *)

Definition padLeft (l : list byte) (size : nat) : list byte :=
  if (size <=? length l)%nat then drop (length l - size) l
  else zeros (size - length l) ++ l.

(** [binary.BigEndian.PutUint64]. *)
Definition put_uint64 (v : Z) : list byte :=
  map (fun k => byte_of_Z (Z.shiftr v k)) [56; 48; 40; 32; 24; 16; 8; 0].

Definition encodeUint64 (v : Z) : list byte := zeros 24 ++ put_uint64 v.
Arguments encodeUint64 : simpl never.

(** A value of more than 32 bytes makes the slice bound negative: a panic. *)
Definition encodeUint128 (v : option Z) : result go_error (list byte) :=
  match v with
  | None => Ok (zeros 32)
  | Some z =>
      let l := Bytes z in
      if (32 <? length l)%nat then Err GoPanic else Ok (zeros (32 - length l) ++ l)
  end.

Section Horizon.
Context `{Eth}.

Definition string_bytes (s : string) : list byte := String.list_byte_of_string s.
Definition keccak256 (l : list byte) : hash := Keccak256 l.

(** The Go interface [EIP712Encodable]. *)
Class EIP712Encodable (T : Type) : Type := {
  EIP712TypeHash : hash;
  EIP712EncodeData : T -> result go_error (list byte)
}.

Definition eip712DomainTypeHash : hash := keccak256 (string_bytes
  "EIP712Domain(string name,string version,uint256 chainId,address verifyingContract)").
Definition receiptTypeHash : hash := keccak256 (string_bytes
  "Receipt(bytes32 collection_id,address payer,address data_service,address service_provider,uint64 timestamp_ns,uint64 nonce,uint128 value)").
Definition ravTypeHash : hash := keccak256 (string_bytes
  "ReceiptAggregateVoucher(bytes32 collectionId,address payer,address serviceProvider,address dataService,uint64 timestampNs,uint128 valueAggregate,bytes metadata)").

Definition Receipt_EncodeData (r : Receipt) : result go_error (list byte) :=
  let? value := encodeUint128 (rcpt_Value r) in
  Ok (rcpt_CollectionID r ++ padLeft (rcpt_Payer r) 32 ++ padLeft (rcpt_DataService r) 32 ++
      padLeft (rcpt_ServiceProvider r) 32 ++ encodeUint64 (rcpt_TimestampNs r) ++
      encodeUint64 (rcpt_Nonce r) ++ value).

Definition RAV_EncodeData (r : RAV) : result go_error (list byte) :=
  let? value := encodeUint128 (rav_ValueAggregate r) in
  Ok (rav_CollectionID r ++ padLeft (rav_Payer r) 32 ++ padLeft (rav_ServiceProvider r) 32 ++
      padLeft (rav_DataService r) 32 ++ encodeUint64 (rav_TimestampNs r) ++ value ++
      keccak256 (rav_Metadata r)).

#[global] Instance Receipt_EIP712 : EIP712Encodable Receipt :=
  {| EIP712TypeHash := receiptTypeHash; EIP712EncodeData := Receipt_EncodeData |}.
#[global] Instance RAV_EIP712 : EIP712Encodable RAV :=
  {| EIP712TypeHash := ravTypeHash; EIP712EncodeData := RAV_EncodeData |}.

Record Domain : Type := mkDomain {
  dom_Name : string;
  dom_Version : string;
  dom_ChainID : Z;
  dom_VerifyingContract : address
}.

Definition NewDomain (chainID : Z) (verifyingContract : address) : Domain :=
  mkDomain "GraphTallyCollector" "1" (wrap_s64 chainID) verifyingContract.

Definition Separator (d : Domain) : hash :=
  keccak256 (eip712DomainTypeHash ++ keccak256 (string_bytes (dom_Name d)) ++
             keccak256 (string_bytes (dom_Version d)) ++ padLeft (Bytes (dom_ChainID d)) 32 ++
             padLeft (dom_VerifyingContract d) 32).

Definition hashStruct {T} `{EIP712Encodable T} (message : T) : result go_error hash :=
  let? encoded := EIP712EncodeData message in
  Ok (keccak256 (EIP712TypeHash ++ encoded)).

Definition HashTypedData {T} `{EIP712Encodable T} (domain : Domain) (message : T) :
    result go_error hash :=
  let? structHash := hashStruct message in
  Ok (keccak256 ([Byte.x19; Byte.x01] ++ Separator domain ++ structHash)).

(** ** Signed messages *)

Definition horizon_Sign {T} `{EIP712Encodable T} (domain : Domain) (message : T) (key : PrivateKey) :
    result go_error (SignedMessage T) :=
  let? messageHash := HashTypedData domain message in
  match key_Sign key messageHash with
  | Ok sig => Ok (mkSigned (Some message) sig)
  | Err e => Err (Wrapf "signing message" e)
  end.

Definition RecoverSigner {T} `{EIP712Encodable T} (sm : SignedMessage T) (domain : Domain) :
    result go_error address :=
  match Message sm with
  | None => Err GoPanic
  | Some msg => let? messageHash := HashTypedData domain msg in
                Signature_Recover (Signature sm) messageHash
  end.

Lemma RecoverSigner_Sign {T} `{EIP712Encodable T} `{!EthLaws} domain (message : T) key sm :
  horizon_Sign domain message key = Ok sm ->
  Message sm = Some message /\ length (Signature sm) = 65%nat /\
  RecoverSigner sm domain = Ok (key_address key).
Proof.
  unfold horizon_Sign, RecoverSigner. intros (h & Eh & Hs)%rbind_Ok.
  destruct (key_Sign key h) as [sig|] eqn:Es; simplify_eq/=.
  split_and!; [done | by eapply key_Sign_length |]. rewrite Eh. simpl.
  by apply key_Sign_Recover.
Qed.
End Horizon.

(** ** Signature normal form ([signature.go]) *)

Definition secp256k1N : Z :=
  0xFFFFFFFFFFFFFFFFFFFFFFFFFFFFFFFEBAAEDCE6AF48A03BBFD25E8CD0364141.
Definition secp256k1HalfN : Z := Z.shiftr secp256k1N 1.

(** Byte arithmetic wraps at 8 bits. *)
Definition flipSignatureV (v : byte) : byte :=
  let n := byte_to_Z v in
  if n <? 27 then byte_of_Z (Z.lxor n 1)
  else
    let header := n - 27 in
    let recID := Z.land header 1 in
    let flags := Z.ldiff header 1 in
    byte_of_Z (27 + Z.lxor recID 1 + flags).

Definition normalizeSignature (sig : signature) : list byte :=
  let s := SetBytes (drop 33 sig) in
  if cmpZ s secp256k1HalfN >? 0 then
    let s := secp256k1N - s in
    let sBytes := Bytes s in
    let v := match sig with [] => Byte.x00 | v :: _ => v end in
    flipSignatureV v :: take 32 (drop 1 sig) ++ zeros (32 - length sBytes) ++ sBytes
  else sig.

Definition SignaturesEqual (a b : signature) : bool :=
  bool_decide (normalizeSignature a = normalizeSignature b).

Definition UniqueID {T} (sm : SignedMessage T) : list byte := normalizeSignature (Signature sm).

(** A 65-byte signature V || R || S with a scalar S below the curve order. *)
Definition wf_signature (sig : signature) : Prop :=
  length sig = 65%nat /\ 0 < SetBytes (drop 33 sig) < secp256k1N.

(** The malleated signature: the other root of the same curve point. *)
Definition malleate (sig : signature) : signature :=
  match sig with
  | [] => []
  | v :: r =>
      let l := Bytes (secp256k1N - SetBytes (drop 33 sig)) in
      flipSignatureV v :: take 32 r ++ zeros (32 - length l) ++ l
  end.

(** ** Lemmas on the encodings *)

Lemma put_uint64_length v : length (put_uint64 v) = 8%nat.
Proof. done. Qed.

Lemma SetBytes_put_uint64 v : u64 v -> SetBytes (put_uint64 v) = v.
Proof.
  intros Hv. unfold put_uint64, SetBytes, undigits. cbn [map fold_left].
  rewrite !byte_to_of_Z, !Z.shiftr_div_pow2 by lia. unfold u64, two64 in Hv.
  change (2 ^ 56) with (256 * 256 * 256 * 256 * 256 * 256 * 256).
  change (2 ^ 48) with (256 * 256 * 256 * 256 * 256 * 256).
  change (2 ^ 40) with (256 * 256 * 256 * 256 * 256). change (2 ^ 32) with (256 * 256 * 256 * 256).
  change (2 ^ 24) with (256 * 256 * 256). change (2 ^ 16) with (256 * 256).
  change (2 ^ 8) with 256. change (2 ^ 0) with 1. rewrite Z.div_1_r, <- !Z.div_div by lia.
  change (2 ^ 64) with (256 * 256 * 256 * 256 * 256 * 256 * 256 * 256) in Hv.
  Z.to_euclidean_division_equations. lia.
Qed.

Lemma encodeUint64_length v : length (encodeUint64 v) = 32%nat.
Proof. done. Qed.

Lemma encodeUint64_inj v w : u64 v -> u64 w -> encodeUint64 v = encodeUint64 w -> v = w.
Proof.
  intros Hv Hw E. apply (f_equal SetBytes) in E. unfold encodeUint64 in E.
  by rewrite !SetBytes_zeros, !SetBytes_put_uint64 in E.
Qed.

(** The value a nil [*big.Int] encodes as. *)
Definition value_of (v : option Z) : Z := default 0 v.

(** [encodeUint128] writes the value in exactly one 32-byte word, or panics. *)
Lemma encodeUint128_spec v l :
  0 <= value_of v -> encodeUint128 v = Ok l ->
  length l = 32%nat /\ SetBytes l = value_of v.
Proof.
  unfold encodeUint128, value_of. destruct v as [z|]; simpl; intros Hz E; [|simplify_eq].
  - destruct (Nat.ltb_spec 32 (length (Bytes z))); simplify_eq.
    rewrite SetBytes_zeros, SetBytes_Bytes. unfold zeros.
    rewrite length_app, length_replicate. split; lia.
  - done.
Qed.

Lemma encodeUint128_total z :
  0 <= z < two256 -> exists l, encodeUint128 (Some z) = Ok l.
Proof.
  intros H. unfold encodeUint128. pose proof (Bytes_length z 32 ltac:(unfold two256 in *; lia)).
  destruct (Nat.ltb_spec 32 (length (Bytes z))); [lia | eauto].
Qed.

Lemma padLeft_length l n : length (padLeft l n) = n.
Proof.
  unfold padLeft, zeros. destruct (Nat.leb_spec n (length l)).
  - rewrite length_drop. lia.
  - rewrite length_app, length_replicate. lia.
Qed.

Lemma padLeft_address_inj a b :
  length a = 20%nat -> length b = 20%nat -> padLeft a 32 = padLeft b 32 -> a = b.
Proof.
  intros Ha Hb. unfold padLeft. rewrite Ha, Hb. simpl. intros E. by simplify_eq.
Qed.

#[export] Hint Resolve padLeft_length encodeUint64_length : sds.

(** ** Well-formed vouchers *)

Definition wf_receipt (r : Receipt) : Prop :=
  length (rcpt_CollectionID r) = 32%nat /\ length (rcpt_Payer r) = 20%nat /\
  length (rcpt_DataService r) = 20%nat /\ length (rcpt_ServiceProvider r) = 20%nat /\
  u64 (rcpt_TimestampNs r) /\ u64 (rcpt_Nonce r) /\
  exists v, rcpt_Value r = Some v /\ 0 <= v < two256.

Definition wf_rav (r : RAV) : Prop :=
  length (rav_CollectionID r) = 32%nat /\ length (rav_Payer r) = 20%nat /\
  length (rav_ServiceProvider r) = 20%nat /\ length (rav_DataService r) = 20%nat /\
  u64 (rav_TimestampNs r) /\
  exists v, rav_ValueAggregate r = Some v /\ 0 <= v < two256.

Section EncodingTheorems.
Context `{EthLaws}.

Lemma RAV_EncodeData_total r :
  wf_rav r -> exists l, RAV_EncodeData r = Ok l /\ length l = 224%nat.
Proof.
  intros (Hc & _ & _ & _ & _ & v & Ev & Hv). unfold RAV_EncodeData. rewrite Ev.
  destruct (encodeUint128_total v Hv) as [l El]. rewrite El. cbn [rbind].
  eexists; split; [done |].
  apply encodeUint128_spec in El as [Hl _]; [|simpl; lia].
  unfold keccak256. generalize (encodeUint64_length (rav_TimestampNs r)).
  generalize (encodeUint64 (rav_TimestampNs r)). intros ts Hts.
  rewrite !length_app, !padLeft_length, Hts, Hl, Hc, Keccak256_length. done.
Qed.

Lemma RAV_hash_total domain r :
  wf_rav r -> exists h, HashTypedData domain r = Ok h.
Proof.
  intros [l [E _]]%RAV_EncodeData_total. unfold HashTypedData, hashStruct. simpl. rewrite E.
  simpl. eauto.
Qed.

(** C39: the EIP-712 encoding of a RAV binds every field of the voucher: two
    well-formed RAVs with the same encoding agree on the collection, the three
    parties, the timestamp and the value, and their metadata have the same
    Keccak hash; and each encoding is exactly seven 32-byte words. *)
Theorem RAV_EncodeData_binding r1 r2 l :
  wf_rav r1 -> wf_rav r2 -> RAV_EncodeData r1 = Ok l -> RAV_EncodeData r2 = Ok l ->
  length l = 224%nat /\
  rav_CollectionID r1 = rav_CollectionID r2 /\ rav_Payer r1 = rav_Payer r2 /\
  rav_ServiceProvider r1 = rav_ServiceProvider r2 /\ rav_DataService r1 = rav_DataService r2 /\
  rav_TimestampNs r1 = rav_TimestampNs r2 /\ rav_ValueAggregate r1 = rav_ValueAggregate r2 /\
  Keccak256 (rav_Metadata r1) = Keccak256 (rav_Metadata r2).
Proof.
  intros W1 W2 E1 E2. split.
  { destruct (RAV_EncodeData_total r1 W1) as (l' & E1' & ?). rewrite E1 in E1'. by injection E1' as ->. }
  destruct W1 as (? & ? & ? & ? & ? & v1 & Ev1 & ?), W2 as (? & ? & ? & ? & ? & v2 & Ev2 & ?).
  unfold RAV_EncodeData in E1, E2. rewrite Ev1 in E1. rewrite Ev2 in E2.
  apply rbind_Ok in E1 as (l1 & S1 & E1), E2 as (l2 & S2 & E2).
  apply encodeUint128_spec in S1 as [L1 S1], S2 as [L2 S2]; simpl; try lia.
  apply Ok_inj in E1, E2. rewrite <- E2 in E1. rename E1 into E.
  repeat (apply app_inj_1 in E as [? E]; [|first [done | rewrite ?padLeft_length; congruence]]).
  split_and!; try done; try (by apply padLeft_address_inj); [by apply encodeUint64_inj |].
  rewrite Ev1, Ev2. unfold value_of in *. simpl in S1, S2. congruence.
Qed.

Lemma Receipt_EncodeData_binding r1 r2 l :
  wf_receipt r1 -> wf_receipt r2 -> Receipt_EncodeData r1 = Ok l -> Receipt_EncodeData r2 = Ok l ->
  r1 = r2.
Proof.
  intros (? & ? & ? & ? & ? & ? & v1 & Ev1 & ?) (? & ? & ? & ? & ? & ? & v2 & Ev2 & ?).
  unfold Receipt_EncodeData. rewrite Ev1, Ev2.
  intros (l1 & S1 & E1)%rbind_Ok (l2 & S2 & E2)%rbind_Ok.
  apply encodeUint128_spec in S1 as [L1 S1], S2 as [L2 S2]; simpl; try lia.
  apply Ok_inj in E1, E2. rewrite <- E2 in E1. rename E1 into E.
  repeat (apply app_inj_1 in E as [? E]; [|first [done | rewrite ?padLeft_length; congruence]]).
  destruct r1, r2; simpl in *.
  f_equal; try (by apply padLeft_address_inj); try (by apply encodeUint64_inj); congruence.
Qed.
End EncodingTheorems.

Lemma RAV_EncodeData_binding_witness :
  let r := mkRAV (zeros 32) (zeros 20) (zeros 20) (zeros 20) 5 (Some 7) [] in
  length (default [] (match @RAV_EncodeData Reference.eth_ref r with Ok l => Some l | _ => None end))
  = 224%nat.
Proof.
  intros r.
  assert (W : wf_rav r)
    by (unfold wf_rav, u64, two64, two256; simpl; split_and!; try done; exists 7; split; [done | lia]).
  destruct (@RAV_EncodeData Reference.eth_ref r) as [l|] eqn:E; [|vm_compute in E; discriminate].
  exact (proj1 (@RAV_EncodeData_binding Reference.eth_ref Reference.eth_ref_laws r r l W W E E)).
Defined.

(** ** Signatures: the normal form identifies exactly the two malleable twins *)

Definition word32 (z : Z) : list byte := let l := Bytes z in zeros (32 - length l) ++ l.

Lemma word32_length z : Z.abs z < two256 -> length (word32 z) = 32%nat.
Proof.
  intros Hz. pose proof (Bytes_length z 32 Hz). unfold word32, zeros.
  rewrite length_app, length_replicate. lia.
Qed.

Lemma SetBytes_word32 z : SetBytes (word32 z) = Z.abs z.
Proof. unfold word32. rewrite SetBytes_zeros. apply SetBytes_Bytes. Qed.

Lemma word32_SetBytes l : length l = 32%nat -> word32 (SetBytes l) = l.
Proof.
  intros Hl. pose proof (SetBytes_bound l) as Hb. rewrite Hl in Hb.
  assert (Z.abs (SetBytes l) < two256) by (unfold two256; lia).
  apply SetBytes_inj; [rewrite word32_length; congruence |]. rewrite SetBytes_word32. lia.
Qed.

(** Recovery bytes on which [flipSignatureV] is its own inverse: all but the two
    at the ends of its ranges. *)
Definition flippable (v : byte) : bool :=
  negb (byte_to_Z v =? 26) && negb (byte_to_Z v =? 255).

Lemma flipSignatureV_involutive v :
  flippable v = true -> flipSignatureV (flipSignatureV v) = v /\ flippable (flipSignatureV v) = true.
Proof. destruct v; vm_compute; intuition discriminate. Qed.

Definition sig_V (sig : signature) : byte := match sig with [] => Byte.x00 | v :: _ => v end.

(** The parts of a well-formed signature. *)
Lemma wf_signature_parts sig :
  wf_signature sig -> exists v r s, sig = v :: r ++ s /\ length r = 32%nat /\ length s = 32%nat /\
    0 < SetBytes s < secp256k1N.
Proof.
  intros [Hl Hs]. destruct sig as [|v l]; [done |]. simpl in Hl.
  exists v, (take 32 l), (drop 32 l). rewrite take_drop, length_take, length_drop.
  split_and!; try done; try lia; apply Hs.
Qed.

Section SignatureParts.
Variables (v : byte) (r s : list byte).
Hypotheses (Hr : length r = 32%nat) (Hs : length s = 32%nat).

Lemma signature_S : drop 33 (v :: r ++ s) = s.
Proof. simpl. by rewrite drop_app_length'. Qed.

Lemma normalizeSignature_parts :
  normalizeSignature (v :: r ++ s) =
  if SetBytes s >? secp256k1HalfN then flipSignatureV v :: r ++ word32 (secp256k1N - SetBytes s)
  else v :: r ++ s.
Proof.
  unfold normalizeSignature. rewrite signature_S, cmpZ_gtb. case_match; [|done].
  change (drop 1 (v :: r ++ s)) with (r ++ s). by rewrite take_app_length'.
Qed.

Lemma malleate_parts :
  malleate (v :: r ++ s) = flipSignatureV v :: r ++ word32 (secp256k1N - SetBytes s).
Proof. unfold malleate. rewrite signature_S, take_app_length' by done. done. Qed.
End SignatureParts.

Lemma secp256k1N_odd : secp256k1N = 2 * secp256k1HalfN + 1.
Proof. reflexivity. Qed.
Lemma secp256k1N_range : 0 < secp256k1N < two256.
Proof. split; reflexivity. Qed.

(** [N - S] as a word, for a scalar [S] of the group. *)
Lemma complement_word z :
  0 < z < secp256k1N ->
  length (word32 (secp256k1N - z)) = 32%nat /\ SetBytes (word32 (secp256k1N - z)) = secp256k1N - z.
Proof.
  intros H. pose proof secp256k1N_range. rewrite SetBytes_word32.
  split; [apply word32_length |]; lia.
Qed.

Lemma malleate_spec sig :
  wf_signature sig -> flippable (sig_V sig) = true ->
  wf_signature (malleate sig) /\ flippable (sig_V (malleate sig)) = true /\
  malleate (malleate sig) = sig /\ malleate sig <> sig /\
  normalizeSignature (malleate sig) = normalizeSignature sig.
Proof.
  intros (v & r & s & -> & Hr & Hs & HS)%wf_signature_parts Hv. simpl in Hv.
  apply flipSignatureV_involutive in Hv as [Hvv Hv].
  destruct (complement_word _ HS) as [Hl HC]. pose proof secp256k1N_odd.
  rewrite malleate_parts, malleate_parts, !normalizeSignature_parts by done. rewrite HC, Hvv.
  replace (secp256k1N - (secp256k1N - SetBytes s)) with (SetBytes s) by lia.
  rewrite word32_SetBytes by done. split_and!; try done.
  - unfold wf_signature. rewrite signature_S by done. rewrite length_cons, length_app, HC. lia.
  - intros [= _ E]. apply app_inv_head in E. apply (f_equal SetBytes) in E. lia.
  - rewrite !Z.gtb_ltb. do 2 (case_match; bool_props); try lia; done.
Qed.

Lemma normalizeSignature_low sig :
  wf_signature sig ->
  wf_signature (normalizeSignature sig) /\
  SetBytes (drop 33 (normalizeSignature sig)) <= secp256k1HalfN.
Proof.
  intros (v & r & s & -> & Hr & Hs & HS)%wf_signature_parts.
  rewrite normalizeSignature_parts by done. pose proof secp256k1N_odd.
  destruct (complement_word _ HS) as [Hl HC]. unfold wf_signature.
  case_match; bool_props; rewrite !signature_S, ?HC by done; rewrite length_cons, length_app; lia.
Qed.

Lemma normalizeSignature_cases sig :
  wf_signature sig ->
  normalizeSignature sig = sig /\ SetBytes (drop 33 sig) <= secp256k1HalfN \/
  normalizeSignature sig = malleate sig /\ secp256k1HalfN < SetBytes (drop 33 sig).
Proof.
  intros (v & r & s & -> & Hr & Hs & HS)%wf_signature_parts.
  rewrite normalizeSignature_parts, malleate_parts, signature_S by done.
  case_match; bool_props; auto.
Qed.

Lemma normalizeSignature_idem sig :
  wf_signature sig -> normalizeSignature (normalizeSignature sig) = normalizeSignature sig.
Proof.
  intros W. destruct (normalizeSignature_low sig W) as [W' L].
  destruct (normalizeSignature_cases _ W') as [[? _]|[_ ?]]; [done | lia].
Qed.

(** Signature equality after normalization identifies a signature with its
    malleated twin and with nothing else, so a malleated copy of a receipt is
    always recognised and two different signatures are never confused; the
    normal form is itself low-S and stable. *)
Theorem SignaturesEqual_iff a b :
  wf_signature a -> wf_signature b -> flippable (sig_V a) = true -> flippable (sig_V b) = true ->
  (SignaturesEqual a b = true <-> b = a \/ b = malleate a) /\
  SetBytes (drop 33 (normalizeSignature a)) <= secp256k1HalfN /\
  normalizeSignature (normalizeSignature a) = normalizeSignature a.
Proof.
  intros Wa Wb Va Vb. split; [|split; [by apply normalizeSignature_low | by apply normalizeSignature_idem]].
  unfold SignaturesEqual. rewrite bool_decide_eq_true.
  pose proof (malleate_spec a Wa Va) as (_ & _ & Ma & _ & Na).
  pose proof (malleate_spec b Wb Vb) as (_ & _ & Mb & _ & _).
  split; [|intros [-> | ->]; congruence].
  destruct (normalizeSignature_cases a Wa) as [[-> _]|[-> _]],
    (normalizeSignature_cases b Wb) as [[-> _]|[-> _]]; intros E; auto; try (right; congruence).
  left. congruence.
Qed.

Lemma SignaturesEqual_iff_witness :
  let a := Byte.x1b :: zeros 31 ++ [Byte.x01] ++ zeros 31 ++ [Byte.x02] in
  SignaturesEqual a (malleate a) = true /\ a <> malleate a.
Proof.
  intros a.
  assert (Wa : wf_signature a) by (split; [reflexivity | vm_compute; done]).
  destruct (malleate_spec a Wa eq_refl) as (Wb & Vb & _ & D & _). split; [|congruence].
  apply (proj1 (SignaturesEqual_iff a (malleate a) Wa Wb eq_refl Vb)). by right.
Defined.
