(* ===== verification/Aggregator.v ===== *)
(** Receipt aggregation ([horizon/aggregator.go]): the checks on a batch of
    signed receipts, the aggregation loop with its overflow test, and a
    declarative specification ([aggregable], [aggregated]) that the code is
    proved to implement exactly. *)
From S2P Require Import Prelude.
From S2P Require Import GoStd.
From S2P Require Import External.
From S2P Require Import Horizon.

Definition ErrNoReceipts := ErrorsNew "no valid receipts for RAV request".
Definition ErrAggregateOverflow := ErrorsNew "aggregating receipt results in overflow".
Definition ErrDuplicateSignature := ErrorsNew "duplicate receipt signature detected".
Definition ErrInvalidTimestamp := ErrorsNew "receipt timestamp not greater than previous RAV".
Definition ErrCollectionMismatch := ErrorsNew "receipts have different collection IDs".
Definition ErrPayerMismatch := ErrorsNew "receipts have different payer addresses".
Definition ErrServiceProviderMismatch := ErrorsNew "receipts have different service provider addresses".
Definition ErrDataServiceMismatch := ErrorsNew "receipts have different data service addresses".
Definition ErrInvalidSigner := ErrorsNew "receipt signed by unauthorized signer".
Definition ErrRAVSignerMismatch := ErrorsNew "previous RAV signed by unauthorized signer".

(** A pointer dereference: nil panics. *)
Definition deref {A} (p : option A) : result go_error A :=
  match p with Some a => Ok a | None => Err GoPanic end.

(** [addressesEqual]: length test, then byte by byte. *)
Fixpoint bytes_equal (a b : list byte) : bool :=
  match a, b with
  | [], _ => true
  | x :: a', y :: b' => if decide (x = y) then bytes_equal a' b' else false
  | _ :: _, [] => false
  end.
Definition addressesEqual (a b : address) : bool :=
  if (length a =? length b)%nat then bytes_equal a b else false.

Lemma addressesEqual_spec a b : addressesEqual a b = true <-> a = b.
Proof.
  unfold addressesEqual. split.
  - destruct (Nat.eqb_spec (length a) (length b)) as [E|]; [|done].
    revert b E. induction a as [|x a IH]; intros [|y b] E; try done.
    simpl. case_decide; [|done]. intros. f_equal; auto.
  - intros <-. rewrite Nat.eqb_refl. induction a; simpl; [done |]. by rewrite decide_True.
Qed.

Section Aggregator.
Context `{Eth}.

Record Aggregator : Type := mkAggregator {
  agg_domain : Domain;
  agg_signerKey : PrivateKey;
  agg_acceptedSigners : gmap string bool
}.

Definition NewAggregator (domain : Domain) (signerKey : PrivateKey) (accepted : list address) : Aggregator :=
  mkAggregator domain signerKey
    (fold_left (fun m addr => <[Pretty addr := true]> m) accepted ∅).

(** A missing key of a Go [map[string]bool] reads as false. *)
Definition accepts (a : Aggregator) (signer : address) : bool :=
  default false (agg_acceptedSigners a !! Pretty signer).

Fixpoint checkSignaturesUnique_loop (seen : gmap (list byte) bool) (receipts : list SignedReceipt) :
    result go_error unit :=
  match receipts with
  | [] => Ok tt
  | r :: rest =>
      let normalized := normalizeSignature (Signature r) in
      if default false (seen !! normalized) then Err ErrDuplicateSignature
      else checkSignaturesUnique_loop (<[normalized := true]> seen) rest
  end.
Definition checkSignaturesUnique := checkSignaturesUnique_loop ∅.

Fixpoint verifyReceiptSigners (a : Aggregator) (receipts : list SignedReceipt) : result go_error unit :=
  match receipts with
  | [] => Ok tt
  | r :: rest =>
      let? signer := RecoverSigner r (agg_domain a) in
      if accepts a signer then verifyReceiptSigners a rest else Err ErrInvalidSigner
  end.

Definition verifyRAVSigner (a : Aggregator) (rav : SignedRAV) : result go_error unit :=
  let? signer := RecoverSigner rav (agg_domain a) in
  if accepts a signer then Ok tt else Err ErrRAVSignerMismatch.

Fixpoint checkReceiptTimestamps_loop (ravTimestamp : Z) (receipts : list SignedReceipt) :
    result go_error unit :=
  match receipts with
  | [] => Ok tt
  | r :: rest =>
      let? m := deref (Message r) in
      if rcpt_TimestampNs m <=? ravTimestamp then Err ErrInvalidTimestamp
      else checkReceiptTimestamps_loop ravTimestamp rest
  end.
Definition checkReceiptTimestamps (receipts : list SignedReceipt) (previousRAV : option SignedRAV) :
    result go_error unit :=
  match previousRAV with
  | None => Ok tt
  | Some p => let? m := deref (Message p) in checkReceiptTimestamps_loop (rav_TimestampNs m) receipts
  end.

Fixpoint validateReceiptConsistency_loop (first : Receipt) (receipts : list SignedReceipt) :
    result go_error unit :=
  match receipts with
  | [] => Ok tt
  | r :: rest =>
      let? m := deref (Message r) in
      if negb (bool_decide (rcpt_CollectionID m = rcpt_CollectionID first)) then Err ErrCollectionMismatch
      else if negb (addressesEqual (rcpt_Payer m) (rcpt_Payer first)) then Err ErrPayerMismatch
      else if negb (addressesEqual (rcpt_ServiceProvider m) (rcpt_ServiceProvider first))
      then Err ErrServiceProviderMismatch
      else if negb (addressesEqual (rcpt_DataService m) (rcpt_DataService first))
      then Err ErrDataServiceMismatch
      else validateReceiptConsistency_loop first rest
  end.
Definition validateReceiptConsistency (receipts : list SignedReceipt) : result go_error unit :=
  match receipts with
  | [] => Ok tt
  | [_] => Ok tt
  | r :: rest => let? first := deref (Message r) in validateReceiptConsistency_loop first rest
  end.

Definition validateRAVConsistency (receipt : Receipt) (rav : RAV) : result go_error unit :=
  if negb (bool_decide (rcpt_CollectionID receipt = rav_CollectionID rav)) then Err ErrCollectionMismatch
  else if negb (addressesEqual (rcpt_Payer receipt) (rav_Payer rav)) then Err ErrPayerMismatch
  else if negb (addressesEqual (rcpt_ServiceProvider receipt) (rav_ServiceProvider rav))
  then Err ErrServiceProviderMismatch
  else if negb (addressesEqual (rcpt_DataService receipt) (rav_DataService rav))
  then Err ErrDataServiceMismatch
  else Ok tt.

(** The loop of [aggregate]: running timestamp maximum and checked sum. *)
Fixpoint aggregate_loop (timestampMax valueAggregate : Z) (receipts : list SignedReceipt) :
    result go_error (Z * Z) :=
  match receipts with
  | [] => Ok (timestampMax, valueAggregate)
  | r :: rest =>
      let? receipt := deref (Message r) in
      let? value := deref (rcpt_Value receipt) in
      let newValue := valueAggregate + value in
      if cmpZ newValue MaxUint128 >? 0 then Err ErrAggregateOverflow
      else aggregate_loop
             (if rcpt_TimestampNs receipt >? timestampMax then rcpt_TimestampNs receipt else timestampMax)
             newValue rest
  end.

Definition aggregate (receipts : list SignedReceipt) (previousRAV : option SignedRAV) :
    result go_error RAV :=
  let? first := match receipts with [] => Err GoPanic | r :: _ => Ok (Message r) end in
  let? start := match previousRAV with
                         | None => Ok (0, 0)
                         | Some p => let? m := deref (Message p) in
                                     let? v := deref (rav_ValueAggregate m) in
                                     Ok (rav_TimestampNs m, v)
                         end in
  let '(ts0, value0) := start in
  let? totals := aggregate_loop ts0 value0 receipts in
  let '(timestampMax, valueAggregate) := totals in
  let? first := deref first in
  Ok (mkRAV (rcpt_CollectionID first) (rcpt_Payer first) (rcpt_ServiceProvider first)
        (rcpt_DataService first) timestampMax (Some valueAggregate) []).

Definition AggregateReceipts (a : Aggregator) (receipts : list SignedReceipt)
    (previousRAV : option SignedRAV) : result go_error SignedRAV :=
  match receipts with
  | [] => Err ErrNoReceipts
  | r0 :: _ =>
      let? _ := checkSignaturesUnique receipts in
      let? _ := verifyReceiptSigners a receipts in
      let? _ := match previousRAV with Some p => verifyRAVSigner a p | None => Ok tt end in
      let? _ := checkReceiptTimestamps receipts previousRAV in
      let? _ := validateReceiptConsistency receipts in
      let? _ := match previousRAV with
                | Some p => let? m := deref (Message p) in
                            let? first := deref (Message r0) in
                            validateRAVConsistency first m
                | None => Ok tt
                end in
      let? rav := aggregate receipts previousRAV in
      horizon_Sign (agg_domain a) rav (agg_signerKey a)
  end.
End Aggregator.

(** ** Specification *)

Section Spec.
Context `{Eth}.

(** A batch of receipts with messages and values present, and the previous RAV. *)
Abbreviation batch := (list (Receipt * signature)).
Definition signed {T} (p : T * signature) : SignedMessage T := mkSigned (Some p.1) p.2.

Definition receipt_value (p : Receipt * signature) : Z := value_of (rcpt_Value p.1).
Definition receipt_ts (p : Receipt * signature) : Z := rcpt_TimestampNs p.1.
Definition sum_values (b : batch) : Z := foldr Z.add 0 (map receipt_value b).
Definition max_ts (t : Z) (b : batch) : Z := foldr Z.max t (map receipt_ts b).

Definition prev_value (prev : option (RAV * signature)) : Z :=
  match prev with Some p => value_of (rav_ValueAggregate p.1) | None => 0 end.
Definition prev_ts (prev : option (RAV * signature)) : Z :=
  match prev with Some p => rav_TimestampNs p.1 | None => 0 end.

Definition valued (b : batch) : Prop :=
  Forall (fun p => exists v, rcpt_Value p.1 = Some v /\ 0 <= v) b.
Definition prev_valued (prev : option (RAV * signature)) : Prop :=
  match prev with Some p => is_Some (rav_ValueAggregate p.1) | None => True end.

(** Collection and parties of a receipt, in the order of the RAV's fields. *)
Definition receipt_parties (r : Receipt) :=
  (rcpt_CollectionID r, rcpt_Payer r, rcpt_ServiceProvider r, rcpt_DataService r).
Definition rav_parties (r : RAV) :=
  (rav_CollectionID r, rav_Payer r, rav_ServiceProvider r, rav_DataService r).

Definition signed_by_accepted {T} `{!EIP712Encodable T} (a : Aggregator) (sm : SignedMessage T) : Prop :=
  exists s, RecoverSigner sm (agg_domain a) = Ok s /\ accepts a s = true.

(** When a batch may be aggregated on top of a previous RAV. *)
Record aggregable (a : Aggregator) (first : Receipt * signature) (b : batch)
    (prev : option (RAV * signature)) : Prop := {
  ag_unique : NoDup (map (fun p : Receipt * signature => normalizeSignature p.2) (first :: b));
  ag_signers : Forall (fun p => signed_by_accepted a (signed p)) (first :: b);
  ag_parties : Forall (fun p => receipt_parties p.1 = receipt_parties first.1) b;
  ag_prev : match prev with
            | None => True
            | Some p => signed_by_accepted a (signed p) /\
                        rav_parties p.1 = receipt_parties first.1 /\
                        Forall (fun q => rav_TimestampNs p.1 < receipt_ts q) (first :: b)
            end;
  ag_fits : prev_value prev + sum_values (first :: b) <= MaxUint128
}.

(** The RAV the batch aggregates to. *)
Definition aggregated (first : Receipt * signature) (b : batch) (prev : option (RAV * signature)) : RAV :=
  mkRAV (rcpt_CollectionID first.1) (rcpt_Payer first.1) (rcpt_ServiceProvider first.1)
    (rcpt_DataService first.1) (max_ts (prev_ts prev) (first :: b))
    (Some (prev_value prev + sum_values (first :: b))) [].

(** ** Each check decides its clause of the specification *)

Lemma checkSignaturesUnique_iff (b : batch) :
  checkSignaturesUnique (map signed b) = Ok tt <->
  NoDup (map (fun p : Receipt * signature => normalizeSignature p.2) b).
Proof.
  unfold checkSignaturesUnique.
  enough (forall seen, (forall k, default false (seen !! k) = true <-> is_Some (seen !! k)) ->
    checkSignaturesUnique_loop seen (map signed b) = Ok tt <->
    NoDup (map (fun p : Receipt * signature => normalizeSignature p.2) b) /\
    Forall (fun p : Receipt * signature => seen !! normalizeSignature p.2 = None) b) as E.
  { rewrite E by (intros k; rewrite lookup_empty; split; [done | by intros []]).
    split; [naive_solver |]. intros; split; [done |]. apply Forall_true; intros; apply lookup_empty. }
  induction b as [|p b IH]; intros seen Hseen; cbn [map checkSignaturesUnique_loop].
  { split; [split; constructor | done]. }
  rewrite list.NoDup_cons, list.Forall_cons. unfold signed at 1 2. cbn [Signature].
  destruct (default false _) eqn:E.
  { split; [done |]. intros [_ [E' _]]. rewrite E' in E. done. }
  rewrite IH.
  - assert (seen !! normalizeSignature p.2 = None) as Hn.
    { destruct (seen !! normalizeSignature p.2) eqn:E1; [|done].
      assert (is_Some (seen !! normalizeSignature p.2)) as ?%Hseen by (rewrite E1; eauto).
      rewrite E1 in *. simpl in *. congruence. }
    assert (Forall (fun q : Receipt * signature => <[normalizeSignature p.2:=true]> seen !! normalizeSignature q.2 = None) b <->
      (normalizeSignature p.2 ∉ map (fun q : Receipt * signature => normalizeSignature q.2) b) /\
      Forall (fun q : Receipt * signature => seen !! normalizeSignature q.2 = None) b) as ->; [|naive_solver].
    rewrite !list.Forall_forall, list_elem_of_fmap. setoid_rewrite lookup_insert_None. naive_solver.
  - intros k. destruct (decide (k = normalizeSignature p.2)) as [->|].
    + rewrite lookup_insert_eq. simpl. split; eauto.
    + rewrite lookup_insert_ne by done. apply Hseen.
Qed.

Lemma verifyReceiptSigners_iff a (b : batch) :
  verifyReceiptSigners a (map signed b) = Ok tt <->
  Forall (fun p => signed_by_accepted a (signed p)) b.
Proof.
  induction b as [|p b IH]; cbn [map verifyReceiptSigners]; [split; done |].
  rewrite list.Forall_cons, rbind_Ok, <- IH. unfold signed_by_accepted. split.
  - intros (s & E & ?). destruct (accepts a s) eqn:?; naive_solver.
  - intros [(s & E & Ha) ?]. exists s. by rewrite Ha.
Qed.

Lemma verifyRAVSigner_iff a p :
  verifyRAVSigner a (signed p) = Ok tt <-> signed_by_accepted a (signed p).
Proof.
  unfold verifyRAVSigner, signed_by_accepted. rewrite rbind_Ok.
  split; intros (s & E & Ha); exists s; [|by rewrite Ha]. destruct (accepts a s); naive_solver.
Qed.

Lemma checkReceiptTimestamps_iff t (b : batch) :
  checkReceiptTimestamps_loop t (map signed b) = Ok tt <-> Forall (fun q => t < receipt_ts q) b.
Proof.
  induction b as [|p b IH]; cbn [map checkReceiptTimestamps_loop]; [split; done |].
  rewrite list.Forall_cons, <- IH. simpl. destruct (Z.leb_spec (rcpt_TimestampNs p.1) t);
    unfold receipt_ts; split; try naive_solver lia.
Qed.

(** The four comparisons shared by the two consistency checks. *)
Lemma parties_test {A} (c1 c2 : CollectionID) (p1 p2 s1 s2 d1 d2 : address) (k : result go_error A) x :
  (if negb (bool_decide (c1 = c2)) then Err ErrCollectionMismatch
   else if negb (addressesEqual p1 p2) then Err ErrPayerMismatch
   else if negb (addressesEqual s1 s2) then Err ErrServiceProviderMismatch
   else if negb (addressesEqual d1 d2) then Err ErrDataServiceMismatch else k) = Ok x <->
  (c1, p1, s1, d1) = (c2, p2, s2, d2) /\ k = Ok x.
Proof.
  case_bool_decide; simpl; [|naive_solver].
  destruct (addressesEqual p1 p2) eqn:E1; simpl; rewrite ?addressesEqual_spec in E1.
  2: { split; [done |]. intros [[= ? -> ? ?] _]. by rewrite (proj2 (addressesEqual_spec _ _) eq_refl) in E1. }
  destruct (addressesEqual s1 s2) eqn:E2; simpl; rewrite ?addressesEqual_spec in E2.
  2: { split; [done |]. intros [[= ? ? -> ?] _]. by rewrite (proj2 (addressesEqual_spec _ _) eq_refl) in E2. }
  destruct (addressesEqual d1 d2) eqn:E3; simpl; rewrite ?addressesEqual_spec in E3.
  2: { split; [done |]. intros [[= ? ? ? ->] _]. by rewrite (proj2 (addressesEqual_spec _ _) eq_refl) in E3. }
  naive_solver.
Qed.

Lemma validateReceiptConsistency_iff (first : Receipt * signature) (b : batch) :
  validateReceiptConsistency (map signed (first :: b)) = Ok tt <->
  Forall (fun p => receipt_parties p.1 = receipt_parties first.1) b.
Proof.
  assert (validateReceiptConsistency (map signed (first :: b)) =
          validateReceiptConsistency_loop first.1 (map signed b)) as -> by (by destruct b).
  induction b as [|p b IH]; cbn [map validateReceiptConsistency_loop]; [split; done |].
  rewrite list.Forall_cons, <- IH. cbn [Message signed deref rbind]. apply parties_test.
Qed.

Lemma validateRAVConsistency_iff r v :
  validateRAVConsistency r v = Ok tt <-> rav_parties v = receipt_parties r.
Proof. unfold validateRAVConsistency. rewrite parties_test. unfold rav_parties. naive_solver. Qed.

Lemma sum_values_cons p b : sum_values (p :: b) = receipt_value p + sum_values b.
Proof. done. Qed.
Lemma sum_values_nonneg b : valued b -> 0 <= sum_values b.
Proof.
  induction 1 as [|p b (v & E & ?) _ IH]; [done |]. rewrite sum_values_cons.
  unfold receipt_value. rewrite E. simpl. lia.
Qed.
Lemma max_ts_cons t p b : max_ts t (p :: b) = Z.max (receipt_ts p) (max_ts t b).
Proof. done. Qed.
Lemma max_ts_comm t u b : max_ts (Z.max t u) b = Z.max u (max_ts t b).
Proof. unfold max_ts. induction b; simpl; lia. Qed.

(** The loop computes the sum and the maximum, and stops exactly on overflow:
    with non-negative values a prefix overflows iff the whole batch does. *)
Lemma aggregate_loop_iff t v (b : batch) x :
  valued b ->
  aggregate_loop t v (map signed b) = Ok x <->
  (b <> [] -> v + sum_values b <= MaxUint128) /\ x = (max_ts t b, v + sum_values b).
Proof.
  intros Hb. revert t v. induction Hb as [|p b (w & Ew & Hw) Hb IH]; intros t v.
  { simpl. unfold sum_values, max_ts. simpl. rewrite Z.add_0_r. naive_solver. }
  cbn [map aggregate_loop signed Message deref rbind]. rewrite Ew. cbn [deref rbind].
  rewrite cmpZ_gtb, sum_values_cons, max_ts_cons. pose proof (sum_values_nonneg b Hb).
  assert (receipt_value p = w) as -> by (unfold receipt_value; by rewrite Ew).
  rewrite Z.gtb_ltb. destruct (Z.ltb_spec MaxUint128 (v + w)).
  { split; [done |]. intros [Hle _]. specialize (Hle ltac:(done)). lia. }
  rewrite IH. replace (v + w + sum_values b) with (v + (w + sum_values b)) by lia.
  assert (max_ts (if rcpt_TimestampNs p.1 >? t then rcpt_TimestampNs p.1 else t) b =
    Z.max (receipt_ts p) (max_ts t b)) as ->.
  { rewrite <- max_ts_comm. f_equal. unfold receipt_ts. rewrite Z.gtb_ltb.
    destruct (Z.ltb_spec t (rcpt_TimestampNs p.1)); lia. }
  destruct b; [|naive_solver].
  change (sum_values []) with 0 in *. split; intros [? ->]; split; auto with lia.
Qed.

Lemma aggregate_iff first (b : batch) prev x :
  valued (first :: b) -> prev_valued prev ->
  aggregate (map signed (first :: b)) (signed <$> prev) = Ok x <->
  prev_value prev + sum_values (first :: b) <= MaxUint128 /\ x = aggregated first b prev.
Proof.
  intros Hb Hp. unfold aggregate, aggregated.
  assert (match (signed <$> prev : option SignedRAV) with
          | None => Ok (0, 0)
          | Some p => let? m := deref (Message p) in
                      let? v := deref (rav_ValueAggregate m) in Ok (rav_TimestampNs m, v)
          end = @Ok go_error _ (prev_ts prev, prev_value prev)) as ->.
  { destruct prev as [[m s]|]; [|done]. simpl in *. destruct Hp as [v Ev]. by rewrite Ev. }
  cbn [map rbind signed Message deref]. rewrite rbind_Ok. split.
  - intros (t & E & Ex). apply (aggregate_loop_iff _ _ (first :: b)) in E as [E ->]; [|done].
    split; [by apply E | by simplify_eq].
  - intros [Hle ->].
    exists (max_ts (prev_ts prev) (first :: b), prev_value prev + sum_values (first :: b)).
    split; [|done]. by apply (aggregate_loop_iff _ _ (first :: b)).
Qed.
End Spec.

(** ** The aggregator implements its specification *)

Section Correctness.
Context `{Eth}.

Lemma AggregateReceipts_iff a first b prev s :
  valued (first :: b) -> prev_valued prev ->
  AggregateReceipts a (map signed (first :: b)) (signed <$> prev) = Ok s <->
  aggregable a first b prev /\
  horizon_Sign (agg_domain a) (aggregated first b prev) (agg_signerKey a) = Ok s.
Proof.
  intros Hb Hp. unfold AggregateReceipts.
  change (map signed (first :: b)) with (signed first :: map signed b) at 1. cbn match.
  split.
  - intros ([] & E1%checkSignaturesUnique_iff & ([] & E2%verifyReceiptSigners_iff &
      ([] & E3 & ([] & E4 & ([] & E5%validateReceiptConsistency_iff & ([] & E6 &
      (rav & E7%aggregate_iff & E8)%rbind_Ok)%rbind_Ok)%rbind_Ok)%rbind_Ok)%rbind_Ok)%rbind_Ok)%rbind_Ok; [|done..].
    destruct E7 as [Hfit ->]. split; [|done]. split; try done.
    destruct prev as [p|]; [|done]. simpl in E3, E6.
    rewrite validateRAVConsistency_iff in E6. rewrite verifyRAVSigner_iff in E3.
    by apply (checkReceiptTimestamps_iff _ (first :: b)) in E4.
  - intros [[H1 H2 H3 H4 H5] Hs].
    rewrite (proj2 (checkSignaturesUnique_iff _) H1), (proj2 (verifyReceiptSigners_iff _ _) H2).
    rewrite (proj2 (validateReceiptConsistency_iff _ _) H3).
    rewrite (proj2 (aggregate_iff _ _ _ _ Hb Hp) (conj H5 eq_refl)). cbn [rbind].
    destruct prev as [p|]; [|done]. destruct H4 as (S1 & S2 & S3).
    cbn [fmap option_fmap option_map checkReceiptTimestamps Message signed deref rbind].
    rewrite (proj2 (verifyRAVSigner_iff _ p) S1). cbn [rbind].
    rewrite (proj2 (checkReceiptTimestamps_iff _ (first :: b)) S3). cbn [rbind].
    by rewrite (proj2 (validateRAVConsistency_iff _ _) S2).
Qed.

Lemma AggregateReceipts_Ok_cons a (b : list (Receipt * signature)) prev s :
  AggregateReceipts a (map signed b) prev = Ok s -> exists first b', b = first :: b'.
Proof. destruct b; [done | eauto]. Qed.

Lemma horizon_Sign_Message {T} `{!EIP712Encodable T} d (m : T) k s :
  horizon_Sign d m k = Ok s -> Message s = Some m.
Proof. unfold horizon_Sign. intros (h & _ & E)%rbind_Ok. destruct (key_Sign k h); by simplify_eq. Qed.

Lemma max_ts_ge t b p : p ∈ b -> receipt_ts p <= max_ts t b.
Proof.
  induction 1 as [p b|p q b ? IH]; rewrite max_ts_cons; lia.
Qed.

(** C7: [AggregateReceipts] returns a RAV exactly when the batch is non-empty
    with pairwise distinct normalized signatures, every receipt and the
    previous RAV are signed by accepted signers, all of them name the same
    collection and parties, every receipt is newer than the previous RAV and
    the total fits 128 bits; the RAV is then the signed aggregate: same
    parties, timestamp the maximum, value the previous value plus the sum. *)
Theorem AggregateReceipts_correct a first b prev s :
  valued (first :: b) -> prev_valued prev ->
  AggregateReceipts a (map signed (first :: b)) (signed <$> prev) = Ok s <->
  aggregable a first b prev /\
  horizon_Sign (agg_domain a) (aggregated first b prev) (agg_signerKey a) = Ok s.
Proof. apply AggregateReceipts_iff. Qed.

(** C32: chained aggregation never counts a receipt twice: when a batch is
    aggregated on top of the RAV of an earlier batch, every receipt of the
    second batch is strictly newer than every receipt of the first, the value
    is the exact sum over both batches and never decreases, and a receipt of
    the first batch offered again makes the second aggregation fail. *)
Theorem AggregateReceipts_no_replay a b1 b2 prev s1 s2 sig1 rav1 :
  valued b1 -> valued b2 -> prev_valued prev ->
  AggregateReceipts a (map signed b1) (signed <$> prev) = Ok s1 ->
  s1 = signed (rav1, sig1) ->
  AggregateReceipts a (map signed b2) (Some s1) = Ok s2 ->
  (forall p1 p2, p1 ∈ b1 -> p2 ∈ b2 -> receipt_ts p1 < receipt_ts p2) /\
  (forall p, p ∈ b1 -> p ∉ b2) /\
  exists rav2, Message s2 = Some rav2 /\
    rav_ValueAggregate rav2 = Some (prev_value prev + sum_values b1 + sum_values b2) /\
    value_of (rav_ValueAggregate rav1) <= value_of (rav_ValueAggregate rav2).
Proof.
  intros V1 V2 Vp E1 -> E2.
  destruct (AggregateReceipts_Ok_cons _ _ _ _ E1) as (f1 & b1' & ->).
  destruct (AggregateReceipts_Ok_cons _ _ _ _ E2) as (f2 & b2' & ->).
  apply (AggregateReceipts_iff a f1 b1' prev) in E1 as [A1 S1%horizon_Sign_Message]; [|done..].
  injection S1 as ->.
  apply (AggregateReceipts_iff a f2 b2' (Some (_, _))) in E2 as [A2 S2%horizon_Sign_Message]; [|done|by eexists].
  destruct (ag_prev _ _ _ _ A2) as (_ & _ & Hts). rewrite list.Forall_forall in Hts. simpl in Hts.
  assert (forall p1 p2, p1 ∈ f1 :: b1' -> p2 ∈ f2 :: b2' -> receipt_ts p1 < receipt_ts p2) as Hlt.
  { intros p1 p2 I1 I2. pose proof (max_ts_ge (prev_ts prev) _ _ I1). specialize (Hts p2 I2). lia. }
  split_and!; [done | intros p I1 I2; specialize (Hlt p p I1 I2); lia |].
  eexists; split_and!; [done | done |]. simpl. pose proof (sum_values_nonneg _ V2). lia.
Qed.
End Correctness.

(** ** A concrete chain of two aggregations *)
Module Witness.
Import Reference.

Definition domain := NewDomain 42161 (fixed_bytes 20 9).
Definition agg : Aggregator := NewAggregator domain 7 [key_address (7 : PrivateKey)].
Definition receipt (ts value : Z) : Receipt :=
  mkReceipt (fixed_bytes 32 1) (fixed_bytes 20 2) (fixed_bytes 20 3) (fixed_bytes 20 4) ts 11 (Some value).
Definition sign_receipt (r : Receipt) : Receipt * signature :=
  (r, match horizon_Sign domain r (7 : PrivateKey) with Ok s => Signature s | Err _ => [] end).
Definition batch1 := [sign_receipt (receipt 10 100); sign_receipt (receipt 12 50)].
Definition batch2 := [sign_receipt (receipt 13 5)].
Definition rav1 : RAV := mkRAV (fixed_bytes 32 1) (fixed_bytes 20 2) (fixed_bytes 20 4) (fixed_bytes 20 3)
                           12 (Some 150) [].
Definition sig1 : signature :=
  match horizon_Sign domain rav1 (7 : PrivateKey) with Ok s => Signature s | Err _ => [] end.

Lemma valued1 : valued batch1.
Proof. repeat constructor; eexists; (split; [reflexivity | lia]). Qed.
Lemma valued2 : valued batch2.
Proof. repeat constructor; eexists; (split; [reflexivity | lia]). Qed.
Lemma run1 : AggregateReceipts agg (map signed batch1) None = Ok (signed (rav1, sig1)).
Proof. vm_compute. reflexivity. Qed.
End Witness.

Lemma AggregateReceipts_correct_witness :
  aggregable Witness.agg (Witness.sign_receipt (Witness.receipt 10 100))
    [Witness.sign_receipt (Witness.receipt 12 50)] None.
Proof.
  exact (proj1 (proj1 (@AggregateReceipts_correct Reference.eth_ref Witness.agg
    (Witness.sign_receipt (Witness.receipt 10 100)) [Witness.sign_receipt (Witness.receipt 12 50)]
    None _ Witness.valued1 I) Witness.run1)).
Defined.

Lemma AggregateReceipts_no_replay_witness :
  exists s2, AggregateReceipts Witness.agg (map signed Witness.batch2)
               (Some (signed (Witness.rav1, Witness.sig1))) = Ok s2 /\
  exists rav2, Message s2 = Some rav2 /\ 
    rav_ValueAggregate rav2 = Some (0 + sum_values Witness.batch1 + sum_values Witness.batch2).
Proof.
  destruct (AggregateReceipts Witness.agg (map signed Witness.batch2)
              (Some (signed (Witness.rav1, Witness.sig1)))) as [s2|] eqn:E.
  - exists s2. split; [reflexivity |].
    destruct (proj2 (proj2 (@AggregateReceipts_no_replay Reference.eth_ref Witness.agg Witness.batch1
      Witness.batch2 None _ s2 Witness.sig1 Witness.rav1 Witness.valued1 Witness.valued2 I Witness.run1
      eq_refl E))) as (rav2 & M & V & _).
    exists rav2. split; [exact M | exact V].
  - exfalso. vm_compute in E. discriminate E.
Defined.
