(* ===== verification/Proto.v ===== *)
(** Wire values and their conversions: the helpers of the common protobuf types
    ([pb/graph/substreams/data_service/common/v1/types_helpers.go]) and the RAV
    conversions of [sidecar/convert.go].  A pointer that may be nil is an
    option; a nil and an empty byte slice are the same value. *)
From S2P Require Import Prelude.
From S2P Require Import GoStd.
From S2P Require Import External.
From S2P Require Import GRT.
From S2P Require Import Horizon.

(** ** Messages *)

Record PAddress : Type := mkPAddress { paddr_Bytes : list byte }.
Record PBigInt : Type := mkPBigInt { pbig_Bytes : list byte }.
Record PGRT : Type := mkPGRT { pgrt_Bytes : list byte }.
Record PPricingConfig : Type := mkPPricingConfig {
  pp_PricePerBlock : option PGRT;
  pp_PricePerByte : option PGRT
}.

Record PRAV : Type := mkPRAV {
  prav_CollectionId : list byte;
  prav_Payer : option PAddress;
  prav_DataService : option PAddress;
  prav_ServiceProvider : option PAddress;
  prav_TimestampNs : Z;
  prav_ValueAggregate : option PGRT;
  prav_Metadata : list byte
}.

Record PSignedRAV : Type := mkPSignedRAV {
  psr_Rav : option PRAV;
  psr_Signature : list byte
}.

(** [commonv1.EscrowAccount]. *)
Record PEscrowAccount : Type := mkPEscrowAccount {
  pea_Payer : option PAddress;
  pea_Receiver : option PAddress;
  pea_DataService : option PAddress
}.

(** [commonv1.Usage]. *)
Record PUsage : Type := mkPUsage {
  pu_BlocksProcessed : Z;
  pu_BytesTransferred : Z;
  pu_Requests : Z;
  pu_Cost : option PGRT
}.

(** [commonv1.EndReason]. *)
Inductive EndReason : Type :=
  | END_REASON_UNSPECIFIED
  | END_REASON_COMPLETE
  | END_REASON_CLIENT_DISCONNECT
  | END_REASON_PROVIDER_STOP
  | END_REASON_ERROR
  | END_REASON_PAYMENT_ISSUE.

#[global] Instance PAddress_eq_dec : EqDecision PAddress. Proof. solve_decision. Defined.
#[global] Instance PGRT_eq_dec : EqDecision PGRT. Proof. solve_decision. Defined.
#[global] Instance PRAV_eq_dec : EqDecision PRAV. Proof. solve_decision. Defined.
#[global] Instance PSignedRAV_eq_dec : EqDecision PSignedRAV. Proof. solve_decision. Defined.
#[global] Instance EndReason_eq_dec : EqDecision EndReason. Proof. solve_decision. Defined.

(** ** Helpers ([types_helpers.go]) *)

Definition Address_ToEth (a : option PAddress) : result go_error address :=
  match a with
  | None => Err (Errorf "address is required")
  | Some a =>
      if negb (length (paddr_Bytes a) =? 20)%nat then Err (Errorf "invalid address length: got %d bytes, want 20")
      else Ok (paddr_Bytes a)
  end.

Definition AddressFromEth (addr : address) : option PAddress := Some (mkPAddress addr).

Definition BigInt_ToNative (b : PBigInt) : Z := SetBytes (pbig_Bytes b).
Definition BigIntFromNative (i : Z) : PBigInt := mkPBigInt (Bytes i).

Section Proto.
Context `{Uint256}.

Definition GRT_ToNative (g : option PGRT) : GRT :=
  match g with
  | None => ZeroGRT
  | Some g => if (length (pgrt_Bytes g) =? 0)%nat then ZeroGRT
              else NewGRTFromBigInt (Some (SetBytes (pgrt_Bytes g)))
  end.

Definition GRT_ToBigInt (g : option PGRT) : Z := GRT_BigInt (GRT_ToNative g).
(** [big.Int.Int64] and [Uint64] keep the low 64 bits. *)
Definition GRT_ToInt64 (g : option PGRT) : Z := wrap_s64 (GRT_BigInt (GRT_ToNative g)).
Definition GRT_ToUint64 (g : option PGRT) : Z := wrap_u64 (GRT_BigInt (GRT_ToNative g)).

Definition GRTFromNative (grt : GRT) : option PGRT := Some (mkPGRT (Bytes (GRT_BigInt grt))).
Definition GRTFromBigInt (i : option Z) : option PGRT := GRTFromNative (NewGRTFromBigInt i).

Definition PricingConfig_ToNative (p : option PPricingConfig) : option PricingConfig :=
  match p with
  | None => None
  | Some p => Some (mkPricingConfig (GRT_ToNative (pp_PricePerBlock p)) (GRT_ToNative (pp_PricePerByte p)))
  end.

Definition PricingConfigFromNative (cfg : option PricingConfig) : option PPricingConfig :=
  match cfg with
  | None => None
  | Some c => Some (mkPPricingConfig (GRTFromNative (PricePerBlock c)) (GRTFromNative (PricePerByte c)))
  end.

(** ** RAV conversions ([sidecar/convert.go]) *)

Definition wrap_err {A} (msg : string) (r : result go_error A) : result go_error A :=
  match r with Ok a => Ok a | Err e => Err (Wrapf msg e) end.

Definition ProtoRAVToHorizon (pr : option PRAV) : result go_error (option RAV) :=
  match pr with
  | None => Ok None
  | Some pr =>
    if (length (prav_CollectionId pr) =? 0)%nat then Err (Errorf "collection_id is required")
    else if negb (length (prav_CollectionId pr) =? 32)%nat
    then Err (Errorf "collection_id: want 32 bytes, got %d")
    else
      let? payer := wrap_err "payer: %w" (Address_ToEth (prav_Payer pr)) in
      let? dataService := wrap_err "data_service: %w" (Address_ToEth (prav_DataService pr)) in
      let? serviceProvider := wrap_err "service_provider: %w" (Address_ToEth (prav_ServiceProvider pr)) in
      match prav_ValueAggregate pr with
      | None => Err (Errorf "value_aggregate is required")
      | Some _ =>
          Ok (Some (mkRAV (prav_CollectionId pr) payer serviceProvider dataService (prav_TimestampNs pr)
                      (Some (GRT_ToBigInt (prav_ValueAggregate pr))) (prav_Metadata pr)))
      end
  end.

Definition HorizonRAVToProto (hr : option RAV) : option PRAV :=
  match hr with
  | None => None
  | Some hr =>
      Some (mkPRAV (rav_CollectionID hr) (AddressFromEth (rav_Payer hr)) (AddressFromEth (rav_DataService hr))
              (AddressFromEth (rav_ServiceProvider hr)) (rav_TimestampNs hr)
              (GRTFromBigInt (rav_ValueAggregate hr)) (rav_Metadata hr))
  end.

Definition ProtoSignedRAVToHorizon `{Eth} (psr : option PSignedRAV) : result go_error (option SignedRAV) :=
  match psr with
  | None => Ok None
  | Some psr =>
      let? rav := ProtoRAVToHorizon (psr_Rav psr) in
      match rav with
      | None => Err (Errorf "rav is required")
      | Some _ =>
          let? sig := wrap_err "signature: %w" (NewSignatureFromBytes (psr_Signature psr)) in
          Ok (Some (mkSigned rav sig))
      end
  end.

Definition HorizonSignedRAVToProto (hsr : option SignedRAV) : option PSignedRAV :=
  match hsr with
  | None => None
  | Some hsr => Some (mkPSignedRAV (HorizonRAVToProto (Message hsr)) (Signature hsr))
  end.

(** [AddressesEqual] of the sidecar package: [bytes.Equal]. *)
Definition AddressesEqual (a b : address) : bool := bool_decide (a = b).
End Proto.

(** ** Round trips *)

Section RoundTrips.
Context `{Uint256Laws}.

Lemma wrap_err_Ok {A} msg (r : result go_error A) a : wrap_err msg r = Ok a <-> r = Ok a.
Proof. destruct r; simpl; split; congruence. Qed.

Lemma Address_ToEth_FromEth a : length a = 20%nat -> Address_ToEth (AddressFromEth a) = Ok a.
Proof. intros E. simpl. by rewrite E. Qed.

Lemma Address_ToEth_Ok p a : Address_ToEth p = Ok a <-> p = AddressFromEth a /\ length a = 20%nat.
Proof.
  unfold AddressFromEth. destruct p as [[l]|]; simpl; [|split; [done | by intros []]].
  destruct (Nat.eqb_spec (length l) 20); simpl; (split; [by intros [= <-] | intros [[= ->] ?]; congruence]).
Qed.

Lemma GRT_ToNative_FromNative g : GRT_ToNative (GRTFromNative g) = g.
Proof.
  unfold GRT_ToNative, GRTFromNative. simpl. pose proof (GRT_BigInt_range g) as Hr.
  destruct (Nat.eqb_spec (length (Bytes (GRT_BigInt g))) 0) as [E|_].
  - apply GRT_BigInt_inj. unfold ZeroGRT, GRT_BigInt at 1. simpl. rewrite ToBig_zero.
    pose proof (SetBytes_Bytes (GRT_BigInt g)) as E'. destruct (Bytes (GRT_BigInt g)); [|done].
    change (SetBytes []) with 0 in E'. lia.
  - rewrite SetBytes_Bytes, Z.abs_eq by lia. apply ToBig_NewGRTFromBigInt_id.
Qed.

Lemma GRT_ToBigInt_FromBigInt z : 0 <= z < two256 -> GRT_ToBigInt (GRTFromBigInt (Some z)) = z.
Proof.
  intros Hz. unfold GRT_ToBigInt, GRTFromBigInt. rewrite GRT_ToNative_FromNative.
  unfold NewGRTFromBigInt. destruct (FromBig_nat z Hz) as (v & -> & Hv). done.
Qed.

Lemma PricingConfig_roundtrip c : PricingConfig_ToNative (PricingConfigFromNative c) = c.
Proof.
  destruct c as [[x y]|]; [|done]. unfold PricingConfig_ToNative, PricingConfigFromNative.
  cbn [pp_PricePerBlock pp_PricePerByte PricePerBlock PricePerByte]. by rewrite !GRT_ToNative_FromNative.
Qed.

Lemma ProtoRAV_roundtrip r : wf_rav r -> ProtoRAVToHorizon (HorizonRAVToProto (Some r)) = Ok (Some r).
Proof.
  intros (Hc & Hp & Hs & Hd & _ & v & Ev & Hv). unfold ProtoRAVToHorizon, HorizonRAVToProto.
  cbn [prav_CollectionId prav_Payer prav_DataService prav_ServiceProvider prav_ValueAggregate
       prav_TimestampNs prav_Metadata].
  rewrite Hc, !Address_ToEth_FromEth by done. cbn [wrap_err rbind Nat.eqb negb].
  rewrite Ev. unfold GRTFromBigInt at 1, GRTFromNative at 1. rewrite GRT_ToBigInt_FromBigInt by done.
  destruct r; simpl in *; by subst.
Qed.

(** What a decoded RAV satisfies, whatever the message was. *)
Lemma ProtoRAVToHorizon_wf pr r :
  ProtoRAVToHorizon pr = Ok (Some r) -> u64 (rav_TimestampNs r) -> wf_rav r.
Proof.
  unfold ProtoRAVToHorizon. destruct pr as [pr|]; [|done].
  destruct (Nat.eqb_spec (length (prav_CollectionId pr)) 0); [done |].
  destruct (Nat.eqb_spec (length (prav_CollectionId pr)) 32) as [Hc|]; [|done]. cbn [negb].
  intros (p & [? ?]%wrap_err_Ok%Address_ToEth_Ok & (d & [? ?]%wrap_err_Ok%Address_ToEth_Ok &
    (s & [? ?]%wrap_err_Ok%Address_ToEth_Ok & E)%rbind_Ok)%rbind_Ok)%rbind_Ok Ht.
  destruct (prav_ValueAggregate pr) as [g|] eqn:Eg; [|done]. simplify_eq/=.
  unfold wf_rav. simpl. split_and!; try done. eexists; split; [done |]. apply GRT_BigInt_range.
Qed.

Context `{EthLaws}.

(** The wire keeps a well-formed signed RAV. *)
Lemma SignedRAV_wire (r : RAV) (sig : signature) :
  wf_rav r -> length sig = 65%nat ->
  ProtoSignedRAVToHorizon (HorizonSignedRAVToProto (Some (mkSigned (Some r) sig))) =
  Ok (Some (mkSigned (Some r) sig)).
Proof.
  intros Hr Hs. unfold ProtoSignedRAVToHorizon, HorizonSignedRAVToProto.
  cbn [psr_Rav psr_Signature Message Signature]. rewrite ProtoRAV_roundtrip by done. cbn [rbind].
  by rewrite NewSignatureFromBytes_65.
Qed.

(** A signed RAV survives the wire: converting a well-formed signed RAV to
    its protobuf form and back gives the same RAV and signature, and no two such
    vouchers share a wire form. *)
Theorem ProtoSignedRAV_roundtrip (r : RAV) (sig : signature) :
  wf_rav r -> length sig = 65%nat ->
  ProtoSignedRAVToHorizon (HorizonSignedRAVToProto (Some (mkSigned (Some r) sig))) =
  Ok (Some (mkSigned (Some r) sig)) /\
  (forall r' sig', wf_rav r' -> length sig' = 65%nat ->
     HorizonSignedRAVToProto (Some (mkSigned (Some r') sig')) =
     HorizonSignedRAVToProto (Some (mkSigned (Some r) sig)) -> r' = r /\ sig' = sig).
Proof.
  intros Hr Hs. split; [by apply SignedRAV_wire |]. intros r' sig' Hr' Hs' E.
  pose proof (SignedRAV_wire r' sig' Hr' Hs') as E'. rewrite E, SignedRAV_wire in E' by done.
  by simplify_eq.
Qed.

(** [ProtoSignedRAVToHorizon] is total on its error cases and only lets
    well-formed vouchers through: an accepted message carries a 32-byte
    collection, three 20-byte addresses, a value below 2^256 and a 65-byte
    signature, each equal to the message's own field; a message without a RAV
    is an error and a nil message is nil. *)
Theorem ProtoSignedRAVToHorizon_valid (psr : PSignedRAV) (sm : option SignedRAV)
    (Hts : forall pr, psr_Rav psr = Some pr -> u64 (prav_TimestampNs pr)) :
  ProtoSignedRAVToHorizon (Some psr) = Ok sm ->
  exists pr r, sm = Some (mkSigned (Some r) (psr_Signature psr)) /\ psr_Rav psr = Some pr /\
    wf_rav r /\ length (psr_Signature psr) = 65%nat /\
    rav_CollectionID r = prav_CollectionId pr /\ AddressFromEth (rav_Payer r) = prav_Payer pr /\
    AddressFromEth (rav_ServiceProvider r) = prav_ServiceProvider pr /\
    AddressFromEth (rav_DataService r) = prav_DataService pr /\
    rav_TimestampNs r = prav_TimestampNs pr /\
    rav_ValueAggregate r = Some (GRT_ToBigInt (prav_ValueAggregate pr)).
Proof.
  unfold ProtoSignedRAVToHorizon. intros (rav & Er & E)%rbind_Ok. destruct rav as [r|]; [|done].
  apply rbind_Ok in E as (sig & [-> Hl]%wrap_err_Ok%NewSignatureFromBytes_length & E).
  apply Ok_inj in E as <-. destruct (psr_Rav psr) as [pr|] eqn:Epr; [|done].
  exists pr, r. pose proof (ProtoRAVToHorizon_wf _ _ Er) as W. unfold ProtoRAVToHorizon in Er.
  destruct (Nat.eqb_spec (length (prav_CollectionId pr)) 0); [done |].
  destruct (Nat.eqb_spec (length (prav_CollectionId pr)) 32) as [Hc|]; [|done]. cbn [negb] in Er.
  apply rbind_Ok in Er as (p & [? ?]%wrap_err_Ok%Address_ToEth_Ok & (d & [? ?]%wrap_err_Ok%Address_ToEth_Ok &
    (s & [? ?]%wrap_err_Ok%Address_ToEth_Ok & E)%rbind_Ok)%rbind_Ok).
  destruct (prav_ValueAggregate pr) as [g|] eqn:Eg; [|done]. simplify_eq/=.
  split_and!; try done. eauto.
Qed.
End RoundTrips.

Module ProtoWitness.
Import Reference.
Definition rav : RAV := mkRAV (fixed_bytes 32 1) (fixed_bytes 20 2) (fixed_bytes 20 4) (fixed_bytes 20 3)
                          12 (Some 150) [].
Lemma rav_wf : wf_rav rav.
Proof.
  unfold wf_rav, rav, u64, two64, two256. split_and!; try apply fixed_bytes_length; try done.
  exists 150. split; [done | lia].
Qed.
Definition sig : signature := fixed_bytes 65 5.
End ProtoWitness.

Lemma ProtoSignedRAV_roundtrip_witness :
  @ProtoSignedRAVToHorizon Reference.uint256_ref Reference.eth_ref
    (@HorizonSignedRAVToProto Reference.uint256_ref (Some (mkSigned (Some ProtoWitness.rav) ProtoWitness.sig))) =
  Ok (Some (mkSigned (Some ProtoWitness.rav) ProtoWitness.sig)).
Proof.
  exact (proj1 (@ProtoSignedRAV_roundtrip _ Reference.uint256_ref_laws _ Reference.eth_ref_laws ProtoWitness.rav
           ProtoWitness.sig ProtoWitness.rav_wf (Reference.fixed_bytes_length 65 5))).
Defined.

Lemma ProtoSignedRAVToHorizon_valid_witness :
  exists r, @ProtoSignedRAVToHorizon Reference.uint256_ref Reference.eth_ref
    (@HorizonSignedRAVToProto Reference.uint256_ref (Some (mkSigned (Some ProtoWitness.rav) ProtoWitness.sig))) =
  Ok (Some (mkSigned (Some r) ProtoWitness.sig)) /\ wf_rav r.
Proof.
  set (psr := mkPSignedRAV (@HorizonRAVToProto Reference.uint256_ref (Some ProtoWitness.rav)) ProtoWitness.sig).
  assert (E : @ProtoSignedRAVToHorizon Reference.uint256_ref Reference.eth_ref (Some psr) =
              Ok (Some (mkSigned (Some ProtoWitness.rav) ProtoWitness.sig)))
    by (vm_compute; reflexivity).
  assert (T : forall pr, psr_Rav psr = Some pr -> u64 (prav_TimestampNs pr))
    by (intros pr [= <-]; unfold u64, two64; simpl; lia).
  destruct (@ProtoSignedRAVToHorizon_valid _ Reference.uint256_ref_laws _ Reference.eth_ref_laws psr _ T E)
    as (pr & r & Es & _ & W & _).
  exists r. split; [exact (eq_trans E (f_equal Ok Es)) | exact W].
Defined.
