(* ===== verification/Repository.v ===== *)
(** The provider's data model ([provider/repository/repository.go]): sessions with
    their usage and baseline counters, workers, quotas, usage events and
    collection records; the operations of [Session]; and the interface
    [GlobalRepository] that the gateway and the services are written against,
    with the laws they rely on.

    A time is its number of nanoseconds, 0 the zero [time.Time]; [time.Now()] is
    an argument [now].  Counters of type [uint64] wrap at 64 bits. *)
From S2P Require Import Prelude.
From S2P Require Import GoStd.
From S2P Require Import External.
From S2P Require Import GRT.
From S2P Require Import Horizon.
From S2P Require Import Proto.

Definition ErrNotFound := ErrorsNew "not found".
Definition ErrQuotaExceeded := ErrorsNew "quota exceeded".
Definition ErrCollectionConflict := ErrorsNew "collection record conflict".
Definition ErrInvalidCollectionTransition := ErrorsNew "invalid collection state transition".

Abbreviation time := Z.

Inductive SessionStatus : Type :=
  | SessionStatusActive
  | SessionStatusPaused
  | SessionStatusTerminated.

Inductive CollectionState : Type :=
  | CollectionStateCollectible
  | CollectionStateCollectPending
  | CollectionStateCollected
  | CollectionStateCollectFailedRetryable.

#[global] Instance SessionStatus_eq_dec : EqDecision SessionStatus. Proof. solve_decision. Defined.
#[global] Instance CollectionState_eq_dec : EqDecision CollectionState. Proof. solve_decision. Defined.

Record CollectionKey : Type := mkCollectionKey {
  ck_SessionID : string;
  ck_CollectionID : CollectionID;
  ck_Payer : address;
  ck_ServiceProvider : address;
  ck_DataService : address
}.
#[global] Instance CollectionKey_eq_dec : EqDecision CollectionKey. Proof. solve_decision. Defined.

Record CollectionRecord : Type := mkCollectionRecord {
  cr_Key : CollectionKey;
  cr_SignedRAV : option SignedRAV;
  cr_ValueAggregate : option Z;
  cr_State : CollectionState;
  cr_AttemptCount : Z;
  cr_LastTxHash : string;
  cr_LastError : string;
  cr_CollectedAmount : option Z;
  cr_CreatedAt : time;
  cr_UpdatedAt : time
}.
#[global] Instance CollectionRecord_eq_dec : EqDecision CollectionRecord. Proof. solve_decision. Defined.
#[global] Instance CollectionRecord_eta : Eta CollectionRecord := fun r =>
  mkCollectionRecord (cr_Key r) (cr_SignedRAV r) (cr_ValueAggregate r) (cr_State r) (cr_AttemptCount r)
    (cr_LastTxHash r) (cr_LastError r) (cr_CollectedAmount r) (cr_CreatedAt r) (cr_UpdatedAt r).

Record CollectionFilter : Type := mkCollectionFilter {
  cf_SessionID : option string;
  cf_State : option CollectionState;
  cf_Payer : option address
}.

Record Worker : Type := mkWorker {
  wk_Key : string;
  wk_SessionID : string;
  wk_Payer : address;
  wk_CreatedAt : time;
  wk_TraceID : string
}.
#[global] Instance Worker_eq_dec : EqDecision Worker. Proof. solve_decision. Defined.

Record QuotaUsage : Type := mkQuotaUsage {
  q_Payer : address;
  q_ActiveSessions : Z;
  q_ActiveWorkers : Z;
  q_LastUpdated : time
}.
#[global] Instance QuotaUsage_eq_dec : EqDecision QuotaUsage. Proof. solve_decision. Defined.
#[global] Instance QuotaUsage_eta : Eta QuotaUsage := fun q =>
  mkQuotaUsage (q_Payer q) (q_ActiveSessions q) (q_ActiveWorkers q) (q_LastUpdated q).

(** Signed 64-bit counters, as the plugins report them. *)
Record UsageEvent : Type := mkUsageEvent {
  ue_Timestamp : time;
  ue_Blocks : Z;
  ue_Bytes : Z;
  ue_Requests : Z
}.
#[global] Instance UsageEvent_eq_dec : EqDecision UsageEvent. Proof. solve_decision. Defined.

Definition sanitizeUsageMetric (v : Z) : Z := if v <=? 0 then 0 else wrap_u64 v.

Definition SanitizedTotals (u : option UsageEvent) : Z * Z * Z :=
  match u with
  | None => (0, 0, 0)
  | Some u => (sanitizeUsageMetric (ue_Blocks u), sanitizeUsageMetric (ue_Bytes u),
               sanitizeUsageMetric (ue_Requests u))
  end.

Section Session.
Context `{Uint256}.

Record Session : Type := mkSession {
  s_ID : string;
  s_CreatedAt : time;
  s_UpdatedAt : time;
  s_LastKeepAlive : time;
  s_Status : SessionStatus;
  s_Metadata : gmap string string;
  s_EndedAt : option time;
  s_EndReason : EndReason;
  s_Payer : address;
  s_Receiver : address;
  s_DataService : address;
  s_CurrentRAV : option SignedRAV;
  s_BlocksProcessed : Z;
  s_BytesTransferred : Z;
  s_Requests : Z;
  s_TotalCost : option Z;
  s_BaselineBlocks : Z;
  s_BaselineBytes : Z;
  s_BaselineReqs : Z;
  s_BaselineCost : option Z;
  s_PricingConfig : PricingConfig
}.

#[global] Instance Session_eta : Eta Session := fun s =>
  mkSession (s_ID s) (s_CreatedAt s) (s_UpdatedAt s) (s_LastKeepAlive s) (s_Status s) (s_Metadata s)
    (s_EndedAt s) (s_EndReason s) (s_Payer s) (s_Receiver s) (s_DataService s) (s_CurrentRAV s)
    (s_BlocksProcessed s) (s_BytesTransferred s) (s_Requests s) (s_TotalCost s) (s_BaselineBlocks s)
    (s_BaselineBytes s) (s_BaselineReqs s) (s_BaselineCost s) (s_PricingConfig s).

Record SessionFilter : Type := mkSessionFilter {
  sf_Payer : option address;
  sf_Status : option SessionStatus;
  sf_CreatedAfter : option time
}.

Definition NewSession (now : time) (id : string) (payer receiver dataService : address)
    (pricingConfig : PricingConfig) : Session :=
  mkSession id now now now SessionStatusActive ∅ None END_REASON_UNSPECIFIED payer receiver dataService
    None 0 0 0 (Some 0) 0 0 0 (Some 0) pricingConfig.

Definition IsActive (s : Session) : bool := bool_decide (s_Status s = SessionStatusActive).

Definition AddUsage (now : time) (blocks bytes requests : Z) (cost : option Z) (s : Session) : Session :=
  let s := s <| s_BlocksProcessed := wrap_u64 (s_BlocksProcessed s + blocks) |>
             <| s_BytesTransferred := wrap_u64 (s_BytesTransferred s + bytes) |>
             <| s_Requests := wrap_u64 (s_Requests s + requests) |> in
  let s := match cost with
           | Some c => s <| s_TotalCost := Some (default 0 (s_TotalCost s) + c) |>
           | None => s
           end in
  s <| s_UpdatedAt := now |>.

(** Difference of two counters, 0 when the baseline is ahead. *)
Definition usage_delta (current baseline : Z) : Z :=
  if current >=? baseline then current - baseline else 0.

Definition cost_delta (total baseline : option Z) : Z :=
  match total, baseline with
  | None, _ => 0
  | Some t, None => t
  | Some t, Some b => let cost := t - b in if cost <? 0 then 0 else cost
  end.

Definition UsageDeltaSinceBaseline (s : Session) : Z * Z * Z * Z :=
  (usage_delta (s_BlocksProcessed s) (s_BaselineBlocks s),
   usage_delta (s_BytesTransferred s) (s_BaselineBytes s),
   usage_delta (s_Requests s) (s_BaselineReqs s),
   cost_delta (s_TotalCost s) (s_BaselineCost s)).

Definition MarkBaseline (s : Session) : Session :=
  s <| s_BaselineBlocks := s_BlocksProcessed s |>
    <| s_BaselineBytes := s_BytesTransferred s |>
    <| s_BaselineReqs := s_Requests s |>
    <| s_BaselineCost := Some (default 0 (s_TotalCost s)) |>.

Definition SetPricingConfig (config : PricingConfig) (s : Session) : Session :=
  s <| s_PricingConfig := config |>.

Definition Session_CalculateUsageCost (s : Session) (blocksProcessed bytesTransferred : Z) : Z :=
  GRT_BigInt (CalculateUsageCost (s_PricingConfig s) blocksProcessed bytesTransferred).

Definition Session_End (now : time) (reason : EndReason) (s : Session) : Session :=
  s <| s_Status := SessionStatusTerminated |> <| s_EndedAt := Some now |> <| s_EndReason := reason |>
    <| s_UpdatedAt := now |>.

Definition Session_GetUsage (s : Session) : PUsage :=
  mkPUsage (s_BlocksProcessed s) (s_BytesTransferred s) (s_Requests s) (GRTFromBigInt (s_TotalCost s)).

(** ** Value of the accepted RAV *)

Definition rav_value (rav : option SignedRAV) : Z :=
  match rav with
  | Some sm => match Message sm with Some m => value_of (rav_ValueAggregate m) | None => 0 end
  | None => 0
  end.

Lemma usage_delta_nonneg c b : 0 <= usage_delta c b.
Proof. unfold usage_delta. case_match; bool_props; lia. Qed.

Lemma cost_delta_exact t b : 0 <= b <= t -> cost_delta (Some t) (Some b) = t - b.
Proof. intros. simpl. case_match; bool_props; lia. Qed.

Lemma delta_MarkBaseline s : UsageDeltaSinceBaseline (MarkBaseline s) = (0, 0, 0, 0).
Proof.
  unfold UsageDeltaSinceBaseline, MarkBaseline, usage_delta. simpl.
  rewrite !Z.geb_leb, !Z.leb_refl, !Z.sub_diag.
  destruct (s_TotalCost s); simpl; [rewrite Z.sub_diag |]; done.
Qed.
End Session.

(** ** The repository interface

    What every backend offers to its clients.  [R] is the backend's state; each
    call may fail, and returns the state it leaves behind. *)
Class GlobalRepository `{Uint256} (R : Type) : Type := {
  SessionCreate : R -> time -> option Session -> result go_error unit * R;
  SessionGet : R -> string -> result go_error Session;
  SessionUpdate : R -> time -> option Session -> result go_error unit * R;
  SessionTouch : R -> string -> time -> result go_error unit * R;
  SessionUpdateRuntimeState :
    R -> string -> SessionStatus -> gmap string string -> option time -> EndReason -> time ->
    result go_error unit * R;
  SessionUpdateRAVAndBaseline :
    R -> time -> string -> option SignedRAV -> Z -> Z -> Z -> option Z -> result go_error unit * R;
  SessionApplyUsage : R -> time -> string -> option UsageEvent -> option Z -> result go_error unit * R;
  SessionList : R -> SessionFilter -> list Session;
  WorkerCreateAndReserveQuota :
    R -> time -> option Worker -> Z -> result (go_error * option QuotaUsage) QuotaUsage * R;
  WorkerGet : R -> string -> result go_error Worker;
  WorkerCountBySession : R -> string -> result go_error Z;
  WorkerDelete : R -> string -> result go_error unit * R;
  QuotaGet : R -> time -> address -> result go_error QuotaUsage;
  QuotaDecrement : R -> time -> address -> Z -> Z -> result go_error unit * R;
  CollectionGet : R -> CollectionKey -> result go_error CollectionRecord;
  CollectionList : R -> CollectionFilter -> result go_error (list CollectionRecord);
  CollectionMarkPending :
    R -> time -> CollectionKey -> option Z -> string -> time -> result go_error CollectionRecord * R;
  CollectionMarkCollected :
    R -> time -> CollectionKey -> option Z -> string -> option Z -> time -> result go_error CollectionRecord * R;
  CollectionMarkFailedRetryable :
    R -> time -> CollectionKey -> option Z -> string -> string -> time -> result go_error CollectionRecord * R
}.

(** The session stored under an id, as far as the backend reports it. *)
Definition session_at `{GlobalRepository R} (r : R) (id : string) : option Session :=
  match SessionGet r id with Ok s => Some s | Err _ => None end.

Section Laws.
Context `{GlobalRepository R}.

(** A failed call leaves every session as it was; a successful one rewrites the
    named session with [f] and no other. *)
Definition session_effect (r : R) (res : result go_error unit * R) (id : string)
    (f : Session -> Session -> Prop) : Prop :=
  match res with
  | (Err _, r') => forall i, session_at r' i = session_at r i
  | (Ok _, r') => (exists s s', session_at r id = Some s /\ session_at r' id = Some s' /\ f s s') /\
                  forall i, i <> id -> session_at r' i = session_at r i
  end.
End Laws.

(** What the clients rely on. *)
Class GlobalRepositoryLaws `{GlobalRepository R} : Prop := {
  SessionCreate_law r now s :
    match SessionCreate r now (Some s) with
    | (Err _, r') => forall i, session_at r' i = session_at r i
    | (Ok _, r') => session_at r (s_ID s) = None /\ session_at r' (s_ID s) = Some s /\
                    forall i, i <> s_ID s -> session_at r' i = session_at r i
    end;
  SessionUpdateRuntimeState_law r id status md ended reason updated :
    session_effect r (SessionUpdateRuntimeState r id status md ended reason updated) id
      (fun s s' => if decide (s_Status s = SessionStatusTerminated) then s' = s
                   else s' = s <| s_Status := status |> <| s_Metadata := md |> <| s_EndedAt := ended |>
                               <| s_EndReason := reason |>
                               <| s_UpdatedAt := (if updated >? s_UpdatedAt s then updated else s_UpdatedAt s) |>);
  SessionUpdateRAVAndBaseline_law r now id rav blocks bytes reqs cost :
    session_effect r (SessionUpdateRAVAndBaseline r now id rav blocks bytes reqs cost) id
      (fun s s' => s' = s <| s_CurrentRAV := rav |> <| s_BaselineBlocks := blocks |>
                          <| s_BaselineBytes := bytes |> <| s_BaselineReqs := reqs |>
                          <| s_BaselineCost := Some (default 0 cost) |> <| s_UpdatedAt := now |>);
  SessionApplyUsage_law r now id u cost :
    session_effect r (SessionApplyUsage r now id u cost) id
      (fun s s' => let '(blocks, bytes, requests) := SanitizedTotals u in
                   s' = AddUsage now blocks bytes requests cost s)
}.
