(* ===== verification/InMemory.v ===== *)
(** The in-memory repository ([provider/repository/inmemory.go]).

    Each [haxmap.Map] is a [gmap]; a call is one atomic step on the state (each
    operation of the code holds the mutex of its map or is a compare-and-swap
    loop that retries until it observed the latest value).  Values are immutable
    here, so the defensive clones of the code are the identity.  [ForEach] visits
    the entries in no particular order: the list results are in the order of the
    map's entries and the theorems use membership only. *)
From S2P Require Import Prelude.
From S2P Require Import GoStd.
From S2P Require Import External.
From S2P Require Import GRT.
From S2P Require Import Horizon.
From S2P Require Import Proto.
From S2P Require Import Repository.

Section Keys.
Context `{Eth}.

Definition bar : chars := ["|"%char].

Definition collectionMapKey (key : CollectionKey) : string :=
  of_chars (to_chars (ck_SessionID key) ++ bar ++
            to_chars (EncodeToString (ck_CollectionID key)) ++ bar ++
            to_chars (Pretty (ck_Payer key)) ++ bar ++
            to_chars (Pretty (ck_ServiceProvider key)) ++ bar ++
            to_chars (Pretty (ck_DataService key))).

Definition collectionValuesEqual (a b : option Z) : bool :=
  match a, b with
  | Some x, Some y => cmpZ x y =? 0
  | None, None => true
  | _, _ => false
  end.

Definition collectionUpdatedAt (now updatedAt : time) : time := if updatedAt =? 0 then now else updatedAt.

Definition newCollectionRecordFromRAV (now : time) (sessionID : string) (rav : option SignedRAV) :
    result go_error CollectionRecord :=
  if String.eqb sessionID "" then Err (Errorf "session ID must not be empty") else
  match rav with
  | None => Err (Errorf "signed RAV must not be nil")
  | Some sm =>
    match Message sm with
    | None => Err (Errorf "signed RAV must not be nil")
    | Some m =>
      match rav_ValueAggregate m with
      | None => Err (Errorf "signed RAV value aggregate must not be nil")
      | Some v =>
          Ok (mkCollectionRecord
                (mkCollectionKey sessionID (rav_CollectionID m) (rav_Payer m) (rav_ServiceProvider m)
                   (rav_DataService m))
                rav (Some v) CollectionStateCollectible 0 "" "" None now now)
      end
    end
  end.
End Keys.

Section InMemory.
Context `{Uint256} `{Eth}.

Record InMemoryRepository : Type := mkInMemory {
  im_sessions : gmap string Session;
  im_workers : gmap string Worker;
  im_quotas : gmap string QuotaUsage;
  im_records : gmap string CollectionRecord;
  im_usage : gmap string (list UsageEvent)
}.
#[global] Instance InMemory_eta : Eta InMemoryRepository := fun r =>
  mkInMemory (im_sessions r) (im_workers r) (im_quotas r) (im_records r) (im_usage r).

Abbreviation repo := InMemoryRepository.

Definition NewInMemoryRepository : repo := mkInMemory ∅ ∅ ∅ ∅ ∅.

(** ** Collections *)

Definition collectionNextCollectibleLocked (r : repo) (now : time) (sessionID : string)
    (rav : option SignedRAV) : result go_error CollectionRecord :=
  let? record := newCollectionRecordFromRAV now sessionID rav in
  match im_records r !! collectionMapKey (cr_Key record) with
  | None => Ok record
  | Some current =>
      let next := record <| cr_CreatedAt := cr_CreatedAt current |> in
      match cr_State current with
      | CollectionStateCollectPending =>
          if collectionValuesEqual (cr_ValueAggregate current) (cr_ValueAggregate record) then Ok current
          else Err (Wrapf "collection %q has pending value %s, new value %s: %w" ErrCollectionConflict)
      | CollectionStateCollected =>
          if collectionValuesEqual (cr_ValueAggregate current) (cr_ValueAggregate record) then Ok current
          else
            match cr_ValueAggregate record, cr_ValueAggregate current with
            | Some v, Some w =>
                if cmpZ v w <? 0
                then Err (Wrapf "collection %q has collected value %s, stale value %s: %w" ErrCollectionConflict)
                else Ok next
            | _, _ => Err GoPanic
            end
      | _ => Ok next
      end
  end.

Definition put_record (record : CollectionRecord) (r : repo) : repo :=
  r <| im_records := <[collectionMapKey (cr_Key record) := record]> (im_records r) |>.

Definition CollectionCreateOrUpdateCollectible (r : repo) (now : time) (sessionID : string)
    (rav : option SignedRAV) : result go_error CollectionRecord * repo :=
  match collectionNextCollectibleLocked r now sessionID rav with
  | Err e => (Err e, r)
  | Ok next => (Ok next, put_record next r)
  end.

Definition im_CollectionGet (r : repo) (key : CollectionKey) : result go_error CollectionRecord :=
  match im_records r !! collectionMapKey key with Some c => Ok c | None => Err ErrNotFound end.

Definition collection_matches (filter : CollectionFilter) (record : CollectionRecord) : bool :=
  match cf_SessionID filter with Some s => String.eqb (ck_SessionID (cr_Key record)) s | None => true end &&
  match cf_State filter with Some st => bool_decide (cr_State record = st) | None => true end &&
  match cf_Payer filter with
  | Some p => String.eqb (Pretty (ck_Payer (cr_Key record))) (Pretty p) | None => true end.

Definition im_CollectionList (r : repo) (filter : CollectionFilter) : list CollectionRecord :=
  List.filter (collection_matches filter) (map snd (map_to_list (im_records r))).

Definition updateCollection (r : repo) (key : CollectionKey) (expectedValue : option Z)
    (apply : CollectionRecord -> result go_error CollectionRecord) : result go_error CollectionRecord * repo :=
  let mapKey := collectionMapKey key in
  match im_records r !! mapKey with
  | None => (Err ErrNotFound, r)
  | Some current =>
      if negb (collectionValuesEqual (cr_ValueAggregate current) expectedValue) then (Err ErrCollectionConflict, r)
      else match apply current with
           | Err e => (Err e, r)
           | Ok next => (Ok next, r <| im_records := <[mapKey := next]> (im_records r) |>)
           end
  end.

Definition mark_pending (now : time) (txHash : string) (updatedAt : time) (record : CollectionRecord) :
    result go_error CollectionRecord :=
  if negb (bool_decide (cr_State record = CollectionStateCollectible)) &&
     negb (bool_decide (cr_State record = CollectionStateCollectFailedRetryable))
  then Err ErrInvalidCollectionTransition
  else Ok (record <| cr_State := CollectionStateCollectPending |>
                  <| cr_AttemptCount := cr_AttemptCount record + 1 |>
                  <| cr_LastTxHash := txHash |> <| cr_LastError := "" |>
                  <| cr_UpdatedAt := collectionUpdatedAt now updatedAt |>).

Definition mark_collected (now : time) (txHash : string) (collectedAmount : option Z) (updatedAt : time)
    (record : CollectionRecord) : result go_error CollectionRecord :=
  if negb (bool_decide (cr_State record = CollectionStateCollectPending))
  then Err ErrInvalidCollectionTransition
  else Ok (record <| cr_State := CollectionStateCollected |>
                  <| cr_LastTxHash := txHash |> <| cr_LastError := "" |>
                  <| cr_CollectedAmount := collectedAmount |>
                  <| cr_UpdatedAt := collectionUpdatedAt now updatedAt |>).

Definition mark_failed (now : time) (txHash lastError : string) (updatedAt : time) (record : CollectionRecord) :
    result go_error CollectionRecord :=
  if negb (bool_decide (cr_State record = CollectionStateCollectPending))
  then Err ErrInvalidCollectionTransition
  else Ok (record <| cr_State := CollectionStateCollectFailedRetryable |>
                  <| cr_LastTxHash := txHash |> <| cr_LastError := lastError |>
                  <| cr_UpdatedAt := collectionUpdatedAt now updatedAt |>).

Definition im_CollectionMarkPending (r : repo) (now : time) (key : CollectionKey) (expectedValue : option Z)
    (txHash : string) (updatedAt : time) :=
  updateCollection r key expectedValue (mark_pending now txHash updatedAt).
Definition im_CollectionMarkCollected (r : repo) (now : time) (key : CollectionKey) (expectedValue : option Z)
    (txHash : string) (collectedAmount : option Z) (updatedAt : time) :=
  updateCollection r key expectedValue (mark_collected now txHash collectedAmount updatedAt).
Definition im_CollectionMarkFailedRetryable (r : repo) (now : time) (key : CollectionKey)
    (expectedValue : option Z) (txHash lastError : string) (updatedAt : time) :=
  updateCollection r key expectedValue (mark_failed now txHash lastError updatedAt).

(** ** Sessions *)

(** The collection record to store with a session, when it carries a RAV. *)
Definition next_collection (r : repo) (now : time) (sessionID : string) (rav : option SignedRAV) :
    result go_error (option CollectionRecord) :=
  match rav with
  | None => Ok None
  | Some _ => let? next := collectionNextCollectibleLocked r now sessionID rav in Ok (Some next)
  end.

Definition put_optional (next : option CollectionRecord) (r : repo) : repo :=
  match next with Some c => put_record c r | None => r end.

Definition put_session (id : string) (s : Session) (r : repo) : repo :=
  r <| im_sessions := <[id := s]> (im_sessions r) |>.

Definition im_SessionCreate (r : repo) (now : time) (session : option Session) : result go_error unit * repo :=
  match session with
  | None => (Err (Errorf "session must not be nil"), r)
  | Some s =>
    if String.eqb (s_ID s) "" then (Err (Errorf "session ID must not be empty"), r) else
    match next_collection r now (s_ID s) (s_CurrentRAV s) with
    | Err e => (Err e, r)
    | Ok collectionNext =>
        match im_sessions r !! s_ID s with
        | Some _ => (Err (Errorf "session %q already exists"), r)
        | None => (Ok tt, put_optional collectionNext (put_session (s_ID s) s r))
        end
    end
  end.

Definition im_SessionGet (r : repo) (sessionID : string) : result go_error Session :=
  match im_sessions r !! sessionID with
  | Some s => Ok s
  | None => Err (Wrapf "session %q: %w" ErrNotFound)
  end.

Definition im_SessionUpdate (r : repo) (now : time) (session : option Session) : result go_error unit * repo :=
  match session with
  | None => (Err (Errorf "session must not be nil"), r)
  | Some s =>
    match next_collection r now (s_ID s) (s_CurrentRAV s) with
    | Err e => (Err e, r)
    | Ok collectionNext =>
        match im_sessions r !! s_ID s with
        | None => (Err (Errorf "session %q not found"), r)
        | Some _ => (Ok tt, put_optional collectionNext (put_session (s_ID s) s r))
        end
    end
  end.

Definition touched (lastKeepAlive : time) (s : Session) : Session :=
  let s := if lastKeepAlive >? s_LastKeepAlive s then s <| s_LastKeepAlive := lastKeepAlive |> else s in
  if s_LastKeepAlive s >? s_UpdatedAt s then s <| s_UpdatedAt := s_LastKeepAlive s |> else s.

Definition im_SessionTouch (r : repo) (sessionID : string) (lastKeepAlive : time) :
    result go_error unit * repo :=
  match im_sessions r !! sessionID with
  | None => (Err (Wrapf "session %q: %w" ErrNotFound), r)
  | Some s => (Ok tt, put_session sessionID (touched lastKeepAlive s) r)
  end.

Definition with_runtime_state (status : SessionStatus) (metadata : gmap string string) (endedAt : option time)
    (endReason : EndReason) (updatedAt : time) (s : Session) : Session :=
  if bool_decide (s_Status s = SessionStatusTerminated) then s
  else
    let next := s <| s_Status := status |> <| s_Metadata := metadata |> <| s_EndedAt := endedAt |>
                  <| s_EndReason := endReason |> in
    if updatedAt >? s_UpdatedAt next then next <| s_UpdatedAt := updatedAt |> else next.

Definition im_SessionUpdateRuntimeState (r : repo) (sessionID : string) (status : SessionStatus)
    (metadata : gmap string string) (endedAt : option time) (endReason : EndReason) (updatedAt : time) :
    result go_error unit * repo :=
  match im_sessions r !! sessionID with
  | None => (Err (Wrapf "session %q: %w" ErrNotFound), r)
  | Some s => (Ok tt, put_session sessionID (with_runtime_state status metadata endedAt endReason updatedAt s) r)
  end.

Definition im_SessionUpdateRAVAndBaseline (r : repo) (now : time) (sessionID : string)
    (currentRAV : option SignedRAV) (baselineBlocks baselineBytes baselineReqs : Z) (baselineCost : option Z) :
    result go_error unit * repo :=
  match next_collection r now sessionID currentRAV with
  | Err e => (Err e, r)
  | Ok collectionNext =>
      match im_sessions r !! sessionID with
      | None => (Err (Wrapf "session %q: %w" ErrNotFound), r)
      | Some s =>
          let next := s <| s_CurrentRAV := currentRAV |> <| s_BaselineBlocks := baselineBlocks |>
                        <| s_BaselineBytes := baselineBytes |> <| s_BaselineReqs := baselineReqs |>
                        <| s_BaselineCost := match baselineCost with Some c => Some c | None => Some 0 end |>
                        <| s_UpdatedAt := now |> in
          (Ok tt, put_optional collectionNext (put_session sessionID next r))
      end
  end.

Definition UsageAdd (r : repo) (sessionID : string) (usage : option UsageEvent) : result go_error unit * repo :=
  match usage with
  | None => (Err (Errorf "usage event must not be nil"), r)
  | Some u =>
      let events := default [] (im_usage r !! sessionID) in
      (Ok tt, r <| im_usage := <[sessionID := events ++ [u]]> (im_usage r) |>)
  end.

Definition im_SessionApplyUsage (r : repo) (now : time) (sessionID : string) (usage : option UsageEvent)
    (cost : option Z) : result go_error unit * repo :=
  match usage with
  | None => (Err (Errorf "usage event must not be nil"), r)
  | Some _ =>
      let '(blocks, bytes, requests) := SanitizedTotals usage in
      match im_sessions r !! sessionID with
      | None => (Err (Wrapf "session %q: %w" ErrNotFound), r)
      | Some s =>
          let r := put_session sessionID (AddUsage now blocks bytes requests cost s) r in
          UsageAdd r sessionID usage
      end
  end.

Definition session_matches (filter : SessionFilter) (s : Session) : bool :=
  match sf_Payer filter with Some p => String.eqb (Pretty (s_Payer s)) (Pretty p) | None => true end &&
  match sf_Status filter with Some st => bool_decide (s_Status s = st) | None => true end &&
  match sf_CreatedAfter filter with Some t => s_CreatedAt s >? t | None => true end.

Definition im_SessionList (r : repo) (filter : SessionFilter) : list Session :=
  List.filter (session_matches filter) (map snd (map_to_list (im_sessions r))).

Definition SessionCount (r : repo) : Z := Z.of_nat (size (im_sessions r)).

(** ** Workers *)

Definition WorkerCreate (r : repo) (worker : option Worker) : result go_error unit * repo :=
  match worker with
  | None => (Err (Errorf "worker must not be nil"), r)
  | Some w =>
    if String.eqb (wk_Key w) "" then (Err (Errorf "worker key must not be empty"), r) else
    match im_workers r !! wk_Key w with
    | Some _ => (Err (Errorf "worker %q already exists"), r)
    | None => (Ok tt, r <| im_workers := <[wk_Key w := w]> (im_workers r) |>)
    end
  end.

Definition im_WorkerCreateAndReserveQuota (r : repo) (now : time) (worker : option Worker) (maxWorkers : Z) :
    result (go_error * option QuotaUsage) QuotaUsage * repo :=
  match worker with
  | None => (Err (Errorf "worker must not be nil", None), r)
  | Some w =>
    if String.eqb (wk_Key w) "" then (Err (Errorf "worker key must not be empty", None), r) else
    if maxWorkers <? 0 then (Err (Errorf "max workers must not be negative", None), r) else
    match im_workers r !! wk_Key w with
    | Some _ => (Err (Errorf "worker %q already exists", None), r)
    | None =>
      let payerKey := Pretty (wk_Payer w) in
      let commit next := r <| im_workers := <[wk_Key w := w]> (im_workers r) |>
                           <| im_quotas := <[payerKey := next]> (im_quotas r) |> in
      match im_quotas r !! payerKey with
      | None =>
          if 1 >? maxWorkers then (Err (ErrQuotaExceeded, Some (mkQuotaUsage (wk_Payer w) 0 0 now)), r)
          else let next := mkQuotaUsage (wk_Payer w) 0 1 now in (Ok next, commit next)
      | Some current =>
          if q_ActiveWorkers current + 1 >? maxWorkers then (Err (ErrQuotaExceeded, Some current), r)
          else let next := current <| q_ActiveWorkers := q_ActiveWorkers current + 1 |>
                                   <| q_LastUpdated := now |> in (Ok next, commit next)
      end
    end
  end.

Definition im_WorkerGet (r : repo) (workerKey : string) : result go_error Worker :=
  match im_workers r !! workerKey with
  | Some w => Ok w
  | None => Err (Wrapf "worker %q: %w" ErrNotFound)
  end.

Definition im_WorkerCountBySession (r : repo) (sessionID : string) : Z :=
  Z.of_nat (length (List.filter (fun w => String.eqb (wk_SessionID w) sessionID)
                      (map snd (map_to_list (im_workers r))))).

Definition im_WorkerDelete (r : repo) (workerKey : string) : result go_error unit * repo :=
  match im_workers r !! workerKey with
  | None => (Err (Errorf "worker %q not found"), r)
  | Some _ => (Ok tt, r <| im_workers := delete workerKey (im_workers r) |>)
  end.

(** ** Quotas *)

Definition put_quota (key : string) (q : QuotaUsage) (r : repo) : repo :=
  r <| im_quotas := <[key := q]> (im_quotas r) |>.

Definition im_QuotaGet (r : repo) (now : time) (payer : address) : QuotaUsage :=
  match im_quotas r !! Pretty payer with
  | Some q => q
  | None => mkQuotaUsage payer 0 0 now
  end.

Definition QuotaReserve (r : repo) (now : time) (payer : address) (maxWorkers workers : Z) :
    result (go_error * option QuotaUsage) QuotaUsage * repo :=
  if workers <=? 0 then (Err (Errorf "workers must be positive", None), r) else
  if maxWorkers <? 0 then (Err (Errorf "max workers must not be negative", None), r) else
  let payerKey := Pretty payer in
  match im_quotas r !! payerKey with
  | None =>
      if workers >? maxWorkers then (Err (ErrQuotaExceeded, Some (mkQuotaUsage payer 0 0 now)), r)
      else let next := mkQuotaUsage payer 0 workers now in (Ok next, put_quota payerKey next r)
  | Some current =>
      if q_ActiveWorkers current + workers >? maxWorkers then (Err (ErrQuotaExceeded, Some current), r)
      else let next := current <| q_ActiveWorkers := q_ActiveWorkers current + workers |>
                               <| q_LastUpdated := now |> in (Ok next, put_quota payerKey next r)
  end.

Definition QuotaIncrement (r : repo) (now : time) (payer : address) (sessions workers : Z) :
    result go_error unit * repo :=
  let payerKey := Pretty payer in
  match im_quotas r !! payerKey with
  | None => (Ok tt, put_quota payerKey (mkQuotaUsage payer sessions workers now) r)
  | Some current =>
      (Ok tt, put_quota payerKey
                (current <| q_ActiveSessions := q_ActiveSessions current + sessions |>
                         <| q_ActiveWorkers := q_ActiveWorkers current + workers |>
                         <| q_LastUpdated := now |>) r)
  end.

Definition im_QuotaDecrement (r : repo) (now : time) (payer : address) (sessions workers : Z) :
    result go_error unit * repo :=
  let payerKey := Pretty payer in
  match im_quotas r !! payerKey with
  | None => (Ok tt, r)
  | Some current =>
      let s := q_ActiveSessions current - sessions in
      let w := q_ActiveWorkers current - workers in
      (Ok tt, put_quota payerKey
                (current <| q_ActiveSessions := if s <? 0 then 0 else s |>
                         <| q_ActiveWorkers := if w <? 0 then 0 else w |>
                         <| q_LastUpdated := now |>) r)
  end.

#[export] Instance inmemory_repository : GlobalRepository InMemoryRepository := {|
  SessionCreate := im_SessionCreate;
  SessionGet := im_SessionGet;
  SessionUpdate := im_SessionUpdate;
  SessionTouch := im_SessionTouch;
  SessionUpdateRuntimeState := im_SessionUpdateRuntimeState;
  SessionUpdateRAVAndBaseline := im_SessionUpdateRAVAndBaseline;
  SessionApplyUsage := im_SessionApplyUsage;
  SessionList := im_SessionList;
  WorkerCreateAndReserveQuota := im_WorkerCreateAndReserveQuota;
  WorkerGet := im_WorkerGet;
  WorkerCountBySession r id := Ok (im_WorkerCountBySession r id);
  WorkerDelete := im_WorkerDelete;
  QuotaGet r now payer := Ok (im_QuotaGet r now payer);
  QuotaDecrement := im_QuotaDecrement;
  CollectionGet := im_CollectionGet;
  CollectionList r f := Ok (im_CollectionList r f);
  CollectionMarkPending := im_CollectionMarkPending;
  CollectionMarkCollected := im_CollectionMarkCollected;
  CollectionMarkFailedRetryable := im_CollectionMarkFailedRetryable
|}.
End InMemory.
