(* ===== verification/InMemoryProps.v ===== *)
(** Correctness of the in-memory repository: it implements the interface
    [GlobalRepository]; collection keys are unambiguous; the settlement lifecycle
    of a collection record is the state machine [coll_step]; every accepted RAV
    has a collection record of the same value; terminated sessions stay
    terminated; usage accumulates exactly. *)
From S2P Require Import Prelude.
From S2P Require Import GoStd.
From S2P Require Import External.
From S2P Require Import GRT.
From S2P Require Import Horizon.
From S2P Require Import Proto.
From S2P Require Import Repository.
From S2P Require Import InMemory.

(** ** The interface *)

Section Interface.
Context `{Uint256} `{Eth}.
Implicit Types (r : InMemoryRepository).

Lemma session_at_lookup r id : session_at r id = im_sessions r !! id.
Proof. unfold session_at. simpl. unfold im_SessionGet. by destruct (im_sessions r !! id). Qed.

Lemma sessions_put_optional next r : im_sessions (put_optional next r) = im_sessions r.
Proof. by destruct next. Qed.

Lemma session_effect_put r id s0 s next (f : Session -> Session -> Prop) :
  im_sessions r !! id = Some s0 -> f s0 s ->
  session_effect r (Ok tt, put_optional next (put_session id s r)) id f.
Proof.
  intros E Hf. split.
  - exists s0, s. rewrite !session_at_lookup, sessions_put_optional. simpl. by rewrite lookup_insert_eq.
  - intros i Hi. rewrite !session_at_lookup, sessions_put_optional. simpl. by rewrite lookup_insert_ne.
Qed.

Lemma inmemory_laws_hold : GlobalRepositoryLaws (R := InMemoryRepository).
Proof.
  split; simpl.
  - intros r now s. unfold im_SessionCreate. destruct (String.eqb _ _); [done |].
    destruct (next_collection _ _ _ _); [|done].
    destruct (im_sessions r !! s_ID s) eqn:E; [done |].
    rewrite !session_at_lookup, sessions_put_optional. simpl. rewrite lookup_insert_eq.
    split_and!; [done | done |]. intros i Hi.
    rewrite !session_at_lookup, sessions_put_optional. simpl. by rewrite lookup_insert_ne.
  - intros. unfold im_SessionUpdateRuntimeState.
    destruct (im_sessions r !! id) as [s|] eqn:E; [|done].
    apply (session_effect_put r id s _ None); [done |]. unfold with_runtime_state.
    case_decide; [by rewrite bool_decide_true | rewrite bool_decide_false by done].
    simpl. by case_match.
  - intros. unfold im_SessionUpdateRAVAndBaseline.
    destruct (next_collection _ _ _ _); [|done].
    destruct (im_sessions r !! id) as [s|] eqn:E; [|done].
    apply (session_effect_put r id s); [done |]. by destruct cost.
  - intros. unfold im_SessionApplyUsage. destruct u as [u|]; [|done]. cbn [SanitizedTotals].
    destruct (im_sessions r !! id) as [s|] eqn:E; [|done].
    by apply (session_effect_put r id s _ None).
Qed.

#[export] Instance inmemory_laws : GlobalRepositoryLaws (R := InMemoryRepository) := inmemory_laws_hold.

(** C33: the in-memory repository refines the repository interface: each
    mutation either fails and leaves every session unchanged, or succeeds and
    rewrites exactly the session it names, in exactly the way the interface
    promises to the gateway and the services. *)
Theorem InMemory_implements_GlobalRepository : GlobalRepositoryLaws (R := InMemoryRepository).
Proof. exact inmemory_laws_hold. Qed.
End Interface.

(** ** Collection keys *)

Section KeyTheorems.
Context `{EthLaws}.

(** Splitting at the last bar. *)
Lemma last_bar_inj (a b c d : chars) :
  "|"%char ∉ b -> "|"%char ∉ d -> a ++ bar ++ b = c ++ bar ++ d -> a = c /\ b = d.
Proof.
  unfold bar. intros Hb Hd. revert c. induction a as [|x a IH]; intros [|y c] E; simpl in E.
  - by simplify_eq.
  - simplify_eq. destruct Hb. apply elem_of_app. right. by left.
  - simplify_eq. destruct Hd. apply elem_of_app. right. by left.
  - injection E as -> E. apply IH in E as [-> ->]. done.
Qed.

Lemma collectionMapKey_inj k1 k2 : collectionMapKey k1 = collectionMapKey k2 -> k1 = k2.
Proof.
  unfold collectionMapKey. intros E%(f_equal to_chars).
  rewrite !String.list_ascii_of_string_of_list_ascii in E.
  rewrite !(app_assoc _ bar) in E. rewrite !app_assoc in E.
  repeat rewrite <- (app_assoc _ bar) in E.
  assert (forall l, "|"%char ∉ to_chars (EncodeToString l)) as Hhex.
  { intros l. unfold EncodeToString. rewrite String.list_ascii_of_string_of_list_ascii.
    apply hex_chars_no_bar. }
  apply last_bar_inj in E as [E ED]; [|apply Pretty_no_bar..].
  apply last_bar_inj in E as [E ES]; [|apply Pretty_no_bar..].
  apply last_bar_inj in E as [E EP]; [|apply Pretty_no_bar..].
  apply last_bar_inj in E as [E EC]; [|apply Hhex..].
  assert (forall s t, to_chars s = to_chars t -> s = t) as Hinj.
  { intros s t Hst%(f_equal of_chars). by rewrite !String.string_of_list_ascii_of_string in Hst. }
  apply Hinj in E, EC, EP, ES, ED. apply Pretty_inj in EP, ES, ED.
  unfold EncodeToString in EC. apply (f_equal to_chars) in EC.
  rewrite !String.list_ascii_of_string_of_list_ascii in EC. apply hex_chars_inj in EC.
  destruct k1, k2; simpl in *; by subst.
Qed.

(** The textual key of the collection map is injective: two settlement
    tuples share a record only if session, collection and the three addresses
    are equal, even when a session id itself contains the separator. *)
Theorem collectionMapKey_injective (k1 k2 : CollectionKey) :
  collectionMapKey k1 = collectionMapKey k2 <-> k1 = k2.
Proof. split; [apply collectionMapKey_inj | congruence]. Qed.
End KeyTheorems.

Lemma collectionMapKey_injective_witness :
  let k s := mkCollectionKey s (zeros 32) (zeros 20) (zeros 20) (zeros 20) in
  @collectionMapKey Reference.eth_ref (k "a|b") <> @collectionMapKey Reference.eth_ref (k "a").
Proof.
  intros k E.
  apply (proj1 (@collectionMapKey_injective _ Reference.eth_ref_laws (k "a|b"%string) (k "a"%string))) in E.
  discriminate E.
Defined.

(** ** The mutations of the repository the program performs *)

Inductive repo_op `{Uint256} : Type :=
  | OpSessionCreate (s : option Session)
  | OpSessionUpdate (s : option Session)
  | OpSessionTouch (id : string) (t : time)
  | OpUpdateRuntimeState (id : string) (status : SessionStatus) (md : gmap string string)
      (ended : option time) (reason : EndReason) (updated : time)
  | OpUpdateRAVAndBaseline (id : string) (rav : option SignedRAV) (blocks bytes reqs : Z) (cost : option Z)
  | OpApplyUsage (id : string) (u : option UsageEvent) (cost : option Z)
  | OpWorkerCreateAndReserve (w : option Worker) (maxWorkers : Z)
  | OpWorkerDelete (key : string)
  | OpQuotaDecrement (payer : address) (sessions workers : Z)
  | OpMarkPending (key : CollectionKey) (expected : option Z) (tx : string) (t : time)
  | OpMarkCollected (key : CollectionKey) (expected : option Z) (tx : string) (amount : option Z) (t : time)
  | OpMarkFailed (key : CollectionKey) (expected : option Z) (tx err : string) (t : time).

Section Ops.
Context `{Uint256} `{Eth}.
Implicit Types (r : InMemoryRepository).

Definition exec_op (now : time) (op : repo_op) (r : InMemoryRepository) : InMemoryRepository :=
  match op with
  | OpSessionCreate s => (im_SessionCreate r now s).2
  | OpSessionUpdate s => (im_SessionUpdate r now s).2
  | OpSessionTouch id t => (im_SessionTouch r id t).2
  | OpUpdateRuntimeState id st md en re up => (im_SessionUpdateRuntimeState r id st md en re up).2
  | OpUpdateRAVAndBaseline id rav b y q c => (im_SessionUpdateRAVAndBaseline r now id rav b y q c).2
  | OpApplyUsage id u c => (im_SessionApplyUsage r now id u c).2
  | OpWorkerCreateAndReserve w m => (im_WorkerCreateAndReserveQuota r now w m).2
  | OpWorkerDelete k => (im_WorkerDelete r k).2
  | OpQuotaDecrement p s w => (im_QuotaDecrement r now p s w).2
  | OpMarkPending k v tx t => (im_CollectionMarkPending r now k v tx t).2
  | OpMarkCollected k v tx a t => (im_CollectionMarkCollected r now k v tx a t).2
  | OpMarkFailed k v tx e t => (im_CollectionMarkFailedRetryable r now k v tx e t).2
  end.

(** States reachable from the empty repository. *)
Inductive reachable : InMemoryRepository -> Prop :=
  | reach_new : reachable NewInMemoryRepository
  | reach_op now op r : reachable r -> reachable (exec_op now op r).

(** ** The settlement lifecycle of one record *)

Definition rav_record_value (rav : option SignedRAV) : option Z :=
  sm ← rav; m ← Message sm; rav_ValueAggregate m.

(** A record as a newly accepted RAV writes it. *)
Definition fresh_collectible (c : CollectionRecord) : Prop :=
  cr_State c = CollectionStateCollectible /\ cr_AttemptCount c = 0 /\ cr_CollectedAmount c = None /\
  cr_ValueAggregate c = rav_record_value (cr_SignedRAV c) /\ is_Some (cr_ValueAggregate c).

(** What settlement itself never changes. *)
Definition same_voucher (c c' : CollectionRecord) : Prop :=
  cr_Key c' = cr_Key c /\ cr_SignedRAV c' = cr_SignedRAV c /\
  cr_ValueAggregate c' = cr_ValueAggregate c /\ cr_CreatedAt c' = cr_CreatedAt c.

Definition value_lt (c c' : CollectionRecord) : Prop :=
  exists v w, cr_ValueAggregate c = Some v /\ cr_ValueAggregate c' = Some w /\ v < w.

Inductive coll_step : option CollectionRecord -> option CollectionRecord -> Prop :=
  | cs_stay o : coll_step o o
  | cs_new c : fresh_collectible c -> coll_step None (Some c)
  | cs_replace c c' :
      cr_State c = CollectionStateCollectible \/ cr_State c = CollectionStateCollectFailedRetryable ->
      fresh_collectible c' -> cr_CreatedAt c' = cr_CreatedAt c -> coll_step (Some c) (Some c')
  | cs_reopen c c' :
      cr_State c = CollectionStateCollected -> value_lt c c' ->
      fresh_collectible c' -> cr_CreatedAt c' = cr_CreatedAt c -> coll_step (Some c) (Some c')
  | cs_submit c c' :
      cr_State c = CollectionStateCollectible \/ cr_State c = CollectionStateCollectFailedRetryable ->
      same_voucher c c' -> cr_State c' = CollectionStateCollectPending ->
      cr_AttemptCount c' = cr_AttemptCount c + 1 -> coll_step (Some c) (Some c')
  | cs_settle c c' :
      cr_State c = CollectionStateCollectPending -> same_voucher c c' ->
      cr_State c' = CollectionStateCollected -> cr_AttemptCount c' = cr_AttemptCount c ->
      coll_step (Some c) (Some c')
  | cs_fail c c' :
      cr_State c = CollectionStateCollectPending -> same_voucher c c' ->
      cr_State c' = CollectionStateCollectFailedRetryable -> cr_AttemptCount c' = cr_AttemptCount c ->
      coll_step (Some c) (Some c').

Lemma newCollectionRecordFromRAV_spec now id rav c :
  newCollectionRecordFromRAV now id rav = Ok c ->
  id <> ""%string /\
  exists sm m v, rav = Some sm /\ Message sm = Some m /\ rav_ValueAggregate m = Some v /\
    c = mkCollectionRecord
          (mkCollectionKey id (rav_CollectionID m) (rav_Payer m) (rav_ServiceProvider m) (rav_DataService m))
          rav (Some v) CollectionStateCollectible 0 "" "" None now now.
Proof.
  unfold newCollectionRecordFromRAV. destruct (String.eqb_spec id ""); [done |].
  destruct rav as [sm|]; [|done]. destruct (Message sm) as [m|] eqn:Em; [|done].
  destruct (rav_ValueAggregate m) as [v|] eqn:Ev; [|done]. intros [= <-]. naive_solver.
Qed.

(** Every outcome of the upsert of an accepted RAV. *)
Lemma collectionNext_spec r now id rav c :
  collectionNextCollectibleLocked r now id rav = Ok c ->
  exists sm m v, rav = Some sm /\ Message sm = Some m /\ rav_ValueAggregate m = Some v /\
    cr_ValueAggregate c = Some v /\
    let key := mkCollectionKey id (rav_CollectionID m) (rav_Payer m) (rav_ServiceProvider m) (rav_DataService m) in
    (cr_Key c = key \/ im_records r !! collectionMapKey key = Some c) /\
    coll_step (im_records r !! collectionMapKey key) (Some c).
Proof.
  intros (c0 & (Hid & sm & m & v & -> & Em & Ev & ->)%newCollectionRecordFromRAV_spec & E)%rbind_Ok.
  exists sm, m, v. cbn [cr_Key] in E. cbv zeta. set (key := mkCollectionKey _ _ _ _ _) in *.
  assert (forall c', cr_SignedRAV c' = Some sm -> cr_ValueAggregate c' = Some v ->
    cr_State c' = CollectionStateCollectible -> cr_AttemptCount c' = 0 -> cr_CollectedAmount c' = None ->
    fresh_collectible c') as Hf.
  { intros c' E1 E2 E3 E4 E5. unfold fresh_collectible, rav_record_value.
    rewrite E1, E2, E3, E4, E5. simpl. rewrite Em. simpl. split_and!; eauto. }
  destruct (im_records r !! collectionMapKey key) as [cur|] eqn:El.
  2: { apply Ok_inj in E as <-. cbn in *. split_and!; auto. apply cs_new. by apply Hf. }
  cbn [cr_ValueAggregate] in E.
  assert (cur = c -> collectionValuesEqual (cr_ValueAggregate cur) (Some v) = true -> cr_ValueAggregate c = Some v)
    as Heq.
  { intros -> Hv. unfold collectionValuesEqual in Hv. destruct (cr_ValueAggregate c); [|done].
    rewrite cmpZ_eqb in Hv. bool_props. by subst. }
  destruct (cr_State cur) eqn:Es.
  - apply Ok_inj in E as <-. cbn. split_and!; auto. apply cs_replace; auto.
  - destruct (collectionValuesEqual _ _) eqn:Ee; [|done]. apply Ok_inj in E as <-.
    split_and!; auto. apply cs_stay.
  - destruct (collectionValuesEqual _ _) eqn:Ee; [apply Ok_inj in E as <-; split_and!; auto; apply cs_stay |].
    destruct (cr_ValueAggregate cur) as [w|] eqn:Ew; [|done]. destruct (cmpZ v w <? 0) eqn:Ec; [done |].
    apply Ok_inj in E as <-. cbn. split_and!; auto. apply cs_reopen; auto.
    exists w, v. simpl in Ee. rewrite cmpZ_eqb in Ee. rewrite cmpZ_ltb in Ec. bool_props.
    split_and!; [done | done | lia].
  - apply Ok_inj in E as <-. cbn. split_and!; auto. apply cs_replace; auto.
Qed.

(** ** Invariant of reachable states *)

Definition rav_key (id : string) (m : RAV) : CollectionKey :=
  mkCollectionKey id (rav_CollectionID m) (rav_Payer m) (rav_ServiceProvider m) (rav_DataService m).

(** The RAV of a session has a collection record of the same value. *)
Definition rav_recorded (records : gmap string CollectionRecord) (id : string) (rav : option SignedRAV) : Prop :=
  forall sm, rav = Some sm ->
  exists m v c, Message sm = Some m /\ rav_ValueAggregate m = Some v /\
    records !! collectionMapKey (rav_key id m) = Some c /\ cr_ValueAggregate c = Some v.

Record repo_inv (r : InMemoryRepository) : Prop := {
  inv_keyed : forall k c, im_records r !! k = Some c -> k = collectionMapKey (cr_Key c);
  inv_value : forall k c, im_records r !! k = Some c ->
              cr_ValueAggregate c = rav_record_value (cr_SignedRAV c) /\ is_Some (cr_ValueAggregate c);
  inv_recorded : forall id s, im_sessions r !! id = Some s -> rav_recorded (im_records r) id (s_CurrentRAV s)
}.

(** Two states with the same records and the same RAV in every session. *)
Definition same_vouchers r r' : Prop :=
  im_records r' = im_records r /\
  forall id s', im_sessions r' !! id = Some s' ->
    exists s, im_sessions r !! id = Some s /\ s_CurrentRAV s' = s_CurrentRAV s.

Lemma repo_inv_same r r' : same_vouchers r r' -> repo_inv r -> repo_inv r'.
Proof.
  intros [E Hs] [I1 I2 I3]. split; rewrite E; auto.
  intros id s' (s & Es & ->)%Hs. eauto.
Qed.

Lemma same_vouchers_put r id s s' :
  im_sessions r !! id = Some s -> s_CurrentRAV s' = s_CurrentRAV s -> same_vouchers r (put_session id s' r).
Proof.
  intros Es Er. split; [done |]. simpl. intros i t. destruct (decide (i = id)) as [->|].
  - rewrite lookup_insert_eq. intros [= <-]. eauto.
  - rewrite lookup_insert_ne by done. eauto.
Qed.

Lemma same_vouchers_eq r r' :
  im_records r' = im_records r -> im_sessions r' = im_sessions r -> same_vouchers r r'.
Proof. intros E1 E2. split; [done |]. rewrite E2. eauto. Qed.

Context `{!EthLaws}.

Lemma coll_step_value o c :
  (forall c0, o = Some c0 -> cr_ValueAggregate c0 = rav_record_value (cr_SignedRAV c0) /\ is_Some (cr_ValueAggregate c0)) ->
  coll_step o (Some c) -> cr_ValueAggregate c = rav_record_value (cr_SignedRAV c) /\ is_Some (cr_ValueAggregate c).
Proof.
  intros Ho Hs. inversion Hs as [|? Hf|? ? ? Hf|? ? ? ? Hf|? c' ? Hv|? c' ? Hv|? c' ? Hv]; subst; auto;
    try (destruct Hf as (_ & _ & _ & ? & ?); by split);
    destruct Hv as (_ & -> & -> & _); by apply Ho.
Qed.

(** Storing a session together with the next record of its RAV keeps the
    invariant and moves every record along the lifecycle. *)
Lemma next_collection_inv r now id s next :
  repo_inv r -> next_collection r now id (s_CurrentRAV s) = Ok next ->
  let r' := put_optional next (put_session id s r) in
  repo_inv r' /\ forall k, coll_step (im_records r !! k) (im_records r' !! k).
Proof.
  intros [I1 I2 I3] Hn. unfold next_collection in Hn. destruct (s_CurrentRAV s) as [sm|] eqn:Erav.
  2: { injection Hn as <-. split; [|intros; apply cs_stay]. split; [done | done |]. simpl.
       intros i t. rewrite lookup_insert_Some. intros [[<- <-]|[_ ?]]; [|eauto].
       intros ? E. congruence. }
  apply rbind_Ok in Hn as (c & (sm' & m & v & [= <-] & Em & Ev & Evc & Hk & Hstep)%collectionNext_spec & [= <-]).
  fold (rav_key id m) in Hk, Hstep.
  assert (cr_Key c = rav_key id m) as Hkey.
  { destruct Hk as [?|Hl]; [done |]. apply I1 in Hl. symmetry. by apply collectionMapKey_inj. }
  assert (cr_ValueAggregate c = rav_record_value (cr_SignedRAV c)) as Hval
    by (eapply coll_step_value; [|done]; eauto).
  simpl. unfold put_record. rewrite Hkey. split; [split; simpl |].
  - intros k c'. rewrite lookup_insert_Some. intros [[<- <-]|[_ ?]]; [by rewrite Hkey | eauto].
  - intros k c'. rewrite lookup_insert_Some. intros [[<- <-]|[_ ?]]; [|eauto]. rewrite <- Hval. eauto.
  - intros i t. rewrite lookup_insert_Some. intros [[<- <-]|[Hne Ht]] sm' Hsm'.
    + assert (sm' = sm) as -> by congruence. exists m, v, c. by rewrite lookup_insert_eq.
    + destruct (I3 i t Ht sm' Hsm') as (m' & v' & c' & Em' & Ev' & Ec' & Evc').
      exists m', v', c'. rewrite lookup_insert_ne; [done |].
      intros Ek%collectionMapKey_inj. by injection Ek.
  - intros k. simpl. destruct (decide (k = collectionMapKey (rav_key id m))) as [->|].
    + by rewrite lookup_insert_eq.
    + rewrite lookup_insert_ne by done. apply cs_stay.
Qed.

(** Settlement marks: the voucher of the record is untouched. *)
Lemma updateCollection_inv r key expected f :
  repo_inv r ->
  (forall c c', f c = Ok c' -> same_voucher c c' /\ coll_step (Some c) (Some c')) ->
  let r' := (updateCollection r key expected f).2 in
  repo_inv r' /\ forall k, coll_step (im_records r !! k) (im_records r' !! k).
Proof.
  intros [I1 I2 I3] Hf. unfold updateCollection.
  destruct (im_records r !! collectionMapKey key) as [c|] eqn:El.
  2: { split; [done | intros; apply cs_stay]. }
  destruct (negb _); [split; [done | intros; apply cs_stay] |].
  destruct (f c) as [c'|] eqn:Ef; [|split; [done | intros; apply cs_stay]]. simpl.
  destruct (Hf _ _ Ef) as [(Ek & Er & Ev & Ec) Hstep]. split; [split; simpl |].
  - intros k d. rewrite lookup_insert_Some. intros [[<- <-]|[_ ?]]; [rewrite Ek |]; eauto.
  - intros k d. rewrite lookup_insert_Some. intros [[<- <-]|[_ ?]]; [rewrite Er, Ev |]; eauto.
  - intros i s Hs sm Hsm. destruct (I3 i s Hs sm Hsm) as (m & v & d & ? & ? & Hd & ?).
    destruct (decide (collectionMapKey (rav_key i m) = collectionMapKey key)) as [E|].
    + exists m, v, c'. rewrite E, lookup_insert_eq. rewrite E, El in Hd.
      injection Hd as ->. split_and!; congruence.
    + exists m, v, d. rewrite lookup_insert_ne by done. done.
  - intros k. simpl. destruct (decide (k = collectionMapKey key)) as [->|].
    + by rewrite lookup_insert_eq, El.
    + rewrite lookup_insert_ne by done. apply cs_stay.
Qed.

Lemma mark_pending_step now tx t c c' :
  mark_pending now tx t c = Ok c' -> same_voucher c c' /\ coll_step (Some c) (Some c').
Proof.
  unfold mark_pending. destruct (_ && _) eqn:E; [done |]. intros [= <-].
  split; [done |]. apply cs_submit; try done.
  apply andb_false_iff in E as [E|E]; bool_props; auto.
Qed.
Lemma mark_collected_step now tx a t c c' :
  mark_collected now tx a t c = Ok c' -> same_voucher c c' /\ coll_step (Some c) (Some c').
Proof.
  unfold mark_collected. destruct (negb _) eqn:E; [done |]. intros [= <-]. bool_props.
  split; [done |]. by apply cs_settle.
Qed.
Lemma mark_failed_step now tx e t c c' :
  mark_failed now tx e t c = Ok c' -> same_voucher c c' /\ coll_step (Some c) (Some c').
Proof.
  unfold mark_failed. destruct (negb _) eqn:E; [done |]. intros [= <-]. bool_props.
  split; [done |]. by apply cs_fail.
Qed.

Lemma touched_RAV t s : s_CurrentRAV (touched t s) = s_CurrentRAV s.
Proof. unfold touched. by repeat case_match. Qed.
Lemma with_runtime_state_RAV st md en re up s :
  s_CurrentRAV (with_runtime_state st md en re up s) = s_CurrentRAV s.
Proof. unfold with_runtime_state. by repeat case_match. Qed.
Lemma AddUsage_RAV now b y q c s : s_CurrentRAV (AddUsage now b y q c s) = s_CurrentRAV s.
Proof. by destruct c. Qed.

Lemma exec_op_inv now op r :
  repo_inv r ->
  repo_inv (exec_op now op r) /\ forall k, coll_step (im_records r !! k) (im_records (exec_op now op r) !! k).
Proof.
  intros I. assert (forall r', same_vouchers r r' ->
    repo_inv r' /\ forall k, coll_step (im_records r !! k) (im_records r' !! k)) as Hsame.
  { intros r' Hs. split; [by eapply repo_inv_same |]. destruct Hs as [-> _]. intros; apply cs_stay. }
  pose proof (Hsame r (same_vouchers_eq r r eq_refl eq_refl)) as Hrefl.
  destruct op; simpl.
  - unfold im_SessionCreate. destruct s as [s|]; [|done]. destruct (String.eqb _ _); [done |].
    destruct (next_collection _ _ _ _) eqn:E; [|done]. destruct (im_sessions r !! _); [done |].
    by eapply next_collection_inv.
  - unfold im_SessionUpdate. destruct s as [s|]; [|done].
    destruct (next_collection _ _ _ _) eqn:E; [|done]. destruct (im_sessions r !! _); [|done].
    by eapply next_collection_inv.
  - unfold im_SessionTouch. destruct (im_sessions r !! id) eqn:E; [|done].
    apply Hsame. eapply same_vouchers_put; [done | apply touched_RAV].
  - unfold im_SessionUpdateRuntimeState. destruct (im_sessions r !! id) eqn:E; [|done].
    apply Hsame. eapply same_vouchers_put; [done | apply with_runtime_state_RAV].
  - unfold im_SessionUpdateRAVAndBaseline. destruct (next_collection _ _ _ _) eqn:E; [|done].
    destruct (im_sessions r !! id); [|done]. by eapply next_collection_inv.
  - unfold im_SessionApplyUsage. destruct u as [u|]; [|done]. cbn [SanitizedTotals].
    destruct (im_sessions r !! id) eqn:E; [|done]. apply Hsame.
    apply (same_vouchers_put r id s); [done | apply AddUsage_RAV].
  - apply Hsame. unfold im_WorkerCreateAndReserveQuota. repeat case_match; by apply same_vouchers_eq.
  - apply Hsame. unfold im_WorkerDelete. case_match; by apply same_vouchers_eq.
  - apply Hsame. unfold im_QuotaDecrement. case_match; by apply same_vouchers_eq.
  - apply updateCollection_inv; [done | apply mark_pending_step].
  - apply updateCollection_inv; [done | apply mark_collected_step].
  - apply updateCollection_inv; [done | apply mark_failed_step].
Qed.

Lemma reachable_inv r : reachable r -> repo_inv r.
Proof.
  induction 1 as [|now op r _ IH]; [|by apply exec_op_inv].
  split; simpl; intros ? ?; rewrite lookup_empty; done.
Qed.


(** C11: the settlement state machine: whatever the repository is asked to do,
    each collection record is left alone or moves along the lifecycle: a new or
    replaced voucher starts collectible with no attempts, submission is only
    possible from collectible or failed and counts one attempt, a pending
    record keeps its voucher until it is collected or failed, and a collected
    record is only reopened by a strictly larger value. *)
Theorem collection_lifecycle (r : InMemoryRepository) (now : time) (op : repo_op) (k : string) :
  reachable r -> coll_step (im_records r !! k) (im_records (exec_op now op r) !! k).
Proof. intros Hr. by apply exec_op_inv, reachable_inv. Qed.
End Ops.

(** ** Sessions: termination and usage *)

Section Sessions.
Context `{Uint256} `{Eth}.
Implicit Types (r : InMemoryRepository).

(** The lifecycle fields of a session. *)
Definition lifecycle (s : Session) := (s_Status s, s_EndReason s, s_EndedAt s, s_Metadata s).

Lemma touched_lifecycle t s : lifecycle (touched t s) = lifecycle s.
Proof. unfold touched. by repeat case_match. Qed.
Lemma AddUsage_lifecycle now b y q c s : lifecycle (AddUsage now b y q c s) = lifecycle s.
Proof. by destruct c. Qed.
Lemma with_runtime_state_terminated st md en re up s :
  s_Status s = SessionStatusTerminated -> with_runtime_state st md en re up s = s.
Proof. intros E. unfold with_runtime_state. by rewrite bool_decide_true. Qed.

Lemma put_session_lifecycle r next i id s s' t :
  im_sessions r !! id = Some s -> lifecycle s' = lifecycle s ->
  im_sessions r !! i = Some t ->
  exists t', im_sessions (put_optional next (put_session id s' r)) !! i = Some t' /\ lifecycle t' = lifecycle t.
Proof.
  intros Es Hl Et. rewrite sessions_put_optional. simpl. destruct (decide (i = id)) as [->|].
  - rewrite lookup_insert_eq. exists s'. split; [done | congruence].
  - rewrite lookup_insert_ne by done. eauto.
Qed.

(** Termination is final: no operation other than a full replacement of the
    session record removes a terminated session or changes its status, end
    reason, end time or metadata, whatever arguments it is called with. *)
Theorem terminated_session_is_final r now op id s :
  im_sessions r !! id = Some s -> s_Status s = SessionStatusTerminated ->
  (forall t, op <> OpSessionUpdate t) ->
  exists s', im_sessions (exec_op now op r) !! id = Some s' /\ lifecycle s' = lifecycle s.
Proof.
  intros Es Ht Hop. destruct op as [s0|s0|i t|i st md en re up|i rav b y q c|i u c| | | | | |]; simpl.
  - unfold im_SessionCreate. destruct s0 as [s0|]; [|eauto]. destruct (String.eqb _ _); [eauto |].
    destruct (next_collection _ _ _ _); [|eauto]. destruct (im_sessions r !! s_ID s0) eqn:E; [eauto |].
    simpl. rewrite sessions_put_optional. simpl. rewrite lookup_insert_ne by congruence. eauto.
  - by destruct (Hop s0).
  - unfold im_SessionTouch. destruct (im_sessions r !! i) eqn:E; [|eauto].
    eapply (put_session_lifecycle r None); [done | apply touched_lifecycle | done].
  - unfold im_SessionUpdateRuntimeState. destruct (im_sessions r !! i) as [si|] eqn:E; [|eauto].
    destruct (decide (i = id)) as [->|].
    + assert (si = s) as -> by congruence. rewrite with_runtime_state_terminated by done.
      by apply (put_session_lifecycle r None _ id s).
    + simpl. rewrite lookup_insert_ne by done. eauto.
  - unfold im_SessionUpdateRAVAndBaseline. destruct (next_collection _ _ _ _); [|eauto].
    destruct (im_sessions r !! i) as [si|] eqn:E; [|eauto].
    eapply put_session_lifecycle; [done | done | done].
  - unfold im_SessionApplyUsage. destruct u as [u|]; [|eauto]. cbn [SanitizedTotals].
    destruct (im_sessions r !! i) as [si|] eqn:E; [|eauto].
    eapply (put_session_lifecycle r None); [done | apply AddUsage_lifecycle | done].
  - exists s. split; [|done]. unfold im_WorkerCreateAndReserveQuota. by repeat case_match.
  - exists s. split; [|done]. unfold im_WorkerDelete. by case_match.
  - exists s. split; [|done]. unfold im_QuotaDecrement. by case_match.
  - exists s. split; [|done]. unfold im_CollectionMarkPending, updateCollection. by repeat case_match.
  - exists s. split; [|done]. unfold im_CollectionMarkCollected, updateCollection. by repeat case_match.
  - exists s. split; [|done]. unfold im_CollectionMarkFailedRetryable, updateCollection. by repeat case_match.
Qed.

(** A run of metered events on one session. *)
Fixpoint apply_events (r : InMemoryRepository) (id : string) (events : list (time * UsageEvent * Z)) :
    result go_error unit * InMemoryRepository :=
  match events with
  | [] => (Ok tt, r)
  | (now, u, cost) :: rest =>
      match im_SessionApplyUsage r now id (Some u) (Some cost) with
      | (Err e, r') => (Err e, r')
      | (Ok _, r') => apply_events r' id rest
      end
  end.

Definition total (f : UsageEvent -> Z) (events : list (time * UsageEvent * Z)) : Z :=
  foldr (fun '(_, u, _) acc => sanitizeUsageMetric (f u) + acc) 0 events.
Definition total_cost (events : list (time * UsageEvent * Z)) : Z :=
  foldr (fun '(_, _, c) acc => c + acc) 0 events.

Lemma wrap_u64_add x a b : wrap_u64 (wrap_u64 (x + a) + b) = wrap_u64 (x + (a + b)).
Proof. unfold wrap_u64. rewrite Z.add_mod_idemp_l by done. by rewrite Z.add_assoc. Qed.

(** Usage is accounted exactly: applying any sequence of metered events to
    an existing session succeeds, adds to each counter the sum of the events'
    non-negative parts modulo 2^64 and to the cost the exact sum of the costs,
    and appends the events to the session's usage log in order. *)
Theorem SessionApplyUsage_accumulates r id s events :
  im_sessions r !! id = Some s ->
  u64 (s_BlocksProcessed s) -> u64 (s_BytesTransferred s) -> u64 (s_Requests s) ->
  exists r' s', apply_events r id events = (Ok tt, r') /\ im_sessions r' !! id = Some s' /\
    s_BlocksProcessed s' = wrap_u64 (s_BlocksProcessed s + total ue_Blocks events) /\
    s_BytesTransferred s' = wrap_u64 (s_BytesTransferred s + total ue_Bytes events) /\
    s_Requests s' = wrap_u64 (s_Requests s + total ue_Requests events) /\
    default 0 (s_TotalCost s') = default 0 (s_TotalCost s) + total_cost events /\
    default [] (im_usage r' !! id) = default [] (im_usage r !! id) ++ map (fun e => e.1.2) events.
Proof.
  revert r s. induction events as [|[[now u] c] events IH]; intros r s Es Hb Hy Hq.
  { exists r, s. simpl. rewrite !Z.add_0_r, !wrap_u64_small, app_nil_r by done. done. }
  simpl. rewrite Es. set (s1 := AddUsage now _ _ _ _ s).
  set (r1 := (UsageAdd (put_session id s1 r) id (Some u)).2). destruct (IH r1 s1) as (r' & s' & E & E' & B & Y & Q & C & L);
    [apply lookup_insert_eq | simpl; apply wrap_u64_range .. |].
  exists r', s'. split_and!; [exact E | exact E' | | | | |].
  - rewrite B. unfold s1. simpl. apply wrap_u64_add.
  - rewrite Y. unfold s1. simpl. apply wrap_u64_add.
  - rewrite Q. unfold s1. simpl. apply wrap_u64_add.
  - rewrite C. unfold s1. simpl. lia.
  - rewrite L. simpl. rewrite lookup_insert_eq. simpl. by rewrite <- app_assoc.
Qed.
End Sessions.

Module RepoWitness.
Import Reference.
Definition pricing : PricingConfig := mkPricingConfig ZeroGRT ZeroGRT.
Definition rav (v : Z) : SignedRAV :=
  mkSigned (Some (mkRAV (fixed_bytes 32 1) (fixed_bytes 20 2) (fixed_bytes 20 4) (fixed_bytes 20 3) 12 (Some v) []))
    (fixed_bytes 65 5).
Definition session : Session :=
  MarkBaseline ((NewSession 100 "s1" (fixed_bytes 20 2) (fixed_bytes 20 4) (fixed_bytes 20 3) pricing)
                <| s_CurrentRAV := Some (rav 150) |>).
Definition r1 : InMemoryRepository := exec_op 100 (OpSessionCreate (Some session)) NewInMemoryRepository.
Definition ended : Session :=
  with_runtime_state SessionStatusTerminated ∅ (Some 200) END_REASON_PAYMENT_ISSUE 200 session.
Definition r2 : InMemoryRepository :=
  exec_op 200 (OpUpdateRuntimeState "s1" SessionStatusTerminated ∅ (Some 200) END_REASON_PAYMENT_ISSUE 200) r1.
Definition m1 : RAV :=
  mkRAV (fixed_bytes 32 1) (fixed_bytes 20 2) (fixed_bytes 20 4) (fixed_bytes 20 3) 12 (Some 150) [].
Lemma r1_reachable : reachable r1.
Proof. apply reach_op, reach_new. Qed.
Lemma r1_session : im_sessions r1 !! "s1"%string = Some session.
Proof. reflexivity. Qed.
Lemma r2_session : im_sessions r2 !! "s1"%string = Some ended.
Proof.
  unfold r2, exec_op, im_SessionUpdateRuntimeState. rewrite r1_session. apply lookup_insert_eq.
Qed.
End RepoWitness.

Import Reference.


Lemma collection_lifecycle_witness :
  let op := OpMarkPending (rav_key "s1" RepoWitness.m1) (Some 150) "0xabc" 300 in
  let k := collectionMapKey (rav_key "s1" RepoWitness.m1) in
  coll_step (im_records RepoWitness.r1 !! k) (im_records (exec_op 300 op RepoWitness.r1) !! k).
Proof.
  intros op k. exact (@collection_lifecycle _ _ Reference.eth_ref_laws RepoWitness.r1 300 op k RepoWitness.r1_reachable).
Defined.

Lemma terminated_session_is_final_witness :
  exists s', im_sessions (exec_op 300 (OpUpdateRuntimeState "s1" SessionStatusActive ∅ None END_REASON_COMPLETE 300)
                            RepoWitness.r2) !! "s1"%string = Some s' /\
             lifecycle s' = lifecycle RepoWitness.ended.
Proof.
  exact (terminated_session_is_final RepoWitness.r2 300
    (OpUpdateRuntimeState "s1" SessionStatusActive ∅ None END_REASON_COMPLETE 300) "s1" RepoWitness.ended
    RepoWitness.r2_session eq_refl ltac:(discriminate)).
Defined.

Lemma SessionApplyUsage_accumulates_witness :
  exists r' s', apply_events RepoWitness.r1 "s1" [(1, mkUsageEvent 1 5 (-3) 1, 7); (2, mkUsageEvent 2 6 9 1, 8)] =
                (Ok tt, r') /\ im_sessions r' !! "s1"%string = Some s' /\ s_BlocksProcessed s' = 11.
Proof.
  assert (U : u64 0) by (unfold u64, two64; lia).
  destruct (SessionApplyUsage_accumulates RepoWitness.r1 "s1" RepoWitness.session
    [(1, mkUsageEvent 1 5 (-3) 1, 7); (2, mkUsageEvent 2 6 9 1, 8)] RepoWitness.r1_session U U U)
    as (r' & s' & E & Es & B & _).
  exists r', s'. split; [exact E | split; [exact Es |]]. rewrite B. reflexivity.
Defined.
