(* ===== verification/Runtime.v ===== *)
(** The gateway's live payment control ([provider/gateway/gateway.go], [funds.go],
    [rav_request_runtime.go], [runtime_manager.go]): the funds assessment of a
    session, the snapshot of an in-flight RAV request, the runtime manager that
    binds a payment stream to a session, queues and dispatches control messages,
    and the evaluation that runs after every metered usage event.

    [Env] is what one call observes of the outside world: the clock, the escrow
    contract and the collector contract.  A Go channel is an identifier with its
    buffered messages ([g_channels]); two pointers to responses are compared by
    the response they point to. *)
From S2P Require Import Prelude.
From S2P Require Import GoStd.
From S2P Require Import External.
From S2P Require Import GRT.
From S2P Require Import Horizon.
From S2P Require Import Proto.
From S2P Require Import Repository.

(** ** Messages of the payment stream *)

Inductive Action : Type := ACTION_UNSPECIFIED | ACTION_CONTINUE | ACTION_STOP | ACTION_PAUSE.
#[global] Instance Action_eq_dec : EqDecision Action.
Proof. solve_decision. Defined.
#[global] Instance PUsage_eq_dec : EqDecision PUsage.
Proof. solve_decision. Defined.

Inductive PaymentSessionResponse : Type :=
  | RavRequest (currentRav : option PSignedRAV) (usage : option PUsage) (deadline : Z)
  | NeedMoreFunds (outstandingRavs : list PSignedRAV) (totalOutstanding escrowBalance minimumNeeded : option PGRT)
  | SessionControl (action : Action) (reason : string).
#[global] Instance Response_eq_dec : EqDecision PaymentSessionResponse.
Proof. solve_decision. Defined.

Section Runtime.
Context `{Uint256} `{Eth}.

(** ** The world a call observes *)

Record Env : Type := mkEnv {
  env_now : time;
  (** [EscrowQuerier.GetBalance payer collector receiver] *)
  env_GetBalance : address -> address -> address -> result go_error (option Z);
  (** [CollectorAuthorizer.IsAuthorized payer signer] *)
  env_IsAuthorized : address -> address -> result go_error bool
}.

(** ** Gateway configuration *)

Record GatewayConfig : Type := mkGatewayConfig {
  gc_serviceProvider : address;
  gc_domain : Domain;
  gc_collectorAddr : address;
  (** whether the RPC queriers are configured *)
  gc_escrowQuerier : bool;
  gc_collectorQuerier : bool;
  gc_pricingConfig : option PricingConfig;
  gc_ravRequestThreshold : option Z;
  gc_dataPlaneEndpoint : string
}.

(** ** Funds assessment ([funds.go]) *)

Definition fundsStatusOK : string := "ok".
Definition fundsStatusInsufficient : string := "insufficient".
Definition fundsStatusUnknown : string := "unknown".
Definition fundsStatusKey : string := "funds_status".
Definition fundsEscrowBalanceWeiKey : string := "funds_escrow_balance_wei".
Definition fundsCurrentOutstandingWeiKey : string := "funds_current_outstanding_wei".
Definition fundsProjectedOutstandingWeiKey : string := "funds_projected_outstanding_wei".
Definition fundsMinimumNeededWeiKey : string := "funds_minimum_needed_wei".
Definition fundsCheckErrorKey : string := "funds_check_error".

Record fundsAssessment : Type := mkFunds {
  fa_status : string;
  fa_currentOutstanding : Z;
  fa_projectedOutstanding : Z;
  fa_escrowBalance : option Z;
  fa_minimumNeeded : Z;
  fa_checkErr : option go_error
}.

Definition insufficient (a : fundsAssessment) : bool := String.eqb (fa_status a) fundsStatusInsufficient.
Definition unknown (a : fundsAssessment) : bool := String.eqb (fa_status a) fundsStatusUnknown.

Definition GetEscrowBalance (cfg : GatewayConfig) (env : Env) (payer : address) : result go_error (option Z) :=
  if gc_escrowQuerier cfg then env_GetBalance env payer (gc_collectorAddr cfg) (gc_serviceProvider cfg)
  else Ok None.

Definition assessSessionFunds (cfg : GatewayConfig) (env : Env) (session : Session) : fundsAssessment :=
  let currentOutstanding := rav_value (s_CurrentRAV session) in
  let '(_, _, _, deltaCost) := UsageDeltaSinceBaseline session in
  let projectedOutstanding := currentOutstanding + deltaCost in
  match GetEscrowBalance cfg env (s_Payer session) with
  | Err e => mkFunds fundsStatusUnknown currentOutstanding projectedOutstanding None 0 (Some e)
  | Ok None => mkFunds fundsStatusUnknown currentOutstanding projectedOutstanding None 0 None
  | Ok (Some escrowBalance) =>
      if cmpZ projectedOutstanding escrowBalance >? 0
      then mkFunds fundsStatusInsufficient currentOutstanding projectedOutstanding (Some escrowBalance)
             (projectedOutstanding - escrowBalance) None
      else mkFunds fundsStatusOK currentOutstanding projectedOutstanding (Some escrowBalance) 0 None
  end.

Definition applyFundsAssessmentMetadata (session : Session) (a : fundsAssessment) : Session :=
  let md := s_Metadata session in
  let md := <[fundsStatusKey := fa_status a]> md in
  let md := <[fundsCurrentOutstandingWeiKey := of_chars (big_String (fa_currentOutstanding a))]> md in
  let md := <[fundsProjectedOutstandingWeiKey := of_chars (big_String (fa_projectedOutstanding a))]> md in
  let md := match fa_escrowBalance a with
            | Some b => <[fundsMinimumNeededWeiKey := of_chars (big_String (fa_minimumNeeded a))]>
                          (<[fundsEscrowBalanceWeiKey := of_chars (big_String b)]> md)
            | None => delete fundsMinimumNeededWeiKey (delete fundsEscrowBalanceWeiKey md)
            end in
  let md := match fa_checkErr a with
            | Some e => <[fundsCheckErrorKey := error_string e]> md
            | None => delete fundsCheckErrorKey md
            end in
  session <| s_Metadata := md |>.

Definition needMoreFundsResponse (session : Session) (a : fundsAssessment) : PaymentSessionResponse :=
  let outstandingRAVs := match HorizonSignedRAVToProto (s_CurrentRAV session) with Some p => [p] | None => [] end in
  NeedMoreFunds outstandingRAVs (GRTFromBigInt (Some (fa_currentOutstanding a)))
    (GRTFromBigInt (fa_escrowBalance a)) (GRTFromBigInt (Some (fa_minimumNeeded a))).

(** ** In-flight RAV requests ([rav_request_runtime.go]) *)

Record pendingRAVRequest : Type := mkPending {
  pr_usage : option PUsage;
  pr_currentRAVValue : Z;
  pr_targetValue : Z;
  pr_baselineBlocks : Z;
  pr_baselineBytes : Z;
  pr_baselineReqs : Z;
  pr_baselineCost : Z
}.

Definition cloneUsage (usage : option PUsage) : option PUsage :=
  match usage with
  | None => None
  | Some u =>
      Some (mkPUsage (pu_BlocksProcessed u) (pu_BytesTransferred u) (pu_Requests u)
              match pu_Cost u with
              | Some _ => GRTFromBigInt (Some (GRT_ToBigInt (pu_Cost u)))
              | None => None
              end)
  end.

(** The package's own [cloneBigInt] reads nil as zero. *)
Definition newPendingRAVRequest (session : Session) (usage : option PUsage) : option pendingRAVRequest :=
  match s_CurrentRAV session, usage with
  | Some sm, Some u =>
      match Message sm, pu_Cost u with
      | Some m, Some _ =>
          let currentValue := value_of (rav_ValueAggregate m) in
          let deltaCost := GRT_ToBigInt (pu_Cost u) in
          Some (mkPending (cloneUsage usage) currentValue (currentValue + deltaCost)
                  (s_BlocksProcessed session) (s_BytesTransferred session) (s_Requests session)
                  (value_of (s_TotalCost session)))
      | _, _ => None
      end
  | _, _ => None
  end.

Definition usageEqual (a b : option PUsage) : bool :=
  match a, b with
  | Some a, Some b =>
      if negb (pu_BlocksProcessed a =? pu_BlocksProcessed b) || negb (pu_BytesTransferred a =? pu_BytesTransferred b)
         || negb (pu_Requests a =? pu_Requests b) then false
      else match pu_Cost a, pu_Cost b with
           | Some _, Some _ => cmpZ (GRT_ToBigInt (pu_Cost a)) (GRT_ToBigInt (pu_Cost b)) =? 0
           | None, None => true
           | _, _ => false
           end
  | None, None => true
  | _, _ => false
  end.

Definition matchesUsage (r : option pendingRAVRequest) (usage : option PUsage) : bool :=
  match r with None => false | Some r => usageEqual (pr_usage r) usage end.

Definition pending_clone (r : option pendingRAVRequest) : option pendingRAVRequest :=
  match r with
  | None => None
  | Some r => Some (mkPending (cloneUsage (pr_usage r)) (pr_currentRAVValue r) (pr_targetValue r)
                      (pr_baselineBlocks r) (pr_baselineBytes r) (pr_baselineReqs r) (pr_baselineCost r))
  end.

(** ** Runtime state ([runtime_manager.go]) *)

Record runtimeSessionState : Type := mkRuntime {
  rs_events : option nat;
  rs_pendingRAV : option pendingRAVRequest;
  rs_queuedResponse : option PaymentSessionResponse
}.
#[global] Instance runtime_eta : Eta runtimeSessionState := fun s =>
  mkRuntime (rs_events s) (rs_pendingRAV s) (rs_queuedResponse s).

Record authCacheEntry : Type := mkAuthEntry { ac_ok : bool; ac_expires : time }.

Record Gateway (R : Type) : Type := mkGateway {
  g_repo : R;
  g_sessions : gmap string runtimeSessionState;
  g_channels : gmap nat (list PaymentSessionResponse);
  g_authCache : gmap string authCacheEntry
}.
#[global] Arguments mkGateway {R}.
#[global] Arguments g_repo {R}.
#[global] Arguments g_sessions {R}.
#[global] Arguments g_channels {R}.
#[global] Arguments g_authCache {R}.
#[global] Instance Gateway_eta {R} : Eta (Gateway R) := fun g =>
  mkGateway (g_repo g) (g_sessions g) (g_channels g) (g_authCache g).

Context `{!GlobalRepository R}.
Implicit Types (g : Gateway R).

(** The buffer size of the channels the payment stream makes. *)
Definition channel_capacity : nat := 4.

Definition emptyState : runtimeSessionState := mkRuntime None None None.

Definition put_state (id : string) (st : runtimeSessionState) g : Gateway R :=
  g <| g_sessions := <[id := st]> (g_sessions g) |>.

Definition ensureSessionState (id : string) g : runtimeSessionState * Gateway R :=
  match g_sessions g !! id with
  | Some st => (st, g)
  | None => (emptyState, put_state id emptyState g)
  end.

(** Non-blocking send on a buffered channel. *)
Definition try_send (ch : nat) (resp : PaymentSessionResponse) g : option (Gateway R) :=
  let buf := default [] (g_channels g !! ch) in
  if (length buf <? channel_capacity)%nat
  then Some (g <| g_channels := <[ch := buf ++ [resp]]> (g_channels g) |>)
  else None.

Definition clearQueuedResponse (id : string) (events : nat) (resp : PaymentSessionResponse)
    (pending : option pendingRAVRequest) g : Gateway R :=
  match g_sessions g !! id with
  | None => g
  | Some current =>
      if negb (bool_decide (rs_events current = Some events)) ||
         negb (bool_decide (rs_queuedResponse current = Some resp)) then g
      else put_state id (current <| rs_queuedResponse := None |> <| rs_pendingRAV := pending |>) g
  end.

Definition dispatch (id : string) (resp : PaymentSessionResponse) (pending : option pendingRAVRequest) g :
    Gateway R :=
  let '(current, g) := ensureSessionState id g in
  let pendingRef := pending_clone pending in
  let g := put_state id (current <| rs_queuedResponse := Some resp |> <| rs_pendingRAV := pendingRef |>) g in
  match rs_events current with
  | None => g
  | Some events =>
      match try_send events resp g with
      | Some g' => clearQueuedResponse id events resp pendingRef g'
      | None => g
      end
  end.

Definition runtimeState (id : string) g : option nat * option pendingRAVRequest :=
  match g_sessions g !! id with
  | None => (None, None)
  | Some current => (rs_events current, pending_clone (rs_pendingRAV current))
  end.

Definition hasPendingRAV (id : string) g : bool :=
  match g_sessions g !! id with
  | None => false
  | Some current => bool_decide (is_Some (rs_pendingRAV current))
  end.

Definition hasPendingPaymentControl (id : string) g : bool :=
  match g_sessions g !! id with
  | None => false
  | Some current => bool_decide (is_Some (rs_pendingRAV current)) || bool_decide (is_Some (rs_queuedResponse current))
  end.

Definition cleanupSessionState (id : string) (events : nat) g : Gateway R :=
  match g_sessions g !! id with
  | None => g
  | Some current =>
      if negb (bool_decide (rs_events current = Some events)) then g
      else
        let current := current <| rs_events := None |> in
        match rs_pendingRAV current, rs_queuedResponse current with
        | None, None => g <| g_sessions := delete id (g_sessions g) |>
        | _, _ => put_state id current g
        end
  end.

Definition unbindSession (id : string) (events : option nat) g : Gateway R :=
  match events with
  | Some ch => if String.eqb id "" then g else cleanupSessionState id ch g
  | None => g
  end.

Definition clearPendingRAV (id : string) g : Gateway R :=
  match g_sessions g !! id with
  | None => g
  | Some current => put_state id (current <| rs_pendingRAV := None |>) g
  end.

Definition clearQueuedControl (id : string) g : Gateway R :=
  match g_sessions g !! id with
  | None => g
  | Some current =>
      match rs_events current with
      | None => g <| g_sessions := delete id (g_sessions g) |>
      | Some _ => put_state id (current <| rs_pendingRAV := None |> <| rs_queuedResponse := None |>) g
      end
  end.

Definition tryDeliverQueuedResponse (id : string) (events : nat) (resp : option PaymentSessionResponse)
    (pending : option pendingRAVRequest) g : Gateway R :=
  match resp with
  | None => g
  | Some resp =>
      match try_send events resp g with
      | Some g' => clearQueuedResponse id events resp pending g'
      | None => g
      end
  end.

Definition shouldRequestRAV (cfg : GatewayConfig) (session : Session) : bool :=
  match s_CurrentRAV session, gc_ravRequestThreshold cfg with
  | Some _, Some threshold =>
      let '(_, _, _, deltaCost) := UsageDeltaSinceBaseline session in cmpZ deltaCost threshold >=? 0
  | _, _ => false
  end.

(** [t.Unix()]: seconds since 1970, for a time counted from the zero [time.Time]. *)
Definition time_Unix (t : time) : Z := t / 10 ^ 9 - 62135596800.
(** [t.UnixNano()]. *)
Definition UnixNano (t : time) : Z := wrap_s64 (t - 62135596800 * 10 ^ 9).

Definition evaluateMeteredUsage (cfg : GatewayConfig) (env : Env) (id : string) g :
    result go_error unit * Gateway R :=
  match SessionGet (g_repo g) id with
  | Err e => (if errors_Is e ErrNotFound then Ok tt else Err e, g)
  | Ok session =>
      if negb (IsActive session) then (Ok tt, g) else
      let assessment := assessSessionFunds cfg env session in
      let session := applyFundsAssessmentMetadata session assessment in
      let session := if insufficient assessment then Session_End (env_now env) END_REASON_PAYMENT_ISSUE session
                     else session in
      match SessionUpdateRuntimeState (g_repo g) id (s_Status session) (s_Metadata session) (s_EndedAt session)
              (s_EndReason session) (s_UpdatedAt session) with
      | (Err e, repo) => (Err e, g <| g_repo := repo |>)
      | (Ok _, repo) =>
          let g := g <| g_repo := repo |> in
          if insufficient assessment then
            (Ok tt, dispatch id (needMoreFundsResponse session assessment) None (clearPendingRAV id g))
          else if negb (shouldRequestRAV cfg session) then (Ok tt, g)
          else
            match runtimeState id g with
            | (Some _, None) =>
                match s_CurrentRAV session with
                | None => (Ok tt, g)
                | Some _ =>
                    let '(blocks, bytes, reqs, deltaCost) := UsageDeltaSinceBaseline session in
                    let usage := Some (mkPUsage blocks bytes reqs (GRTFromBigInt (Some deltaCost))) in
                    let resp := RavRequest (HorizonSignedRAVToProto (s_CurrentRAV session)) usage
                                  (wrap_u64 (time_Unix (env_now env + 30 * 10 ^ 9))) in
                    (Ok tt, dispatch id resp (newPendingRAVRequest session usage) g)
                end
            | _ => (Ok tt, g)
            end
      end
  end.

Definition onMeteredUsage (cfg : GatewayConfig) (env : Env) (id : string) g : result go_error unit * Gateway R :=
  let '(_, g) := ensureSessionState id g in evaluateMeteredUsage cfg env id g.

Definition bindSession (cfg : GatewayConfig) (env : Env) (id : string) (events : option nat) g :
    result go_error unit * Gateway R :=
  if String.eqb id "" then (Err (Errorf "session id is required"), g) else
  match events with
  | None => (Err (Errorf "events channel is required"), g)
  | Some ch =>
      let '(current, g) := ensureSessionState id g in
      match rs_events current with
      | Some _ => (Err (Errorf "payment session stream already bound for %q"), g)
      | None =>
          let current :=
            match rs_pendingRAV current, rs_queuedResponse current with
            | Some _, None => current <| rs_pendingRAV := None |>
            | _, _ => current
            end in
          let current := current <| rs_events := Some ch |> in
          let g := put_state id current g in
          let g := tryDeliverQueuedResponse id ch (rs_queuedResponse current)
                     (pending_clone (rs_pendingRAV current)) g in
          match onMeteredUsage cfg env id g with
          | (Err e, g) => (Err e, cleanupSessionState id ch g)
          | (Ok _, g) => (Ok tt, g)
          end
      end
  end.

Definition paymentControlPending (cfg : GatewayConfig) (session : Session) g : result go_error bool :=
  if negb (IsActive session) then Ok false
  else
    let? activeWorkers := WorkerCountBySession (g_repo g) (s_ID session) in
    Ok ((activeWorkers >? 0) || hasPendingPaymentControl (s_ID session) g || shouldRequestRAV cfg session).

(** Signer authorization with a 30 second cache ([gateway.go]). *)
Definition auth_key (payer signer : address) : string :=
  String.append (Address_String payer) (String.append "|" (Address_String signer)).

Definition isSignerAuthorized (cfg : GatewayConfig) (env : Env) (payer signer : address) g :
    result go_error bool * Gateway R :=
  if AddressesEqual payer signer then (Ok true, g) else
  if negb (gc_collectorQuerier cfg) then (Ok false, g) else
  let key := auth_key payer signer in
  let query :=
    match env_IsAuthorized env payer signer with
    | Err e => (Err e, g)
    | Ok ok => (Ok ok, g <| g_authCache := <[key := mkAuthEntry ok (env_now env + 30 * 10 ^ 9)]> (g_authCache g) |>)
    end in
  match g_authCache g !! key with
  | Some entry => if env_now env <? ac_expires entry then (Ok (ac_ok entry), g) else query
  | None => query
  end.

End Runtime.
