(* ===== verification/Gateway.v ===== *)
(** The provider gateway's handlers ([provider/gateway/handler_start_session.go],
    [handler_submit_rav.go], [handler_get_session_status.go],
    [handler_payment_session.go]).  A handler takes the gateway state and the
    world it observes ([Env]) and returns its response with the new state; the
    bidirectional stream is a step function over its local state. *)
From S2P Require Import Prelude.
From S2P Require Import GoStd.
From S2P Require Import External.
From S2P Require Import GRT.
From S2P Require Import Horizon.
From S2P Require Import Proto.
From S2P Require Import Repository.
From S2P Require Import Runtime.

(** Connect error codes the handlers return. *)
Inductive code : Type :=
  | CodeInvalidArgument | CodeNotFound | CodeInternal | CodePermissionDenied | CodeResourceExhausted
  | CodeUnauthenticated | CodeDeadlineExceeded | CodeFailedPrecondition | CodeAborted | CodeUnavailable.
#[global] Instance code_eq_dec : EqDecision code.
Proof. solve_decision. Defined.
Definition connect_error : Type := code * go_error.

Section Handlers.
Context `{Uint256} `{Eth} `{!GlobalRepository R}.
Implicit Types (g : Gateway R) (cfg : GatewayConfig) (env : Env).

(** ** StartSession *)

Record StartSessionRequest : Type := mkStartReq {
  sr_EscrowAccount : option PEscrowAccount;
  sr_InitialRav : option PSignedRAV
}.

Record StartSessionResponse : Type := mkStartResp {
  sp_SessionId : string;
  sp_UseRav : option PSignedRAV;
  sp_Accepted : bool;
  sp_RejectionReason : string;
  sp_PricingConfig : option PPricingConfig;
  sp_DataPlaneEndpoint : string
}.

Definition reject_start (reason : string) : StartSessionResponse := mkStartResp "" None false reason None "".

Definition toRepoPricingConfig (pc : option PricingConfig) : PricingConfig :=
  match pc with
  | None => mkPricingConfig ZeroGRT ZeroGRT
  | Some pc => mkPricingConfig (PricePerBlock pc) (PricePerByte pc)
  end.

Definition invalid_argument {A} (msg : string) : result connect_error A := Err (CodeInvalidArgument, Errorf msg).

(** The required addresses of the escrow account. *)
Definition escrow_addresses (req : StartSessionRequest) : result connect_error (address * address * address) :=
  match sr_EscrowAccount req with
  | None => invalid_argument "<escrow_account> is required"
  | Some ea =>
    match pea_Payer ea, pea_Receiver ea, pea_DataService ea with
    | None, _, _ => invalid_argument "<escrow_account.payer> is required"
    | _, None, _ => invalid_argument "<escrow_account.receiver> is required"
    | _, _, None => invalid_argument "<escrow_account.data_service> is required"
    | p, r, d =>
      match Address_ToEth p with
      | Err e => Err (CodeInvalidArgument, Wrapf "invalid <escrow_account.payer>: %w" e)
      | Ok payer =>
        match Address_ToEth r with
        | Err e => Err (CodeInvalidArgument, Wrapf "invalid <escrow_account.receiver>: %w" e)
        | Ok receiver =>
          match Address_ToEth d with
          | Err e => Err (CodeInvalidArgument, Wrapf "invalid <escrow_account.data_service>: %w" e)
          | Ok dataService => Ok (payer, receiver, dataService)
          end
        end
      end
    end
  end.

(** The checks on an initial RAV; [Some reason] rejects the session. *)
Definition check_initial_rav cfg env (payer dataService : address) (initialRAV : option SignedRAV) g :
    option string * Gateway R :=
  match initialRAV with
  | None => (None, g)
  | Some sm =>
    match Message sm with
    | None => (None, g)
    | Some m =>
      match RecoverSigner sm (gc_domain cfg) with
      | Err _ => (Some "initial RAV signature verification failed: %v"%string, g)
      | Ok signerAddr =>
        match isSignerAuthorized cfg env payer signerAddr g with
        | (Err _, g) => (Some "authorization check failed: %v"%string, g)
        | (Ok false, g) => (Some "signer %s is not authorized"%string, g)
        | (Ok true, g) =>
          if negb (AddressesEqual (rav_Payer m) payer)
          then (Some "RAV payer does not match escrow account payer"%string, g)
          else if negb (AddressesEqual (rav_ServiceProvider m) (gc_serviceProvider cfg))
          then (Some "RAV service provider does not match"%string, g)
          else if negb (AddressesEqual (rav_DataService m) dataService)
          then (Some "RAV data service does not match escrow account data service"%string, g)
          else (None, g)
        end
      end
    end
  end.

(** [sessionID] is the fresh identifier from [session.GenerateID]. *)
Definition StartSession cfg env (sessionID : string) (req : StartSessionRequest) g :
    result connect_error StartSessionResponse * Gateway R :=
  match escrow_addresses req with
  | Err e => (Err e, g)
  | Ok (payer, receiver, dataService) =>
    if negb (AddressesEqual receiver (gc_serviceProvider cfg))
    then (Ok (reject_start "escrow account receiver does not match this service provider"), g) else
    match ProtoSignedRAVToHorizon (sr_InitialRav req) with
    | Err e => (Err (CodeInvalidArgument, Wrapf "invalid <initial_rav>: %w" e), g)
    | Ok initialRAV =>
      match check_initial_rav cfg env payer dataService initialRAV g with
      | (Some reason, g) => (Ok (reject_start reason), g)
      | (None, g) =>
        let s := NewSession (env_now env) sessionID payer (gc_serviceProvider cfg) dataService
                   (toRepoPricingConfig (gc_pricingConfig cfg)) in
        let s := match initialRAV with Some _ => s <| s_CurrentRAV := initialRAV |> | None => s end in
        let s := MarkBaseline s in
        match SessionCreate (g_repo g) (env_now env) (Some s) with
        | (Err e, repo) => (Err (CodeInternal, Wrapf "failed to create session: %w" e), g <| g_repo := repo |>)
        | (Ok _, repo) =>
          let g := g <| g_repo := repo |> in
          let dataPlaneEndpoint := TrimSpace (gc_dataPlaneEndpoint cfg) in
          if String.eqb dataPlaneEndpoint ""
          then (Err (CodeInternal, Errorf "provider data-plane endpoint is not configured"), g)
          else (Ok (mkStartResp (s_ID s) (sr_InitialRav req) true ""
                      (PricingConfigFromNative (gc_pricingConfig cfg)) dataPlaneEndpoint), g)
        end
      end
    end
  end.

(** ** SubmitRAV (legacy unary surface) *)

Record SubmitRAVResponse : Type := mkSubmitResp {
  sub_Accepted : bool;
  sub_RejectionReason : string;
  sub_ShouldContinue : bool
}.

Definition reject_submit (reason : string) (continue : bool) : result connect_error SubmitRAVResponse :=
  Ok (mkSubmitResp false reason continue).

Definition SubmitRAV cfg env (sessionID : string) (signed : option PSignedRAV) g :
    result connect_error SubmitRAVResponse * Gateway R :=
  match SessionGet (g_repo g) sessionID with
  | Err _ => (reject_submit "session not found" false, g)
  | Ok session =>
    if negb (IsActive session) then (reject_submit "session is not active" false, g) else
    if hasPendingRAV sessionID g
    then (reject_submit "SubmitRAV is deprecated for provider-managed runtime requests; respond on the bound PaymentSession stream" true, g)
    else
    match signed with
    | None => (reject_submit "invalid or missing RAV" true, g)
    | Some _ =>
      match ProtoSignedRAVToHorizon signed with
      | Err e => (Err (CodeInvalidArgument, Wrapf "invalid <signed_rav>: %w" e), g)
      | Ok None => (Err (CodeInternal, GoPanic), g)
      | Ok (Some signedRAV) =>
        match RecoverSigner signedRAV (gc_domain cfg) with
        | Err _ => (reject_submit "signature verification failed: %v" true, g)
        | Ok signerAddr =>
          match isSignerAuthorized cfg env (s_Payer session) signerAddr g with
          | (Err _, g) => (reject_submit "authorization check failed: %v" false, g)
          | (Ok false, g) => (reject_submit "signer %s is not authorized" false, g)
          | (Ok true, g) =>
            match Message signedRAV with
            | None => (Err (CodeInternal, GoPanic), g)
            | Some m =>
              if negb (AddressesEqual (rav_Payer m) (s_Payer session))
              then (reject_submit "RAV payer does not match session" true, g)
              else if negb (AddressesEqual (rav_ServiceProvider m) (gc_serviceProvider cfg))
              then (reject_submit "RAV service provider does not match" true, g)
              else
                let value := value_of (rav_ValueAggregate m) in
                let currentValue := rav_value (s_CurrentRAV session) in
                if match s_CurrentRAV session with
                   | Some c => match Message c with Some _ => cmpZ value currentValue <? 0 | None => false end
                   | None => false
                   end
                then (reject_submit "RAV value is less than current RAV" true, g)
                else
                  let '(_, _, _, deltaCost) := UsageDeltaSinceBaseline session in
                  let minValue := currentValue + deltaCost in
                  if cmpZ value minValue <? 0
                  then (reject_submit "RAV underpays usage: want >= %s (current %s + delta %s)" false, g)
                  else
                    let '(_, repo) := SessionUpdateRAVAndBaseline (g_repo g) (env_now env) sessionID (Some signedRAV)
                                        (s_BlocksProcessed session) (s_BytesTransferred session)
                                        (s_Requests session) (Some (value_of (s_TotalCost session))) in
                    (Ok (mkSubmitResp true "" true), g <| g_repo := repo |>)
            end
          end
        end
      end
    end
  end.

(** ** GetSessionStatus *)

Record GetSessionStatusResponse : Type := mkStatusResp {
  st_Active : bool;
  st_EndReason : EndReason;
  st_PaymentControlPending : bool;
  st_CurrentRavValue : option PGRT;
  st_AccumulatedUsageValue : option PGRT
}.

Definition GetSessionStatus cfg (rawSessionID : string) g : result connect_error GetSessionStatusResponse :=
  let sessionID := TrimSpace rawSessionID in
  if String.eqb sessionID "" then invalid_argument "<session_id> is required" else
  match SessionGet (g_repo g) sessionID with
  | Err e => Err (CodeNotFound, e)
  | Ok session =>
    match paymentControlPending cfg session g with
    | Err e => Err (CodeInternal, e)
    | Ok pending =>
        Ok (mkStatusResp (IsActive session)
              (if IsActive session then END_REASON_UNSPECIFIED else s_EndReason session) pending
              (GRTFromBigInt (Some (rav_value (s_CurrentRAV session))))
              (GRTFromBigInt (Some (value_of (s_TotalCost session)))))
    end
  end.

(** ** PaymentSession *)

Definition continuePaymentSessionResponse : PaymentSessionResponse := SessionControl ACTION_CONTINUE "".
Definition stopPaymentSessionResponse (reason : string) : PaymentSessionResponse := SessionControl ACTION_STOP reason.

Definition stopResponseForInactiveSession (session : Session) : PaymentSessionResponse :=
  match s_EndReason session with
  | END_REASON_PAYMENT_ISSUE => stopPaymentSessionResponse "need more funds"
  | END_REASON_COMPLETE => stopPaymentSessionResponse "session completed"
  | END_REASON_CLIENT_DISCONNECT => stopPaymentSessionResponse "client disconnected"
  | END_REASON_PROVIDER_STOP => stopPaymentSessionResponse "provider ended stream"
  | END_REASON_ERROR => stopPaymentSessionResponse "provider session error"
  | END_REASON_UNSPECIFIED => stopPaymentSessionResponse "session is not active"
  end.

Definition isTerminalPaymentSessionResponse (resp : PaymentSessionResponse) : bool :=
  match resp with
  | NeedMoreFunds _ _ _ _ => true
  | SessionControl action _ => negb (bool_decide (action = ACTION_CONTINUE))
  | RavRequest _ _ _ => false
  end.

Record SignedRAVSubmission : Type := mkSubmission {
  sb_SignedRav : option PSignedRAV;
  sb_Usage : option PUsage
}.

Definition commitAcceptedRAV (repo : R) (now : time) (sessionID : string) (signedRAV : SignedRAV)
    (pending : pendingRAVRequest) : result go_error unit * R :=
  SessionUpdateRAVAndBaseline repo now sessionID (Some signedRAV) (pr_baselineBlocks pending)
    (pr_baselineBytes pending) (pr_baselineReqs pending) (Some (pr_baselineCost pending)).

(** The validation of a submission against the in-flight request, up to the
    accepted-RAV boundary: a rejection, or the RAV to commit. *)
Definition validateSubmission cfg env (session : Session) (submission : SignedRAVSubmission)
    (pending : pendingRAVRequest) g : result PaymentSessionResponse SignedRAV * Gateway R :=
  let stop reason := Err (stopPaymentSessionResponse reason) in
  match sb_Usage submission with
  | None => (stop "missing usage for rav_submission"%string, g)
  | Some _ =>
    if negb (matchesUsage (Some pending) (sb_Usage submission))
    then (stop "rav_submission usage does not match the in-flight provider rav_request"%string, g) else
    match ProtoSignedRAVToHorizon (sb_SignedRav submission) with
    | Err _ => (stop "invalid RAV"%string, g)
    | Ok None => (stop "invalid RAV"%string, g)
    | Ok (Some signedRAV) =>
      match RecoverSigner signedRAV (gc_domain cfg), Message signedRAV with
      | Err _, _ | _, None => (stop "signature verification failed"%string, g)
      | Ok signerAddr, Some m =>
        if negb (AddressesEqual (rav_Payer m) (s_Payer session))
        then (stop "RAV payer does not match session"%string, g)
        else if negb (AddressesEqual (rav_ServiceProvider m) (gc_serviceProvider cfg))
        then (stop "RAV service provider does not match"%string, g)
        else if negb (AddressesEqual (rav_DataService m) (s_DataService session))
        then (stop "RAV data service does not match session"%string, g)
        else
          match isSignerAuthorized cfg env (s_Payer session) signerAddr g with
          | (Err _, g) => (stop "authorization check failed"%string, g)
          | (Ok false, g) => (stop "signer not authorized"%string, g)
          | (Ok true, g) =>
            let value := value_of (rav_ValueAggregate m) in
            if cmpZ value (pr_currentRAVValue pending) <? 0
            then (stop "RAV value is less than current RAV"%string, g)
            else if cmpZ value (pr_targetValue pending) <? 0
            then (stop "RAV underpays usage: want exactly %s (current %s + requested delta %s)"%string, g)
            else if cmpZ value (pr_targetValue pending) >? 0
            then (stop "RAV overpays in-flight request: want exactly %s, got %s"%string, g)
            else (Ok signedRAV, g)
          end
      end
    end
  end.

Definition handleRAVSubmission cfg env (sessionID : string) (session : Session)
    (submission : option SignedRAVSubmission) g : PaymentSessionResponse * Gateway R :=
  match submission with
  | None => (stopPaymentSessionResponse "missing RAV submission", g)
  | Some submission =>
    match sb_SignedRav submission with
    | None => (stopPaymentSessionResponse "missing signed_rav", g)
    | Some _ =>
      let '(state, g) := ensureSessionState sessionID g in
      match rs_pendingRAV state with
      | None =>
          let unexpected := stopPaymentSessionResponse
            "unexpected rav_submission without an in-flight provider rav_request; respond on PaymentSession only" in
          match SessionGet (g_repo g) sessionID with
          | Ok fresh => (if negb (IsActive fresh) then stopResponseForInactiveSession fresh else unexpected, g)
          | Err _ => (unexpected, g)
          end
      | Some pending =>
          match validateSubmission cfg env session submission pending g with
          | (Err resp, g) => (resp, g)
          | (Ok signedRAV, g) =>
              match commitAcceptedRAV (g_repo g) (env_now env) sessionID signedRAV pending with
              | (Err _, repo) => (stopPaymentSessionResponse "failed to update session state", g <| g_repo := repo |>)
              | (Ok _, repo) =>
                  let g := g <| g_repo := repo |> in
                  let g := put_state sessionID
                             (state <| rs_pendingRAV := None |> <| rs_queuedResponse := None |>) g in
                  let '(_, g) := evaluateMeteredUsage cfg env sessionID g in
                  (continuePaymentSessionResponse, g)
              end
          end
      end
    end
  end.

(** [Some willDeposit], or a missing acknowledgment. *)
Definition handleFundsAcknowledgment (sessionID : string) (ack : option bool) g : PaymentSessionResponse * Gateway R :=
  match ack with
  | None => (stopPaymentSessionResponse "missing funds acknowledgment", g)
  | Some true => (continuePaymentSessionResponse, clearQueuedControl sessionID g)
  | Some false => (stopPaymentSessionResponse "insufficient funds and no deposit planned", clearQueuedControl sessionID g)
  end.

Inductive PaymentSessionMessage : Type :=
  | MsgRavSubmission (submission : option SignedRAVSubmission)
  | MsgFundsAck (ack : option bool).

(** The stream's local state: the bound session, empty before the first message,
    and the channel of runtime events. *)
Record stream : Type := mkStream { ps_sessionID : string; ps_events : option nat }.

(** What one turn of the loop does: the message sent, if any, and whether the
    handler returns (its deferred unbind then runs). *)
Record turn : Type := mkTurn { tn_sent : option PaymentSessionResponse; tn_return : bool }.

Definition stop_turn (reason : string) : turn := mkTurn (Some (stopPaymentSessionResponse reason)) true.
Definition idle_turn : turn := mkTurn None false.

(** The deferred unbind, when the turn returns. *)
Definition finish_turn (res : turn * stream * Gateway R) : turn * stream * Gateway R :=
  let '(t, st, g) := res in
  if tn_return t && negb (String.eqb (ps_sessionID st) "") then (t, st, unbindSession (ps_sessionID st) (ps_events st) g)
  else (t, st, g).

(** The dispatch on the message of a bound stream, with the session re-read. *)
Definition stream_message cfg env (st : stream) (msg : option PaymentSessionMessage) (send_ok : bool) g :
    turn * stream * Gateway R :=
  match SessionGet (g_repo g) (ps_sessionID st) with
  | Err _ => (stop_turn "session not found", st, g)
  | Ok session =>
    if negb (IsActive session) then (mkTurn (Some (stopResponseForInactiveSession session)) true, st, g) else
    match msg with
    | None => (idle_turn, st, g)
    | Some m =>
      let '(resp, g) :=
        match m with
        | MsgRavSubmission s => handleRAVSubmission cfg env (ps_sessionID st) session s g
        | MsgFundsAck a => handleFundsAcknowledgment (ps_sessionID st) a g
        end in
      (mkTurn (Some resp) (negb send_ok || isTerminalPaymentSessionResponse resp), st, g)
    end
  end.

(** One received request.  [fresh] is the channel made when the stream binds;
    [send_ok] tells whether sending the response succeeds. *)
Definition on_request_body cfg env (fresh : nat) (st : stream) (rawSessionID : string)
    (msg : option PaymentSessionMessage) (send_ok : bool) g : turn * stream * Gateway R :=
  let gotSessionID := TrimSpace rawSessionID in
  if String.eqb (ps_sessionID st) "" then
    if String.eqb gotSessionID "" then (stop_turn "<session_id> is required", st, g) else
    match SessionGet (g_repo g) gotSessionID with
    | Err _ => (stop_turn "session not found", st, g)
    | Ok session =>
      if negb (IsActive session) then (mkTurn (Some (stopResponseForInactiveSession session)) true, st, g) else
      let st := mkStream gotSessionID (Some fresh) in
      let g := g <| g_channels := <[fresh := []]> (g_channels g) |> in
      match bindSession cfg env gotSessionID (Some fresh) g with
      | (Err e, g) => (stop_turn (error_string e), st, g)
      | (Ok _, g) => match msg with
                     | None => (idle_turn, st, g)
                     | Some _ => stream_message cfg env st msg send_ok g
                     end
      end
    end
  else if negb (String.eqb gotSessionID "") && negb (String.eqb gotSessionID (ps_sessionID st))
  then (stop_turn "unexpected session_id %q", st, g)
  else stream_message cfg env st msg send_ok g.

Definition on_request cfg env (fresh : nat) (st : stream) (rawSessionID : string)
    (msg : option PaymentSessionMessage) (send_ok : bool) g : turn * stream * Gateway R :=
  finish_turn (on_request_body cfg env fresh st rawSessionID msg send_ok g).

(** One runtime event taken from the bound channel and forwarded to the client. *)
Definition on_event (st : stream) (send_ok : bool) g : option (turn * stream * Gateway R) :=
  match ps_events st with
  | None => None
  | Some ch =>
    match g_channels g !! ch with
    | Some (resp :: rest) =>
        Some (finish_turn (mkTurn (Some resp) (negb send_ok || isTerminalPaymentSessionResponse resp), st,
                           g <| g_channels := <[ch := rest]> (g_channels g) |>))
    | _ => None
    end
  end.

(** The client's end of stream, a cancelled context or a receive error. *)
Definition on_close (st : stream) g : turn * stream * Gateway R := finish_turn (mkTurn None true, st, g).

End Handlers.
