(* ===== verification/Accounting.v ===== *)
(** Accounting of the gateway over whole runs: [gw_step] is the gateway as a
    transition system (usage arrives, streams bind and unbind, RAVs are requested,
    submitted and committed, sessions start), [acct_inv] the invariant that ties
    every in-flight RAV request to its session, and the theorems say that accepted
    vouchers never decrease and pay for the usage they were requested for. *)
From S2P Require Import Prelude.
From S2P Require Import GoStd.
From S2P Require Import External.
From S2P Require Import GRT.
From S2P Require Import Horizon.
From S2P Require Import Proto.
From S2P Require Import Repository.
From S2P Require Import Runtime.
From S2P Require Import Gateway.
From S2P Require Import GatewayProps.
From S2P Require Import InMemory.
From S2P Require Import InMemoryProps.

Section Accounting.
Context `{Uint256Laws} `{Eth} `{!GlobalRepository R} `{!GlobalRepositoryLaws}.
Implicit Types (g : Gateway R) (cfg : GatewayConfig) (env : Env).

(** ** The invariant *)

Definition pending_at g (id : string) : option pendingRAVRequest := g_sessions g !! id ≫= rs_pendingRAV.

Definition session_ok (s : Session) : Prop :=
  exists t b, s_TotalCost s = Some t /\ s_BaselineCost s = Some b /\ 0 <= b <= t /\ t < two256.

(** The in-flight request of a session asks for the RAV value plus the cost
    accrued between the session's baseline and the request's snapshot. *)
Definition pending_ok (s : Session) (p : pendingRAVRequest) : Prop :=
  exists t b, s_TotalCost s = Some t /\ s_BaselineCost s = Some b /\ 0 <= b <= t /\ t < two256 /\
    b <= pr_baselineCost p <= t /\
    pr_currentRAVValue p = rav_value (s_CurrentRAV s) /\
    pr_targetValue p = pr_currentRAVValue p + (pr_baselineCost p - b).

Record acct_inv g : Prop := {
  ai_session : forall id s, session_at (g_repo g) id = Some s -> session_ok s;
  ai_pending : forall id p, pending_at g id = Some p -> exists s, session_at (g_repo g) id = Some s /\ pending_ok s p
}.

Lemma session_ok_money s s' : money s = money s' -> session_ok s -> session_ok s'.
Proof. unfold money, session_ok. intros [= ? ? ? ? ? -> ? ? ? -> ? ? ? ?]. done. Qed.
Lemma pending_ok_money s s' p : money s = money s' -> pending_ok s p -> pending_ok s' p.
Proof. unfold money, pending_ok. intros [= ? -> ? ? ? -> ? ? ? -> ? ? ? ?]. done. Qed.

Lemma pending_ok_clone s p p' : pending_clone (Some p) = Some p' -> pending_ok s p -> pending_ok s p'.
Proof. intros [= <-]. done. Qed.

(** ** How the runtime operations change in-flight requests *)

Lemma pending_put g id st i :
  pending_at (put_state id st g) i = if decide (i = id) then rs_pendingRAV st else pending_at g i.
Proof.
  unfold pending_at. simpl. case_decide as Hi; [subst; by rewrite lookup_insert_eq |].
  by rewrite lookup_insert_ne.
Qed.

Lemma pending_ensure g id i : pending_at (ensureSessionState id g).2 i = pending_at g i.
Proof.
  unfold ensureSessionState. destruct (g_sessions g !! id) eqn:E; [done |]. simpl.
  rewrite pending_put. case_decide as Hi; [subst | done]. unfold pending_at. by rewrite E.
Qed.

Lemma pending_sessions g g' i : g_sessions g' = g_sessions g -> pending_at g' i = pending_at g i.
Proof. unfold pending_at. by intros ->. Qed.

Lemma pending_clearQueuedResponse g id ch resp p i :
  pending_at (clearQueuedResponse id ch resp p g) i = pending_at g i \/
  i = id /\ pending_at (clearQueuedResponse id ch resp p g) i = p.
Proof.
  unfold clearQueuedResponse. destruct (g_sessions g !! id); [|auto]. destruct (_ || _); [auto |].
  rewrite pending_put. case_decide; auto.
Qed.

Lemma pending_dispatch g id resp p i :
  pending_at (dispatch id resp p g) i = if decide (i = id) then pending_clone p else pending_at g i.
Proof.
  unfold dispatch. pose proof (pending_ensure g id i) as He.
  destruct (ensureSessionState id g) as [st g1]. simpl in He.
  set (g2 := put_state id _ g1).
  assert (pending_at g2 i = if decide (i = id) then pending_clone p else pending_at g i) as Hg2.
  { unfold g2. rewrite pending_put, He. done. }
  destruct (rs_events st) as [ch|]; [|done]. destruct (try_send ch resp g2) as [g3|] eqn:E; [|done].
  apply try_send_repo in E as [_ Es].
  destruct (pending_clearQueuedResponse g3 id ch resp (pending_clone p) i) as [->|[-> ->]].
  - by rewrite (pending_sessions g2).
  - by rewrite decide_True.
Qed.

Lemma pending_clearPendingRAV g id i :
  pending_at (clearPendingRAV id g) i = if decide (i = id) then None else pending_at g i.
Proof.
  unfold clearPendingRAV. destruct (g_sessions g !! id) eqn:E.
  - rewrite pending_put. done.
  - case_decide as Hi; [subst | done]. unfold pending_at. by rewrite E.
Qed.

Lemma pending_cleanup g id ch i : pending_at (cleanupSessionState id ch g) i = pending_at g i.
Proof.
  unfold cleanupSessionState. destruct (g_sessions g !! id) as [st|] eqn:E; [|done].
  destruct (negb _); [done |]. simpl.
  assert (pending_at g id = rs_pendingRAV st) as Hp by (unfold pending_at; by rewrite E).
  destruct (rs_pendingRAV st) eqn:Ep, (rs_queuedResponse st); try (rewrite pending_put; case_decide; subst; done).
  - rewrite pending_put. simpl. case_decide; subst; [by rewrite Hp | done].
  - rewrite pending_put. simpl. case_decide; subst; [by rewrite Hp | done].
  - rewrite pending_put. simpl. case_decide; subst; [by rewrite Hp | done].
  - unfold pending_at at 1. simpl. destruct (decide (i = id)) as [->|].
    + rewrite lookup_delete_eq. by rewrite Hp.
    + rewrite lookup_delete_ne by done. done.
Qed.

Lemma pending_clearQueuedControl g id i :
  pending_at (clearQueuedControl id g) i = if decide (i = id) then None else pending_at g i.
Proof.
  unfold clearQueuedControl. destruct (g_sessions g !! id) as [st|] eqn:E.
  - destruct (rs_events st); [by rewrite pending_put |]. unfold pending_at. simpl.
    case_decide; [subst; by rewrite lookup_delete_eq | by rewrite lookup_delete_ne].
  - case_decide as Hi; [subst | done]. unfold pending_at. by rewrite E.
Qed.

(** ** The repository side *)

(** Same money in every session. *)
Definition same_money (r r' : R) : Prop := forall i, money <$> session_at r' i = money <$> session_at r i.

Lemma same_money_at r r' i s :
  same_money r r' -> session_at r i = Some s -> exists s', session_at r' i = Some s' /\ money s' = money s.
Proof.
  intros Hm E. specialize (Hm i). rewrite E in Hm. destruct (session_at r' i) as [s'|]; [|done].
  apply (inj Some) in Hm. eauto.
Qed.

Lemma same_money_back r r' i s' :
  same_money r r' -> session_at r' i = Some s' -> exists s, session_at r i = Some s /\ money s' = money s.
Proof.
  intros Hm E. specialize (Hm i). rewrite E in Hm. destruct (session_at r i) as [s|]; [|done].
  apply (inj Some) in Hm. eauto.
Qed.

(** The invariant moves along steps that keep the money and touch in-flight
    requests only by dropping, copying or adding justified ones. *)
Lemma acct_inv_frame g g' :
  same_money (g_repo g) (g_repo g') ->
  (forall i p', pending_at g' i = Some p' ->
     (exists p, pending_at g i = Some p /\ (p' = p \/ pending_clone (Some p) = Some p')) \/
     (exists s, session_at (g_repo g') i = Some s /\ pending_ok s p')) ->
  acct_inv g -> acct_inv g'.
Proof.
  intros Hm Hp [I1 I2]. split.
  - intros i s' (s & E & Em)%(same_money_back _ _ _ _ Hm). eapply session_ok_money; [by symmetry | eauto].
  - intros i p' [(p & Ep & Hc)|?]%Hp; [|done]. destruct (I2 i p Ep) as (s & Es & Hok).
    destruct (same_money_at _ _ _ _ Hm Es) as (s' & Es' & Em). exists s'. split; [done |].
    eapply pending_ok_money; [by symmetry |]. destruct Hc as [->|Hc]; [done | by eapply pending_ok_clone].
Qed.

Lemma same_money_refl r : same_money r r.
Proof. done. Qed.

(** A request snapshot of a sound session is justified. *)
Lemma newPendingRAVRequest_ok s p b y q d :
  session_ok s -> UsageDeltaSinceBaseline s = (b, y, q, d) ->
  newPendingRAVRequest s (Some (mkPUsage b y q (GRTFromBigInt (Some d)))) = Some p -> pending_ok s p.
Proof.
  intros (t & bc & Et & Eb & Hb & Ht) Hd. unfold newPendingRAVRequest.
  destruct (s_CurrentRAV s) as [sm|] eqn:Er; [|done]. destruct (Message sm) as [m|] eqn:Em; [|done].
  cbn [pu_Cost]. unfold GRTFromBigInt at 1, GRTFromNative at 1. intros [= <-].
  unfold UsageDeltaSinceBaseline in Hd. rewrite Et, Eb, cost_delta_exact in Hd by done. injection Hd as _ _ _ <-.
  exists t, bc. cbn [pr_baselineCost pr_currentRAVValue pr_targetValue]. rewrite Et, Er. cbn.
  rewrite Em, GRT_ToBigInt_FromBigInt by lia. unfold value_of. cbn. split_and!; try done; lia.
Qed.

Lemma evaluate_inv cfg env id g : acct_inv g -> acct_inv (evaluateMeteredUsage cfg env id g).2.
Proof.
  intros I. apply (acct_inv_frame g); [exact (evaluate_money cfg env id g) | | done].
  unfold evaluateMeteredUsage.
  destruct (SessionGet (g_repo g) id) as [s|e] eqn:Eget; [|simpl; eauto].
  destruct (negb (IsActive s)); [simpl; eauto |]. cbv zeta.
  set (a := assessSessionFunds cfg env s). set (s1 := if insufficient a then _ else _).
  assert (money s1 = money s) as Hs1 by (unfold s1; by case_match).
  pose proof (runtime_state_money (g_repo g) id (s_Status s1) (s_Metadata s1) (s_EndedAt s1) (s_EndReason s1)
    (s_UpdatedAt s1)) as Hm.
  destruct (SessionUpdateRuntimeState _ _ _ _ _ _ _) as [[[]|] r']; simpl in Hm; [|simpl; eauto].
  assert (session_at (g_repo g) id = Some s) as Es by (unfold session_at; by rewrite Eget).
  destruct (insufficient a).
  { simpl. intros i p'. rewrite pending_dispatch. case_decide; [done |].
    rewrite pending_clearPendingRAV, decide_False by done. eauto. }
  destruct (negb _); [simpl; eauto |]. destruct (runtimeState _ _) as [[ch|] [p|]]; try (simpl; by eauto).
  destruct (s_CurrentRAV s1); [|simpl; by eauto].
  destruct (UsageDeltaSinceBaseline s1) as [[[b y] q] d] eqn:Ed.
  set (resp := RavRequest _ _ _). set (pn := newPendingRAVRequest s1 _). cbn [snd].
  intros i p'. rewrite pending_dispatch. case_decide as Hi; [subst i | eauto].
  destruct pn as [p|] eqn:Ep; [|done]. intros Hc. right.
  destruct (same_money_at _ _ _ _ Hm Es) as (s' & Es' & Ems). rewrite dispatch_repo.
  exists s'. split; [done |]. apply (pending_ok_money s1 s'); [by rewrite Ems |].
  eapply pending_ok_clone; [exact Hc |].
  eapply newPendingRAVRequest_ok; [|exact Ed | exact Ep].
  apply (session_ok_money s s1); [done | by eapply ai_session].
Qed.

(** ** Progress of the accounts *)

(** What the accepted RAV pays beyond the cost settled so far: constant while
    vouchers are exact, growing when one overpays. *)
Definition surplus (s : Session) : Z := rav_value (s_CurrentRAV s) - value_of (s_BaselineCost s).

(** No session disappears, accepted values never decrease, and the surplus moves
    along [cmp]. *)
Definition advances (cmp : Z -> Z -> Prop) (r r' : R) : Prop :=
  forall id s, session_at r id = Some s ->
  exists s', session_at r' id = Some s' /\ rav_value (s_CurrentRAV s) <= rav_value (s_CurrentRAV s') /\
    cmp (surplus s) (surplus s').

Lemma advances_trans (cmp : Z -> Z -> Prop) `{!Transitive cmp} r1 r2 r3 :
  advances cmp r1 r2 -> advances cmp r2 r3 -> advances cmp r1 r3.
Proof.
  intros H12 H23 id s E. destruct (H12 id s E) as (s2 & E2 & ? & ?).
  destruct (H23 id s2 E2) as (s3 & E3 & ? & ?). exists s3. split_and!; [done | lia | by etrans].
Qed.

Lemma advances_weaken r r' : advances eq r r' -> advances Z.le r r'.
Proof. intros Ha id s E. destruct (Ha id s E) as (s' & ? & ? & E'). exists s'. rewrite E'. done. Qed.

Lemma same_money_advances r r' : same_money r r' -> advances eq r r'.
Proof.
  intros Hm id s E. destruct (same_money_at _ _ _ _ Hm E) as (s' & E' & Em). exists s'.
  unfold surplus. revert Em. unfold money. intros [= _ -> _ _ _ _ _ _ _ ->]. split_and!; [done | lia | done].
Qed.

(** A step keeps the invariant and advances the accounts. *)
Definition sound_step (cmp : Z -> Z -> Prop) g g' : Prop :=
  acct_inv g -> acct_inv g' /\ advances cmp (g_repo g) (g_repo g').

Lemma sound_step_trans (cmp : Z -> Z -> Prop) `{!Transitive cmp} g1 g2 g3 :
  sound_step cmp g1 g2 -> sound_step cmp g2 g3 -> sound_step cmp g1 g3.
Proof.
  intros H12 H23 I. destruct (H12 I) as [I2 A12]. destruct (H23 I2) as [I3 A23].
  split; [done | by eapply advances_trans].
Qed.

(** Steps that keep the money and only drop or copy in-flight requests. *)
Lemma sound_step_frame g g' :
  g_repo g' = g_repo g ->
  (forall i p', pending_at g' i = Some p' ->
     exists p, pending_at g i = Some p /\ (p' = p \/ pending_clone (Some p) = Some p')) ->
  sound_step eq g g'.
Proof.
  intros Er Hp I. split.
  - apply (acct_inv_frame g); [by rewrite Er | | done]. intros i p' E. left. by apply Hp.
  - apply same_money_advances. by rewrite Er.
Qed.

Lemma evaluate_sound cfg env id g : sound_step eq g (evaluateMeteredUsage cfg env id g).2.
Proof.
  intros I. split; [by apply evaluate_inv |]. apply same_money_advances. intros i. apply evaluate_money.
Qed.

Lemma onMeteredUsage_sound cfg env id g : sound_step eq g (onMeteredUsage cfg env id g).2.
Proof.
  unfold onMeteredUsage. pose proof (ensure_repo id g) as Hr. pose proof (pending_ensure g id) as Hp.
  destruct (ensureSessionState id g) as [st g1]. simpl in *.
  eapply sound_step_trans; [apply _ | | apply evaluate_sound].
  apply sound_step_frame; [done |]. intros i p'. rewrite Hp. eauto.
Qed.

Lemma cleanup_sound id ch g : sound_step eq g (cleanupSessionState id ch g).
Proof.
  apply sound_step_frame.
  - unfold cleanupSessionState. by repeat case_match.
  - intros i p'. rewrite pending_cleanup. eauto.
Qed.

Lemma unbind_sound id ch g : sound_step eq g (unbindSession id ch g).
Proof.
  unfold unbindSession. destruct ch; [|by apply sound_step_frame; eauto].
  destruct (String.eqb _ _); [by apply sound_step_frame; eauto | apply cleanup_sound].
Qed.

Lemma tryDeliver_sound id ch resp g :
  sound_step eq g (tryDeliverQueuedResponse id ch resp (pending_clone (pending_at g id)) g).
Proof.
  unfold tryDeliverQueuedResponse. destruct resp as [resp|]; [|by apply sound_step_frame; eauto].
  destruct (try_send ch resp g) as [g'|] eqn:E; [|by apply sound_step_frame; eauto].
  apply try_send_repo in E as [Er Es]. apply sound_step_frame; [by rewrite clearQueuedResponse_repo |].
  intros i p' Hp. destruct (pending_clearQueuedResponse g' id ch resp (pending_clone (pending_at g id)) i) as [E|[-> E]].
  - rewrite E, (pending_sessions g) in Hp by done. eauto.
  - rewrite E in Hp. destruct (pending_at g id) as [p|]; [|done]. eauto.
Qed.

Lemma bind_sound cfg env id ch g : sound_step eq g (bindSession cfg env id ch g).2.
Proof.
  unfold bindSession. destruct (String.eqb id ""); [by apply sound_step_frame; eauto |].
  destruct ch as [ch|]; [|by apply sound_step_frame; eauto].
  pose proof (ensure_repo id g) as Hr. pose proof (pending_ensure g id) as Hp.
  pose proof (ensure_lookup id g) as Hl.
  destruct (ensureSessionState id g) as [st g1]. simpl in Hr, Hp, Hl.
  assert (sound_step eq g g1) as H01 by (apply sound_step_frame; [done |]; intros i p'; rewrite Hp; eauto).
  destruct (rs_events st); [done |]. cbv zeta.
  set (st1 := match rs_pendingRAV st with Some _ => _ | None => _ end).
  set (st2 := st1 <| rs_events := Some ch |>). set (g2 := put_state id st2 g1).
  assert (pending_at g1 id = rs_pendingRAV st) as Hst by (unfold pending_at; by rewrite Hl).
  assert (rs_pendingRAV st1 = None \/ rs_pendingRAV st1 = rs_pendingRAV st) as Hst1.
  { unfold st1. destruct (rs_pendingRAV st) eqn:Ep, (rs_queuedResponse st); rewrite ?Ep; auto. }
  assert (sound_step eq g1 g2) as H12.
  { apply sound_step_frame; [done |]. intros i p'. unfold g2. rewrite pending_put.
    case_decide as Hi; [subst i | by eauto]. change (rs_pendingRAV st2) with (rs_pendingRAV st1).
    intros Hp'. destruct Hst1 as [E|E]; rewrite E in Hp'; [done |]. exists p'. rewrite Hst. auto. }
  assert (pending_at g2 id = rs_pendingRAV st2) as Hpend by (unfold g2; rewrite pending_put; by rewrite decide_True).
  pose proof (tryDeliver_sound id ch (rs_queuedResponse st2) g2) as H23. rewrite Hpend in H23.
  set (g3 := tryDeliverQueuedResponse _ _ _ _ g2) in *.
  pose proof (onMeteredUsage_sound cfg env id g3) as H34.
  assert (sound_step eq g (onMeteredUsage cfg env id g3).2) as H04
    by (do 3 (eapply sound_step_trans; [apply _ | eassumption |]); done).
  destruct (onMeteredUsage cfg env id g3) as [[[]|] g4]; simpl in *; [done |].
  eapply sound_step_trans; [apply _ | done | apply cleanup_sound].
Qed.

Lemma clearQueuedControl_sound id g : sound_step eq g (clearQueuedControl id g).
Proof.
  apply sound_step_frame.
  - unfold clearQueuedControl. by repeat case_match.
  - intros i p'. rewrite pending_clearQueuedControl. case_decide; [done | eauto].
Qed.

(** A committed voucher: the value grows by exactly the cost between the two
    baselines. *)
Lemma paid_sound sm m p s :
  pending_ok s p -> Message sm = Some m -> value_of (rav_ValueAggregate m) = pr_targetValue p ->
  session_ok (paid sm p s) /\ rav_value (s_CurrentRAV s) <= rav_value (s_CurrentRAV (paid sm p s)) /\
  surplus (paid sm p s) = surplus s.
Proof.
  intros (t & b & Et & Eb & Hb & Ht & Hp & Hcur & Htgt) Em Ev. unfold surplus, paid, session_ok. simpl.
  rewrite Em, Ev, Et, Eb, Htgt, Hcur. unfold value_of. simpl. split_and!; [|lia | lia].
  exists t, (pr_baselineCost p). split_and!; try done; lia.
Qed.

Lemma surplus_money s s' : money s = money s' ->
  surplus s = surplus s' /\ rav_value (s_CurrentRAV s) = rav_value (s_CurrentRAV s').
Proof. unfold money, surplus. by intros [= _ -> _ _ _ _ _ _ _ ->]. Qed.

(** A repository whose sessions are those of [r] except that session [id] became
    [s'], up to lifecycle. *)
Lemma sound_step_replace cmp g g' id s s' :
  session_at (g_repo g) id = Some s ->
  money <$> session_at (g_repo g') id = Some (money s') ->
  (forall i, i <> id -> money <$> session_at (g_repo g') i = money <$> session_at (g_repo g) i) ->
  pending_at g' id = None -> (forall i, i <> id -> pending_at g' i = pending_at g i) ->
  reflexive Z cmp -> session_ok s' ->
  rav_value (s_CurrentRAV s) <= rav_value (s_CurrentRAV s') -> cmp (surplus s) (surplus s') ->
  sound_step cmp g g'.
Proof.
  intros Es Es' Ho Hp Hpo Hrefl Hok Hle Hcmp [I1 I2].
  assert (forall i t', session_at (g_repo g') i = Some t' ->
    (i = id /\ money t' = money s') \/
    (i <> id /\ exists t, session_at (g_repo g) i = Some t /\ money t' = money t)) as Hback.
  { intros i t' Et'. destruct (decide (i = id)) as [->|Hi]; [left | right]; split; auto.
    - rewrite Et' in Es'. by apply (inj Some) in Es'.
    - specialize (Ho i Hi). rewrite Et' in Ho. destruct (session_at (g_repo g) i) as [t|]; [|done].
      apply (inj Some) in Ho. eauto. }
  assert (forall i t, i <> id -> session_at (g_repo g) i = Some t ->
    exists t', session_at (g_repo g') i = Some t' /\ money t' = money t) as Hfwd.
  { intros i t Hi Et. specialize (Ho i Hi). rewrite Et in Ho.
    destruct (session_at (g_repo g') i) as [t'|]; [|done]. apply (inj Some) in Ho. eauto. }
  split; [split |].
  - intros i t' [[-> Em]|(_ & t & Et & Em)]%Hback.
    + by apply (session_ok_money s' t').
    + apply (session_ok_money t t'); [done | eauto].
  - intros i p'. destruct (decide (i = id)) as [->|Hi]; [by rewrite Hp |]. rewrite Hpo by done.
    intros (t & Et & Hpok)%I2. destruct (Hfwd i t Hi Et) as (t' & Et' & Em).
    exists t'. split; [done |]. by apply (pending_ok_money t t').
  - intros i t Et. destruct (decide (i = id)) as [->|Hi].
    + destruct (session_at (g_repo g') id) as [t'|]; [|done]. apply (inj Some) in Es'.
      assert (t = s) as -> by congruence. destruct (surplus_money _ _ Es') as [E1 E2].
      exists t'. rewrite E1, E2. done.
    + destruct (Hfwd i t Hi Et) as (t' & Et' & Em). destruct (surplus_money _ _ Em) as [E1 E2].
      exists t'. rewrite E1, E2. split_and!; [done | lia | apply Hrefl].
Qed.

Lemma submission_sound cfg env id s sub g :
  session_at (g_repo g) id = Some s -> sound_step eq g (handleRAVSubmission cfg env id s sub g).2.
Proof.
  intros Es. unfold handleRAVSubmission. destruct sub as [sub|]; [|by apply sound_step_frame; eauto].
  destruct (sb_SignedRav sub) as [psr|]; [|by apply sound_step_frame; eauto].
  pose proof (ensure_repo id g) as Hr. pose proof (pending_ensure g id) as Hp. pose proof (ensure_lookup id g) as Hl.
  destruct (ensureSessionState id g) as [st g1]. simpl in Hr, Hp, Hl.
  assert (sound_step eq g g1) as H01 by (apply sound_step_frame; [done |]; intros i p'; rewrite Hp; eauto).
  destruct (rs_pendingRAV st) as [p|] eqn:Ep.
  2: { destruct (SessionGet (g_repo g1) id); done. }
  pose proof (validateSubmission_frame cfg env s sub p g1) as (Hf1 & Hf2 & _).
  destruct (validateSubmission cfg env s sub p g1) as [[sm|resp'] g2] eqn:Ev; simpl in Hf1, Hf2.
  2: { eapply sound_step_trans; [apply _ | exact H01 |]. apply sound_step_frame; [done |].
       intros i p'. rewrite (pending_sessions g1) by done. eauto. }
  apply validateSubmission_sound in Ev as (m & signer & Ha).
  assert (sound_step eq g g2) as H02.
  { eapply sound_step_trans; [apply _ | exact H01 |]. apply sound_step_frame; [done |].
    intros i p'. rewrite (pending_sessions g1) by done. eauto. }
  pose proof (commit_law (g_repo g2) (env_now env) id sm p) as Hc.
  destruct (commitAcceptedRAV _ _ _ _ _) as [[[]|] r'].
  2: { eapply sound_step_trans; [apply _ | exact H02 |]. intros I. split.
       - apply (acct_inv_frame g2); [intros i; simpl; by rewrite Hc | eauto | done].
       - apply same_money_advances. intros i. simpl. by rewrite Hc. }
  set (st3 := st <| rs_pendingRAV := None |> <| rs_queuedResponse := None |>).
  set (g3 := put_state id st3 _). pose proof (evaluate_sound cfg env id g3) as H34.
  destruct (evaluateMeteredUsage cfg env id g3) as [e g4]. cbn [snd] in *.
  eapply sound_step_trans; [apply _ | exact H02 |]. eapply sound_step_trans; [apply _ | | exact H34].
  destruct Hc as [(s0 & E0 & E1) Ho].
  intros I2. assert (pending_at g2 id = Some p) as Hpend.
  { rewrite (pending_sessions g1) by done. unfold pending_at. by rewrite Hl. }
  destruct (ai_pending _ I2 id p Hpend) as (s0' & E0' & Hpok). assert (s0' = s0) as -> by congruence.
  destruct (paid_sound sm m p s0 Hpok (acc_message _ _ _ _ _ _ _ _ _ Ha) (acc_exact _ _ _ _ _ _ _ _ _ Ha))
    as (P1 & P2 & P3).
  revert I2. eapply (sound_step_replace eq g2 g3 id s0 (paid sm p s0)); try done.
  - simpl. rewrite E1. done.
  - intros i Hi. simpl. by rewrite Ho.
  - unfold g3. rewrite pending_put. by rewrite decide_True.
  - intros i Hi. unfold g3. rewrite pending_put. by rewrite decide_False.
Qed.

Lemma ack_sound id a g : sound_step eq g (handleFundsAcknowledgment id a g).2.
Proof.
  destruct a as [[]|]; simpl; [apply clearQueuedControl_sound.. | by apply sound_step_frame; eauto].
Qed.

Lemma stream_message_sound cfg env st msg ok g : sound_step eq g (stream_message cfg env st msg ok g).2.
Proof.
  unfold stream_message. destruct (SessionGet _ _) as [s|] eqn:Es; [|by apply sound_step_frame; eauto].
  destruct (negb (IsActive s)); [by apply sound_step_frame; eauto |].
  destruct msg as [[sub|a]|]; [| |by apply sound_step_frame; eauto].
  - pose proof (submission_sound cfg env (ps_sessionID st) s sub g) as Hs.
    destruct (handleRAVSubmission _ _ _ _ _ _). apply Hs. unfold session_at. by rewrite Es.
  - pose proof (ack_sound (ps_sessionID st) a g) as Hs. by destruct (handleFundsAcknowledgment _ _ _).
Qed.

Lemma on_request_body_sound cfg env fresh st raw msg ok g :
  sound_step eq g (on_request_body cfg env fresh st raw msg ok g).2.
Proof.
  unfold on_request_body. destruct (String.eqb (ps_sessionID st) "").
  2: { destruct (_ && _); [by apply sound_step_frame; eauto | apply stream_message_sound]. }
  destruct (String.eqb _ _); [by apply sound_step_frame; eauto |].
  destruct (SessionGet _ _) as [s|]; [|by apply sound_step_frame; eauto].
  destruct (negb (IsActive s)); [by apply sound_step_frame; eauto |].
  set (g1 := g <| g_channels := _ |>).
  assert (sound_step eq g g1) as H01 by (apply sound_step_frame; eauto).
  pose proof (bind_sound cfg env (TrimSpace raw) (Some fresh) g1) as H12.
  destruct (bindSession _ _ _ _ _) as [[[]|] g2]; cbn [snd] in *; [destruct msg |].
  - eapply sound_step_trans; [apply _ | | apply stream_message_sound]. by eapply sound_step_trans; [apply _ | |].
  - by eapply sound_step_trans; [apply _ | |].
  - by eapply sound_step_trans; [apply _ | |].
Qed.

Lemma finish_turn_sound t st g : sound_step eq g (finish_turn (t, st, g)).2.
Proof. simpl. case_match; [apply unbind_sound | by apply sound_step_frame; eauto]. Qed.

Lemma check_initial_rav_frame cfg env payer ds rav g :
  let g' := (check_initial_rav cfg env payer ds rav g).2 in
  g_repo g' = g_repo g /\ g_sessions g' = g_sessions g.
Proof.
  unfold check_initial_rav. destruct rav as [sm|]; [|done]. destruct (Message sm) as [m|]; [|done].
  destruct (RecoverSigner _ _) as [signer|]; [|done].
  pose proof (isSignerAuthorized_frame cfg env payer signer g) as (? & ? & _).
  destruct (isSignerAuthorized _ _ _ _ _) as [[[]|] g']; by repeat case_match.
Qed.

Lemma start_sound cfg env sid req g : sound_step eq g (StartSession cfg env sid req g).2.
Proof.
  unfold StartSession. destruct (escrow_addresses req) as [[[payer receiver] ds]|]; [|by apply sound_step_frame; eauto].
  destruct (negb _); [by apply sound_step_frame; eauto |].
  destruct (ProtoSignedRAVToHorizon _) as [rav|]; [|by apply sound_step_frame; eauto].
  pose proof (check_initial_rav_frame cfg env payer ds rav g) as [Hf1 Hf2].
  destruct (check_initial_rav _ _ _ _ _ _) as [[reason|] g1]; cbn [snd] in *;
    [apply sound_step_frame; [done |]; intros i p'; rewrite (pending_sessions g) by done; eauto |].
  set (s := MarkBaseline _).
  assert (s_ID s = sid /\ session_ok s) as [Hid Hok].
  { unfold s, session_ok. destruct rav; simpl; (split; [done |]); exists 0, 0; (split_and!; done). }
  assert (forall res repo, SessionCreate (g_repo g1) (env_now env) (Some s) = (res, repo) ->
    sound_step eq g (g1 <| g_repo := repo |>)) as Hstep.
  { intros res repo Ec. pose proof (SessionCreate_law (g_repo g1) (env_now env) s) as Hl. rewrite Ec, Hid, Hf1 in Hl.
    intros [I1 I2]. destruct res as [[]|e].
    - destruct Hl as (Hnone & Hsome & Ho). split; [split |]; simpl.
      + intros i t. destruct (decide (i = sid)) as [->|]; [rewrite Hsome; by intros [= <-] | rewrite Ho by done; eauto].
      + intros i p'. change (pending_at (g1 <| g_repo := repo |>) i) with (pending_at g1 i).
        rewrite (pending_sessions g) by done. intros (t & Et & Hp)%I2.
        exists t. rewrite Ho; [done |]. congruence.
      + intros i t Et. exists t. rewrite Ho by congruence. done.
    - split; [split |]; simpl.
      + intros i t. rewrite Hl. eauto.
      + intros i p'. change (pending_at (g1 <| g_repo := repo |>) i) with (pending_at g1 i).
        rewrite (pending_sessions g) by done. rewrite Hl. eauto.
      + apply same_money_advances. intros i. by rewrite Hl. }
  destruct (SessionCreate _ _ _) as [[[]|e] repo]; [destruct (String.eqb _ _) |]; by eapply Hstep.
Qed.

Lemma submit_sound cfg env id psr g : sound_step Z.le g (SubmitRAV cfg env id psr g).2.
Proof.
  assert (forall g', g_repo g' = g_repo g -> g_sessions g' = g_sessions g -> sound_step Z.le g g') as Hsame.
  { intros g' E1 E2 I. destruct (sound_step_frame g g') as [? A]; [done | | done |].
    - intros i p'. rewrite (pending_sessions g) by done. eauto.
    - split; [done | by apply advances_weaken]. }
  unfold SubmitRAV. destruct (SessionGet _ _) as [s|] eqn:Es; [|by apply Hsame].
  destruct (negb _); [by apply Hsame |]. destruct (hasPendingRAV id g) eqn:Ep; [by apply Hsame |].
  destruct psr as [psr|]; [|by apply Hsame].
  destruct (ProtoSignedRAVToHorizon _) as [[sm|]|]; [|by apply Hsame..].
  destruct (RecoverSigner _ _) as [signer|]; [|by apply Hsame].
  pose proof (isSignerAuthorized_frame cfg env (s_Payer s) signer g) as (Hf1 & Hf2 & _).
  destruct (isSignerAuthorized _ _ _ _ _) as [[[]|] g1]; cbn [snd] in *; [|by apply Hsame..].
  destruct (Message sm) as [m|] eqn:Em; [|by apply Hsame].
  destruct (negb _); [by apply Hsame |]. destruct (negb _); [by apply Hsame |]. cbv zeta.
  destruct (match s_CurrentRAV s with Some _ => _ | None => _ end); [by apply Hsame |].
  destruct (UsageDeltaSinceBaseline s) as [[[b y] q] d] eqn:Ed. rewrite cmpZ_ltb.
  destruct (Z.ltb_spec (value_of (rav_ValueAggregate m)) (rav_value (s_CurrentRAV s) + d)) as [|Hmin]; [by apply Hsame |].
  pose proof (SessionUpdateRAVAndBaseline_law (g_repo g1) (env_now env) id (Some sm) (s_BlocksProcessed s)
    (s_BytesTransferred s) (s_Requests s) (Some (value_of (s_TotalCost s)))) as Hl.
  assert (session_at (g_repo g) id = Some s) as Eat by (unfold session_at; by rewrite Es).
  assert (pending_at g id = None) as Hnone.
  { unfold hasPendingRAV in Ep. unfold pending_at. destruct (g_sessions g !! id); [|done]. bool_props. simpl.
    by apply eq_None_not_Some. }
  destruct (SessionUpdateRAVAndBaseline _ _ _ _ _ _ _ _) as [[[]|e] repo]; cbn [snd].
  2: { rewrite Hf1 in Hl. intros I. split.
       - apply (acct_inv_frame g); [intros i; simpl; by rewrite Hl | | done]. intros i p' Hp. left.
         rewrite (pending_sessions g) in Hp by done. eauto.
       - apply advances_weaken, same_money_advances. intros i. simpl. by rewrite Hl. }
  destruct Hl as [(s0 & s' & E0 & E1 & ->) Ho]. rewrite Hf1 in E0, Ho. assert (s0 = s) as -> by congruence.
  intros I. destruct (ai_session _ I id s Eat) as (t & bc & Et & Eb & Hb & Ht).
  unfold UsageDeltaSinceBaseline in Ed. rewrite Et, Eb, cost_delta_exact in Ed by done. injection Ed as _ _ _ <-.
  revert I. match type of E1 with _ = Some ?x => apply (sound_step_replace Z.le g _ id s x) end; try done.
  - simpl. rewrite E1. reflexivity.
  - intros i Hi. simpl. by rewrite Ho.
  - change (pending_at (g1 <| g_repo := repo |>) id) with (pending_at g1 id). by rewrite (pending_sessions g).
  - intros i Hi. change (pending_at (g1 <| g_repo := repo |>) i) with (pending_at g1 i). by rewrite (pending_sessions g).
  - intros x. lia.
  - unfold session_ok. simpl. rewrite Et. exists t, t. split_and!; try done; lia.
  - simpl. rewrite Em. lia.
  - unfold surplus. simpl. rewrite Em, Et, Eb. unfold value_of in *. simpl in *. lia.
Qed.

(** Usage metering, as the plugin path applies it to the repository. *)
Definition apply_usage env (id : string) (u : UsageEvent) (cost : Z) g : Gateway R :=
  g <| g_repo := (SessionApplyUsage (g_repo g) (env_now env) id (Some u) (Some cost)).2 |>.

(** The session's accumulated cost stays below the range of an amount. *)
Definition cost_fits (id : string) (cost : Z) g : Prop :=
  0 <= cost /\ forall s, session_at (g_repo g) id = Some s -> value_of (s_TotalCost s) + cost < two256.

Lemma usage_sound env id u cost g : cost_fits id cost g -> sound_step eq g (apply_usage env id u cost g).
Proof.
  intros [Hc Hfit] [I1 I2]. unfold apply_usage.
  pose proof (SessionApplyUsage_law (g_repo g) (env_now env) id (Some u) (Some cost)) as Hl.
  destruct (SessionApplyUsage _ _ _ _ _) as [[[]|e] r']; simpl in Hl |- *.
  2: { split; [split |]; simpl.
       - intros i s. rewrite Hl. eauto.
       - intros i p. rewrite Hl. apply I2.
       - apply same_money_advances. intros i. simpl. by rewrite Hl. }
  destruct Hl as [(s & s' & E & E' & ->) Ho].
  destruct (I1 id s E) as (t & b & Et & Eb & Hb & Ht). specialize (Hfit s E). rewrite Et in Hfit.
  unfold value_of in Hfit. simpl in Hfit. split; [split |]; simpl.
  - intros i s'. destruct (decide (i = id)) as [->|]; [|rewrite Ho by done; eauto].
    rewrite E'. intros [= <-]. exists (t + cost), b. simpl. rewrite Et. simpl. split_and!; try done; lia.
  - intros i p Hp. destruct (I2 i p Hp) as (s0 & E0 & t0 & b0 & Et0 & Eb0 & ? & ? & ? & ? & ?).
    destruct (decide (i = id)) as [->|]; [|rewrite Ho by done; eexists; split; [done |]; unfold pending_ok; eauto 10].
    assert (s0 = s) as -> by congruence. simplify_eq. rewrite E'. eexists; split; [done |].
    exists (t + cost), b. simpl. rewrite Et. simpl. split_and!; try done; lia.
  - intros i s0 E0. simpl. destruct (decide (i = id)) as [->|]; [|rewrite Ho by done; eauto with lia].
    assert (s0 = s) as -> by congruence. rewrite E'. eexists; split; [done |]. simpl. done.
Qed.

(** ** The gateway as a transition system

    Steps of the runtime protocol; the legacy unary [SubmitRAV] is kept apart
    because it may accept more than the exact amount. *)
Inductive runtime_step cfg : Gateway R -> Gateway R -> Prop :=
  | rt_usage env id u cost g : cost_fits id cost g -> runtime_step cfg g (apply_usage env id u cost g)
  | rt_metered env id g : runtime_step cfg g (onMeteredUsage cfg env id g).2
  | rt_request env fresh st raw msg ok g :
      runtime_step cfg g (on_request cfg env fresh st raw msg ok g).2
  | rt_event st ok g res : on_event st ok g = Some res -> runtime_step cfg g res.2
  | rt_close st g : runtime_step cfg g (on_close st g).2
  | rt_start env sid req g : runtime_step cfg g (StartSession cfg env sid req g).2.

Inductive gw_step cfg : Gateway R -> Gateway R -> Prop :=
  | gw_runtime g g' : runtime_step cfg g g' -> gw_step cfg g g'
  | gw_submit env id psr g : gw_step cfg g (SubmitRAV cfg env id psr g).2.

Lemma runtime_step_sound cfg g g' : runtime_step cfg g g' -> sound_step eq g g'.
Proof.
  destruct 1 as [env id u cost g Hf|env id g|env fresh st raw msg ok g|st ok g res E|st g|env sid req g].
  - by apply usage_sound.
  - apply onMeteredUsage_sound.
  - unfold on_request. pose proof (on_request_body_sound cfg env fresh st raw msg ok g) as Hb.
    destruct (on_request_body _ _ _ _ _ _ _ _) as [[t st'] g1].
    eapply sound_step_trans; [apply _ | exact Hb | apply finish_turn_sound].
  - unfold on_event in E. destruct (ps_events st) as [ch|]; [|done].
    destruct (g_channels g !! ch) as [[|resp rest]|]; [done | | done]. apply (inj Some) in E as <-.
    eapply sound_step_trans; [apply _ | | apply finish_turn_sound]. apply sound_step_frame; eauto.
  - unfold on_close. apply finish_turn_sound.
  - apply start_sound.
Qed.

Lemma gw_step_sound cfg g g' : gw_step cfg g g' -> sound_step Z.le g g'.
Proof.
  destruct 1 as [g g' Hs|env id psr g]; [|apply submit_sound].
  intros I. destruct (runtime_step_sound _ _ _ Hs I) as [? ?]. split; [done | by apply advances_weaken].
Qed.

Lemma sound_step_rtc cmp (step : Gateway R -> Gateway R -> Prop) `{!PreOrder cmp} g g' :
  (forall x y, step x y -> sound_step cmp x y) -> rtc step g g' -> sound_step cmp g g'.
Proof.
  intros Hs. induction 1 as [g|g g1 g' H01 _ IH].
  - intros I. split; [done |]. intros id s E. exists s. split_and!; [done | lia | reflexivity].
  - eapply sound_step_trans; [apply _ | by apply Hs | done].
Qed.

(** The gateway before any session: nothing stored, nothing in flight. *)
Definition gw_initial g : Prop := (forall id, session_at (g_repo g) id = None) /\ g_sessions g = ∅.

Lemma acct_inv_initial g : gw_initial g -> acct_inv g.
Proof.
  intros [Hs Hr]. split.
  - intros id s. by rewrite Hs.
  - intros id p. unfold pending_at. rewrite Hr, lookup_empty. done.
Qed.


End Accounting.

(** ** A concrete run

    One session of the in-memory gateway: it starts with a RAV of 100, a stream
    binds, usage of cost 7 is metered, the request is answered and committed. *)
Module AccountingWitness.
Import Reference.

Definition payer : address := fixed_bytes 20 2.
Definition provider : address := fixed_bytes 20 4.
Definition dataService : address := fixed_bytes 20 3.
Definition cfg : GatewayConfig :=
  mkGatewayConfig provider (NewDomain 42161 (fixed_bytes 20 9)) (fixed_bytes 20 9) false false
    (Some DefaultPricingConfig) (Some 5) "http://provider".
Definition env : Env := mkEnv (62135596800 * 10 ^ 9) (fun _ _ _ => Ok None) (fun _ _ => Ok false).

Definition rav (value : Z) : RAV := mkRAV (fixed_bytes 32 1) payer provider dataService 12 (Some value) [].
Definition proto_rav (value : Z) : option PSignedRAV :=
  match horizon_Sign (gc_domain cfg) (rav value) (2 : PrivateKey) with
  | Ok sm => HorizonSignedRAVToProto (Some sm)
  | Err _ => None
  end.
Definition start : StartSessionRequest :=
  mkStartReq (Some (mkPEscrowAccount (AddressFromEth payer) (AddressFromEth provider) (AddressFromEth dataService)))
    (proto_rav 100).
Definition event : UsageEvent := mkUsageEvent 1 3 4 1.
Definition usage : option PUsage := Some (mkPUsage 3 4 1 (GRTFromBigInt (Some 7))).
Definition closed : stream := mkStream "" None.
Definition open : stream := mkStream "s1" (Some 0%nat).

Definition g0 : Gateway InMemoryRepository := mkGateway NewInMemoryRepository ∅ ∅ ∅.
Definition g1 := (StartSession cfg env "s1" start g0).2.
Definition g2 := (on_request cfg env 0 closed "s1" None true g1).2.
Definition g3 := apply_usage env "s1" event 7 g2.
Definition g4 := (onMeteredUsage cfg env "s1" g3).2.
Definition g5 := (on_request cfg env 1 open "s1"
                    (Some (MsgRavSubmission (Some (mkSubmission (proto_rav 107) usage)))) true g4).2.

Lemma initial : gw_initial g0.
Proof. split; [|done]. intros id. rewrite session_at_lookup. apply lookup_empty. Qed.

Definition fits_check (g : Gateway InMemoryRepository) (cost : Z) : bool :=
  match session_at (g_repo g) "s1" with Some s => value_of (s_TotalCost s) + cost <? two256 | None => true end.

Lemma fits_check_sound (g : Gateway InMemoryRepository) (cost : Z) :
  0 <= cost -> fits_check g cost = true -> cost_fits "s1" cost g.
Proof.
  intros Hc Hf. split; [done |]. intros s E. unfold fits_check in Hf. rewrite E in Hf. by apply Z.ltb_lt.
Qed.
Lemma fits_checked : fits_check g2 7 = true.
Proof. vm_compute. reflexivity. Qed.
Lemma fits : cost_fits "s1" 7 g2.
Proof. apply fits_check_sound; [lia | exact fits_checked]. Qed.

Lemma step01 : gw_step cfg g0 g1.
Proof. exact (gw_runtime cfg g0 g1 (rt_start cfg env "s1" start g0)). Qed.
Lemma step12 : runtime_step cfg g1 g2.
Proof. exact (rt_request cfg env 0 closed "s1" None true g1). Qed.
Lemma step23 : runtime_step cfg g2 g3.
Proof. exact (rt_usage cfg env "s1" event 7 g2 fits). Qed.
Lemma step34 : runtime_step cfg g3 g4.
Proof. exact (rt_metered cfg env "s1" g3). Qed.
Lemma step45 : runtime_step cfg g4 g5.
Proof.
  exact (rt_request cfg env 1 open "s1" (Some (MsgRavSubmission (Some (mkSubmission (proto_rav 107) usage)))) true g4).
Qed.
Lemma run01 : rtc (gw_step cfg) g0 g1.
Proof. exact (rtc_once g0 g1 step01). Qed.
Lemma run14 : rtc (runtime_step cfg) g1 g4.
Proof. exact (rtc_l _ g1 g2 g4 step12 (rtc_l _ g2 g3 g4 step23 (rtc_once g3 g4 step34))). Qed.
Lemma run15 : rtc (runtime_step cfg) g1 g5.
Proof. exact (rtc_r g1 g4 g5 run14 step45). Qed.
Lemma runtime_run x y : rtc (runtime_step cfg) x y -> rtc (gw_step cfg) x y.
Proof. apply rtc_subrel. intros a b. apply gw_runtime. Qed.
Lemma run04 : rtc (gw_step cfg) g0 g4.
Proof. exact (rtc_l _ g0 g1 g4 step01 (runtime_run g1 g4 run14)). Qed.

Definition target (g : Gateway InMemoryRepository) : option Z := pr_targetValue <$> pending_at g "s1".
Definition value (g : Gateway InMemoryRepository) : option Z :=
  (fun s => rav_value (s_CurrentRAV s)) <$> session_at (g_repo g) "s1".
Lemma target_Some g v : target g = Some v -> exists p, pending_at g "s1" = Some p /\ pr_targetValue p = v.
Proof. unfold target. rewrite fmap_Some. naive_solver. Qed.
Lemma value_Some g v :
  value g = Some v -> exists s, session_at (g_repo g) "s1" = Some s /\ rav_value (s_CurrentRAV s) = v.
Proof. unfold value. rewrite fmap_Some. naive_solver. Qed.
Lemma target4 : target g4 = Some 107.
Proof. vm_compute. reflexivity. Qed.
Lemma value1 : value g1 = Some 100.
Proof. vm_compute. reflexivity. Qed.
Lemma value5 : value g5 = Some 107.
Proof. vm_compute. reflexivity. Qed.
End AccountingWitness.

Import Reference.


