(* ===== verification/GatewayFunds.v ===== *)
(** Control decisions of the gateway: when the escrow balance stops a session and
    what the consumer is told, that a stream binds exclusively and at most one RAV
    request is in flight, what an accepted [StartSession] establishes, and two
    places where the answer and the stored state disagree. *)
From S2P Require Import Prelude.
From S2P Require Import GoStd.
From S2P Require Import External.
From S2P Require Import GRT.
From S2P Require Import Horizon.
From S2P Require Import Proto.
From S2P Require Import Repository.
From S2P Require Import InMemory.
From S2P Require Import InMemoryProps.
From S2P Require Import Runtime.
From S2P Require Import Gateway.
From S2P Require Import GatewayProps.
From S2P Require Import Accounting.

Section Funds.
Context `{Uint256} `{Eth} `{!GlobalRepository R} `{!GlobalRepositoryLaws}.
Implicit Types (g : Gateway R) (cfg : GatewayConfig) (env : Env).

(** The cost accrued since the baseline. *)
Definition accrued (s : Session) : Z := cost_delta (s_TotalCost s) (s_BaselineCost s).

Lemma assess_known cfg env s b :
  GetEscrowBalance cfg env (s_Payer s) = Ok (Some b) ->
  let a := assessSessionFunds cfg env s in
  let owed := rav_value (s_CurrentRAV s) + accrued s in
  insufficient a = (owed >? b) /\ fa_escrowBalance a = Some b /\ fa_currentOutstanding a = rav_value (s_CurrentRAV s) /\
  fa_projectedOutstanding a = owed /\ fa_minimumNeeded a = (if owed >? b then owed - b else 0).
Proof.
  intros E. unfold assessSessionFunds, UsageDeltaSinceBaseline, accrued. rewrite E, cmpZ_gtb. by case_match.
Qed.

Lemma assess_unknown cfg env s :
  (forall b, GetEscrowBalance cfg env (s_Payer s) <> Ok (Some b)) -> insufficient (assessSessionFunds cfg env s) = false.
Proof.
  intros Hn. unfold assessSessionFunds, UsageDeltaSinceBaseline.
  destruct (GetEscrowBalance _ _ _) as [[b|]|] eqn:E; [by destruct (Hn b) | done..].
Qed.

(** The message [resp] waits in the runtime state of [id] or is the newest in the
    buffer of the channel bound to it. *)
Definition notified g (id : string) (resp : PaymentSessionResponse) : Prop :=
  exists st, g_sessions g !! id = Some st /\
    (rs_queuedResponse st = Some resp \/
     exists ch buf, rs_events st = Some ch /\ g_channels g !! ch = Some (buf ++ [resp])).

Lemma dispatch_notifies id resp p g : notified (dispatch id resp p g) id resp.
Proof.
  unfold dispatch. pose proof (ensure_lookup id g) as Hl. destruct (ensureSessionState id g) as [st g1]. simpl in Hl.
  set (st1 := st <| rs_queuedResponse := _ |> <| rs_pendingRAV := _ |>).
  assert (notified (put_state id st1 g1) id resp) as Hq.
  { exists st1. simpl. rewrite lookup_insert_eq. auto. }
  destruct (rs_events st) as [ch|] eqn:Ech; [|done].
  destruct (try_send ch resp (put_state id st1 g1)) as [g3|] eqn:Et; [|done].
  unfold try_send in Et. destruct (_ <? _)%nat; [|done]. injection Et as <-.
  unfold clearQueuedResponse. simpl. rewrite lookup_insert_eq. unfold st1. simpl. rewrite Ech.
  rewrite !bool_decide_true by done. simpl. eexists. simpl. rewrite !lookup_insert_eq. split; [done |]. right.
  exists ch, (default [] (g_channels g1 !! ch)). simpl. by rewrite lookup_insert_eq.
Qed.

(** What an evaluation stores: the assessment in the metadata, and the end of the
    session when its funds do not suffice. *)
Definition assessed (env : Env) (s : Session) (a : fundsAssessment) : Session :=
  let s := applyFundsAssessmentMetadata s a in
  if insufficient a then Session_End (env_now env) END_REASON_PAYMENT_ISSUE s else s.

Lemma evaluate_stores cfg env id g s g' :
  SessionGet (g_repo g) id = Ok s -> IsActive s = true ->
  evaluateMeteredUsage cfg env id g = (Ok tt, g') ->
  let a := assessSessionFunds cfg env s in
  let s1 := assessed env s a in
  (exists s', session_at (g_repo g') id = Some s' /\
     s' = (s <| s_Status := s_Status s1 |> <| s_Metadata := s_Metadata s1 |> <| s_EndedAt := s_EndedAt s1 |>
            <| s_EndReason := s_EndReason s1 |>
            <| s_UpdatedAt := (if s_UpdatedAt s1 >? s_UpdatedAt s then s_UpdatedAt s1 else s_UpdatedAt s) |>)) /\
  (insufficient a = true -> exists g1, g' = dispatch id (needMoreFundsResponse s1 a) None (clearPendingRAV id g1)).
Proof.
  intros Eg Ha E a s1. unfold IsActive in Ha. bool_props.
  unfold evaluateMeteredUsage in E. rewrite Eg in E. unfold IsActive in E. rewrite bool_decide_true in E by done.
  cbn [negb] in E. cbv zeta in E. fold a in E. fold (assessed env s a) in E. fold s1 in E.
  pose proof (SessionUpdateRuntimeState_law (g_repo g) id (s_Status s1) (s_Metadata s1) (s_EndedAt s1)
    (s_EndReason s1) (s_UpdatedAt s1)) as Hl.
  destruct (SessionUpdateRuntimeState _ _ _ _ _ _ _) as [[[]|] r']; [|done].
  destruct Hl as [(s0 & s' & E0 & E' & Hs') _].
  assert (s0 = s) as -> by (unfold session_at in E0; rewrite Eg in E0; congruence).
  rewrite decide_False in Hs' by congruence.
  assert (g_repo g' = r') as Hr.
  { destruct (insufficient a); [injection E as <-; by rewrite dispatch_repo, clearPendingRAV_repo |].
    destruct (negb _) in E; [by injection E as <- |].
    destruct (runtimeState _ _) as [[ch|] [p|]]; try (by injection E as <-).
    destruct (s_CurrentRAV s1); [|by injection E as <-].
    destruct (UsageDeltaSinceBaseline s1) as [[[? ?] ?] ?]. injection E as <-. by rewrite dispatch_repo. }
  split; [exists s'; by rewrite Hr |]. intros Hi. rewrite Hi in E. injection E as <-. by eexists.
Qed.

(** C35: the funds check decides termination: for an active session with a known
    escrow balance, evaluating metered usage terminates the session with a payment
    issue exactly when the accepted RAV value plus the accrued cost exceeds the
    balance; the consumer is then told the RAV value, the balance and the exact
    shortfall, and no RAV request stays in flight.  With sufficient funds the
    session stays active. *)
Theorem metered_usage_enforces_funds cfg env id g s b g' :
  SessionGet (g_repo g) id = Ok s -> IsActive s = true ->
  GetEscrowBalance cfg env (s_Payer s) = Ok (Some b) ->
  evaluateMeteredUsage cfg env id g = (Ok tt, g') ->
  let owed := rav_value (s_CurrentRAV s) + accrued s in
  exists s', session_at (g_repo g') id = Some s' /\
    (if owed >? b
     then s_Status s' = SessionStatusTerminated /\ s_EndReason s' = END_REASON_PAYMENT_ISSUE /\
          s_EndedAt s' = Some (env_now env) /\ pending_at g' id = None /\
          exists ravs, notified g' id
            (NeedMoreFunds ravs (GRTFromBigInt (Some (rav_value (s_CurrentRAV s)))) (GRTFromBigInt (Some b))
               (GRTFromBigInt (Some (owed - b))))
     else s_Status s' = SessionStatusActive /\ s_EndReason s' = s_EndReason s).
Proof.
  intros Eg Ha Eb E owed. destruct (assess_known cfg env s b Eb) as (Hi & Hbal & Hcur & Hproj & Hmin).
  fold owed in Hi, Hproj, Hmin. unfold IsActive in Ha. bool_props.
  destruct (evaluate_stores cfg env id g s g' Eg) as [(s' & E' & ->) Hd]; [by unfold IsActive; rewrite bool_decide_true | done |].
  cbv zeta in *. eexists. split; [exact E' |]. unfold assessed in *. destruct (owed >? b); rewrite Hi in *; [|done].
  destruct (Hd eq_refl) as [g1 ->]. split_and!; try done.
  - rewrite pending_dispatch. by rewrite decide_True.
  - eexists. unfold needMoreFundsResponse. rewrite Hcur, Hbal, Hmin. apply dispatch_notifies.
Qed.

(** One stream, one request: a session that already has a payment stream
    refuses a second one without touching anything but the refused caller; a
    successful bind leaves exactly the caller's channel bound; and while a RAV
    request is in flight, further usage neither replaces it nor sends another. *)
Theorem payment_stream_exclusive cfg env id ch g :
  id <> ""%string ->
  (forall st old, g_sessions g !! id = Some st -> rs_events st = Some old ->
     bindSession cfg env id (Some ch) g = (Err (Errorf "payment session stream already bound for %q"), g)) /\
  (forall s st p g', g_sessions g !! id = Some st -> rs_pendingRAV st = Some p -> SessionGet (g_repo g) id = Ok s ->
     insufficient (assessSessionFunds cfg env s) = false ->
     evaluateMeteredUsage cfg env id g = (Ok tt, g') ->
     g_sessions g' = g_sessions g /\ g_channels g' = g_channels g).
Proof.
  intros Hid. split.
  - intros st old Est Eev. unfold bindSession, ensureSessionState.
    rewrite (proj2 (String.eqb_neq id "") Hid), Est, Eev. done.
  - intros s st p g' Est Ep Eg Hi E. unfold evaluateMeteredUsage in E. rewrite Eg in E.
    destruct (negb (IsActive s)); [by injection E as <- |]. cbv zeta in E. rewrite Hi in E.
    destruct (SessionUpdateRuntimeState _ _ _ _ _ _ _) as [[[]|] r']; [|done].
    destruct (negb _); [by injection E as <- |].
    unfold runtimeState in E. simpl in E. rewrite Est, Ep in E.
    destruct (rs_events st); simpl in E; by injection E as <-.
Qed.

(** ** StartSession *)

Record start_accepted cfg env (sid : string) (req : StartSessionRequest) g (s : Session) : Prop := {
  sa_fresh : session_at (g_repo g) sid = None;
  sa_parties : exists payer dataService,
    escrow_addresses req = Ok (payer, gc_serviceProvider cfg, dataService) /\
    s_Payer s = payer /\ s_Receiver s = gc_serviceProvider cfg /\ s_DataService s = dataService /\
    (forall sm m, s_CurrentRAV s = Some sm -> Message sm = Some m ->
       rav_Payer m = payer /\ rav_ServiceProvider m = gc_serviceProvider cfg /\ rav_DataService m = dataService /\
       exists signer, RecoverSigner sm (gc_domain cfg) = Ok signer /\ authorized cfg env payer signer g);
  sa_rav : ProtoSignedRAVToHorizon (sr_InitialRav req) = Ok (s_CurrentRAV s);
  sa_active : s_Status s = SessionStatusActive;
  sa_unused : s_TotalCost s = Some 0 /\ UsageDeltaSinceBaseline s = (0, 0, 0, 0);
  sa_priced : s_PricingConfig s = toRepoPricingConfig (gc_pricingConfig cfg)
}.

Lemma check_initial_rav_accepts cfg env payer ds rav g g' :
  check_initial_rav cfg env payer ds rav g = (None, g') ->
  forall sm m, rav = Some sm -> Message sm = Some m ->
    rav_Payer m = payer /\ rav_ServiceProvider m = gc_serviceProvider cfg /\ rav_DataService m = ds /\
    exists signer, RecoverSigner sm (gc_domain cfg) = Ok signer /\ authorized cfg env payer signer g.
Proof.
  intros E sm m -> Em. unfold check_initial_rav in E. rewrite Em in E.
  destruct (RecoverSigner sm _) as [signer|]; [|done].
  destruct (isSignerAuthorized _ _ _ _ _) as [[[]|] g1] eqn:Ea; [|done..].
  unfold AddressesEqual in E. do 3 (case_bool_decide; [|done]). apply isSignerAuthorized_true in Ea. eauto 10.
Qed.

(** An accepted [StartSession] created the session it names: under a fresh
    identifier, active, with no usage and a zero baseline, for the payer, this
    provider and the data service of the request, priced by the gateway's
    configuration, and any initial RAV is for the same three parties and signed
    by the payer or an authorized signer.  A rejected request stores nothing. *)
Theorem StartSession_spec cfg env sid req g resp g' :
  StartSession cfg env sid req g = (Ok resp, g') ->
  (sp_Accepted resp = true /\ sp_SessionId resp = sid /\
   exists s, session_at (g_repo g') sid = Some s /\ start_accepted cfg env sid req g s /\
     forall i, i <> sid -> session_at (g_repo g') i = session_at (g_repo g) i) \/
  (sp_Accepted resp = false /\ forall i, session_at (g_repo g') i = session_at (g_repo g) i).
Proof.
  unfold StartSession. destruct (escrow_addresses req) as [[[payer receiver] ds]|] eqn:Eea; [|done].
  unfold AddressesEqual. case_bool_decide as Hrec; [|intros [= <- <-]; by right]. subst receiver. cbn [negb].
  destruct (ProtoSignedRAVToHorizon _) as [rav|] eqn:Erav; [|done].
  pose proof (check_initial_rav_frame cfg env payer ds rav g) as [Hf1 _].
  destruct (check_initial_rav _ _ _ _ _ _) as [[reason|] g1] eqn:Echk; cbn [snd] in Hf1;
    [intros [= <- <-]; right; by rewrite Hf1 |].
  set (s := MarkBaseline _).
  pose proof (SessionCreate_law (g_repo g1) (env_now env) s) as Hl.
  assert (s_ID s = sid) as Hid by (unfold s; by destruct rav). rewrite Hid in Hl.
  destruct (SessionCreate _ _ _) as [[[]|e] repo]; [|done].
  destruct (String.eqb _ _); [done |]. intros [= <- <-]. left. rewrite Hf1 in Hl.
  destruct Hl as (Hnone & Hsome & Ho). split_and!; [done | done |]. exists s. split_and!; [done | | done].
  assert (s_CurrentRAV s = rav) as Hr by (unfold s; by destruct rav).
  split; try done.
  - exists payer, ds. rewrite Hr. unfold s. destruct rav; (split_and!; try done); by eapply check_initial_rav_accepts.
  - by rewrite Hr.
  - unfold s. by destruct rav.
  - split; [unfold s; by destruct rav | apply delta_MarkBaseline].
  - unfold s. by destruct rav.
Qed.

(** With a blank data-plane endpoint [StartSession] reports an internal error
    for a request it has already stored: whenever the session can be created, the
    caller gets an error and the session stays behind, active. *)
Theorem StartSession_error_leaves_session cfg env sid req g payer ds res repo :
  TrimSpace (gc_dataPlaneEndpoint cfg) = ""%string ->
  escrow_addresses req = Ok (payer, gc_serviceProvider cfg, ds) ->
  sr_InitialRav req = None ->
  let s := MarkBaseline (NewSession (env_now env) sid payer (gc_serviceProvider cfg) ds
                           (toRepoPricingConfig (gc_pricingConfig cfg))) in
  SessionCreate (g_repo g) (env_now env) (Some s) = (Ok tt, repo) ->
  StartSession cfg env sid req g = res ->
  (exists e, res.1 = Err (CodeInternal, e)) /\
  exists s', session_at (g_repo res.2) sid = Some s' /\ IsActive s' = true.
Proof.
  intros Hblank Hea Hrav s Hc <-. unfold StartSession. rewrite Hea. unfold AddressesEqual.
  rewrite bool_decide_true by done. cbn [negb]. rewrite Hrav. cbn [ProtoSignedRAVToHorizon check_initial_rav].
  fold s. pose proof (SessionCreate_law (g_repo g) (env_now env) s) as Hl. rewrite Hc in Hl |- *.
  rewrite Hblank. simpl. split; [eauto |]. destruct Hl as (_ & Hs & _). exists s. done.
Qed.

(** ** SubmitRAV *)

(** What the unary submission checks before it answers "accepted". *)
Record submit_accepted cfg env (id : string) (psr : PSignedRAV) g (s : Session) (sm : SignedRAV) : Prop := {
  su_session : SessionGet (g_repo g) id = Ok s;
  su_active : IsActive s = true;
  su_not_pending : hasPendingRAV id g = false;
  su_decoded : ProtoSignedRAVToHorizon (Some psr) = Ok (Some sm);
  su_signed : exists signer, RecoverSigner sm (gc_domain cfg) = Ok signer /\ authorized cfg env (s_Payer s) signer g;
  su_parties : exists m, Message sm = Some m /\ rav_Payer m = s_Payer s /\ rav_ServiceProvider m = gc_serviceProvider cfg;
  su_covers : rav_value (s_CurrentRAV s) + accrued s <= rav_value (Some sm)
}.

(** The write the handler attempts. *)
Definition submit_write env (id : string) (s : Session) (sm : SignedRAV) (r : R) : result go_error unit * R :=
  SessionUpdateRAVAndBaseline r (env_now env) id (Some sm) (s_BlocksProcessed s) (s_BytesTransferred s) (s_Requests s)
    (Some (value_of (s_TotalCost s))).

Lemma SubmitRAV_accepted cfg env id psr g resp g' :
  SubmitRAV cfg env id (Some psr) g = (Ok resp, g') -> sub_Accepted resp = true ->
  exists s sm, submit_accepted cfg env id psr g s sm /\ g_repo g' = (submit_write env id s sm (g_repo g)).2.
Proof.
  unfold SubmitRAV. intros E Hacc. destruct (SessionGet _ _) as [s|] eqn:Es; [|by injection E as <- <-].
  destruct (IsActive s) eqn:Ea; [|by injection E as <- <-]. cbn [negb] in E.
  destruct (hasPendingRAV id g) eqn:Ep; [by injection E as <- <- |].
  destruct (ProtoSignedRAVToHorizon _) as [[sm|]|] eqn:Er; [|done..].
  destruct (RecoverSigner _ _) as [signer|] eqn:Esig; [|by injection E as <- <-].
  pose proof (isSignerAuthorized_frame cfg env (s_Payer s) signer g) as (Hf1 & _).
  destruct (isSignerAuthorized _ _ _ _ _) as [[[]|] g1] eqn:Eauth; cbn [snd] in Hf1; [|by injection E as <- <-..].
  apply isSignerAuthorized_true in Eauth.
  destruct (Message sm) as [m|] eqn:Em; [|done]. unfold AddressesEqual in E.
  case_bool_decide; [|by injection E as <- <-]. case_bool_decide; [|by injection E as <- <-]. cbn [negb] in E. cbv zeta in E.
  destruct (match s_CurrentRAV s with Some _ => _ | None => _ end); [by injection E as <- <- |].
  unfold UsageDeltaSinceBaseline in E. rewrite cmpZ_ltb in E.
  destruct (Z.ltb_spec (value_of (rav_ValueAggregate m)) (rav_value (s_CurrentRAV s) + cost_delta (s_TotalCost s) (s_BaselineCost s)));
    [by injection E as <- <- |].
  rewrite Hf1 in E. exists s, sm. unfold submit_write.
  destruct (SessionUpdateRAVAndBaseline _ _ _ _ _ _ _ _) as [res repo]. injection E as <- <-.
  split; [|done]. split; try done; eauto. simpl. by rewrite Em.
Qed.

End Funds.

(** ** Concrete runs *)
Module FundsWitness.
Import Reference.
Import AccountingWitness.

(** The run of [AccountingWitness] with an escrow balance of 103. *)
Definition cfg_escrow : GatewayConfig :=
  mkGatewayConfig provider (NewDomain 42161 (fixed_bytes 20 9)) (fixed_bytes 20 9) true false
    (Some DefaultPricingConfig) (Some 5) "http://provider".
Definition env_poor : Env := mkEnv (62135596800 * 10 ^ 9) (fun _ _ _ => Ok (Some 103)) (fun _ _ => Ok false).
Abbreviation evaluated := (evaluateMeteredUsage cfg_escrow env_poor "s1" g3).

Definition active_check (g : Gateway InMemoryRepository) : bool :=
  match SessionGet (g_repo g) "s1" with
  | Ok s => IsActive s && (rav_value (s_CurrentRAV s) =? 100) && (accrued s =? 7)
  | Err _ => false
  end.
Lemma active_check_sound g :
  active_check g = true ->
  exists s, SessionGet (g_repo g) "s1" = Ok s /\ IsActive s = true /\ rav_value (s_CurrentRAV s) = 100 /\ accrued s = 7.
Proof.
  unfold active_check. destruct (SessionGet (g_repo g) "s1") as [s|]; [|done]. intros Hc. bool_props. eauto.
Qed.
Lemma active3 : active_check g3 = true.
Proof. vm_compute. reflexivity. Qed.

Lemma is_ok_unit {A} (x : result go_error unit * A) : is_ok x.1 = true -> x = (Ok tt, x.2).
Proof. destruct x as [[[]|] a]; done. Qed.
Lemma evaluated_ok : is_ok evaluated.1 = true.
Proof. vm_compute. reflexivity. Qed.

Definition bound (g : Gateway InMemoryRepository) : option nat := g_sessions g !! "s1"%string ≫= rs_events.
Lemma bound_Some g ch :
  bound g = Some ch -> exists st, g_sessions g !! "s1"%string = Some st /\ rs_events st = Some ch.
Proof. unfold bound. destruct (g_sessions g !! "s1"%string); [eauto | done]. Qed.
Lemma bound2 : bound g2 = Some 0%nat.
Proof. vm_compute. reflexivity. Qed.

(** The session the payment stream reads before it handles the submission. *)
Definition session4 : Session :=
  match SessionGet (g_repo g4) "s1" with
  | Ok s => s
  | Err _ => NewSession 0 "" [] [] [] (mkPricingConfig ZeroGRT ZeroGRT)
  end.
Abbreviation handled :=
  (handleRAVSubmission cfg env "s1" session4 (Some (mkSubmission (proto_rav 107) usage)) g4).
Definition continue_check (r : PaymentSessionResponse) : bool := bool_decide (r = continuePaymentSessionResponse).
Lemma continue_check_sound r : continue_check r = true -> r = continuePaymentSessionResponse.
Proof. intros Hc. by apply bool_decide_eq_true in Hc. Qed.
Lemma continued : continue_check handled.1 = true.
Proof. vm_compute. reflexivity. Qed.

(** The stored collection is pending at 100 while a RAV of 200 is submitted. *)
Definition g_pending : Gateway InMemoryRepository :=
  g1 <| g_repo := exec_op 300 (OpMarkPending (rav_key "s1" (rav 100)) (Some 100) "0xabc" 300) (g_repo g1) |>.
Definition psr200 : PSignedRAV := default (mkPSignedRAV None []) (proto_rav 200).
Abbreviation submitted := (SubmitRAV cfg env "s1" (Some psr200) g_pending).
Definition submitted_accepted (x : result connect_error SubmitRAVResponse * Gateway InMemoryRepository) : bool :=
  match x.1 with Ok r => sub_Accepted r | Err _ => false end.
Lemma submitted_answer : submitted_accepted submitted = true.
Proof. vm_compute. reflexivity. Qed.
Lemma submitted_unchanged : value submitted.2 = Some 100.
Proof. vm_compute. reflexivity. Qed.
Lemma accepted_pair x :
  submitted_accepted x = true -> exists r g, x = (Ok r, g) /\ sub_Accepted r = true /\ g = x.2.
Proof. unfold submitted_accepted. destruct x as [[r|] g]; simpl; [eauto 6 | done]. Qed.

(** A request without an initial RAV at a gateway without an endpoint. *)
Definition cfg_blank : GatewayConfig :=
  mkGatewayConfig provider (NewDomain 42161 (fixed_bytes 20 9)) (fixed_bytes 20 9) false false
    (Some DefaultPricingConfig) (Some 5) " ".
Definition start_plain : StartSessionRequest :=
  mkStartReq (Some (mkPEscrowAccount (AddressFromEth payer) (AddressFromEth provider) (AddressFromEth dataService))) None.
Definition plain_session : Session :=
  MarkBaseline (NewSession (env_now env) "s1" payer (gc_serviceProvider cfg_blank) dataService
                  (toRepoPricingConfig (gc_pricingConfig cfg_blank))).
Abbreviation created := (SessionCreate (g_repo g0) (env_now env) (Some plain_session)).
Lemma created_ok : is_ok created.1 = true.
Proof. vm_compute. reflexivity. Qed.
Lemma blank : TrimSpace (gc_dataPlaneEndpoint cfg_blank) = ""%string.
Proof. vm_compute. reflexivity. Qed.
Lemma start_addresses : escrow_addresses start_plain = Ok (payer, gc_serviceProvider cfg_blank, dataService).
Proof. vm_compute. reflexivity. Qed.

Abbreviation started := (StartSession cfg env "s1" start g0).
Definition started_accepted (x : result connect_error StartSessionResponse * Gateway InMemoryRepository) : bool :=
  match x.1 with Ok r => sp_Accepted r | Err _ => false end.
Lemma started_answer : started_accepted started = true.
Proof. vm_compute. reflexivity. Qed.
Lemma started_pair x :
  started_accepted x = true -> exists r, x = (Ok r, x.2) /\ sp_Accepted r = true.
Proof. unfold started_accepted. destruct x as [[r|] g]; simpl; [eauto | done]. Qed.
End FundsWitness.

Import Reference.

Lemma metered_usage_enforces_funds_witness :
  exists s', session_at (g_repo FundsWitness.evaluated.2) "s1" = Some s' /\ s_Status s' = SessionStatusTerminated.
Proof.
  destruct (FundsWitness.active_check_sound _ FundsWitness.active3) as (s & Es & Ha & Hv & Hd).
  destruct (metered_usage_enforces_funds FundsWitness.cfg_escrow FundsWitness.env_poor "s1" AccountingWitness.g3 s 103
    FundsWitness.evaluated.2 Es Ha eq_refl (FundsWitness.is_ok_unit _ FundsWitness.evaluated_ok)) as (s' & Es' & Hs).
  rewrite Hv, Hd in Hs. exact (ex_intro _ s' (conj Es' (proj1 Hs))).
Defined.

Lemma payment_stream_exclusive_witness :
  bindSession AccountingWitness.cfg AccountingWitness.env "s1" (Some 5%nat) AccountingWitness.g2 =
  (Err (Errorf "payment session stream already bound for %q"), AccountingWitness.g2).
Proof.
  destruct (FundsWitness.bound_Some _ _ FundsWitness.bound2) as (st & Es & Ech).
  exact (proj1 (payment_stream_exclusive AccountingWitness.cfg AccountingWitness.env "s1" 5 AccountingWitness.g2
    ltac:(discriminate)) st 0%nat Es Ech).
Defined.

Lemma handleRAVSubmission_sound_witness :
  exists p sm m signer s,
    rs_pendingRAV (ensureSessionState "s1" AccountingWitness.g4).1 = Some p /\
    acceptable AccountingWitness.cfg AccountingWitness.env s
      (mkSubmission (AccountingWitness.proto_rav 107) AccountingWitness.usage) p
      (ensureSessionState "s1" AccountingWitness.g4).2 sm m signer.
Proof.
  destruct (handleRAVSubmission_sound AccountingWitness.cfg AccountingWitness.env "s1" FundsWitness.session4
    (mkSubmission (AccountingWitness.proto_rav 107) AccountingWitness.usage) AccountingWitness.g4 _ _
    (surjective_pairing _)) as [(_ & p & sm & m & signer & s0 & Hp & Ha & _)|[Hne _]].
  - exact (ex_intro _ p (ex_intro _ sm (ex_intro _ m (ex_intro _ signer (ex_intro _ _ (conj Hp Ha)))))).
  - exact (False_ind _ (Hne (FundsWitness.continue_check_sound _ FundsWitness.continued))).
Defined.

Lemma StartSession_spec_witness :
  exists s, session_at (g_repo FundsWitness.started.2) "s1" = Some s /\
    start_accepted AccountingWitness.cfg AccountingWitness.env "s1" AccountingWitness.start AccountingWitness.g0 s.
Proof.
  destruct (FundsWitness.started_pair _ FundsWitness.started_answer) as (r & E & Ha).
  destruct (StartSession_spec AccountingWitness.cfg AccountingWitness.env "s1" AccountingWitness.start AccountingWitness.g0 r _ E)
    as [(_ & _ & s & Es & Hs & _)|[Hf _]]; [|congruence].
  exact (ex_intro _ s (conj Es Hs)).
Defined.

Lemma StartSession_error_leaves_session_witness :
  exists s', session_at (g_repo (StartSession FundsWitness.cfg_blank AccountingWitness.env "s1" FundsWitness.start_plain
                                   AccountingWitness.g0).2) "s1" = Some s' /\ IsActive s' = true.
Proof.
  exact (proj2 (StartSession_error_leaves_session FundsWitness.cfg_blank AccountingWitness.env "s1" FundsWitness.start_plain
    AccountingWitness.g0 AccountingWitness.payer AccountingWitness.dataService _ FundsWitness.created.2 FundsWitness.blank
    FundsWitness.start_addresses eq_refl (FundsWitness.is_ok_unit _ FundsWitness.created_ok) eq_refl)).
Defined.

