(* ===== verification/SessionService.v ===== *)
(** The worker-pool service of the provider's plugins ([provider/session/service.go],
    [provider/session/quotas.go]): borrowing and returning worker slots against a
    per-payer quota, and keep-alive of the session behind a worker.

    [BorrowWorker] and [KeepAlive] are atomic on the repository.  [ReturnWorker]
    makes three repository calls with a possible wait between them, so besides
    the whole handler there is a transition system, [pool_step], in which several
    returns are in flight at once. *)
From S2P Require Import Prelude.
From S2P Require Import GoStd.
From S2P Require Import External.
From S2P Require Import GRT.
From S2P Require Import Horizon.
From S2P Require Import Proto.
From S2P Require Import Repository.
From S2P Require Import Runtime.
From S2P Require Import Gateway.
From S2P Require Import InMemory.
From S2P Require Import InMemoryProps.

(** ** Quota configuration *)

Record PayerQuota : Type := mkPayerQuota {
  pq_MaxConcurrentSessions : Z;
  pq_MaxWorkersPerSession : Z
}.

(** The overrides are non-nil pointers in the code. *)
Record QuotaConfig : Type := mkQuotaConfig {
  qc_DefaultMaxConcurrentSessions : Z;
  qc_DefaultMaxWorkersPerSession : Z;
  qc_PerPayerOverrides : gmap string PayerQuota
}.

Definition DefaultQuotaConfig : QuotaConfig := mkQuotaConfig 10 5 ∅.

Definition MaxConcurrentSessions (c : QuotaConfig) (payer : string) : Z :=
  match qc_PerPayerOverrides c !! payer with
  | Some override => pq_MaxConcurrentSessions override
  | None => qc_DefaultMaxConcurrentSessions c
  end.

Definition MaxWorkersPerSession (c : QuotaConfig) (payer : string) : Z :=
  match qc_PerPayerOverrides c !! payer with
  | Some override => pq_MaxWorkersPerSession override
  | None => qc_DefaultMaxWorkersPerSession c
  end.

Definition NewSessionService (quotas : option QuotaConfig) : QuotaConfig := default DefaultQuotaConfig quotas.

(** The product is an [int]: 64 bits, wrapping. *)
Definition max_workers (c : QuotaConfig) (payer : string) : Z :=
  wrap_s64 (MaxWorkersPerSession c payer * MaxConcurrentSessions c payer).

Inductive BorrowStatus : Type :=
  | BORROW_STATUS_UNSPECIFIED | BORROW_STATUS_BORROWED | BORROW_STATUS_RESOURCE_EXHAUSTED.
#[global] Instance BorrowStatus_eq_dec : EqDecision BorrowStatus.
Proof. solve_decision. Defined.

Record BorrowWorkerRequest : Type := mkBorrowReq {
  br_Service : string;
  br_OrganizationId : string;
  br_ApiKeyId : string;
  br_SessionId : string;
  br_MaxWorkersPerSession : Z
}.

Record BorrowWorkerResponse : Type := mkBorrowResp {
  bw_WorkerKey : string;
  bw_Status : BorrowStatus;
  bw_MaxWorkers : Z;
  bw_ActiveWorkers : Z
}.

Definition buildWorkerKey (payer traceID : string) (createdAt : time) : string :=
  of_chars (to_chars payer ++ bar ++ to_chars traceID ++ bar ++ big_String (UnixNano createdAt)).

Section SessionService.
Context `{Uint256} `{Eth} `{!GlobalRepository R}.

Definition sessionStateError (session : option Session) : connect_error :=
  match session with
  | Some s =>
      if bool_decide (s_EndReason s = END_REASON_PAYMENT_ISSUE)
      then (CodeResourceExhausted, Errorf "session ended due to payment issue")
      else (CodePermissionDenied, Errorf "session is not active (status: %s)")
  | None => (CodePermissionDenied, Errorf "session is not active (status: %s)")
  end.

Definition authorizeSession (r : R) (sessionID : string) (payer : address) : result connect_error Session :=
  match SessionGet r sessionID with
  | Err e => if errors_Is e ErrNotFound then Err (CodePermissionDenied, Errorf "session not found")
             else Err (CodeInternal, Wrapf "reading session: %w" e)
  | Ok session =>
      if negb (String.eqb (Pretty (s_Payer session)) (Pretty payer))
      then Err (CodePermissionDenied, Errorf "session payer mismatch")
      else if negb (IsActive session) then Err (sessionStateError (Some session))
      else Ok session
  end.

Definition BorrowWorker (quotas : QuotaConfig) (now : time) (req : BorrowWorkerRequest) (r : R) :
    result connect_error BorrowWorkerResponse * R :=
  let payerStr := br_OrganizationId req in
  if String.eqb payerStr "" then (Err (CodeInvalidArgument, Errorf "organization_id is required"), r) else
  match NewAddress payerStr with
  | Err e => (Err (CodeInvalidArgument, Wrapf "invalid organization_id address: %w" e), r)
  | Ok payer =>
    let sessionID := br_SessionId req in
    if String.eqb sessionID ""
    then (Err (CodePermissionDenied, Errorf "session_id not provided in request"), r) else
    match authorizeSession r sessionID payer with
    | Err e => (Err e, r)
    | Ok _ =>
      let maxWorkers := max_workers quotas payerStr in
      let workerKey := buildWorkerKey payerStr sessionID now in
      let worker := mkWorker workerKey sessionID payer now "" in
      match WorkerCreateAndReserveQuota r now (Some worker) maxWorkers with
      | (Ok quota, r) =>
          (Ok (mkBorrowResp workerKey BORROW_STATUS_BORROWED maxWorkers (q_ActiveWorkers quota)), r)
      | (Err (e, quota), r) =>
          if errors_Is e ErrQuotaExceeded then
            match quota with
            | Some q => (Ok (mkBorrowResp "" BORROW_STATUS_RESOURCE_EXHAUSTED maxWorkers (q_ActiveWorkers q)), r)
            | None => (Err (CodeInternal, GoPanic), r)
            end
          else (Err (CodeInternal, Wrapf "creating worker and reserving quota: %w" e), r)
      end
    end
  end.

(** The first part of [ReturnWorker]: a reply, or the worker to release.
    [cancelled] tells whether the context ends before the minimal life of the
    worker has passed. *)
Definition return_lookup (now : time) (workerKey : string) (minimalLife : option Z) (cancelled : bool) (r : R) :
    result (result connect_error unit) Worker :=
  if String.eqb workerKey "" then Err (Err (CodeInvalidArgument, Errorf "worker_key is required")) else
  match WorkerGet r workerKey with
  | Err _ => Err (Ok tt)
  | Ok worker =>
      match minimalLife with
      | Some minDuration =>
          let elapsed := now - wk_CreatedAt worker in
          if (elapsed <? minDuration) && cancelled
          then Err (Err (CodeDeadlineExceeded, ErrorsNew "context canceled"))
          else Ok worker
      | None => Ok worker
      end
  end.

(** The two writes; both failures are logged only. *)
Definition return_delete (workerKey : string) (r : R) : R := (WorkerDelete r workerKey).2.
Definition return_decrement (now : time) (payer : address) (r : R) : R := (QuotaDecrement r now payer 0 1).2.

Definition ReturnWorker (now : time) (workerKey : string) (minimalLife : option Z) (cancelled : bool) (r : R) :
    result connect_error unit * R :=
  match return_lookup now workerKey minimalLife cancelled r with
  | Err reply => (reply, r)
  | Ok worker => (Ok tt, return_decrement now (wk_Payer worker) (return_delete workerKey r))
  end.

Definition KeepAlive (now : time) (workerKey : string) (r : R) : result connect_error unit * R :=
  if String.eqb workerKey "" then (Err (CodeInvalidArgument, Errorf "worker_key is required"), r) else
  match WorkerGet r workerKey with
  | Err e => if errors_Is e ErrNotFound then (Err (CodePermissionDenied, Errorf "worker not found"), r)
             else (Err (CodeInternal, Wrapf "reading worker: %w" e), r)
  | Ok worker =>
      match authorizeSession r (wk_SessionID worker) (wk_Payer worker) with
      | Err e => (Err e, r)
      | Ok session => (Ok tt, (SessionTouch r (s_ID session) now).2)
      end
  end.
End SessionService.

(** ** The pool under concurrency *)
Section Pool.
Context `{Uint256} `{Eth}.
Implicit Types (r : InMemoryRepository).

(** Live workers and the recorded quota of a payer. *)
Definition live (workers : gmap string Worker) (payer : string) : Z :=
  Z.of_nat (size (filter (fun kw : string * Worker => Pretty (wk_Payer kw.2) = payer) workers)).
Definition active (quotas : gmap string QuotaUsage) (payer : string) : Z :=
  match quotas !! payer with Some q => q_ActiveWorkers q | None => 0 end.

(** A [ReturnWorker] call between its repository calls. *)
Inductive phase : Type := Deleting | Decrementing.
#[global] Instance phase_eq_dec : EqDecision phase.
Proof. solve_decision. Defined.
Record returning : Type := mkReturning { rt_key : string; rt_worker : Worker; rt_phase : phase }.

Record pool : Type := mkPool { p_repo : InMemoryRepository; p_returns : list returning }.

(** Everything the repository is asked to do that is not about workers. *)
Definition worker_op (op : repo_op) : bool :=
  match op with
  | OpWorkerCreateAndReserve _ _ | OpWorkerDelete _ | OpQuotaDecrement _ _ _ => true
  | _ => false
  end.

Inductive pool_step (quotas : QuotaConfig) : pool -> pool -> Prop :=
  | ps_borrow now req r ts :
      pool_step quotas (mkPool r ts) (mkPool (BorrowWorker quotas now req r).2 ts)
  | ps_keepalive now key r ts :
      pool_step quotas (mkPool r ts) (mkPool (KeepAlive now key r).2 ts)
  | ps_other now op r ts :
      worker_op op = false -> pool_step quotas (mkPool r ts) (mkPool (exec_op now op r) ts)
  | ps_lookup now key minimalLife cancelled r ts w :
      return_lookup now key minimalLife cancelled r = Ok w ->
      pool_step quotas (mkPool r ts) (mkPool r (mkReturning key w Deleting :: ts))
  | ps_delete key w r ts1 ts2 :
      pool_step quotas (mkPool r (ts1 ++ mkReturning key w Deleting :: ts2))
        (mkPool (return_delete key r) (ts1 ++ mkReturning key w Decrementing :: ts2))
  | ps_decrement now key w r ts1 ts2 :
      pool_step quotas (mkPool r (ts1 ++ mkReturning key w Decrementing :: ts2))
        (mkPool (return_decrement now (wk_Payer w) r) (ts1 ++ ts2)).

(** The clients' discipline: a worker is not returned again while a return of
    it is in flight. *)
Definition disciplined_step (quotas : QuotaConfig) (x y : pool) : Prop :=
  pool_step quotas x y /\ NoDup (map rt_key (p_returns y)).

Definition empty_pool : pool := mkPool NewInMemoryRepository [].

(** Returns that have deleted their worker and not yet released its quota. *)
Definition releasing (ts : list returning) (payer : string) : Z :=
  Z.of_nat (length (filter (fun t => rt_phase t = Decrementing /\ Pretty (wk_Payer (rt_worker t)) = payer) ts)).

(** 1 when the worker belongs to the payer. *)
Definition owned (w : Worker) (payer : string) : Z := if decide (Pretty (wk_Payer w) = payer) then 1 else 0.

Lemma live_nonneg ws payer : 0 <= live ws payer.
Proof. unfold live. lia. Qed.
Lemma releasing_nonneg ts payer : 0 <= releasing ts payer.
Proof. unfold releasing. lia. Qed.

Lemma live_insert ws k w payer :
  ws !! k = None -> live (<[k := w]> ws) payer = live ws payer + owned w payer.
Proof.
  intros Hk. unfold live, owned. rewrite map_filter_insert. simpl. case_decide.
  - rewrite map_size_insert_None by (apply map_lookup_filter_None; by left). lia.
  - rewrite delete_id by done. lia.
Qed.

Lemma live_delete ws k w payer :
  ws !! k = Some w -> live ws payer = live (delete k ws) payer + owned w payer.
Proof.
  intros Hk. rewrite <- (insert_delete_id ws k w Hk) at 1. apply live_insert, lookup_delete_eq.
Qed.

Lemma releasing_app ts1 ts2 payer : releasing (ts1 ++ ts2) payer = releasing ts1 payer + releasing ts2 payer.
Proof. unfold releasing. rewrite list.filter_app, length_app. lia. Qed.

Lemma releasing_cons key w ph ts payer :
  releasing (mkReturning key w ph :: ts) payer =
  (if decide (ph = Decrementing) then owned w payer else 0) + releasing ts payer.
Proof.
  unfold releasing, owned. rewrite list.filter_cons. simpl.
  repeat case_decide; simpl; try lia; naive_solver.
Qed.

Lemma active_insert qs k q payer :
  active (<[k := q]> qs) payer = if decide (k = payer) then q_ActiveWorkers q else active qs payer.
Proof.
  unfold active. case_decide; [subst; by rewrite lookup_insert_eq | by rewrite lookup_insert_ne].
Qed.

(** What a repository call does to the pool: nothing, or a worker appears and is
    counted within the limit. *)
Lemma reserve_spec r now w m :
  match im_WorkerCreateAndReserveQuota r now (Some w) m with
  | (Err _, r') => r' = r
  | (Ok q, r') =>
      im_workers r !! wk_Key w = None /\ im_workers r' = <[wk_Key w := w]> (im_workers r) /\
      (forall payer, active (im_quotas r') payer = active (im_quotas r) payer + owned w payer) /\
      q_ActiveWorkers q = active (im_quotas r') (Pretty (wk_Payer w)) /\
      active (im_quotas r') (Pretty (wk_Payer w)) <= m
  end.
Proof.
  unfold im_WorkerCreateAndReserveQuota. destruct (String.eqb _ _); [done |]. destruct (m <? 0); [done |].
  destruct (im_workers r !! wk_Key w) eqn:Ew; [done |].
  destruct (im_quotas r !! Pretty (wk_Payer w)) as [q|] eqn:Eq;
    [destruct (q_ActiveWorkers q + 1 >? m) eqn:Em | destruct (1 >? m) eqn:Em]; [done | | done |];
    rewrite Z.gtb_ltb in Em; apply Z.ltb_ge in Em; split_and!; try done; simpl.
  all: try (rewrite active_insert, decide_True by done; simpl; lia).
  all: intros payer; rewrite active_insert; unfold owned; case_decide; simpl; [subst; unfold active; rewrite Eq; lia | lia].
Qed.

Lemma other_op_pool now op r :
  worker_op op = false -> im_workers (exec_op now op r) = im_workers r /\ im_quotas (exec_op now op r) = im_quotas r.
Proof.
  destruct op as [s|s|id t|id st md en re up|id rv b y q c|id u c| | | |k v tx t|k v tx a t|k v tx e t];
    intros Hop; try done; simpl.
  - unfold im_SessionCreate, put_optional. by repeat case_match.
  - unfold im_SessionUpdate, put_optional. by repeat case_match.
  - unfold im_SessionTouch. by repeat case_match.
  - unfold im_SessionUpdateRuntimeState. by repeat case_match.
  - unfold im_SessionUpdateRAVAndBaseline, put_optional. by repeat case_match.
  - unfold im_SessionApplyUsage. by repeat case_match.
  - unfold im_CollectionMarkPending, updateCollection. by repeat case_match.
  - unfold im_CollectionMarkCollected, updateCollection. by repeat case_match.
  - unfold im_CollectionMarkFailedRetryable, updateCollection. by repeat case_match.
Qed.

(** [BorrowWorker] is a refusal that changes nothing, or a reservation for the
    active session of that payer. *)
Lemma BorrowWorker_cases quotas now req r :
  match BorrowWorker quotas now req r with
  | (Err _, r') => r' = r
  | (Ok resp, r') =>
      match bw_Status resp with
      | BORROW_STATUS_UNSPECIFIED => False
      | BORROW_STATUS_RESOURCE_EXHAUSTED => r' = r
      | BORROW_STATUS_BORROWED =>
          exists payer s w q, NewAddress (br_OrganizationId req) = Ok payer /\
            im_sessions r !! br_SessionId req = Some s /\ IsActive s = true /\ Pretty (s_Payer s) = Pretty payer /\
            w = mkWorker (bw_WorkerKey resp) (br_SessionId req) payer now "" /\
            im_WorkerCreateAndReserveQuota r now (Some w) (max_workers quotas (br_OrganizationId req)) = (Ok q, r') /\
            bw_ActiveWorkers resp = q_ActiveWorkers q /\ bw_MaxWorkers resp = max_workers quotas (br_OrganizationId req)
      end
  end.
Proof.
  unfold BorrowWorker. destruct (String.eqb _ _); [done |].
  destruct (NewAddress (br_OrganizationId req)) as [payer|]; [|done]. destruct (String.eqb _ _); [done |].
  unfold authorizeSession. cbn [SessionGet inmemory_repository WorkerCreateAndReserveQuota]. unfold im_SessionGet.
  destruct (im_sessions r !! br_SessionId req) as [s|] eqn:Es; [|done].
  destruct (String.eqb _ _) eqn:Ep; [|done]. destruct (IsActive s) eqn:Ea; [|done]. cbn [negb].
  set (w := mkWorker _ _ _ _ _). pose proof (reserve_spec r now w (max_workers quotas (br_OrganizationId req))) as Hr.
  destruct (im_WorkerCreateAndReserveQuota _ _ _ _) as [[q|[e q]] r'] eqn:E; simpl.
  - apply String.eqb_eq in Ep. exists payer, s, w, q. done.
  - destruct (errors_Is e ErrQuotaExceeded); [destruct q |]; done.
Qed.

Record pool_inv (x : pool) : Prop := {
  pi_count payer : active (im_quotas (p_repo x)) payer = live (im_workers (p_repo x)) payer + releasing (p_returns x) payer;
  pi_deleting t : In t (p_returns x) -> rt_phase t = Deleting -> im_workers (p_repo x) !! rt_key t = Some (rt_worker t);
  pi_distinct : NoDup (map rt_key (p_returns x))
}.

Lemma KeepAlive_pool now key r :
  im_workers (KeepAlive now key r).2 = im_workers r /\ im_quotas (KeepAlive now key r).2 = im_quotas r.
Proof.
  unfold KeepAlive. destruct (String.eqb _ _); [done |]. destruct (WorkerGet r key); [|by case_match].
  destruct (authorizeSession _ _ _); [|done]. simpl. unfold im_SessionTouch. by case_match.
Qed.

Lemma pool_inv_frame r r' ts :
  im_workers r' = im_workers r /\ im_quotas r' = im_quotas r -> pool_inv (mkPool r ts) -> pool_inv (mkPool r' ts).
Proof. intros [Hw Hq] [I1 I2 I3]. split; simpl in *; rewrite ?Hw, ?Hq; done. Qed.

Lemma pool_inv_borrow quotas now req r ts :
  pool_inv (mkPool r ts) -> pool_inv (mkPool (BorrowWorker quotas now req r).2 ts).
Proof.
  intros I. pose proof (BorrowWorker_cases quotas now req r) as Hb.
  destruct (BorrowWorker quotas now req r) as [[resp|e] r']; simpl; [|by subst].
  destruct (bw_Status resp); [done | | by subst]. destruct Hb as (payer & s & w & q & _ & _ & _ & _ & _ & E & _).
  pose proof (reserve_spec r now w (max_workers quotas (br_OrganizationId req))) as Hr. rewrite E in Hr.
  destruct Hr as (Hf & Hw & Ha & _), I as [I1 I2 I3]. split; simpl in *; [| |done].
  - intros p. rewrite Ha, Hw, live_insert, I1 by done. lia.
  - intros t Ht Hp. specialize (I2 t Ht Hp). rewrite Hw, lookup_insert_ne; [done |]. congruence.
Qed.

Lemma pool_inv_step quotas x y : disciplined_step quotas x y -> pool_inv x -> pool_inv y.
Proof.
  intros [Hs Hd] I. destruct Hs as [now req r ts|now key r ts|now op r ts Hop|now key ml cc r ts w El
    |key w r ts1 ts2|now key w r ts1 ts2].
  - by apply pool_inv_borrow.
  - eapply pool_inv_frame; [apply KeepAlive_pool | done].
  - eapply pool_inv_frame; [by apply other_op_pool | done].
  - destruct I as [I1 I2 I3]. split; simpl in *; [| |done].
    + intros p. rewrite I1, releasing_cons, decide_False by done. lia.
    + intros t [<-|Ht] Hp; [|auto]. simpl. unfold return_lookup in El. destruct (String.eqb _ _); [done |].
      cbn [WorkerGet inmemory_repository] in El. unfold im_WorkerGet in El.
      destruct (im_workers r !! key) as [w'|]; [|done]. repeat case_match; by simplify_eq.
  - destruct I as [I1 I2 I3]. simpl in *.
    assert (Hk : im_workers r !! key = Some w)
      by (apply (I2 (mkReturning key w Deleting)); [apply in_or_app; right; by left | done]).
    unfold return_delete. simpl. unfold im_WorkerDelete. rewrite Hk. split; simpl; [| |done].
    + intros p. specialize (I1 p). rewrite releasing_app, releasing_cons in *. rewrite decide_True by done.
      rewrite decide_False in I1 by done. rewrite (live_delete _ key w) in I1 by done. lia.
    + intros t Ht Hp. rewrite map_app in I3. cbn [map] in I3. simpl in I3.
      apply list.NoDup_app in I3 as (_ & Hn1 & Hn2). apply list.NoDup_cons in Hn2 as [Hn2 _].
      assert (rt_key t <> key /\ In t (ts1 ++ mkReturning key w Deleting :: ts2)) as [Hne Hin].
      { apply in_app_or in Ht as [Ht|[<-|Ht]]; [|done|]; (split; [|apply in_or_app; simpl; auto]).
        - intros <-. apply (Hn1 (rt_key t)); [apply list_elem_of_In, in_map, Ht | apply list_elem_of_here].
        - intros <-. apply Hn2, list_elem_of_In, in_map, Ht. }
      rewrite lookup_delete_ne by done. auto.
  - destruct I as [I1 I2 I3]. simpl in *. unfold return_decrement. simpl. unfold im_QuotaDecrement.
    pose proof (I1 (Pretty (wk_Payer w))) as Hc. rewrite releasing_app, releasing_cons in Hc.
    rewrite decide_True in Hc by done. unfold owned in Hc. rewrite decide_True in Hc by done.
    pose proof (live_nonneg (im_workers r) (Pretty (wk_Payer w))).
    pose proof (releasing_nonneg ts1 (Pretty (wk_Payer w))). pose proof (releasing_nonneg ts2 (Pretty (wk_Payer w))).
    unfold active in Hc at 1. destruct (im_quotas r !! Pretty (wk_Payer w)) as [q|] eqn:Eq; [|lia].
    split; simpl; [| |done].
    + intros p. specialize (I1 p). rewrite releasing_app, releasing_cons in I1. rewrite releasing_app.
      rewrite decide_True in I1 by done. unfold owned in I1. rewrite active_insert. simpl.
      case_decide; [subst; case_match; bool_props; lia | lia].
    + intros t Ht. apply I2. apply in_app_or in Ht as [?|?]; apply in_or_app; simpl; auto.
Qed.

Lemma pool_inv_reachable quotas x : rtc (disciplined_step quotas) empty_pool x -> pool_inv x.
Proof.
  intros Hr. assert (pool_inv empty_pool) as I.
  { split; [done | done | constructor]. }
  induction Hr; eauto using pool_inv_step.
Qed.

End Pool.

(** ** Concrete runs

    One payer with one active session and room for a single worker. *)
Module PoolWitness.
Import Reference.

Definition payer : address := fixed_bytes 20 2.
Definition org : string := Pretty payer.
Definition one_worker : QuotaConfig := mkQuotaConfig 1 1 ∅.
Definition req : BorrowWorkerRequest := mkBorrowReq "substreams" org "" "s1" 0.
Definition session : Session :=
  NewSession 5 "s1" payer (fixed_bytes 20 4) (fixed_bytes 20 3) (mkPricingConfig ZeroGRT ZeroGRT).

Definition r0 : InMemoryRepository := exec_op 5 (OpSessionCreate (Some session)) NewInMemoryRepository.
Definition r1 : InMemoryRepository := (BorrowWorker one_worker 10 req r0).2.
Definition key1 : string := buildWorkerKey org "s1" 10.
Definition w1 : Worker := mkWorker key1 "s1" payer 10 "".
Definition r2 : InMemoryRepository := return_delete key1 r1.
Definition r3 : InMemoryRepository := return_decrement 20 payer r2.
(** the second return of the same worker now overlaps with two new borrows *)
Definition r4 : InMemoryRepository := (BorrowWorker one_worker 30 req r3).2.
Definition r5 : InMemoryRepository := return_delete key1 r4.
Definition r6 : InMemoryRepository := return_decrement 40 payer r5.
Definition r7 : InMemoryRepository := (BorrowWorker one_worker 50 req r6).2.

Definition del : returning := mkReturning key1 w1 Deleting.
Definition dec : returning := mkReturning key1 w1 Decrementing.

Definition found (r : InMemoryRepository) : bool :=
  match return_lookup 15 key1 None false r with Ok w => bool_decide (w = w1) | Err _ => false end.
Lemma found_sound r : found r = true -> return_lookup 15 key1 None false r = Ok w1.
Proof. unfold found. case_match; [|done]. intros E%bool_decide_eq_true. by subst. Qed.
Lemma lookup1 : return_lookup 15 key1 None false r1 = Ok w1.
Proof. apply found_sound. vm_compute. reflexivity. Qed.

Abbreviation step := (pool_step one_worker).
Lemma run_to_borrowed : rtc step empty_pool (mkPool r1 []).
Proof.
  refine (rtc_l _ _ (mkPool r0 []) _ (ps_other _ 5 (OpSessionCreate (Some session)) NewInMemoryRepository [] eq_refl) _).
  exact (rtc_once _ _ (ps_borrow one_worker 10 req r0 [])).
Qed.
Lemma run_two_returns : rtc step (mkPool r1 []) (mkPool r3 [del]).
Proof.
  refine (rtc_l _ _ (mkPool r1 [del]) _ (ps_lookup _ 15 key1 None false r1 [] w1 lookup1) _).
  refine (rtc_l _ _ (mkPool r1 [del; del]) _ (ps_lookup _ 15 key1 None false r1 [del] w1 lookup1) _).
  refine (rtc_l _ _ (mkPool r2 [dec; del]) _ (ps_delete _ key1 w1 r1 [] [del]) _).
  exact (rtc_once _ _ (ps_decrement one_worker 20 key1 w1 r2 [] [del])).
Qed.
Lemma run_overlap : rtc step (mkPool r3 [del]) (mkPool r7 []).
Proof.
  refine (rtc_l _ _ (mkPool r4 [del]) _ (ps_borrow _ 30 req r3 [del]) _).
  refine (rtc_l _ _ (mkPool r5 [dec]) _ (ps_delete _ key1 w1 r4 [] []) _).
  refine (rtc_l _ _ (mkPool r6 []) _ (ps_decrement one_worker 40 key1 w1 r5 [] []) _).
  exact (rtc_once _ _ (ps_borrow one_worker 50 req r6 [])).
Qed.
Lemma two_live : live (im_workers r7) org = 2.
Proof. vm_compute. reflexivity. Qed.

Lemma disciplined_borrowed : rtc (disciplined_step one_worker) empty_pool (mkPool r0 []).
Proof.
  refine (rtc_once _ _ (conj (ps_other _ 5 (OpSessionCreate (Some session)) NewInMemoryRepository [] eq_refl) _)).
  constructor.
Qed.
Definition granted (r : InMemoryRepository) : bool :=
  match (BorrowWorker one_worker 10 req r).1 with
  | Ok resp => match bw_Status resp with BORROW_STATUS_BORROWED => true | _ => false end
  | Err _ => false
  end.
Lemma granted_sound r :
  granted r = true ->
  exists resp, BorrowWorker one_worker 10 req r = (Ok resp, (BorrowWorker one_worker 10 req r).2) /\
    bw_Status resp = BORROW_STATUS_BORROWED.
Proof.
  unfold granted. destruct (BorrowWorker one_worker 10 req r) as [[resp|e] r']; simpl; [|done].
  destruct (bw_Status resp) eqn:E; [done | | done]. intros _. exists resp. done.
Qed.
Lemma granted0 : granted r0 = true.
Proof. vm_compute. reflexivity. Qed.
End PoolWitness.

Import Reference.


(** Overlapping returns of one worker overrun the quota: [ReturnWorker] logs the
    failed delete of a worker that is already gone and still releases quota, so
    two concurrent returns of one worker release two slots; there is a run in
    which a payer with room for one worker ends with two live ones and no call
    in flight. *)
Theorem concurrent_returns_overrun_quota :
  exists x : pool, rtc (pool_step PoolWitness.one_worker) empty_pool x /\ p_returns x = [] /\
    max_workers PoolWitness.one_worker PoolWitness.org = 1 /\
    live (im_workers (p_repo x)) PoolWitness.org = 2.
Proof.
  exists (mkPool PoolWitness.r7 []). split_and!.
  - etrans; [exact PoolWitness.run_to_borrowed |].
    etrans; [exact PoolWitness.run_two_returns | exact PoolWitness.run_overlap].
  - exact eq_refl.
  - vm_compute. reflexivity.
  - exact PoolWitness.two_live.
Qed.
