(* ===== verification/UsageService.v ===== *)
(** The usage service of the provider ([provider/usage/service.go]): a batch of
    metering events is priced, charged to the sessions it names, and each session
    is handed to the gateway's runtime payment control.

    The service shares its repository with the gateway, so its state is the
    gateway's.  [RuntimeNotifier] is implemented by the gateway
    ([Gateway.OnMeteredUsage]); [runtime] tells whether one is configured.  Each
    event is processed under the world observed at that moment ([Env]). *)
From S2P Require Import Prelude.
From S2P Require Import GoStd.
From S2P Require Import External.
From S2P Require Import GRT.
From S2P Require Import Horizon.
From S2P Require Import Proto.
From S2P Require Import Repository.
From S2P Require Import Runtime.
From S2P Require Import Gateway.
From S2P Require Import GatewayProps.
From S2P Require Import InMemory.
From S2P Require Import InMemoryProps.
From S2P Require Import Accounting.

Record Metric : Type := mkMetric { mt_Name : string; mt_Value : Z }.

Record Event : Type := mkEvent {
  ev_Timestamp : option time;
  ev_OrganizationId : string;
  ev_ApiKeyId : string;
  ev_Endpoint : string;
  ev_Network : string;
  ev_SdsSessionId : string;
  ev_Metrics : list (option Metric)
}.

(** The counter a metric name feeds. *)
Definition is_blocks (name : string) : bool :=
  String.eqb name "blocks_count" || String.eqb name "blocks" || String.eqb name "block_count"
  || String.eqb name "message_count".
Definition is_bytes (name : string) : bool :=
  String.eqb name "bytes_count" || String.eqb name "bytes" || String.eqb name "egress_bytes".
Definition is_requests (name : string) : bool := String.eqb name "requests_count" || String.eqb name "requests".

(** [int64] sums wrap. *)
Definition add_metric (ue : UsageEvent) (m : option Metric) : UsageEvent :=
  match m with
  | None => ue
  | Some m =>
      if is_blocks (mt_Name m)
      then mkUsageEvent (ue_Timestamp ue) (wrap_s64 (ue_Blocks ue + mt_Value m)) (ue_Bytes ue) (ue_Requests ue)
      else if is_bytes (mt_Name m)
      then mkUsageEvent (ue_Timestamp ue) (ue_Blocks ue) (wrap_s64 (ue_Bytes ue + mt_Value m)) (ue_Requests ue)
      else if is_requests (mt_Name m)
      then mkUsageEvent (ue_Timestamp ue) (ue_Blocks ue) (ue_Bytes ue) (wrap_s64 (ue_Requests ue + mt_Value m))
      else ue
  end.

Definition protoEventToUsageEvent (now : time) (event : Event) : UsageEvent :=
  fold_left add_metric (ev_Metrics event) (mkUsageEvent (default now (ev_Timestamp event)) 0 0 0).

Section UsageService.
Context `{Uint256} `{Eth} `{!GlobalRepository R}.
Implicit Types (g : Gateway R) (cfg : GatewayConfig) (env : Env).

Definition event_cost (pricing : PricingConfig) (ue : UsageEvent) : Z :=
  let '(blocks, bytes, _) := SanitizedTotals (Some ue) in
  GRT_BigInt (CalculateUsageCost pricing blocks bytes).

(** The body of the loop over the events. *)
Definition report_event cfg (pricing : PricingConfig) (runtime : bool) env (event : option Event) g : Gateway R :=
  match event with
  | None => g
  | Some event =>
      let sessionID := ev_SdsSessionId event in
      if String.eqb sessionID "" then g else
      let usageEvent := protoEventToUsageEvent (env_now env) event in
      let cost := event_cost pricing usageEvent in
      let '(res, repo) := SessionApplyUsage (g_repo g) (env_now env) sessionID (Some usageEvent) (Some cost) in
      let g := g <| g_repo := repo |> in
      match res with
      | Err e => if errors_Is e ErrNotFound then g
                 else if runtime then (onMeteredUsage cfg env sessionID g).2 else g
      | Ok _ => if runtime then (onMeteredUsage cfg env sessionID g).2 else g
      end
  end.

(** The answer is the [Revoked] flag of the response. *)
Definition Report cfg (pricing : PricingConfig) (runtime : bool) (events : list (Env * option Event)) g :
    bool * Gateway R :=
  match events with
  | [] => (false, g)
  | _ => (false, fold_left (fun g '(env, event) => report_event cfg pricing runtime env event g) events g)
  end.

(** What an event costs, and to which session. *)
Definition charge (pricing : PricingConfig) (id : string) (e : Env * option Event) : Z :=
  match e with
  | (_, None) => 0
  | (env, Some event) =>
      if String.eqb (ev_SdsSessionId event) "" then 0
      else if String.eqb (ev_SdsSessionId event) id
           then event_cost pricing (protoEventToUsageEvent (env_now env) event) else 0
  end.
Definition charged (pricing : PricingConfig) (id : string) (events : list (Env * option Event)) : Z :=
  foldr (fun e acc => charge pricing id e + acc) 0 events.
End UsageService.

Section Proofs.
Context `{Uint256Laws} `{Eth}.
Implicit Types (g : Gateway InMemoryRepository) (cfg : GatewayConfig).

Lemma event_cost_nonneg pricing ue : 0 <= event_cost pricing ue.
Proof. unfold event_cost. simpl. apply GRT_BigInt_range. Qed.

Lemma charge_nonneg pricing id e : 0 <= charge pricing id e.
Proof. unfold charge. repeat case_match; try lia. apply event_cost_nonneg. Qed.

Lemma charged_nonneg pricing id events : 0 <= charged pricing id events.
Proof.
  induction events as [|e events IH]; simpl; [lia |]. pose proof (charge_nonneg pricing id e). lia.
Qed.

Lemma charged_cons pricing id e events :
  charged pricing id (e :: events) = charge pricing id e + charged pricing id events.
Proof. done. Qed.

(** The money of a session, with the accumulated cost raised by [c] and the
    usage counters left open. *)
Definition charged_by (c : Z) (s s' : Session) : Prop :=
  s_CurrentRAV s' = s_CurrentRAV s /\ s_BaselineCost s' = s_BaselineCost s /\
  value_of (s_TotalCost s') = value_of (s_TotalCost s) + c.

Lemma onMeteredUsage_money cfg env id g i :
  money <$> session_at (g_repo (onMeteredUsage cfg env id g).2) i = money <$> session_at (g_repo g) i.
Proof.
  unfold onMeteredUsage. pose proof (ensure_repo id g) as He. destruct (ensureSessionState id g) as [st g1].
  simpl in He. rewrite evaluate_money, He. done.
Qed.

Lemma charged_by_money c s s' s'' : charged_by c s s' -> money s' = money s'' -> charged_by c s s''.
Proof. unfold charged_by, money. intros (? & ? & ?) [= ? <- ? ? ? <- ? ? ? <- ? ? ? ?]. done. Qed.

Lemma apply_usage_at env u cost g id i :
  match session_at (g_repo g) i, session_at (g_repo (apply_usage env id u cost g)) i with
  | Some s, Some s' => charged_by (if decide (i = id) then cost else 0) s s'
  | None, None => True
  | _, _ => False
  end.
Proof.
  unfold apply_usage. rewrite !session_at_lookup. simpl. unfold im_SessionApplyUsage. cbn [SanitizedTotals].
  destruct (im_sessions (g_repo g) !! id) as [s|] eqn:Es; simpl.
  - case_decide as Hi.
    + subst i. rewrite Es, lookup_insert_eq. unfold charged_by. simpl. unfold value_of.
      destruct (s_TotalCost s); done.
    + rewrite lookup_insert_ne by done. destruct (im_sessions (g_repo g) !! i); [|done].
      unfold charged_by. split_and!; try done. lia.
  - destruct (im_sessions (g_repo g) !! i) eqn:Ei; [|done]. unfold charged_by. split_and!; try done.
    rewrite decide_False by congruence. lia.
Qed.

Lemma report_event_steps cfg pricing runtime env event g :
  (forall id s, session_at (g_repo g) id = Some s ->
     value_of (s_TotalCost s) + charge pricing id (env, event) < two256) ->
  rtc (runtime_step cfg) g (report_event cfg pricing runtime env event g).
Proof.
  intros Hfit. unfold report_event. destruct event as [event|]; [|reflexivity].
  destruct (String.eqb _ _) eqn:Ee; [reflexivity |].
  set (u := protoEventToUsageEvent _ _). set (id := ev_SdsSessionId event).
  assert (Hu : runtime_step cfg g (apply_usage env id u (event_cost pricing u) g)).
  { apply rt_usage. split; [apply event_cost_nonneg |]. intros s Es. specialize (Hfit id s Es).
    unfold charge in Hfit. by rewrite Ee, String.eqb_refl in Hfit. }
  unfold apply_usage in Hu. fold id in Hu |- *.
  destruct (SessionApplyUsage _ _ _ _ _) as [res repo]. cbn [snd] in Hu.
  destruct res as [[]|e]; [|destruct (errors_Is e ErrNotFound); [by apply rtc_once |]];
    (destruct runtime; [|by apply rtc_once]);
    (eapply rtc_l; [exact Hu |]; apply rtc_once, rt_metered).
Qed.

Lemma report_event_at cfg pricing runtime env event g i :
  match session_at (g_repo g) i, session_at (g_repo (report_event cfg pricing runtime env event g)) i with
  | Some s, Some s' => charged_by (charge pricing i (env, event)) s s'
  | None, None => True
  | _, _ => False
  end.
Proof.
  unfold report_event, charge. destruct event as [event|].
  2: { destruct (session_at (g_repo g) i); [|done]. unfold charged_by. split_and!; try done. lia. }
  destruct (String.eqb (ev_SdsSessionId event) "") eqn:Ee.
  { destruct (session_at (g_repo g) i); [|done]. unfold charged_by. split_and!; try done. lia. }
  set (u := protoEventToUsageEvent _ _). set (id := ev_SdsSessionId event).
  pose proof (apply_usage_at env u (event_cost pricing u) g id i) as Ha. unfold apply_usage in Ha.
  assert ((if String.eqb id i then event_cost pricing u else 0) =
          (if decide (i = id) then event_cost pricing u else 0)) as ->.
  { case_decide; [subst; by rewrite String.eqb_refl |]. destruct (String.eqb_spec id i); congruence. }
  destruct (SessionApplyUsage _ _ _ _ _) as [res repo]. cbn [snd] in Ha.
  set (g1 := g <| g_repo := repo |>) in *.
  assert (Hm : match session_at (g_repo g) i, session_at (g_repo (onMeteredUsage cfg env id g1).2) i with
    | Some s, Some s' => charged_by (if decide (i = id) then event_cost pricing u else 0) s s'
    | None, None => True | _, _ => False end).
  { pose proof (onMeteredUsage_money cfg env id g1 i) as Hm.
    destruct (session_at (g_repo g1) i) as [s1|], (session_at (g_repo (onMeteredUsage cfg env id g1).2) i) as [s2|];
      try done; destruct (session_at (g_repo g) i); try done.
    eapply charged_by_money; [exact Ha |]. simpl in Hm. by apply (inj Some) in Hm. }
  destruct res as [[]|e]; [|destruct (errors_Is e ErrNotFound); [done |]]; destruct runtime; done.
Qed.

Lemma report_loop_at cfg pricing runtime events g i :
  match session_at (g_repo g) i,
        session_at (g_repo (fold_left (fun g '(env, event) => report_event cfg pricing runtime env event g) events g)) i with
  | Some s, Some s' => charged_by (charged pricing i events) s s'
  | None, None => True
  | _, _ => False
  end.
Proof.
  revert g. induction events as [|[env event] events IH]; intros g.
  { simpl. destruct (session_at (g_repo g) i); [|done]. unfold charged_by. split_and!; try done. simpl. lia. }
  cbn [fold_left]. rewrite charged_cons. pose proof (report_event_at cfg pricing runtime env event g i) as He.
  specialize (IH (report_event cfg pricing runtime env event g)).
  destruct (session_at (g_repo g) i) as [s|]; destruct (session_at (g_repo (report_event _ _ _ _ _ g)) i) as [s1|];
    try done. destruct (session_at (g_repo (fold_left _ _ _)) i) as [s2|]; [|done].
  unfold charged_by in *. destruct He as (? & ? & ?), IH as (? & ? & ?). split_and!; [congruence.. | lia].
Qed.

Lemma report_loop_steps cfg pricing runtime events g :
  (forall id s, session_at (g_repo g) id = Some s -> value_of (s_TotalCost s) + charged pricing id events < two256) ->
  rtc (runtime_step cfg) g
    (fold_left (fun g '(env, event) => report_event cfg pricing runtime env event g) events g).
Proof.
  revert g. induction events as [|[env event] events IH]; intros g Hfit; [reflexivity |]. simpl.
  etrans; [apply report_event_steps | apply IH].
  - intros id s Es. specialize (Hfit id s Es). rewrite charged_cons in Hfit. pose proof (charged_nonneg pricing id events). lia.
  - intros id s Es. pose proof (report_event_at cfg pricing runtime env event g id) as He. rewrite Es in He.
    destruct (session_at (g_repo g) id) as [s0|] eqn:E0; [|done]. destruct He as (_ & _ & ->).
    specialize (Hfit id s0 E0). rewrite charged_cons in Hfit. lia.
Qed.

End Proofs.

Module UsageWitness.
Import Reference.

(** Two events of the running session and one that names none. *)
Definition metrics (blocks bytes : Z) : list (option Metric) :=
  [Some (mkMetric "blocks" blocks); None; Some (mkMetric "egress_bytes" bytes); Some (mkMetric "other" 9)].
Definition batch : list (Env * option Event) :=
  [(AccountingWitness.env, Some (mkEvent None "org" "" "" "" "s1" (metrics 3 4)));
   (AccountingWitness.env, Some (mkEvent None "org" "" "" "" "" (metrics 5 5)));
   (AccountingWitness.env, Some (mkEvent (Some 7) "org" "" "" "" "s1" (metrics 2 (-6))))].
Definition pricing : PricingConfig := mkPricingConfig (NewGRTFromUint64 10) (NewGRTFromUint64 1).

Definition fits_all (g : Gateway InMemoryRepository) : bool :=
  forallb (fun '(id, s) => value_of (s_TotalCost s) + charged pricing id batch <? two256)
    (map_to_list (im_sessions (g_repo g))).
Lemma fits_all_sound (g : Gateway InMemoryRepository) :
  fits_all g = true ->
  forall id s, session_at (g_repo g) id = Some s -> value_of (s_TotalCost s) + charged pricing id batch < two256.
Proof.
  unfold fits_all. rewrite forallb_forall. intros Hf id s Es. rewrite session_at_lookup in Es.
  apply elem_of_map_to_list, list_elem_of_In in Es. specialize (Hf _ Es). by apply Z.ltb_lt.
Qed.
Lemma fits2 : fits_all AccountingWitness.g2 = true.
Proof. vm_compute. reflexivity. Qed.
End UsageWitness.

Import Reference.

