(* ===== verification/AuthService.v ===== *)
(** Request authentication: the provider's auth service
    ([provider/auth/service.go]), and the headers the consumer's ingress sends
    ([newUpstreamStreamContext], [encodeRAVHeader] in [consumer/sidecar/ingress.go]).

    The protobuf codec and the header names of the [dauth] package are parameters
    ([AuthDeps]).  A Go map of headers is a list of its entries in the order the
    loop visits them; the theorems hold for every order. *)
From S2P Require Import Prelude.
From S2P Require Import GoStd.
From S2P Require Import Base64.
From S2P Require Import External.
From S2P Require Import GRT.
From S2P Require Import Horizon.
From S2P Require Import Proto.
From S2P Require Import Repository.
From S2P Require Import Runtime.
From S2P Require Import Gateway.
From S2P Require Import InMemory.
From S2P Require Import InMemoryProps.

Definition HeaderRAV : string := "x-sds-rav".
Definition HeaderSessionID : string := "x-sds-session-id".

(** Third-party pieces: [proto.Marshal] and [proto.Unmarshal] at [SignedRAV],
    and the trusted header names. *)
Class AuthDeps : Type := {
  proto_Marshal : option PSignedRAV -> result go_error (list byte);
  proto_Unmarshal : list byte -> result go_error PSignedRAV;
  dauth_HeaderOrganizationID : string;
  dauth_HeaderIP : string;
  dauth_HeaderApiKeyID : string
}.

(** A message that was marshalled is read back. *)
Class AuthDepsLaws `{AuthDeps} : Prop := {
  proto_roundtrip m data : proto_Marshal (Some m) = Ok data -> proto_Unmarshal data = Ok m
}.

Record AuthService (R : Type) : Type := mkAuthService {
  as_serviceProvider : address;
  as_domain : Domain;
  as_collectorQuerier : bool;
  as_repository : option R;
  as_authCache : gmap string authCacheEntry
}.
Arguments mkAuthService {R}.
Arguments as_serviceProvider {R}.
Arguments as_domain {R}.
Arguments as_collectorQuerier {R}.
Arguments as_repository {R}.
Arguments as_authCache {R}.
#[global] Instance AuthService_eta {R} : Eta (AuthService R) := fun s =>
  mkAuthService (as_serviceProvider s) (as_domain s) (as_collectorQuerier s) (as_repository s) (as_authCache s).

(** 5 minutes. *)
Definition SessionKeepAliveTimeout : Z := 5 * 60 * 10 ^ 9.

Record AuthResult : Type := mkAuthResult { ar_OrganizationId : string; ar_ApiKeyId : string }.

(** [*AuthError]: a code with a message. *)
Definition AuthError : Type := code * go_error.

Record ValidateAuthRequest : Type := mkAuthReq {
  vr_UntrustedHeaders : list (string * option (list string));
  vr_Path : string;
  vr_IpAddress : string
}.

Section Auth.
Context `{Uint256} `{Eth} `{!GlobalRepository R} `{AuthDeps}.
Implicit Types (s : AuthService R) (env : Env).

Definition NewAuthService (serviceProvider : address) (domain : Domain) (collectorQuerier : bool)
    (repository : option R) : AuthService R :=
  mkAuthService serviceProvider domain collectorQuerier repository ∅.

Definition lower_headers (headers : list (string * option (list string))) : gmap string (list string) :=
  fold_left (fun m '(name, values) =>
    match values with
    | Some (v :: vs) => <[ToLower name := v :: vs]> m
    | _ => m
    end) headers ∅.

Definition decodeRAVFromHeader (headerValue : string) : result go_error PSignedRAV :=
  let decoded := match StdDecodeString headerValue with
                 | Ok data => Ok data
                 | Err _ => RawURLDecodeString headerValue
                 end in
  let? data := decoded in proto_Unmarshal data.

Definition auth_isSignerAuthorized env (payer signer : address) s : result go_error bool * AuthService R :=
  if AddressesEqual payer signer then (Ok true, s) else
  if negb (as_collectorQuerier s) then (Ok false, s) else
  let key := auth_key payer signer in
  let query :=
    match env_IsAuthorized env payer signer with
    | Err e => (Err e, s)
    | Ok ok => (Ok ok, s <| as_authCache := <[key := mkAuthEntry ok (env_now env + 30 * 10 ^ 9)]> (as_authCache s) |>)
    end in
  match as_authCache s !! key with
  | Some entry => if env_now env <? ac_expires entry then (Ok (ac_ok entry), s) else query
  | None => query
  end.

Definition validateRAV env (signedRAV : SignedRAV) s : result AuthError AuthResult * AuthService R :=
  match RecoverSigner signedRAV (as_domain s), Message signedRAV with
  | Err _, _ => (Err (CodeUnauthenticated, Errorf "invalid signature: %v"), s)
  | Ok _, None => (Err (CodeInternal, GoPanic), s)
  | Ok signerAddr, Some m =>
    let payer := rav_Payer m in
    match auth_isSignerAuthorized env payer signerAddr s with
    | (Err _, s) => (Err (CodeInternal, Errorf "authorization check failed: %v"), s)
    | (Ok false, s) => (Err (CodePermissionDenied, Errorf "signer %s is not authorized for payer %s"), s)
    | (Ok true, s) =>
      if negb (AddressesEqual (rav_ServiceProvider m) (as_serviceProvider s))
      then (Err (CodePermissionDenied, Errorf "RAV targets service provider %s, not %s"), s)
      else (Ok (mkAuthResult (Pretty payer) ""), s)
    end
  end.

(** The test for a missing session is a comparison of error values, not
    [errors.Is]. *)
Definition validateSession env (sessionID organizationID : string) s : result go_error unit * AuthService R :=
  match as_repository s with
  | None => (Err (Errorf "session validation not available (repository not configured)"), s)
  | Some repo =>
    match SessionGet repo sessionID with
    | Err e => if bool_decide (e = ErrNotFound) then (Err (Errorf "session not found"), s)
               else (Err (Wrapf "failed to retrieve session: %w" e), s)
    | Ok sess =>
      if negb (IsActive sess) then (Err (Errorf "session is not active (status: %s)"), s)
      else if env_now env - s_LastKeepAlive sess >? SessionKeepAliveTimeout
      then (Err (Errorf "session has been idle for too long (last activity: %v ago)"), s)
      else if negb (String.eqb (Pretty (s_Payer sess)) organizationID)
      then (Err (Errorf "session payer mismatch (session: %s, auth: %s)"), s)
      else
        let '(_, repo) := SessionTouch repo sessionID (env_now env) in
        (Ok tt, s <| as_repository := Some repo |>)
    end
  end.

Definition ValidateAuth env (req : ValidateAuthRequest) s :
    result connect_error (gmap string string) * AuthService R :=
  let lowerHeaders := lower_headers (vr_UntrustedHeaders req) in
  match lowerHeaders !! ToLower HeaderRAV with
  | None | Some [] => (Err (CodeUnauthenticated, Errorf "missing %s header"), s)
  | Some (ravHeader :: _) =>
    match decodeRAVFromHeader ravHeader with
    | Err e => (Err (CodeInvalidArgument, Wrapf "invalid %s header: %w" e), s)
    | Ok signedRAV =>
      match ProtoSignedRAVToHorizon (Some signedRAV) with
      | Err e => (Err (CodeInvalidArgument, Wrapf "invalid RAV: %w" e), s)
      | Ok None => (Err (CodeInternal, GoPanic), s)
      | Ok (Some horizonRAV) =>
        match validateRAV env horizonRAV s with
        | (Err e, s) => (Err e, s)
        | (Ok result, s) =>
          match lowerHeaders !! ToLower HeaderSessionID with
          | None | Some [] => (Err (CodeUnauthenticated, Errorf "missing %s header"), s)
          | Some (validatedSessionID :: _) =>
            match validateSession env validatedSessionID (ar_OrganizationId result) s with
            | (Err e, s) => (Err (CodeUnauthenticated, Wrapf "invalid session: %w" e), s)
            | (Ok _, s) =>
              let trusted := <[dauth_HeaderOrganizationID := ar_OrganizationId result]> ∅ in
              let trusted := <[dauth_HeaderIP := vr_IpAddress req]> trusted in
              let trusted := <[HeaderSessionID := validatedSessionID]> trusted in
              let trusted := if String.eqb (ar_ApiKeyId result) "" then trusted
                             else <[dauth_HeaderApiKeyID := ar_ApiKeyId result]> trusted in
              (Ok trusted, s)
            end
          end
        end
      end
    end
  end.

(** *** The consumer's side *)

Definition encodeRAVHeader (signedRAV : option PSignedRAV) : result go_error string :=
  match proto_Marshal signedRAV with
  | Err e => Err (Wrapf "marshal proto: %w" e)
  | Ok protoBytes => Ok (StdEncodeToString protoBytes)
  end.

(** The headers added to the upstream call. *)
Definition newUpstreamStreamContext (headers : list (string * string)) (paymentRAV : option PSignedRAV)
    (sessionID : string) : result go_error (list (string * string)) :=
  let? ravHeader := encodeRAVHeader paymentRAV in
  Ok (headers ++ [(HeaderRAV, ravHeader); (HeaderSessionID, sessionID)]).
End Auth.

Section Proofs.
Context `{Uint256Laws} `{EthLaws} `{AuthDepsLaws}.
Abbreviation service := (AuthService InMemoryRepository).
Implicit Types (s : service) (env : Env).

(** The signer is the payer, or the collector or its unexpired cached answer
    says it may act for the payer. *)
Definition may_sign env s (payer signer : address) : Prop :=
  payer = signer \/
  (as_collectorQuerier s = true /\
   (env_IsAuthorized env payer signer = Ok true \/
    exists e, as_authCache s !! auth_key payer signer = Some e /\ ac_ok e = true /\ env_now env < ac_expires e)).

Definition same_but_cache s s' : Prop :=
  as_serviceProvider s' = as_serviceProvider s /\ as_domain s' = as_domain s /\
  as_repository s' = as_repository s /\ as_collectorQuerier s' = as_collectorQuerier s.

Lemma auth_signer_spec env payer signer s :
  let '(res, s') := auth_isSignerAuthorized env payer signer s in
  same_but_cache s s' /\ (res = Ok true -> may_sign env s payer signer) /\
  (payer = signer -> res = Ok true).
Proof.
  unfold auth_isSignerAuthorized, may_sign, same_but_cache, AddressesEqual.
  case_bool_decide; [by split_and!; auto |]. destruct (as_collectorQuerier s) eqn:Eq; [|by split_and!].
  cbn [negb]. destruct (as_authCache s !! auth_key payer signer) as [e|].
  - destruct (Z.ltb_spec (env_now env) (ac_expires e)).
    + split_and!; try done. intros [= Ho]. right. split; [done |]. right. eauto.
    + destruct (env_IsAuthorized env payer signer); split_and!; simpl; try done; intros; simplify_eq; auto.
  - destruct (env_IsAuthorized env payer signer); split_and!; simpl; try done; intros; simplify_eq; auto.
Qed.

Lemma validateRAV_spec env sm s :
  let '(res, s') := validateRAV env sm s in
  same_but_cache s s' /\
  (forall a, res = Ok a -> exists m signer, Message sm = Some m /\ RecoverSigner sm (as_domain s) = Ok signer /\
     may_sign env s (rav_Payer m) signer /\ rav_ServiceProvider m = as_serviceProvider s /\
     a = mkAuthResult (Pretty (rav_Payer m)) "") /\
  (forall m, Message sm = Some m -> RecoverSigner sm (as_domain s) = Ok (rav_Payer m) ->
     rav_ServiceProvider m = as_serviceProvider s -> res = Ok (mkAuthResult (Pretty (rav_Payer m)) "")).
Proof.
  unfold validateRAV. destruct (RecoverSigner sm (as_domain s)) as [signer|]; [|by split_and!; try done; naive_solver].
  destruct (Message sm) as [m|]; [|by split_and!; try done; naive_solver].
  pose proof (auth_signer_spec env (rav_Payer m) signer s) as Ha.
  destruct (auth_isSignerAuthorized env (rav_Payer m) signer s) as [res s'].
  destruct Ha as (Hsame & Hauth & Hself). pose proof Hsame as (Esp & _).
  destruct res as [[]|]; [|split_and!; [done | naive_solver | naive_solver]..].
  rewrite Esp. unfold AddressesEqual. case_bool_decide as Hp; simpl; (split_and!; [done | |]); intros; simplify_eq; try done.
  exists m, signer. split_and!; auto.
Qed.

(** The session check, and its only effect. *)
Definition session_valid env (id org : string) (r : InMemoryRepository) : Prop :=
  exists sess, im_sessions r !! id = Some sess /\ IsActive sess = true /\
    env_now env - s_LastKeepAlive sess <= SessionKeepAliveTimeout /\ Pretty (s_Payer sess) = org.

Lemma validateSession_spec env id org s :
  match validateSession env id org s with
  | (Ok _, s') => exists r, as_repository s = Some r /\ session_valid env id org r /\
                    s' = s <| as_repository := Some (im_SessionTouch r id (env_now env)).2 |>
  | (Err _, s') => s' = s /\ forall r, as_repository s = Some r -> ~ session_valid env id org r
  end.
Proof.
  unfold validateSession, session_valid. destruct (as_repository s) as [r|]; [|done].
  cbn [SessionGet SessionTouch inmemory_repository]. unfold im_SessionGet.
  destruct (im_sessions r !! id) as [sess|] eqn:Es.
  2: { destruct (bool_decide _); (split; [done |]); intros ? [= <-] (sess & E' & _); by rewrite Es in E'. }
  assert (Hno : (IsActive sess = true -> env_now env - s_LastKeepAlive sess <= SessionKeepAliveTimeout ->
      Pretty (s_Payer sess) = org -> False) -> forall r0, Some r = Some r0 -> ~ session_valid env id org r0).
  { intros Hn r0 [= <-] (sess' & E' & Ha & Hi & Hp). rewrite Es in E'. apply (inj Some) in E' as <-. auto. }
  destruct (IsActive sess) eqn:Ea; [|split; [done |]; by apply Hno]. cbn [negb].
  destruct (env_now env - s_LastKeepAlive sess >? SessionKeepAliveTimeout) eqn:Ei.
  { rewrite Z.gtb_ltb, Z.ltb_lt in Ei. split; [done |]. apply Hno. lia. }
  rewrite Z.gtb_ltb, Z.ltb_ge in Ei.
  destruct (String.eqb_spec (Pretty (s_Payer sess)) org) as [Ho|Ho]; [|split; [done |]; by apply Hno].
  cbn [negb]. destruct (im_SessionTouch r id (env_now env)) as [res r'] eqn:Et. exists r. split_and!; [done | | by rewrite Et].
  exists sess. done.
Qed.

(** C31: authentication is sound: when [ValidateAuth] answers with trusted headers,
    the request carried a RAV header that decodes to a well-formed signed RAV for
    this provider whose recovered signer may act for the RAV's payer, and a
    session header that names a stored, active session of that same payer that
    was alive within the last five minutes; the trusted headers are exactly the
    payer, the caller's address and that session, and the only effect on the
    stored data is that session's keep-alive time.  A refusal stores nothing. *)
Theorem ValidateAuth_sound env (req : ValidateAuthRequest) s res s' :
  ValidateAuth env req s = (res, s') ->
  match res with
  | Err _ => as_repository s' = as_repository s
  | Ok trusted =>
      exists h psr sm m signer sid r,
        lower_headers (vr_UntrustedHeaders req) !! ToLower HeaderRAV ≫= head = Some h /\
        decodeRAVFromHeader h = Ok psr /\ ProtoSignedRAVToHorizon (Some psr) = Ok (Some sm) /\
        Message sm = Some m /\ RecoverSigner sm (as_domain s) = Ok signer /\
        may_sign env s (rav_Payer m) signer /\ rav_ServiceProvider m = as_serviceProvider s /\
        lower_headers (vr_UntrustedHeaders req) !! ToLower HeaderSessionID ≫= head = Some sid /\
        as_repository s = Some r /\ session_valid env sid (Pretty (rav_Payer m)) r /\
        as_repository s' = Some (im_SessionTouch r sid (env_now env)).2 /\
        trusted = <[HeaderSessionID := sid]> (<[dauth_HeaderIP := vr_IpAddress req]>
                    (<[dauth_HeaderOrganizationID := Pretty (rav_Payer m)]> ∅))
  end.
Proof.
  unfold ValidateAuth. set (lh := lower_headers _).
  destruct (lh !! ToLower HeaderRAV) as [[|h hs]|]; [by intros [= <- <-]| |by intros [= <- <-]].
  destruct (decodeRAVFromHeader h) as [psr|] eqn:Ed; [|by intros [= <- <-]].
  destruct (ProtoSignedRAVToHorizon (Some psr)) as [[sm|]|] eqn:Ep; [|by intros [= <- <-]..].
  pose proof (validateRAV_spec env sm s) as Hv. destruct (validateRAV env sm s) as [ar s1].
  destruct Hv as ((_ & _ & Er & _) & Hv & _). destruct ar as [a|]; [|by intros [= <- <-]].
  destruct (Hv a eq_refl) as (m & signer & Em & Es & Ha & Hp & ->).
  destruct (lh !! ToLower HeaderSessionID) as [[|sid sids]|]; [by intros [= <- <-]| |by intros [= <- <-]].
  pose proof (validateSession_spec env sid (Pretty (rav_Payer m)) s1) as Hs. cbn [ar_OrganizationId].
  destruct (validateSession env sid (Pretty (rav_Payer m)) s1) as [[[]|] s2].
  2: { destruct Hs as [-> _]. by intros [= <- <-]. }
  destruct Hs as (r & Hr & Hval & ->). rewrite Er in Hr. simpl. intros [= <- <-].
  exists h, psr, sm, m, signer, sid, r. done.
Qed.

(** A header that decodes to a RAV its payer signed for this provider. *)
Lemma decoded_header_authenticates env s r (m : RAV) psr (sm : SignedRAV) (hdr id : string) :
  as_repository s = Some r -> decodeRAVFromHeader hdr = Ok psr ->
  ProtoSignedRAVToHorizon (Some psr) = Ok (Some sm) -> Message sm = Some m ->
  RecoverSigner sm (as_domain s) = Ok (rav_Payer m) -> rav_ServiceProvider m = as_serviceProvider s ->
  session_valid env id (Pretty (rav_Payer m)) r ->
  forall path ip,
  (ValidateAuth env (mkAuthReq [(HeaderRAV, Some [hdr]); (HeaderSessionID, Some [id])] path ip) s).1 =
  Ok (<[HeaderSessionID := id]> (<[dauth_HeaderIP := ip]> (<[dauth_HeaderOrganizationID := Pretty (rav_Payer m)]> ∅))).
Proof.
  intros Hr Ed Ew Em Erec Hp Hsv path ip. unfold ValidateAuth. cbn [vr_UntrustedHeaders vr_IpAddress].
  assert (El : lower_headers [(HeaderRAV, Some [hdr]); (HeaderSessionID, Some [id])] =
    <[ToLower HeaderSessionID := [id]]> (<[ToLower HeaderRAV := [hdr]]> ∅)) by reflexivity.
  rewrite El. rewrite lookup_insert_ne by (vm_compute; discriminate). rewrite !lookup_insert_eq, Ed, Ew.
  pose proof (validateRAV_spec env sm s) as Hv. destruct (validateRAV env sm s) as [ar s1].
  destruct Hv as ((_ & _ & Er & _) & _ & Hv). rewrite (Hv m Em Erec Hp). cbn [ar_OrganizationId ar_ApiKeyId].
  pose proof (validateSession_spec env id (Pretty (rav_Payer m)) s1) as Hs.
  destruct (validateSession env id (Pretty (rav_Payer m)) s1) as [[[]|] s2]; [done |].
  destruct Hs as [_ Hn]. destruct (Hn r); [by rewrite Er | done].
Qed.

(** C37: authentication is complete for the consumer's own requests: a signed RAV
    that the payer's key signed for this provider, sent with the headers the
    consumer's ingress builds, authenticates every request on an active session
    of that payer that was alive within the last five minutes. *)
Theorem consumer_headers_authenticate env s r (m : RAV) (key : PrivateKey) (sm : SignedRAV) (id : string)
    (headers : list (string * string)) :
  as_repository s = Some r -> wf_rav m -> rav_ServiceProvider m = as_serviceProvider s ->
  key_address key = rav_Payer m -> horizon_Sign (as_domain s) m key = Ok sm ->
  session_valid env id (Pretty (rav_Payer m)) r ->
  newUpstreamStreamContext [] (HorizonSignedRAVToProto (Some sm)) id = Ok headers ->
  forall path ip,
  (ValidateAuth env (mkAuthReq (map (fun '(k, v) => (k, Some [v])) headers) path ip) s).1 =
  Ok (<[HeaderSessionID := id]> (<[dauth_HeaderIP := ip]> (<[dauth_HeaderOrganizationID := Pretty (rav_Payer m)]> ∅))).
Proof.
  intros Hr Hwf Hp Hk Hsign Hsv Hh path ip.
  destruct (RecoverSigner_Sign _ _ _ _ Hsign) as (Em & Hlen & Erec). rewrite Hk in Erec.
  assert (Esm : sm = mkSigned (Some m) (Signature sm)) by (destruct sm; simpl in *; by subst).
  pose proof (SignedRAV_wire m (Signature sm) Hwf Hlen) as Ew. rewrite <- Esm in Ew.
  set (psr := mkPSignedRAV (HorizonRAVToProto (Message sm)) (Signature sm)).
  change (HorizonSignedRAVToProto (Some sm)) with (Some psr) in *.
  apply rbind_Ok in Hh as (hdr & Eh & Hh). apply Ok_inj in Hh as <-.
  unfold encodeRAVHeader in Eh. destruct (proto_Marshal (Some psr)) as [data|] eqn:Ed; [|done].
  apply Ok_inj in Eh as <-. eapply (decoded_header_authenticates env s r m psr sm); try done.
  unfold decodeRAVFromHeader. by rewrite StdDecode_Encode; cbn [rbind]; rewrite (proto_roundtrip psr data Ed).
Qed.
End Proofs.

(** ** A concrete request *)
Module AuthWitness.
Import Reference.

Definition payer : address := fixed_bytes 20 2.
Definition provider : address := fixed_bytes 20 4.
Definition domain : Domain := NewDomain 42161 (fixed_bytes 20 9).
Definition rav : RAV := mkRAV (fixed_bytes 32 1) payer provider (fixed_bytes 20 3) 12 (Some 150) [].
Definition key : PrivateKey := 2.
Definition signed : SignedRAV :=
  match horizon_Sign domain rav key with Ok sm => sm | Err _ => mkSigned None [] end.
Definition wire : option PSignedRAV := HorizonSignedRAVToProto (Some signed).

(** A codec that knows this one message. *)
#[export] Instance deps : AuthDeps := {|
  proto_Marshal m := if decide (m = wire) then Ok [Byte.x01; Byte.x02] else Err (Errorf "marshal");
  proto_Unmarshal l := match wire with
                       | Some m => if decide (l = [Byte.x01; Byte.x02]) then Ok m else Err (Errorf "unmarshal")
                       | None => Err (Errorf "unmarshal")
                       end;
  dauth_HeaderOrganizationID := "x-organization-id";
  dauth_HeaderIP := "x-real-ip";
  dauth_HeaderApiKeyID := "x-api-key-id"
|}.
#[export] Instance deps_laws : AuthDepsLaws.
Proof.
  split. intros m data. unfold proto_Marshal, proto_Unmarshal, deps. case_decide as E; [|done]. rewrite <- E.
  intros [= <-]. done.
Qed.

Definition repo : InMemoryRepository :=
  put_session "s1" (NewSession 5 "s1" payer provider (fixed_bytes 20 3) (mkPricingConfig ZeroGRT ZeroGRT))
    NewInMemoryRepository.
Definition service : AuthService InMemoryRepository := NewAuthService provider domain false (Some repo).
Definition env : Env := mkEnv 100 (fun _ _ _ => Ok None) (fun _ _ => Ok false).

Lemma auth_rav_wf : wf_rav rav.
Proof.
  unfold wf_rav, rav, u64, two64, two256. split_and!; try apply fixed_bytes_length; try done.
  exists 150. split; [done | lia].
Qed.
Lemma signed_ok : horizon_Sign domain rav key = Ok signed.
Proof. reflexivity. Qed.
Lemma session_ok : session_valid env "s1" (Pretty payer) repo.
Proof.
  eexists. split; [apply lookup_insert_eq |]. split_and!; [reflexivity | vm_compute; discriminate | reflexivity].
Qed.
Definition headers : list (string * string) :=
  [(HeaderRAV, StdEncodeToString [Byte.x01; Byte.x02]); (HeaderSessionID, "s1"%string)].
Lemma headers_ok : newUpstreamStreamContext [] wire "s1" = Ok headers.
Proof.
  unfold newUpstreamStreamContext, encodeRAVHeader, proto_Marshal, deps. rewrite decide_True by done. reflexivity.
Qed.
Definition request : ValidateAuthRequest := mkAuthReq (map (fun '(k, v) => (k, Some [v])) headers) "/blocks" "10.0.0.1".
Lemma answer_Ok (res : result connect_error (gmap string string)) :
  is_ok res = true -> exists trusted, res = Ok trusted.
Proof. destruct res; [eauto | done]. Qed.
Lemma answered : is_ok (ValidateAuth env request service).1 = true.
Proof. vm_compute. reflexivity. Qed.
End AuthWitness.

Import Reference AuthWitness.

Lemma consumer_headers_authenticate_witness :
  (ValidateAuth env request service).1 =
  Ok (<[HeaderSessionID := "s1"%string]> (<[dauth_HeaderIP := "10.0.0.1"%string]>
        (<[dauth_HeaderOrganizationID := Pretty payer]> ∅))).
Proof.
  exact (consumer_headers_authenticate env service repo rav key signed "s1" headers eq_refl auth_rav_wf eq_refl eq_refl
    signed_ok session_ok headers_ok "/blocks" "10.0.0.1").
Defined.

Lemma ValidateAuth_sound_witness :
  exists r sid org, as_repository service = Some r /\ session_valid env sid org r /\
    as_repository (ValidateAuth env request service).2 = Some (im_SessionTouch r sid (env_now env)).2.
Proof.
  pose proof (ValidateAuth_sound env request service (ValidateAuth env request service).1
    (ValidateAuth env request service).2 (surjective_pairing _)) as Hs.
  destruct (answer_Ok _ answered) as [trusted E]. rewrite E in Hs.
  destruct Hs as (h & psr & sm & m & signer & sid & r & _ & _ & _ & _ & _ & _ & _ & _ & Hr & Hv & Ht & _).
  exact (ex_intro _ r (ex_intro _ sid (ex_intro _ (Pretty (rav_Payer m)) (conj Hr (conj Hv Ht))))).
Defined.
