(* ===== verification/PluginSession.v ===== *)
(** The session plugin ([provider/plugin/session.go]), which runs inside
    firehose-core: it borrows a worker slot at the provider for every request and
    for every worker of a request, keeps them alive, and returns them.

    The pool's [sessionInfo] objects are shared by the goroutines that looked them
    up, so they live in a heap and the sessions map holds pointers.  Every call is
    cut where another goroutine can run: between two accesses of the sessions map,
    at the critical sections of a [sessionInfo]'s mutex, and at the calls to the
    provider. *)
From S2P Require Import Prelude.
From S2P Require Import GoStd.
From S2P Require Import External.
From S2P Require Import GRT.
From S2P Require Import Horizon.
From S2P Require Import Proto.
From S2P Require Import Repository.
From S2P Require Import Runtime.
From S2P Require Import Gateway.
From S2P Require Import GatewayProps.
From S2P Require Import InMemory.
From S2P Require Import InMemoryProps.
From S2P Require Import Accounting.
From S2P Require Import GatewayFunds.
From S2P Require Import SessionService.
From S2P Require Import AuthService.
From stdpp Require Import list.

(** Third-party pieces: the errors of [dsession] and the lookup in the trusted
    headers of [dauth]. *)
Class Dsession : Type := {
  ErrUnavailable : go_error;
  ErrPermissionDenied : go_error;
  dsession_ErrQuotaExceeded : go_error;
  ErrConcurrentStreamLimitExceeded : go_error;
  ErrSessionNotFound : go_error;
  ErrWorkersLimitExceeded : go_error;
  Trusted_Get : gmap string string -> string -> string
}.

(** ** The pool *)

(** [closer] and the keep-alive context are made together and end together:
    [si_closed] tells whether the channel was closed, [si_cancelled] whether the
    context was cancelled. *)
Record sessionInfo : Type := mkInfo {
  si_organizationID : string;
  si_apiKeyID : string;
  si_traceID : string;
  si_workers : gset string;
  si_closed : bool;
  si_cancelled : bool;
  si_released : bool
}.

(** [sp_sessions] maps a session key to a pointer into the heap [sp_infos]. *)
Record sessionPool : Type := mkSessionPool {
  sp_sessions : gmap string nat;
  sp_infos : list sessionInfo
}.

#[global] Instance sessionInfo_eta : Eta sessionInfo := fun i =>
  mkInfo (si_organizationID i) (si_apiKeyID i) (si_traceID i) (si_workers i) (si_closed i) (si_cancelled i) (si_released i).
#[global] Instance sessionPool_eta : Eta sessionPool := fun p => mkSessionPool (sp_sessions p) (sp_infos p).

Definition newSessionPool : sessionPool := mkSessionPool ∅ [].

(** The object at a pointer, rewritten. *)
Definition alter_info (i : nat) (f : sessionInfo -> sessionInfo) (p : sessionPool) : sessionPool :=
  p <| sp_infos := alter f i (sp_infos p) |>.

Section Plugin.
Context `{Dsession}.

Definition session_id_of (trustedHeaders : option (gmap string string)) : string :=
  match trustedHeaders with Some h => Trusted_Get h HeaderSessionID | None => "" end.

Definition no_session_id : go_error := Errorf "sds session ID not found in auth context".

(** The answer of the provider to [Get]; [None] as an answer without an error:
    the worker is the caller's. *)
Definition get_answer (resp : result connect_error BorrowWorkerResponse) : result go_error (string * BorrowStatus) :=
  match resp with
  | Err (code, e) =>
      match code with
      | CodeUnavailable => Err (Wrapf "%w: %s" ErrUnavailable)
      | CodePermissionDenied => Err (Wrapf "%w: %s" ErrPermissionDenied)
      | CodeResourceExhausted => Err (Wrapf "%w: %s" dsession_ErrQuotaExceeded)
      | _ => Err (Wrapf "failed to borrow session: %w" e)
      end
  | Ok r =>
      match bw_Status r with
      | BORROW_STATUS_RESOURCE_EXHAUSTED => Err (Wrapf "%w%s" ErrConcurrentStreamLimitExceeded)
      | status => Ok (bw_WorkerKey r, status)
      end
  end.

(** [Get]; [borrow] is the provider's [BorrowWorker].  Nothing else knows the key
    before it is stored. *)
Definition Get (borrow : BorrowWorkerRequest -> result connect_error BorrowWorkerResponse)
    (trustedHeaders : option (gmap string string)) (serviceName organizationID apiKeyID traceID : string)
    (p : sessionPool) : result go_error string * sessionPool :=
  let sdsSessionID := session_id_of trustedHeaders in
  if String.eqb sdsSessionID "" then (Err no_session_id, p) else
  match get_answer (borrow (mkBorrowReq serviceName organizationID apiKeyID sdsSessionID 0)) with
  | Err e => (Err e, p)
  | Ok (workerKey, BORROW_STATUS_BORROWED) =>
      (Ok workerKey,
       mkSessionPool (<[workerKey := length (sp_infos p)]> (sp_sessions p))
         (sp_infos p ++ [mkInfo organizationID apiKeyID traceID ∅ false false false]))
  | Ok (workerKey, _) => (Ok workerKey, p)
  end.

(** [GetWorker] up to the call: the request, or the error. *)
Definition getworker_request (trustedHeaders : option (gmap string string)) (serviceName sessionKey : string)
    (maxWorkersPerSession : Z) (p : sessionPool) : result go_error BorrowWorkerRequest :=
  match sp_sessions p !! sessionKey ≫= fun i => sp_infos p !! i with
  | None => Err (Wrapf "%w: session key %s not found" ErrSessionNotFound)
  | Some info =>
      let sdsSessionID := session_id_of trustedHeaders in
      if String.eqb sdsSessionID "" then Err no_session_id
      else Ok (mkBorrowReq serviceName (si_organizationID info) (si_apiKeyID info) sdsSessionID maxWorkersPerSession)
  end.

Definition getworker_answer (resp : result connect_error BorrowWorkerResponse) : result go_error string :=
  match resp with
  | Err (code, e) =>
      match code with
      | CodeNotFound => Err (Wrapf "%w: session not found" ErrSessionNotFound)
      | CodePermissionDenied => Err (Wrapf "%w: %s" ErrPermissionDenied)
      | CodeResourceExhausted => Err (Wrapf "%w: maximum workers per session exceeded" ErrWorkersLimitExceeded)
      | _ => Err (Wrapf "failed to borrow worker: %w" e)
      end
  | Ok r =>
      match bw_Status r with
      | BORROW_STATUS_RESOURCE_EXHAUSTED => Err (Wrapf "%w%s" ErrWorkersLimitExceeded)
      | _ => Ok (bw_WorkerKey r)
      end
  end.

Definition released_error : go_error := Wrapf "%w: session key %s was released" ErrSessionNotFound.

(** The critical sections of a [sessionInfo]. *)
Definition addWorker (i : nat) (workerKey : string) (p : sessionPool) : bool * sessionPool :=
  match sp_infos p !! i with
  | None => (false, p)
  | Some info =>
      if si_released info then (false, p)
      else (true, alter_info i (fun info => info <| si_workers := {[workerKey]} ∪ si_workers info |>) p)
  end.

(** The workers to release, in the order the map yields them. *)
Definition beginRelease (i : nat) (p : sessionPool) : option (list string) * sessionPool :=
  match sp_infos p !! i with
  | None => (None, p)
  | Some info =>
      if si_released info then (None, p)
      else (Some (elements (si_workers info)), alter_info i (fun info => info <| si_released := true |>) p)
  end.

(** The synchronous part of [ReleaseWorker]: the worker is taken off every
    session in the map. *)
Definition untrack (workerKey : string) (p : sessionPool) : sessionPool :=
  let tracked := map snd (map_to_list (sp_sessions p)) in
  p <| sp_infos := imap (fun i info => if bool_decide (i ∈ tracked)
                                       then info <| si_workers := si_workers info ∖ {[workerKey]} |>
                                       else info) (sp_infos p) |>.

(** [p.sessions.Del(sessionKey)], [cancel()] and [close(done)]; closing a closed
    channel panics. *)
Definition delete_session (sessionKey : string) (p : sessionPool) : sessionPool :=
  p <| sp_sessions := delete sessionKey (sp_sessions p) |>.
Definition close_done (i : nat) (p : sessionPool) : option sessionPool :=
  match sp_infos p !! i with
  | Some info => if si_closed info then None
                 else Some (alter_info i (fun info => info <| si_cancelled := true |> <| si_closed := true |>) p)
  | None => None
  end.

(** ** Keep-alive *)

(** One tick of the keep-alive goroutine of [sessionKey]: the goroutine ends,
    having told the stream about an error or not, or goes on in error mode or
    not.  [call] is the provider's [KeepAlive], the only effect being the
    provider's. *)
Inductive tick : Type :=
  | Stopped (reported : option go_error)
  | Ticking (errorMode : bool) (reset : option Z).

(** The workers are asked for after the session, whatever its answer. *)
Definition workers_failed (call : string -> result connect_error unit) (workerKeys : list string) : bool :=
  existsb (fun w => negb (is_ok (call w))) workerKeys.

Definition keepAlive_tick (keepAliveDelay : Z) (onError : bool) (call : string -> result connect_error unit)
    (sessionKey : string) (errorMode : bool) (p : sessionPool) : tick :=
  match sp_sessions p !! sessionKey ≫= fun i => sp_infos p !! i with
  | None => Stopped None
  | Some info =>
      let continue hadError :=
        let hadError := hadError || workers_failed call (elements (si_workers info)) in
        if hadError && negb errorMode then Ticking true (Some (10 ^ 9)%Z)
        else if negb hadError && errorMode then Ticking false (Some keepAliveDelay)
        else Ticking errorMode None in
      match call sessionKey with
      | Ok _ => continue false
      | Err (code, _) =>
          match onError, code with
          | true, CodePermissionDenied => Stopped (Some (Wrapf "%w: %s" ErrPermissionDenied))
          | true, CodeResourceExhausted => Stopped (Some (Wrapf "%w: %s" dsession_ErrQuotaExceeded))
          | _, _ => continue true
          end
      end
  end.

(** ** The calls in flight *)

(** [Release] before its lookup, before [beginRelease], before the session is
    deleted and before the channel is closed; [GetWorker] before the call to the
    provider, before its second lookup and before [addWorker]; and the keys a
    goroutine still has to return. *)
Inductive thread : Type :=
  | Releasing (sessionKey : string)
  | ReleaseFound (sessionKey : string) (i : nat)
  | ReleaseBegun (sessionKey : string) (i : nat) (workers : list string)
  | ReleaseDeleted (sessionKey : string) (i : nat) (workers : list string)
  | Borrowing (sessionKey : string)
  | Borrowed (sessionKey workerKey : string)
  | Adding (i : nat) (workerKey : string)
  | Returning (keys : list string).

(** The pool with the provider's side of the ledger: every key it ever lent and
    those for which no [ReturnWorker] was called. *)
Record shared : Type := mkShared {
  sh_pool : sessionPool;
  sh_lent : gset string;
  sh_out : gset string;
  sh_panicked : bool
}.
#[global] Instance shared_eta : Eta shared := fun s => mkShared (sh_pool s) (sh_lent s) (sh_out s) (sh_panicked s).

(** The key an answer lends. *)
Definition lends (resp : result connect_error BorrowWorkerResponse) : option string :=
  match resp with
  | Ok r => if decide (bw_Status r = BORROW_STATUS_BORROWED) then Some (bw_WorkerKey r) else None
  | Err _ => None
  end.
Definition lend (resp : result connect_error BorrowWorkerResponse) (s : shared) : shared :=
  match lends resp with
  | Some k => s <| sh_lent := {[k]} ∪ sh_lent s |> <| sh_out := {[k]} ∪ sh_out s |>
  | None => s
  end.

(** One step of a call; [resp] is the provider's answer to the borrowing step.
    What is left of the call is the list. *)
Definition thread_step (resp : result connect_error BorrowWorkerResponse) (t : thread) (s : shared) :
    shared * list thread :=
  let p := sh_pool s in
  match t with
  | Releasing key =>
      (s, match sp_sessions p !! key with Some i => [ReleaseFound key i] | None => [] end)
  | ReleaseFound key i =>
      match beginRelease i p with
      | (Some workers, p) => (s <| sh_pool := p |>, [ReleaseBegun key i workers])
      | (None, p) => (s <| sh_pool := p |>, [])
      end
  | ReleaseBegun key i workers => (s <| sh_pool := delete_session key p |>, [ReleaseDeleted key i workers])
  | ReleaseDeleted key i workers =>
      match close_done i p with
      | Some p => (s <| sh_pool := p |>, [Returning (workers ++ [key])])
      | None => (s <| sh_panicked := true |>, [])
      end
  | Borrowing key =>
      (lend resp s, match getworker_answer resp with Ok w => [Borrowed key w] | Err _ => [] end)
  | Borrowed key w =>
      (s, match sp_sessions p !! key with Some i => [Adding i w] | None => [Returning [w]] end)
  | Adding i w =>
      match addWorker i w p with
      | (true, p) => (s <| sh_pool := p |>, [])
      | (false, p) => (s <| sh_pool := p |>, [Returning [w]])
      end
  | Returning [] => (s, [])
  | Returning (k :: ks) => (s <| sh_out := sh_out s ∖ {[k]} |>, [Returning ks])
  end.

Record plugin : Type := mkPlugin { pl_shared : shared; pl_threads : list thread }.

(** The provider never lends a key twice: it is made of the session and the time
    of the call in nanoseconds. *)
Definition never_lent (resp : result connect_error BorrowWorkerResponse) (s : shared) : Prop :=
  match lends resp with Some k => k ∉ sh_lent s | None => True end.

(** The steps of the calls in flight, and all steps: firehose-core may also start
    a new call at any time, with any arguments.  A [Get] without a session id
    makes no call and changes nothing. *)
Inductive internal_step : plugin -> plugin -> Prop :=
  | is_thread resp t s ts1 ts2 :
      never_lent resp s ->
      internal_step (mkPlugin s (ts1 ++ t :: ts2))
        (mkPlugin (thread_step resp t s).1 (ts1 ++ (thread_step resp t s).2 ++ ts2)).

Inductive plugin_step : plugin -> plugin -> Prop :=
  | pls_internal x y : internal_step x y -> plugin_step x y
  | pls_get resp h service org api trace s ts :
      never_lent resp s -> session_id_of h <> ""%string ->
      plugin_step (mkPlugin s ts)
        (mkPlugin ((lend resp s) <| sh_pool := (Get (fun _ => resp) h service org api trace (sh_pool s)).2 |>) ts)
  | pls_getworker h service key m req s ts :
      getworker_request h service key m (sh_pool s) = Ok req ->
      plugin_step (mkPlugin s ts) (mkPlugin s (Borrowing key :: ts))
  | pls_release key s ts : plugin_step (mkPlugin s ts) (mkPlugin s (Releasing key :: ts))
  | pls_releaseworker w s ts :
      plugin_step (mkPlugin s ts) (mkPlugin (s <| sh_pool := untrack w (sh_pool s) |>) (Returning [w] :: ts)).

Definition idle_plugin : plugin := mkPlugin (mkShared newSessionPool ∅ ∅ false) [].
End Plugin.
