(* ===== verification/PluginSessionProps.v ===== *)
(** The session plugin never leaks a worker slot, and it stops the stream of a
    session whose funds ran out. *)
From S2P Require Import Prelude.
From S2P Require Import GoStd.
From S2P Require Import External.
From S2P Require Import GRT.
From S2P Require Import Horizon.
From S2P Require Import Proto.
From S2P Require Import Repository.
From S2P Require Import Runtime.
From S2P Require Import Gateway.
From S2P Require Import GatewayProps.
From S2P Require Import InMemory.
From S2P Require Import InMemoryProps.
From S2P Require Import Accounting.
From S2P Require Import GatewayFunds.
From S2P Require Import SessionService.
From S2P Require Import AuthService.
From S2P Require Import PluginSession.
From stdpp Require Import list.

Section Ledger.
Context `{Dsession}.
Implicit Types (s : shared) (p : sessionPool) (t : thread) (ts : list thread).

(** The keys a call in flight will return or hand to a session. *)
Definition held t : list string :=
  match t with
  | ReleaseBegun key _ ws | ReleaseDeleted key _ ws => key :: ws
  | Borrowed _ w | Adding _ w => [w]
  | Returning ks => ks
  | _ => []
  end.

(** A session of the map that nobody began to release. *)
Definition live_session p (key : string) (i : nat) (info : sessionInfo) : Prop :=
  sp_sessions p !! key = Some i /\ sp_infos p !! i = Some info /\ si_released info = false.

(** The key of such a session, or of one of its workers. *)
Definition tracked p (k : string) : Prop :=
  exists key i info, live_session p key i info /\ (k = key \/ k ∈ si_workers info).

Definition accounted s ts (k : string) : Prop :=
  tracked (sh_pool s) k \/ exists t, t ∈ ts /\ k ∈ held t.

(** How many calls are about to close the channel of an object. *)
Definition closer_of (i : nat) t : nat :=
  match t with ReleaseBegun _ j _ | ReleaseDeleted _ j _ => if decide (i = j) then 1 else 0 | _ => 0 end%nat.
Definition closers (i : nat) ts : nat := sum_list (map (closer_of i) ts).
Definition one (b : bool) : nat := if b then 1%nat else 0%nat.

Definition thread_ok s t : Prop :=
  let p := sh_pool s in
  match t with
  | ReleaseFound key i => key ∈ sh_lent s /\ exists info, sp_infos p !! i = Some info /\
      (si_released info = false -> sp_sessions p !! key = Some i)
  | ReleaseBegun key i _ => key ∈ sh_lent s /\ is_Some (sp_infos p !! i) /\
      forall j info, sp_sessions p !! key = Some j -> sp_infos p !! j = Some info -> si_released info = true
  | ReleaseDeleted _ i _ | Adding i _ => is_Some (sp_infos p !! i)
  | _ => True
  end.

Record plugin_inv s ts : Prop := {
  inv_out k : k ∈ sh_out s -> accounted s ts k;
  inv_sessions key i : sp_sessions (sh_pool s) !! key = Some i -> key ∈ sh_lent s /\ is_Some (sp_infos (sh_pool s) !! i);
  inv_inj a b i : sp_sessions (sh_pool s) !! a = Some i -> sp_sessions (sh_pool s) !! b = Some i -> a = b;
  inv_live i info : sp_infos (sh_pool s) !! i = Some info -> si_released info = false ->
    exists key, sp_sessions (sh_pool s) !! key = Some i;
  inv_released key i info : sp_sessions (sh_pool s) !! key = Some i -> sp_infos (sh_pool s) !! i = Some info ->
    si_released info = true -> exists ws, ReleaseBegun key i ws ∈ ts;
  inv_threads : Forall (thread_ok s) ts;
  inv_closers i info : sp_infos (sh_pool s) !! i = Some info ->
    (closers i ts + one (si_closed info) = one (si_released info))%nat;
  inv_panicked : sh_panicked s = false
}.

Lemma closers_cons i t ts : closers i (t :: ts) = (closer_of i t + closers i ts)%nat.
Proof. done. Qed.

Lemma closers_app i ts ts' : closers i (ts ++ ts') = (closers i ts + closers i ts')%nat.
Proof. unfold closers. rewrite map_app. induction (map (closer_of i) ts) as [|x l IH]; simpl; lia. Qed.

Lemma closers_Permutation i ts ts' : Permutation ts ts' -> closers i ts = closers i ts'.
Proof.
  intros Hp. unfold closers. induction Hp; simpl; lia.
Qed.

Lemma plugin_inv_Permutation s ts ts' : Permutation ts ts' -> plugin_inv s ts -> plugin_inv s ts'.
Proof.
  intros Hp [I1 I2 I3 I4 I5 I6 I7 I8]. split; try done.
  - intros k Hk. destruct (I1 k Hk) as [Ht|(t & Ht & Hh)]; [by left |]. right. exists t. by rewrite <- Hp.
  - intros key i info E1 E2 E3. destruct (I5 key i info E1 E2 E3) as [ws Hws]. exists ws. by rewrite <- Hp.
  - by rewrite <- Hp.
  - intros i info Ei. rewrite <- (closers_Permutation i ts ts' Hp). auto.
Qed.

(** A call that ends, or turns into another one, with the shared state as it is. *)
Lemma plugin_inv_thread s t ts ts' :
  plugin_inv s (t :: ts) ->
  (forall k, k ∈ held t -> exists t', t' ∈ ts' /\ k ∈ held t') ->
  Forall (thread_ok s) ts' ->
  (forall i, closers i ts' = closer_of i t) ->
  (forall key i ws, t <> ReleaseBegun key i ws) ->
  plugin_inv s (ts' ++ ts).
Proof.
  intros [I1 I2 I3 I4 I5 I6 I7 I8] Hheld Hok Hc Hn. split; try done.
  - intros k Hk. destruct (I1 k Hk) as [Ht|(t0 & Ht & Hh)]; [by left |]. right.
    apply elem_of_cons in Ht as [->|Ht].
    + destruct (Hheld k Hh) as (t' & Ht' & Hk'). exists t'. split; [apply elem_of_app; by left | done].
    + exists t0. split; [apply elem_of_app; by right | done].
  - intros key i info E1 E2 E3. destruct (I5 key i info E1 E2 E3) as [ws Hws].
    apply elem_of_cons in Hws as [Hws|Hws]; [by destruct (Hn key i ws) |]. exists ws. apply elem_of_app. by right.
  - apply Forall_app. split; [done |]. by apply Forall_cons in I6 as [_ ?].
  - intros i info Ei. specialize (I7 i info Ei). rewrite closers_cons in I7.
    rewrite closers_app, Hc. lia.
Qed.

(** ** Releasing a session *)

Lemma accounted_thread s s' t ts ts' k :
  accounted s (t :: ts) k ->
  (tracked (sh_pool s) k -> accounted s' (ts' ++ ts) k) ->
  (k ∈ held t -> accounted s' (ts' ++ ts) k) ->
  accounted s' (ts' ++ ts) k.
Proof.
  intros [Ht|(t0 & Ht0 & Hk)] H1 H2; [by apply H1 |]. apply elem_of_cons in Ht0 as [->|Ht0]; [by apply H2 |].
  right. exists t0. split; [apply elem_of_app; by right | done].
Qed.

Lemma alter_info_lookup p i f j :
  sp_infos (alter_info i f p) !! j = (fun info => if decide (i = j) then f info else info) <$> sp_infos p !! j.
Proof.
  unfold alter_info. cbn. destruct (decide (i = j)) as [<-|Hij].
  - by rewrite list_lookup_alter_eq.
  - rewrite list_lookup_alter_ne by done. by destruct (sp_infos p !! j).
Qed.

Lemma alter_info_is_Some p i f j : is_Some (sp_infos p !! j) -> is_Some (sp_infos (alter_info i f p) !! j).
Proof. rewrite alter_info_lookup, fmap_is_Some. done. Qed.

(** A change of one object keeps what is known of the calls in flight. *)
Lemma thread_ok_alter p lent out out' pk i f t :
  (forall info, si_released info = true -> si_released (f info) = true) ->
  thread_ok (mkShared p lent out pk) t -> thread_ok (mkShared (alter_info i f p) lent out' pk) t.
Proof.
  intros Hf. unfold thread_ok. cbn [sh_pool sh_lent]. destruct t as [key|key j|key j ws|key j ws|key|key w|j w|ks]; try done.
  - intros (Hl & info & Ej & Hr). split; [done |]. rewrite alter_info_lookup, Ej. eexists. split; [reflexivity |].
    intros Hr'. apply Hr. destruct (si_released info) eqn:E; [|done]. case_decide; [|congruence].
    by rewrite (Hf info E) in Hr'.
  - intros (Hl & Hs & Hr). split; [done |]. split; [by apply alter_info_is_Some |].
    intros j' info Ej Ei. rewrite alter_info_lookup in Ei.
    destruct (sp_infos p !! j') as [info0|] eqn:E0; [|done]. injection Ei as <-.
    specialize (Hr j' info0 Ej E0). case_decide; auto.
  - apply alter_info_is_Some.
  - apply alter_info_is_Some.
Qed.

Lemma begin_inv p lent out pk key i info ts :
  plugin_inv (mkShared p lent out pk) (ReleaseFound key i :: ts) ->
  sp_infos p !! i = Some info -> si_released info = false ->
  plugin_inv (mkShared (alter_info i (fun info => info <| si_released := true |>) p) lent out pk)
    (ReleaseBegun key i (elements (si_workers info)) :: ts).
Proof.
  intros [I1 I2 I3 I4 I5 I6 I7 I8] Ei Hr. apply Forall_cons in I6 as [(Hlent & info' & Ei' & Hkey) I6].
  cbn [sh_pool sh_lent sh_out sh_panicked] in *. rewrite Ei in Ei'. injection Ei' as <-. specialize (Hkey Hr).
  split; cbn [sh_pool sh_lent sh_out sh_panicked]; try done.
  - intros k Hk. apply (accounted_thread _ _ _ ts [_] k (I1 k Hk)); [|by intros ?%elem_of_nil].
    intros (key' & j & info' & (Es & Ej & Hr') & Hk'). cbn [sh_pool] in *. destruct (decide (i = j)) as [<-|Hij].
    + right. eexists. split; [apply elem_of_cons; by left |]. rewrite Ei in Ej. injection Ej as <-.
      cbn [held]. rewrite (I3 key key' i Hkey Es). apply elem_of_cons.
      destruct Hk' as [->|Hk']; [by left | right; by apply elem_of_elements].
    + left. cbn [sh_pool]. exists key', j, info'. split; [|done]. split; [done |]. split; [|done].
      by rewrite alter_info_lookup, Ej; simpl; rewrite decide_False.
  - intros key' j Es. destruct (I2 key' j Es) as [? ?]. split; [done | by apply alter_info_is_Some].
  - intros j info' Ej Hr'. rewrite alter_info_lookup in Ej. destruct (sp_infos p !! j) as [info0|] eqn:E0; [|done].
    injection Ej as <-. case_decide; [done |]. by apply (I4 j info0).
  - intros key' j info' Es Ej Hr'. rewrite alter_info_lookup in Ej.
    destruct (sp_infos p !! j) as [info0|] eqn:E0; [|done]. injection Ej as <-. case_decide as Hij.
    + subst j. rewrite (I3 key' key i Es Hkey). eexists. apply elem_of_cons. by left.
    + destruct (I5 key' j info0 Es E0 Hr') as [ws Hws]. exists ws. apply elem_of_cons in Hws as [Hws|Hws]; [done |].
      apply elem_of_cons. by right.
  - apply Forall_cons. split.
    + split; [done |]. split; [apply alter_info_is_Some; by eexists |]. cbn [sh_pool]. intros j info' Es Ej.
      change (sp_sessions p !! key = Some j) in Es. assert (j = i) as -> by congruence. rewrite alter_info_lookup, Ei in Ej. simpl in Ej.
      rewrite decide_True in Ej by done. by injection Ej as <-.
    + eapply Forall_impl; [exact I6 |]. intros t. by apply thread_ok_alter.
  - intros j info' Ej. rewrite alter_info_lookup in Ej. destruct (sp_infos p !! j) as [info0|] eqn:E0; [|done].
    injection Ej as <-. specialize (I7 j info0 E0). rewrite closers_cons in *. cbn [closer_of] in *.
    case_decide as Hij; subst; case_decide; try done.
    + rewrite Ei in E0. injection E0 as <-. rewrite Hr in I7. simpl in *. lia.
Qed.

Lemma delete_inv p lent out pk key i ws ts :
  plugin_inv (mkShared p lent out pk) (ReleaseBegun key i ws :: ts) ->
  plugin_inv (mkShared (delete_session key p) lent out pk) (ReleaseDeleted key i ws :: ts).
Proof.
  intros [I1 I2 I3 I4 I5 I6 I7 I8]. apply Forall_cons in I6 as [(Hlent & Hi & Hrel) I6].
  cbn [sh_pool sh_lent sh_out sh_panicked] in *.
  assert (sp_sessions (delete_session key p) = delete key (sp_sessions p)) as Hdel by done.
  assert (forall key' j, sp_sessions (delete_session key p) !! key' = Some j <-> key' <> key /\ sp_sessions p !! key' = Some j)
    as Hd by (intros key' j; rewrite Hdel, lookup_delete_Some; naive_solver).
  split; cbn [sh_pool sh_lent sh_out sh_panicked]; try done.
  - intros k Hk. apply (accounted_thread _ _ _ ts [_] k (I1 k Hk)).
    + intros (key' & j & info' & (Es & Ej & Hr') & Hk'). left. exists key', j, info'. split; [|done].
      split; [|by split]. apply Hd. split; [|done]. intros ->. specialize (Hrel j info' Es Ej). congruence.
    + intros Hh. right. eexists. split; [apply elem_of_cons; by left | exact Hh].
  - intros key' j [_ Es]%Hd. by apply (I2 key' j).
  - intros a b j [_ Ea]%Hd [_ Eb]%Hd. by apply (I3 a b j).
  - intros j info Ej Hr. destruct (I4 j info Ej Hr) as [key' Es]. exists key'. apply Hd. split; [|done].
    intros ->. specialize (Hrel j info Es Ej). congruence.
  - intros key' j info Es%Hd Ej Hr. destruct Es as [Hne Es]. destruct (I5 key' j info Es Ej Hr) as [ws' Hws].
    exists ws'. apply elem_of_cons in Hws as [Hws|Hws]; [congruence | apply elem_of_cons; by right].
  - apply Forall_cons. split; [done |]. eapply Forall_impl; [exact I6 |].
    intros t. unfold thread_ok. cbn [sh_pool sh_lent].
    destruct t as [key'|key' j|key' j ws'|key' j ws'|key'|key' w|j w|ks]; try done.
    + intros (Hl & info & Ej & Hr). split; [done |]. exists info. split; [done |]. intros Hf. apply Hd. split; [|auto].
      intros ->. specialize (Hrel j info (Hr Hf) Ej). congruence.
    + intros (Hl & Hs & Hr). split; [done |]. split; [done |]. intros j' info Es%Hd. apply Hr, Es.
Qed.

Lemma close_inv p lent out pk key i ws ts :
  plugin_inv (mkShared p lent out pk) (ReleaseDeleted key i ws :: ts) ->
  exists p', close_done i p = Some p' /\ plugin_inv (mkShared p' lent out pk) (Returning (ws ++ [key]) :: ts).
Proof.
  intros [I1 I2 I3 I4 I5 I6 I7 I8]. apply Forall_cons in I6 as [[info Ei] I6].
  cbn [sh_pool sh_lent sh_out sh_panicked] in *. unfold close_done. rewrite Ei.
  pose proof (I7 i info Ei) as Hc. rewrite closers_cons in Hc. cbn [closer_of] in Hc. rewrite decide_True in Hc by done.
  destruct (si_closed info) eqn:Ecl; [destruct (si_released info); simpl in Hc; lia |].
  eexists. split; [reflexivity |]. split; cbn [sh_pool sh_lent sh_out sh_panicked]; try done.
  - intros k Hk. apply (accounted_thread _ _ _ ts [_] k (I1 k Hk)).
    + intros (key' & j & info' & (Es & Ej & Hr') & Hk'). left. cbn [sh_pool] in *.
      eexists key', j, _. split; [split; [done |]; split; [by rewrite alter_info_lookup, Ej |] |]; by case_decide.
    + intros Hh. right. eexists. split; [apply elem_of_cons; by left |]. cbn [held] in *.
      apply elem_of_cons in Hh as [->|Hh]; apply elem_of_app; [right; by apply list_elem_of_singleton | by left].
  - intros key' j Es. destruct (I2 key' j Es) as [? ?]. split; [done | by apply alter_info_is_Some].
  - intros j info' Ej Hr'. rewrite alter_info_lookup in Ej. destruct (sp_infos p !! j) as [info0|] eqn:E0; [|done].
    injection Ej as <-. apply (I4 j info0 E0). by case_decide.
  - intros key' j info' Es Ej Hr'. rewrite alter_info_lookup in Ej.
    destruct (sp_infos p !! j) as [info0|] eqn:E0; [|done]. injection Ej as <-.
    destruct (I5 key' j info0 Es E0) as [ws' Hws]; [by case_decide |].
    exists ws'. apply elem_of_cons in Hws as [Hws|Hws]; [done | apply elem_of_cons; by right].
  - apply Forall_cons. split; [done |]. eapply Forall_impl; [exact I6 |]. intros t. by apply thread_ok_alter.
  - intros j info' Ej. rewrite alter_info_lookup in Ej. destruct (sp_infos p !! j) as [info0|] eqn:E0; [|done].
    injection Ej as <-. specialize (I7 j info0 E0). rewrite closers_cons in *. cbn [closer_of] in *.
    case_decide as Hij; subst; case_decide; try done.
    rewrite Ei in E0. injection E0 as <-. rewrite Ecl in I7. simpl in *. lia.
Qed.

(** ** Borrowing and returning *)

(** More keys were lent and the ledger of what is out changed; everything else is
    as it was. *)
Lemma ledger_inv p lent lent' out out' pk t ts t' :
  plugin_inv (mkShared p lent out pk) (t :: ts) -> lent ⊆ lent' ->
  (forall k, k ∈ out' -> k ∈ out \/ k ∈ held t') ->
  (forall k, k ∈ held t -> k ∈ held t' \/ k ∉ out') ->
  (forall i, closer_of i t' = closer_of i t) -> (forall key i ws, t <> ReleaseBegun key i ws) ->
  thread_ok (mkShared p lent' out' pk) t' ->
  plugin_inv (mkShared p lent' out' pk) (t' :: ts).
Proof.
  intros [I1 I2 I3 I4 I5 I6 I7 I8] Hl Ho Hh Hc Hn Hok. cbn [sh_pool sh_lent sh_out sh_panicked] in *.
  split; cbn [sh_pool sh_lent sh_out sh_panicked]; try done.
  - intros k Hk. assert (k ∈ held t' -> accounted (mkShared p lent' out' pk) (t' :: ts) k) as Ht'.
    { intros ?. right. exists t'. split; [apply elem_of_cons; by left | done]. }
    destruct (Ho k Hk) as [Hk'|Hk']; [|auto]. apply (accounted_thread _ _ _ ts [t'] k (I1 k Hk')); [by left |].
    intros Hk''. destruct (Hh k Hk''); [auto | done].
  - intros key i Es. destruct (I2 key i Es) as [? ?]. split; [set_solver | done].
  - intros key i info Es Ei Hr. destruct (I5 key i info Es Ei Hr) as [ws Hws]. exists ws.
    apply elem_of_cons in Hws as [Hws|Hws]; [by destruct (Hn key i ws) | apply elem_of_cons; by right].
  - apply Forall_cons in I6 as [_ I6]. apply Forall_cons. split; [done |]. eapply Forall_impl; [exact I6 |].
    intros [] Ht; unfold thread_ok in *; cbn [sh_pool sh_lent] in *; try done.
    + destruct Ht as [? ?]. split; [set_solver | done].
    + destruct Ht as [? ?]. split; [set_solver | done].
  - intros i info Ei. specialize (I7 i info Ei). rewrite closers_cons in *. by rewrite Hc.
Qed.

Lemma thread_end_inv s t ts :
  plugin_inv s (t :: ts) -> held t = [] -> (forall i, closer_of i t = 0%nat) -> plugin_inv s ts.
Proof.
  intros I Hh Hc. apply (plugin_inv_thread s t ts []); [done | | done | by intros i; rewrite Hc |].
  - intros k. rewrite Hh. by intros ?%elem_of_nil.
  - intros key i ws ->. done.
Qed.

Lemma add_inv p lent out pk i info w ts :
  plugin_inv (mkShared p lent out pk) (Adding i w :: ts) ->
  sp_infos p !! i = Some info -> si_released info = false ->
  plugin_inv (mkShared (alter_info i (fun info => info <| si_workers := {[w]} ∪ si_workers info |>) p) lent out pk) ts.
Proof.
  intros [I1 I2 I3 I4 I5 I6 I7 I8] Ei Hr. apply Forall_cons in I6 as [_ I6].
  cbn [sh_pool sh_lent sh_out sh_panicked] in *. split; cbn [sh_pool sh_lent sh_out sh_panicked]; try done.
  - intros k Hk. apply (accounted_thread _ _ _ ts [] k (I1 k Hk)).
    + intros (key' & j & info' & (Es & Ej & Hr') & Hk'). left. cbn [sh_pool] in *.
      eexists key', j, _. split; [split; [done |]; split; [by rewrite alter_info_lookup, Ej |]; by case_decide |].
      case_decide; [|done]. cbn. set_solver.
    + intros Hh%list_elem_of_singleton. subst k. left. cbn [sh_pool]. destruct (I4 i info Ei Hr) as [key Es].
      eexists key, i, _. split; [split; [done |]; split; [by rewrite alter_info_lookup, Ei |]; by case_decide |].
      rewrite decide_True by done. cbn. set_solver.
  - intros key' j Es. destruct (I2 key' j Es) as [? ?]. split; [done | by apply alter_info_is_Some].
  - intros j info' Ej Hr'. rewrite alter_info_lookup in Ej. destruct (sp_infos p !! j) as [info0|] eqn:E0; [|done].
    injection Ej as <-. apply (I4 j info0 E0). by case_decide.
  - intros key' j info' Es Ej Hr'. rewrite alter_info_lookup in Ej.
    destruct (sp_infos p !! j) as [info0|] eqn:E0; [|done]. injection Ej as <-.
    destruct (I5 key' j info0 Es E0) as [ws' Hws]; [by case_decide |].
    exists ws'. apply elem_of_cons in Hws as [Hws|Hws]; [done | done].
  - eapply Forall_impl; [exact I6 |]. intros t. by apply thread_ok_alter.
  - intros j info' Ej. rewrite alter_info_lookup in Ej. destruct (sp_infos p !! j) as [info0|] eqn:E0; [|done].
    injection Ej as <-. specialize (I7 j info0 E0). rewrite closers_cons in *. by case_decide.
Qed.

Lemma thread_inv resp t s ts :
  never_lent resp s -> plugin_inv s (t :: ts) -> plugin_inv (thread_step resp t s).1 ((thread_step resp t s).2 ++ ts).
Proof.
  intros Hf I. destruct s as [p lent out pk]. destruct t as [key|key i|key i ws|key i ws|key|key w|i w|[|k ks]];
    unfold thread_step; cbn [sh_pool sh_lent sh_out sh_panicked].
  - destruct (sp_sessions p !! key) as [i|] eqn:Es; cbn [fst snd app].
    + apply (plugin_inv_thread _ _ _ [_] I); try done; [by intros k ?%elem_of_nil |]. constructor; [|done].
      destruct (inv_sessions _ _ I key i Es) as [Hl [info Ei]]. split; [done |]. by exists info.
    + by eapply thread_end_inv.
  - unfold beginRelease. destruct (sp_infos p !! i) as [info|] eqn:Ei; [destruct (si_released info) eqn:Hr |];
      cbn [fst snd app]; [by eapply thread_end_inv | by apply (begin_inv p lent out pk key i info ts I) | by eapply thread_end_inv].
  - by apply delete_inv.
  - destruct (close_inv _ _ _ _ _ _ _ _ I) as (p' & -> & I'). exact I'.
  - destruct (lends resp) as [k|] eqn:El; unfold lend; rewrite El.
    + assert (getworker_answer resp = Ok k) as ->.
      { unfold lends in El. destruct resp as [r|]; [|done]. case_decide as Hst; [|done]. injection El as <-.
        cbn. by rewrite Hst. }
      cbn [fst snd app]. apply (ledger_inv p lent _ out _ pk (Borrowing key) ts (Borrowed key k) I); try done; [set_solver | | ].
      * intros k' Hk'. apply elem_of_union in Hk' as [Hk'|?]; [right; apply elem_of_singleton in Hk'; by apply list_elem_of_singleton | by left].
      * by intros k' ?%elem_of_nil.
    + cbn [fst snd]. destruct (getworker_answer resp) as [w|]; cbn [app]; [|by eapply thread_end_inv].
      apply (plugin_inv_thread _ _ _ [_] I); try done; [by intros k ?%elem_of_nil | by constructor].
  - destruct (sp_sessions p !! key) as [i|] eqn:Es; cbn [fst snd app].
    + apply (plugin_inv_thread _ _ _ [_] I); try done; [intros k Hk; exists (Adding i w); split; [by apply list_elem_of_singleton | done] |].
      constructor; [|done]. apply (inv_sessions _ _ I key i Es).
    + apply (plugin_inv_thread _ _ _ [_] I); try done; [|by constructor].
      intros k Hk. exists (Returning [w]). split; [by apply list_elem_of_singleton | done].
  - unfold addWorker. destruct (sp_infos p !! i) as [info|] eqn:Ei; [destruct (si_released info) eqn:Hr |]; cbn [fst snd app];
      [| by apply (add_inv p lent out pk i info w ts I) |];
      (apply (plugin_inv_thread _ _ _ [_] I); try done; [|by constructor];
       intros k Hk; exists (Returning [w]); split; [by apply list_elem_of_singleton | done]).
  - by eapply thread_end_inv.
  - cbn [fst snd app]. apply (ledger_inv p lent lent out _ pk (Returning (k :: ks)) ts (Returning ks) I); try done.
    + intros k' Hk'. set_solver.
    + intros k' Hk'. cbn [held] in *. apply elem_of_cons in Hk' as [->|Hk']; [right; set_solver | by left].
Qed.

(** ** New calls *)

Lemma spawn_inv s ts t :
  plugin_inv s ts -> thread_ok s t -> (forall i, closer_of i t = 0%nat) -> plugin_inv s (t :: ts).
Proof.
  intros [I1 I2 I3 I4 I5 I6 I7 I8] Hok Hc. split; try done.
  - intros k Hk. destruct (I1 k Hk) as [?|(t' & Ht & Hh)]; [by left |]. right. exists t'.
    split; [apply elem_of_cons; by right | done].
  - intros key i info Es Ei Hr. destruct (I5 key i info Es Ei Hr) as [ws Hws]. exists ws. apply elem_of_cons. by right.
  - by constructor.
  - intros i info Ei. rewrite closers_cons, Hc. by apply I7.
Qed.

Lemma untrack_lookup w p j :
  exists b : bool, sp_infos (untrack w p) !! j =
    (fun info => if b then info <| si_workers := si_workers info ∖ {[w]} |> else info) <$> sp_infos p !! j.
Proof.
  exists (bool_decide (j ∈ map snd (map_to_list (sp_sessions p)))). unfold untrack. cbn. by rewrite list_lookup_imap.
Qed.

Lemma untrack_inv p lent out pk w ts :
  plugin_inv (mkShared p lent out pk) ts -> plugin_inv (mkShared (untrack w p) lent out pk) (Returning [w] :: ts).
Proof.
  intros [I1 I2 I3 I4 I5 I6 I7 I8]. cbn [sh_pool sh_lent sh_out sh_panicked] in *.
  assert (forall j, is_Some (sp_infos p !! j) -> is_Some (sp_infos (untrack w p) !! j)) as Hsome.
  { intros j Hj. destruct (untrack_lookup w p j) as [b ->]. by rewrite fmap_is_Some. }
  assert (forall j info', sp_infos (untrack w p) !! j = Some info' -> exists info, sp_infos p !! j = Some info /\
            si_released info' = si_released info /\ si_closed info' = si_closed info) as Hback.
  { intros j info' Ej. destruct (untrack_lookup w p j) as [b E]. rewrite E in Ej.
    destruct (sp_infos p !! j) as [info|]; [|done]. injection Ej as <-. exists info. by destruct b. }
  split; cbn [sh_pool sh_lent sh_out sh_panicked]; try done.
  - intros k Hk. destruct (I1 k Hk) as [(key & j & info & (Es & Ej & Hr) & Hk')|(t & Ht & Hh)].
    + destruct (decide (k = w)) as [->|Hkw].
      { right. exists (Returning [w]). split; apply elem_of_cons; by left. }
      left. cbn [sh_pool] in *. destruct (untrack_lookup w p j) as [b E]. rewrite Ej in E.
      eexists key, j, _. split; [split; [done |]; split; [exact E |]; by destruct b |].
      destruct Hk' as [->|Hk']; [by left |]. right. destruct b; cbn; set_solver.
    + right. exists t. split; [apply elem_of_cons; by right | done].
  - intros key j Es. destruct (I2 key j Es). auto.
  - intros j info' Ej Hr. destruct (Hback j info' Ej) as (info & E & Hr' & _). apply (I4 j info E). congruence.
  - intros key j info' Es Ej Hr. destruct (Hback j info' Ej) as (info & E & Hr' & _).
    destruct (I5 key j info Es E) as [ws Hws]; [congruence |]. exists ws. apply elem_of_cons. by right.
  - constructor; [done |]. eapply Forall_impl; [exact I6 |].
    intros [] Ht; unfold thread_ok in *; cbn [sh_pool sh_lent] in *; try done; auto.
    + destruct Ht as (Hl & info & E & Hr). split; [done |]. destruct (untrack_lookup w p i) as [b E'].
      rewrite E in E'. eexists. split; [exact E' |]. intros Hr'. apply Hr. by destruct b.
    + destruct Ht as (Hl & Hs & Hr). split; [done |]. split; [auto |]. intros j info' Es Ej.
      destruct (Hback j info' Ej) as (info & E & Hr' & _). rewrite Hr'. by apply (Hr j info).
  - intros j info' Ej. destruct (Hback j info' Ej) as (info & E & -> & ->). rewrite closers_cons. by apply I7.
Qed.

Lemma get_inv p lent out pk k org api trace ts :
  plugin_inv (mkShared p lent out pk) ts -> k ∉ lent ->
  plugin_inv (mkShared (mkSessionPool (<[k := length (sp_infos p)]> (sp_sessions p))
                          (sp_infos p ++ [mkInfo org api trace ∅ false false false])) ({[k]} ∪ lent) ({[k]} ∪ out) pk) ts.
Proof.
  intros [I1 I2 I3 I4 I5 I6 I7 I8] Hf. cbn [sh_pool sh_lent sh_out sh_panicked] in *.
  set (n := length (sp_infos p)). set (new := mkInfo org api trace ∅ false false false).
  assert (forall key j, sp_sessions p !! key = Some j -> key <> k /\ j <> n /\ is_Some (sp_infos p !! j)) as Hold.
  { intros key j Es. destruct (I2 key j Es) as [Hl Hs]. split; [set_solver |]. split; [|done].
    apply lookup_lt_is_Some in Hs. unfold n. lia. }
  assert (forall j info, sp_infos p !! j = Some info -> (sp_infos p ++ [new]) !! j = Some info) as Happ
    by (intros j info Ej; by apply lookup_app_l_Some).
  assert (forall j info, (sp_infos p ++ [new]) !! j = Some info -> sp_infos p !! j = Some info \/ (j = n /\ info = new)) as Hback.
  { intros j info Ej. apply lookup_app_Some in Ej as [?|[Hj Ej]]; [by left |]. right.
    apply list_lookup_singleton_Some in Ej as [? <-]. split; [unfold n; lia | done]. }
  assert ((sp_infos p ++ [new]) !! n = Some new) as Hnew by (apply list_lookup_middle; done).
  assert (forall key j, <[k := n]> (sp_sessions p) !! key = Some j ->
            (key = k /\ j = n) \/ sp_sessions p !! key = Some j) as Hins.
  { intros key j Es. apply lookup_insert_Some in Es as [[-> ->]|[_ ?]]; auto. }
  split; cbn [sh_pool sh_lent sh_out sh_panicked sp_sessions sp_infos]; try done.
  - intros k' Hk'. apply elem_of_union in Hk' as [Hk'|Hk'].
    + apply elem_of_singleton in Hk' as ->. left. exists k, n, new. split; [|by left].
      split; [apply lookup_insert_eq | done].
    + destruct (I1 k' Hk') as [(key & j & info & (Es & Ej & Hr) & Ht)|Ht]; [left | by right].
      exists key, j, info. split; [|done]. destruct (Hold key j Es) as (Hne & _).
      split; [by apply lookup_insert_Some; right | split; [by apply Happ | done]].
  - intros key j [[-> ->]|Es]%Hins; [split; [set_solver | by eexists] |]. destruct (I2 key j Es) as [Hl [info Ej]].
    split; [set_solver |]. exists info. by apply Happ.
  - intros a b j [[-> ->]|Ea]%Hins [[-> Hb]|Eb]%Hins; [done | | |by apply (I3 a b j)].
    + by destruct (Hold b n Eb) as (_ & ? & _).
    + subst j. by destruct (Hold a n Ea) as (_ & ? & _).
  - intros j info [Ej|[-> ->]]%Hback Hr; [|exists k; apply lookup_insert_eq]. destruct (I4 j info Ej Hr) as [key Es].
    exists key. destruct (Hold key j Es) as (? & _). by apply lookup_insert_Some; right.
  - intros key j info [[-> ->]|Es]%Hins Ej Hr; [rewrite Hnew in Ej; by injection Ej as <- |].
    destruct (Hold key j Es) as (_ & Hj & _). apply Hback in Ej as [Ej|[? _]]; [|done]. by apply (I5 key j info).
  - eapply Forall_impl; [exact I6 |]. intros [] Ht; unfold thread_ok in *;
      cbn [sh_pool sh_lent sp_sessions sp_infos] in *; try done.
    + destruct Ht as (Hl & info & Ei & Hr). split; [set_solver |]. exists info. split; [by apply Happ |].
      intros Hr'. apply lookup_insert_Some. right. split; [set_solver | auto].
    + destruct Ht as (Hl & [info Ei] & Hr). split; [set_solver |]. split; [exists info; by apply Happ |].
      intros j info' [[-> ->]|Es]%Hins Ej; [set_solver |].
      destruct (Hold _ j Es) as (_ & Hj & _). apply Hback in Ej as [Ej|[? _]]; [|done]. by apply (Hr j info').
    + destruct Ht as [info Ei]. exists info. by apply Happ.
    + destruct Ht as [info Ei]. exists info. by apply Happ.
  - intros j info [Ej|[-> ->]]%Hback; [by apply I7 |]. cbn. rewrite Nat.add_0_r.
    assert (forall t, t ∈ ts -> closer_of n t = 0%nat) as Hz.
    { intros t Ht. rewrite list.Forall_forall in I6. specialize (I6 t Ht). unfold thread_ok in I6. cbn [sh_pool] in I6.
      destruct t; try done; cbn; case_decide; try done; subst i; exfalso.
      - destruct I6 as (_ & Hs & _). apply lookup_lt_is_Some in Hs. unfold n in Hs. lia.
      - apply lookup_lt_is_Some in I6. unfold n in I6. lia. }
    clear -Hz. unfold closers. induction ts as [|t ts IH]; [done |]. simpl. rewrite IH, Hz; [done | apply elem_of_cons; by left |].
    intros t' Ht'. apply Hz, elem_of_cons. by right.
Qed.

(** ** Every reachable state *)

Lemma internal_inv x y : internal_step x y -> plugin_inv (pl_shared x) (pl_threads x) -> plugin_inv (pl_shared y) (pl_threads y).
Proof.
  intros [resp t s ts1 ts2 Hf] I. cbn [pl_shared pl_threads] in *.
  apply (plugin_inv_Permutation _ ((thread_step resp t s).2 ++ ts1 ++ ts2)); [apply Permutation_app_swap_app |].
  apply thread_inv; [done |]. by apply (plugin_inv_Permutation _ (ts1 ++ t :: ts2)); [rewrite Permutation_middle |].
Qed.

Lemma step_inv x y : plugin_step x y -> plugin_inv (pl_shared x) (pl_threads x) -> plugin_inv (pl_shared y) (pl_threads y).
Proof.
  intros [x' y' Hi|resp h service org api trace s ts Hf Hid|h service key m req s ts _|key s ts|w s ts] I;
    cbn [pl_shared pl_threads] in *.
  - by apply (internal_inv x' y').
  - destruct s as [p lent out pk]. unfold Get. destruct (String.eqb_spec (session_id_of h) ""); [done |].
    unfold lend, never_lent, lends, get_answer in *. destruct resp as [r|[code e]].
    + destruct (bw_Status r) eqn:Est; case_decide; try done. by apply get_inv.
    + by destruct code.
  - by apply spawn_inv.
  - by apply spawn_inv.
  - destruct s as [p lent out pk]. by apply untrack_inv.
Qed.

Lemma internal_rtc_inv x y :
  rtc internal_step x y -> plugin_inv (pl_shared x) (pl_threads x) -> plugin_inv (pl_shared y) (pl_threads y).
Proof. induction 1 as [|x y z Hxy Hyz IH]; [done |]. intros I. by apply IH, (internal_inv x y). Qed.

Lemma idle_inv : plugin_inv (pl_shared idle_plugin) (pl_threads idle_plugin).
Proof. split; cbn; try done. Qed.

Lemma plugin_reachable_inv x : rtc plugin_step idle_plugin x -> plugin_inv (pl_shared x) (pl_threads x).
Proof.
  intros Hr. pose proof idle_inv as I. revert I. induction Hr as [|x y z Hxy Hyz IH]; [done |]. intros I.
  by apply IH, (step_inv x y).
Qed.

(** ** Calls end *)

(** The provider's answer when it is out of reach. *)
Definition unreachable : result connect_error BorrowWorkerResponse := Err (CodeUnavailable, ErrorsNew "unavailable").

Lemma thread_runs t s ts :
  internal_step (mkPlugin s (t :: ts))
    (mkPlugin (thread_step unreachable t s).1 ((thread_step unreachable t s).2 ++ ts)).
Proof. exact (is_thread unreachable t s [] ts Logic.I). Qed.

Lemma returning_ends ks s ts : exists s', rtc internal_step (mkPlugin s (Returning ks :: ts)) (mkPlugin s' ts).
Proof.
  revert s. induction ks as [|k ks IH]; intros s.
  - exists s. apply rtc_once, (thread_runs (Returning []) s ts).
  - destruct (IH (thread_step unreachable (Returning (k :: ks)) s).1) as [s' Hs]. exists s'.
    by eapply rtc_l; [apply (thread_runs (Returning (k :: ks)) s ts) |].
Qed.

Ltac run_thread :=
  cbn [fst snd app];
  match goal with
  | |- exists s', rtc internal_step (mkPlugin ?s (Returning ?ks :: ?ts)) _ => apply returning_ends
  | |- exists s', rtc internal_step (mkPlugin ?s ?ts) (mkPlugin s' ?ts) => exists s; apply rtc_refl
  end.

Lemma ends_after t s ts :
  (exists s', rtc internal_step (mkPlugin (thread_step unreachable t s).1 ((thread_step unreachable t s).2 ++ ts)) (mkPlugin s' ts)) ->
  exists s', rtc internal_step (mkPlugin s (t :: ts)) (mkPlugin s' ts).
Proof. intros [s' Hs]. exists s'. by eapply rtc_l; [apply thread_runs |]. Qed.

Lemma thread_ends t s ts : exists s', rtc internal_step (mkPlugin s (t :: ts)) (mkPlugin s' ts).
Proof.
  assert (forall key i ws s, exists s', rtc internal_step (mkPlugin s (ReleaseDeleted key i ws :: ts)) (mkPlugin s' ts)) as Hdel.
  { intros key i ws s0. apply ends_after. cbn. destruct (close_done i (sh_pool s0)); run_thread. }
  assert (forall key i s, exists s', rtc internal_step (mkPlugin s (ReleaseFound key i :: ts)) (mkPlugin s' ts)) as Hfound.
  { intros key i s0. apply ends_after. cbn. destruct (beginRelease i (sh_pool s0)) as [[ws|] p]; [|run_thread].
    apply ends_after. apply Hdel. }
  assert (forall i w s, exists s', rtc internal_step (mkPlugin s (Adding i w :: ts)) (mkPlugin s' ts)) as Hadd.
  { intros i w s0. apply ends_after. cbn. destruct (addWorker i w (sh_pool s0)) as [[] p]; run_thread. }
  destruct t as [key|key i|key i ws|key i ws|key|key w|i w|ks]; auto; apply ends_after; cbn.
  - destruct (sp_sessions (sh_pool s) !! key); [apply Hfound | run_thread].
  - apply Hdel.
  - run_thread.
  - destruct (sp_sessions (sh_pool s) !! key); [apply Hadd | run_thread].
  - destruct ks; run_thread.
Qed.

Lemma threads_end s ts : exists s', rtc internal_step (mkPlugin s ts) (mkPlugin s' []).
Proof.
  revert s. induction ts as [|t ts IH]; intros s; [exists s; apply rtc_refl |].
  destruct (thread_ends t s ts) as [s1 H1], (IH s1) as [s2 H2]. exists s2. by etrans.
Qed.

(** C8: the plugin never loses a worker slot.  Whatever requests start, end and
    overlap, in every state the plugin can reach: no channel is closed twice (no
    goroutine panics); every key the provider lent and was not asked to take back
    belongs to a session nobody began to release, or to a call in flight that
    returns it or hands it to such a session; and the calls in flight can always
    run to their end, after which only sessions that are still open hold keys. *)
Theorem plugin_never_leaks x :
  rtc plugin_step idle_plugin x ->
  sh_panicked (pl_shared x) = false /\
  (forall k, k ∈ sh_out (pl_shared x) -> accounted (pl_shared x) (pl_threads x) k) /\
  exists s', rtc internal_step x (mkPlugin s' []) /\ forall k, k ∈ sh_out s' -> tracked (sh_pool s') k.
Proof.
  intros Hr. apply plugin_reachable_inv in Hr as I. split; [apply I |]. split; [apply I |].
  destruct x as [s ts]. destruct (threads_end s ts) as [s' Hs]. exists s'. split; [done |].
  pose proof (internal_rtc_inv _ _ Hs I) as I'. cbn [pl_shared pl_threads] in I'.
  intros k Hk. destruct (inv_out _ _ I' k Hk) as [?|(t & Ht & _)]; [done |]. by apply elem_of_nil in Ht.
Qed.

(** ** A released session is gone *)

(** The session is not in the map, or its release is under way. *)
Definition release_under_way (key : string) s ts : Prop :=
  sp_sessions (sh_pool s) !! key = None \/
  exists t, t ∈ ts /\
    (t = Releasing key \/ (exists i, t = ReleaseFound key i /\ sp_sessions (sh_pool s) !! key = Some i) \/
     exists i ws, t = ReleaseBegun key i ws).

Lemma sessions_after resp t s key :
  sp_sessions (sh_pool (thread_step resp t s).1) !! key = sp_sessions (sh_pool s) !! key \/
  sp_sessions (sh_pool (thread_step resp t s).1) !! key = None.
Proof.
  destruct t as [k|k i|k i ws|k i ws|k|k w|i w|[|k ks]]; cbn; try by left.
  - left. unfold beginRelease. destruct (sp_infos _ !! i) as [info|]; [|done]. by destruct (si_released info).
  - destruct (decide (k = key)) as [->|]; [right; apply lookup_delete_eq | left; by apply lookup_delete_ne].
  - left. unfold close_done. destruct (sp_infos _ !! i) as [info|]; [|done]. by destruct (si_closed info).
  - left. unfold lend. by destruct (lends resp).
  - left. unfold addWorker. destruct (sp_infos _ !! i) as [info|]; [|done]. by destruct (si_released info).
Qed.

(** The release itself advances. *)
Lemma release_advances resp key t s ts :
  plugin_inv s (t :: ts) ->
  (t = Releasing key \/ (exists i, t = ReleaseFound key i /\ sp_sessions (sh_pool s) !! key = Some i) \/
   exists i ws, t = ReleaseBegun key i ws) ->
  release_under_way key (thread_step resp t s).1 ((thread_step resp t s).2 ++ ts).
Proof.
  intros I [->|[(i & -> & Es)|(i & ws & ->)]]; cbn.
  - destruct (sp_sessions (sh_pool s) !! key) as [i|] eqn:Es; [|by left]. right. eexists. cbn [app].
    split; [apply elem_of_cons; by left |]. right. left. by exists i.
  - destruct (inv_sessions _ _ I key i Es) as [_ [info Ei]]. unfold beginRelease. rewrite Ei.
    destruct (si_released info) eqn:Hr; right.
    + destruct (inv_released _ _ I key i info Es Ei Hr) as [ws Hws]. apply elem_of_cons in Hws as [?|Hws]; [done |].
      eexists. split; [exact Hws |]. right. right. by exists i, ws.
    + eexists. split; [apply elem_of_cons; by left |]. right. right. by eexists i, _.
  - left. apply lookup_delete_eq.
Qed.

Lemma release_step key x y :
  plugin_step x y -> plugin_inv (pl_shared x) (pl_threads x) -> key ∈ sh_lent (pl_shared x) ->
  release_under_way key (pl_shared x) (pl_threads x) -> release_under_way key (pl_shared y) (pl_threads y).
Proof.
  assert (forall s s' ts ts', (forall t, t ∈ ts -> t ∈ ts') ->
    (sp_sessions (sh_pool s') !! key = sp_sessions (sh_pool s) !! key \/ sp_sessions (sh_pool s') !! key = None) ->
    release_under_way key s ts -> release_under_way key s' ts') as Hmono.
  { intros s s' ts ts' Hsub [Es|Es] Hu; [|by left]. unfold release_under_way. rewrite Es.
    destruct Hu as [?|(t & Ht & Hu)]; [by left |]. right. exists t. auto. }
  intros [x' y' Hi|resp h service org api trace s ts Hf Hid|h service k m req s ts _|k s ts|w s ts] I Hl Hu;
    cbn [pl_shared pl_threads] in *.
  - destruct Hi as [resp t s ts1 ts2 Hf]. cbn [pl_shared pl_threads] in *.
    assert (plugin_inv s (t :: ts1 ++ ts2)) as I' by (by apply (plugin_inv_Permutation _ (ts1 ++ t :: ts2)); [rewrite Permutation_middle |]).
    assert (forall t0, t0 ∈ (thread_step resp t s).2 ++ ts1 ++ ts2 -> t0 ∈ ts1 ++ (thread_step resp t s).2 ++ ts2) as Hperm
      by (intros t0; by rewrite Permutation_app_swap_app).
    destruct Hu as [Hn|(t0 & Ht0 & Hu)].
    { left. by destruct (sessions_after resp t s key) as [->|?]. }
    rewrite <- Permutation_middle in Ht0. apply elem_of_cons in Ht0 as [->|Ht0].
    + apply (Hmono (thread_step resp t s).1 _ _ _ Hperm); [by left | by apply release_advances].
    + apply (Hmono s _ (ts1 ++ ts2)); [|apply sessions_after | right; by exists t0].
      intros t1 Ht1. apply Hperm, elem_of_app. by right.
  - apply (Hmono s _ ts); [done | | done]. left. unfold Get. destruct (String.eqb_spec (session_id_of h) ""); [done |].
    unfold lend, never_lent, lends, get_answer in *. destruct resp as [r|[code e]]; [|by destruct code].
    destruct (bw_Status r) eqn:Est; case_decide; try done. cbn. apply lookup_insert_ne. set_solver.
  - apply (Hmono s _ ts); [intros t Ht; apply elem_of_cons; by right | by left | done].
  - apply (Hmono s _ ts); [intros t Ht; apply elem_of_cons; by right | by left | done].
  - apply (Hmono s _ ts); [intros t Ht; apply elem_of_cons; by right | by left | done].
Qed.

Lemma lent_grows key x y : plugin_step x y -> key ∈ sh_lent (pl_shared x) -> key ∈ sh_lent (pl_shared y).
Proof.
  intros [x' y' [resp t s ts1 ts2 _]|resp h service org api trace s ts _ _|h service k m req s ts _|k s ts|w s ts] Hl;
    cbn [pl_shared] in *; try done.
  - destruct t as [k|k i|k i ws|k i ws|k|k w|i w|[|k ks]]; cbn; try done.
    + unfold beginRelease. destruct (sp_infos _ !! i) as [info|]; [|done]. by destruct (si_released info).
    + unfold close_done. destruct (sp_infos _ !! i) as [info|]; [|done]. by destruct (si_closed info).
    + unfold lend. destruct (lends resp); [|done]. cbn. set_solver.
    + unfold addWorker. destruct (sp_infos _ !! i) as [info|]; [|done]. by destruct (si_released info).
  - unfold lend. destruct (lends resp); [|done]. cbn. set_solver.
Qed.

(** C28: releasing a session frees what it borrowed.  After [Release] was called on
    a key the provider had lent, and however other calls overlap with it: once no
    call is in flight, the session is gone for good, its own key was returned, and
    a key that is still out belongs to another session. *)
Theorem release_frees_session x y key :
  rtc plugin_step idle_plugin x -> key ∈ sh_lent (pl_shared x) ->
  rtc plugin_step (mkPlugin (pl_shared x) (Releasing key :: pl_threads x)) y -> pl_threads y = [] ->
  sp_sessions (sh_pool (pl_shared y)) !! key = None /\
  forall k, k ∈ sh_out (pl_shared y) ->
    exists key' i info, live_session (sh_pool (pl_shared y)) key' i info /\ key' <> key /\
      (k = key' \/ k ∈ si_workers info).
Proof.
  intros Hx Hl Hy Hts. set (x' := mkPlugin (pl_shared x) (Releasing key :: pl_threads x)) in Hy.
  assert (plugin_step x x') as Hxx' by (destruct x; apply pls_release).
  assert (rtc plugin_step idle_plugin x') as Hx' by (by eapply rtc_r).
  assert (plugin_inv (pl_shared y) (pl_threads y) /\ release_under_way key (pl_shared y) (pl_threads y)) as [I Hu].
  { apply plugin_reachable_inv in Hx'. clear Hx Hxx'. assert (release_under_way key (pl_shared x') (pl_threads x')) as Hu.
    { right. exists (Releasing key). split; [apply elem_of_cons; by left | by left]. }
    change (key ∈ sh_lent (pl_shared x')) in Hl. revert Hx' Hu Hl. clear Hts. clearbody x'.
    induction Hy as [|a b c Hab Hbc IH]; [done |]. intros I Hu Hl.
    apply IH; [by apply (step_inv a b) | by apply (release_step key a b) | by apply (lent_grows key a b)]. }
  rewrite Hts in *.
  assert (sp_sessions (sh_pool (pl_shared y)) !! key = None) as Hn.
  { destruct Hu as [?|(t & Ht & _)]; [done | by apply elem_of_nil in Ht]. }
  split; [done |]. intros k Hk.
  destruct (inv_out _ _ I k Hk) as [(key' & i & info & Hlive & Hk')|(t & Ht & _)]; [|by apply elem_of_nil in Ht].
  exists key', i, info. split; [done |]. split; [|done]. intros ->. destruct Hlive as (Es & _). congruence.
Qed.
End Ledger.

(** ** Keep-alive *)

Section KeepAlive.
Context `{Dsession} `{Uint256} `{Eth} `{!GlobalRepository R} `{!GlobalRepositoryLaws}.

(** What the provider tells the keep-alive of a worker of a session. *)
Lemma KeepAlive_answer now key (r : R) worker s :
  key <> ""%string -> WorkerGet r key = Ok worker -> SessionGet r (wk_SessionID worker) = Ok s ->
  Pretty (s_Payer s) = Pretty (wk_Payer worker) ->
  (KeepAlive now key r).1 = if IsActive s then Ok tt else Err (sessionStateError (Some s)).
Proof.
  intros Hk Hw Hs Hp. unfold KeepAlive. destruct (String.eqb_spec key ""); [done |]. rewrite Hw.
  unfold authorizeSession. rewrite Hs, Hp, String.eqb_refl. cbn [negb]. by destruct (IsActive s).
Qed.

(** C4: a stream that is not paid for is stopped.  When the metered usage of an
    active session was evaluated, the next keep-alive of the plugin ends the
    stream of that session, with the error for an exceeded quota, exactly when the
    accepted value plus the accrued cost exceeds the escrow balance; otherwise the
    keep-alive goes on. *)
Theorem unpaid_stream_is_stopped cfg env id (g : Gateway R) s b g' now key worker delay errorMode p i info :
  SessionGet (g_repo g) id = Ok s -> IsActive s = true ->
  GetEscrowBalance cfg env (s_Payer s) = Ok (Some b) ->
  evaluateMeteredUsage cfg env id g = (Ok tt, g') ->
  key <> ""%string -> WorkerGet (g_repo g') key = Ok worker -> wk_SessionID worker = id ->
  Pretty (wk_Payer worker) = Pretty (s_Payer s) ->
  sp_sessions p !! key = Some i -> sp_infos p !! i = Some info ->
  let owed := (rav_value (s_CurrentRAV s) + accrued s)%Z in
  match keepAlive_tick delay true (fun k => (KeepAlive now k (g_repo g')).1) key errorMode p with
  | Stopped reported => (owed > b)%Z /\ reported = Some (Wrapf "%w: %s" dsession_ErrQuotaExceeded)
  | Ticking _ _ => (owed <= b)%Z
  end.
Proof.
  intros Eg Ha Eb E Hk Hw Hid Hp Es Ei owed.
  destruct (assess_known cfg env s b Eb) as (Hi & _). fold owed in Hi.
  destruct (evaluate_stores cfg env id g s g' Eg Ha E) as [(s' & Es' & Hs') _]. cbv zeta in *.
  assert (SessionGet (g_repo g') id = Ok s') as Eg'.
  { unfold session_at in Es'. destruct (SessionGet (g_repo g') id); [by injection Es' as -> | done]. }
  assert (s_Payer s' = s_Payer s) as Hpay by (by rewrite Hs').
  assert (s_Status s' = if (owed >? b)%Z then SessionStatusTerminated else SessionStatusActive) as Hst.
  { rewrite Hs'. unfold IsActive in Ha. bool_props. rewrite <- Ha, <- Hi. unfold assessed. by destruct (insufficient _). }
  assert ((owed > b)%Z -> s_EndReason s' = END_REASON_PAYMENT_ISSUE) as Hend.
  { intros Ho. rewrite Hs'. unfold assessed. rewrite Hi.
    destruct (Z.gtb_spec owed b); [done | lia]. }
  unfold keepAlive_tick. rewrite Es. cbn [mbind option_bind]. rewrite Ei.
  rewrite (KeepAlive_answer now key (g_repo g') worker s'); [|done|done|by rewrite Hid|congruence].
  unfold IsActive. rewrite Hst. destruct (Z.gtb_spec owed b) as [Ho|Ho].
  - rewrite bool_decide_false by done. unfold sessionStateError. rewrite Hend by lia.
    rewrite bool_decide_true by done. split; [lia | done].
  - rewrite bool_decide_true by done. repeat case_match; simplify_eq; done.
Qed.
End KeepAlive.

(** ** Concrete runs *)
Module PluginWitness.
#[global] Instance names : Dsession := {
  ErrUnavailable := ErrorsNew "unavailable";
  ErrPermissionDenied := ErrorsNew "permission denied";
  dsession_ErrQuotaExceeded := ErrorsNew "quota exceeded";
  ErrConcurrentStreamLimitExceeded := ErrorsNew "concurrent stream limit exceeded";
  ErrSessionNotFound := ErrorsNew "session not found";
  ErrWorkersLimitExceeded := ErrorsNew "workers limit exceeded";
  Trusted_Get h k := default ""%string (h !! k)
}.

Definition lending (k : string) : result connect_error BorrowWorkerResponse :=
  Ok (mkBorrowResp k BORROW_STATUS_BORROWED 10 1).
Definition headers : option (gmap string string) := Some {[HeaderSessionID := "s1"%string]}.

Definition got (k : string) (x : plugin) : plugin :=
  let s := pl_shared x in
  mkPlugin ((lend (lending k) s) <| sh_pool := (Get (fun _ => lending k) headers "substreams" "org" "" "" (sh_pool s)).2 |>)
    (pl_threads x).
Definition spawned (t : thread) (x : plugin) : plugin := mkPlugin (pl_shared x) (t :: pl_threads x).
(** The first call in flight makes a step. *)
Definition stepped (k : string) (x : plugin) : plugin :=
  match pl_threads x with
  | t :: ts => mkPlugin (thread_step (lending k) t (pl_shared x)).1 ((thread_step (lending k) t (pl_shared x)).2 ++ ts)
  | [] => x
  end.
Definition dropped (w : string) (x : plugin) : plugin :=
  mkPlugin ((pl_shared x) <| sh_pool := untrack w (sh_pool (pl_shared x)) |>) (Returning [w] :: pl_threads x).

Definition unlent (k : string) (x : plugin) : bool := bool_decide (k ∉ sh_lent (pl_shared x)).

Lemma got_step k x : unlent k x = true -> plugin_step x (got k x).
Proof. intros Hu. apply bool_decide_eq_true in Hu. destruct x as [s ts]. by apply (pls_get (lending k) headers). Qed.
Lemma borrowing_step key x :
  is_ok (getworker_request headers "substreams" key 5 (sh_pool (pl_shared x))) = true ->
  plugin_step x (spawned (Borrowing key) x).
Proof.
  destruct x as [s ts]. cbn [pl_shared pl_threads]. intros Ho.
  destruct (getworker_request headers "substreams" key 5 (sh_pool s)) as [req|] eqn:E; [|done].
  exact (pls_getworker headers "substreams" key 5 req s ts E).
Qed.
Lemma releasing_step key x : plugin_step x (spawned (Releasing key) x).
Proof. destruct x. apply pls_release. Qed.
Lemma stepped_step k x : unlent k x = true -> pl_threads x <> [] -> plugin_step x (stepped k x).
Proof.
  intros Hu Hn. apply bool_decide_eq_true in Hu. destruct x as [s [|t ts]]; [done |].
  apply pls_internal. exact (is_thread (lending k) t s [] ts Hu).
Qed.
Lemma dropped_step w x : plugin_step x (dropped w x).
Proof. destruct x. apply pls_releaseworker. Qed.

(** A worker is on its way into a session whose release has begun. *)
Definition x_race : plugin :=
  stepped "z" (stepped "z" (spawned (Releasing "k")
    (stepped "z" (stepped "w" (spawned (Borrowing "k") (got "k" idle_plugin)))))).
Lemma x_race_reachable : rtc plugin_step idle_plugin x_race.
Proof.
  unfold x_race. repeat (eapply rtc_r; [|first [apply releasing_step | apply got_step; vm_compute; reflexivity
    | apply stepped_step; [vm_compute; reflexivity | vm_compute; discriminate]
    | apply borrowing_step; vm_compute; reflexivity]]). apply rtc_refl.
Qed.
Lemma x_race_threads : pl_threads x_race = [ReleaseBegun "k" 0 []; Adding 0 "w"].
Proof. vm_compute. reflexivity. Qed.
Lemma x_race_out : bool_decide ("w"%string ∈ sh_out (pl_shared x_race)) = true.
Proof. vm_compute. reflexivity. Qed.

(** A worker of a session is released while the session is. *)
Definition x_twice : plugin :=
  dropped "w" (stepped "z" (stepped "z" (spawned (Releasing "k")
    (stepped "z" (stepped "z" (stepped "w" (spawned (Borrowing "k") (got "k" idle_plugin)))))))).
Lemma x_twice_reachable : rtc plugin_step idle_plugin x_twice.
Proof.
  unfold x_twice. repeat (eapply rtc_r; [|first [apply dropped_step | apply releasing_step | apply got_step; vm_compute; reflexivity
    | apply stepped_step; [vm_compute; reflexivity | vm_compute; discriminate]
    | apply borrowing_step; vm_compute; reflexivity]]). apply rtc_refl.
Qed.

(** Both calls return the worker: nothing keeps them from calling the provider's
    [ReturnWorker] at the same time, which releases two slots there. *)
Lemma worker_returned_twice :
  exists x, rtc plugin_step idle_plugin x /\ pl_threads x = [Returning ["w"]; ReleaseBegun "k" 0 ["w"]].
Proof. exists x_twice. split; [exact x_twice_reachable | vm_compute; reflexivity]. Qed.

Definition x_open : plugin := got "k" idle_plugin.
Lemma x_open_reachable : rtc plugin_step idle_plugin x_open.
Proof. apply rtc_once, got_step. vm_compute. reflexivity. Qed.
Lemma x_open_lent : bool_decide ("k"%string ∈ sh_lent (pl_shared x_open)) = true.
Proof. vm_compute. reflexivity. Qed.
Definition x_closed : plugin := stepped "z" (stepped "z" (stepped "z" (stepped "z" (stepped "z" (stepped "z"
  (spawned (Releasing "k") x_open)))))).
Lemma x_closed_reachable : rtc plugin_step (spawned (Releasing "k") x_open) x_closed.
Proof.
  unfold x_closed. repeat (eapply rtc_r; [|apply stepped_step; [vm_compute; reflexivity | vm_compute; discriminate]]).
  apply rtc_refl.
Qed.
Lemma x_closed_idle : pl_threads x_closed = [].
Proof. vm_compute. reflexivity. Qed.
End PluginWitness.

Lemma plugin_never_leaks_witness :
  accounted (pl_shared PluginWitness.x_race) (pl_threads PluginWitness.x_race) "w"%string.
Proof.
  exact (proj1 (proj2 (plugin_never_leaks PluginWitness.x_race PluginWitness.x_race_reachable)) "w"%string
    (bool_decide_eq_true_1 _ PluginWitness.x_race_out)).
Defined.

Lemma release_frees_session_witness :
  sp_sessions (sh_pool (pl_shared PluginWitness.x_closed)) !! "k"%string = None.
Proof.
  apply (release_frees_session PluginWitness.x_open PluginWitness.x_closed "k" PluginWitness.x_open_reachable
    (bool_decide_eq_true_1 _ PluginWitness.x_open_lent)
    PluginWitness.x_closed_reachable PluginWitness.x_closed_idle).
Defined.

Import Reference.

Module StoppedWitness.
Import AccountingWitness.
Import FundsWitness.

(** The session of [FundsWitness] with a worker, evaluated with a balance of 103. *)
Definition worker : Worker := mkWorker "k" "s1" payer 0 "".
Definition g_worker : Gateway InMemoryRepository := g3 <| g_repo := (g_repo g3) <| im_workers := {["k"%string := worker]} |> |>.
Abbreviation evaluated_worker := (evaluateMeteredUsage cfg_escrow env_poor "s1" g_worker).
Lemma active_worker : active_check g_worker = true.
Proof. vm_compute. reflexivity. Qed.
Lemma evaluated_worker_ok : is_ok evaluated_worker.1 = true.
Proof. vm_compute. reflexivity. Qed.
Definition worker_check (g : Gateway InMemoryRepository) : bool :=
  match im_workers (g_repo g) !! "k"%string with
  | Some w => String.eqb (wk_SessionID w) "s1" && String.eqb (Pretty (wk_Payer w)) (Pretty payer)
  | None => false
  end.
Lemma worker_check_sound g :
  worker_check g = true ->
  exists w, WorkerGet (g_repo g) "k" = Ok w /\ wk_SessionID w = "s1"%string /\ Pretty (wk_Payer w) = Pretty payer.
Proof.
  unfold worker_check. intros Hc. cbn. unfold im_WorkerGet. destruct (im_workers (g_repo g) !! "k"%string) as [w|]; [|done].
  apply andb_prop in Hc as [H1%String.eqb_eq H2%String.eqb_eq]. eauto.
Qed.
Lemma worker_stays : worker_check evaluated_worker.2 = true.
Proof. vm_compute. reflexivity. Qed.
Definition payer_check (g : Gateway InMemoryRepository) : bool :=
  match SessionGet (g_repo g) "s1" with Ok s => String.eqb (Pretty payer) (Pretty (s_Payer s)) | Err _ => false end.
Lemma payer_check_sound g s :
  payer_check g = true -> SessionGet (g_repo g) "s1" = Ok s -> Pretty payer = Pretty (s_Payer s).
Proof. unfold payer_check. intros Hc E. rewrite E in Hc. by apply String.eqb_eq. Qed.
Lemma payer_worker : payer_check g_worker = true.
Proof. vm_compute. reflexivity. Qed.
End StoppedWitness.

Lemma unpaid_stream_is_stopped_witness :
  let p := mkSessionPool {["k"%string := 0%nat]} [mkInfo "" "" "" ∅ false false false] in
  match keepAlive_tick 20 true (fun k => (KeepAlive 0 k (g_repo StoppedWitness.evaluated_worker.2)).1) "k" false p with
  | Stopped reported => reported = Some (Wrapf "%w: %s" dsession_ErrQuotaExceeded)
  | Ticking _ _ => False
  end.
Proof.
  destruct (FundsWitness.active_check_sound _ StoppedWitness.active_worker) as (s & Es & Ha & Hv & Hd).
  destruct (StoppedWitness.worker_check_sound _ StoppedWitness.worker_stays) as (w & Ew & Hs & Hp).
  pose proof (unpaid_stream_is_stopped FundsWitness.cfg_escrow FundsWitness.env_poor "s1" StoppedWitness.g_worker s 103
    StoppedWitness.evaluated_worker.2 0 "k" w 20 false
    (mkSessionPool {["k"%string := 0%nat]} [mkInfo "" "" "" ∅ false false false]) 0
    (mkInfo "" "" "" ∅ false false false) Es Ha eq_refl (FundsWitness.is_ok_unit _ StoppedWitness.evaluated_worker_ok)
    ltac:(discriminate) Ew Hs (eq_trans Hp (StoppedWitness.payer_check_sound _ s StoppedWitness.payer_worker Es))
    eq_refl eq_refl) as Ht.
  cbv zeta in *. rewrite Hv, Hd in Ht. destruct (keepAlive_tick _ _ _ _ _ _) as [r|m r].
  - exact (proj2 Ht).
  - exact (Ht eq_refl).
Defined.
