(* ===== verification/PluginMetering.v ===== *)
(** The metering plugin ([provider/plugin/metering.go]), which runs inside
    firehose-core: requests emit usage events into a bounded buffer, and one
    goroutine collects them into batches that it reports to the provider's usage
    service.

    [Emit] is atomic under the emitter's mutex.  The goroutine's loop makes one
    step per [select]; a report is a synchronous call whose failure is only
    logged, so its batch is recorded as reported in either case. *)
From S2P Require Import Prelude.
From S2P Require Import GoStd.
From S2P Require Import External.
From S2P Require Import GRT.
From S2P Require Import Horizon.
From S2P Require Import Proto.
From S2P Require Import Repository.
From S2P Require Import Runtime.
From S2P Require Import Gateway.
From S2P Require Import GatewayProps.
From S2P Require Import InMemory.
From S2P Require Import InMemoryProps.
From S2P Require Import Accounting.
From S2P Require Import UsageService.
From S2P Require Import SessionService.
From S2P Require Import AuthService.
From S2P Require Import PluginSession.
From S2P Require Import PluginSessionProps.

(** The metrics of an event are [float64] values; the conversion to [int64] is
    the machine's. *)
Class Float64 : Type := {
  float64 : Type;
  int64_of_float : float64 -> Z
}.

Section Metering.
Context `{Float64} `{Dsession}.

(** [dmetering.Event]; its metrics in the order the map yields them. *)
Record MeteringEvent : Type := mkMeteringEvent {
  me_OrganizationID : string;
  me_ApiKeyID : string;
  me_Endpoint : string;
  me_Network : string;
  me_Timestamp : time;
  me_Metrics : list (string * float64)
}.

Record emittedEvent : Type := mkEmitted { em_Event : MeteringEvent; em_SessionID : string }.

Definition eventToProto (ev : emittedEvent) : Event :=
  let e := em_Event ev in
  mkEvent (Some (me_Timestamp e)) (me_OrganizationID e) (me_ApiKeyID e) (me_Endpoint e) (me_Network e) (em_SessionID ev)
    (map (fun '(name, value) => Some (mkMetric name (wrap_s64 (int64_of_float value)))) (me_Metrics e)).

(** The loop of [launch]: running, flushing after the shutdown began, done. *)
Inductive loop_state : Type := Running | Flushing | Done.

Record meteringEmitter : Type := mkEmitter {
  mm_network : string;
  mm_capacity : nat;
  mm_panicOnDrop : bool;
  mm_buffer : list emittedEvent;
  mm_activeBatch : list Event;
  mm_shuttingDown : bool;
  mm_terminating : bool;
  mm_loop : loop_state;
  mm_reports : list (list Event)
}.
#[global] Instance meteringEmitter_eta : Eta meteringEmitter := fun e =>
  mkEmitter (mm_network e) (mm_capacity e) (mm_panicOnDrop e) (mm_buffer e) (mm_activeBatch e) (mm_shuttingDown e)
    (mm_terminating e) (mm_loop e) (mm_reports e).

Definition newMeteringEmitter (network : string) (bufferSize : nat) (panicOnDrop : bool) : meteringEmitter :=
  mkEmitter network bufferSize panicOnDrop [] [] false false Running [].

(** A report timeout that is not positive becomes 30 seconds. *)
Definition defaultMeteringReportTimeout : Z := 30 * 10 ^ 9.
Definition effective_report_timeout (reportTimeout : Z) : Z :=
  if reportTimeout <=? 0 then defaultMeteringReportTimeout else reportTimeout.

(** What becomes of an event. *)
Inductive emission : Type := Queued (ev : emittedEvent) | DroppedEvent | EmitPanic.

Definition Emit (trustedHeaders : gmap string string) (ev : MeteringEvent) (e : meteringEmitter) :
    emission * meteringEmitter :=
  if String.eqb (me_Endpoint ev) "" then (DroppedEvent, e) else
  if mm_terminating e then (DroppedEvent, e) else
  if mm_shuttingDown e then (DroppedEvent, e) else
  if (length (mm_buffer e) <? mm_capacity e)%nat then
    let queued := mkEmitted ev (Trusted_Get trustedHeaders HeaderSessionID) in
    (Queued queued, e <| mm_buffer := mm_buffer e ++ [queued] |>)
  else (if mm_panicOnDrop e then EmitPanic else DroppedEvent, e).

(** [emit]: an empty batch is not reported. *)
Definition emit (events : list Event) (e : meteringEmitter) : meteringEmitter :=
  match events with
  | [] => e
  | _ => e <| mm_reports := mm_reports e ++ [events] |>
  end.

Definition beginShutdown (e : meteringEmitter) : meteringEmitter := e <| mm_shuttingDown := true |>.

(** [ev.Network = e.network], then the event joins the batch. *)
Definition with_network (network : string) (ev : emittedEvent) : emittedEvent :=
  let m := em_Event ev in
  mkEmitted (mkMeteringEvent (me_OrganizationID m) (me_ApiKeyID m) (me_Endpoint m) network (me_Timestamp m) (me_Metrics m))
    (em_SessionID ev).
Definition collect (ev : emittedEvent) (rest : list emittedEvent) (e : meteringEmitter) : meteringEmitter :=
  e <| mm_buffer := rest |>
    <| mm_activeBatch := mm_activeBatch e ++ [eventToProto (with_network (mm_network e) ev)] |>.

(** One [select] of the loop of [launch] or of [flushAndClose]; several cases may
    be ready. *)
Inductive loop_step : meteringEmitter -> meteringEmitter -> Prop :=
  | ls_terminating e :
      mm_loop e = Running -> mm_terminating e = true ->
      loop_step e ((beginShutdown e) <| mm_loop := Flushing |>)
  | ls_tick e :
      mm_loop e = Running ->
      loop_step e ((emit (mm_activeBatch e) e) <| mm_activeBatch := [] |>)
  | ls_receive e ev rest :
      mm_loop e = Running -> mm_buffer e = ev :: rest -> loop_step e (collect ev rest e)
  | ls_flush e ev rest :
      mm_loop e = Flushing -> mm_buffer e = ev :: rest -> loop_step e (collect ev rest e)
  | ls_done e :
      mm_loop e = Flushing -> mm_buffer e = [] ->
      loop_step e ((emit (mm_activeBatch e) e) <| mm_loop := Done |>).

(** The emitter with the events it took, in order. *)
Inductive emitter_step : meteringEmitter * list emittedEvent -> meteringEmitter * list emittedEvent -> Prop :=
  | es_loop e e' taken : loop_step e e' -> emitter_step (e, taken) (e', taken)
  | es_emit h ev e taken :
      emitter_step (e, taken)
        ((Emit h ev e).2, match (Emit h ev e).1 with Queued q => taken ++ [q] | _ => taken end)
  | es_shutdown e taken : emitter_step (e, taken) (e <| mm_terminating := true |>, taken).

(** The events the provider is told about, in order. *)
Definition reported (e : meteringEmitter) : list Event := concat (mm_reports e).
Definition as_reported (network : string) (ev : emittedEvent) : Event := eventToProto (with_network network ev).

(** ** No event is lost or repeated *)

Record emitter_inv (network : string) (capacity : nat) (e : meteringEmitter) (taken : list emittedEvent) : Prop := {
  ei_network : mm_network e = network;
  ei_capacity : mm_capacity e = capacity;
  ei_bounded : (length (mm_buffer e) <= capacity)%nat;
  ei_flushing : mm_loop e <> Running -> mm_shuttingDown e = true;
  ei_conserved :
    match mm_loop e with
    | Done => mm_buffer e = [] /\ reported e = map (as_reported network) taken
    | _ => reported e ++ mm_activeBatch e ++ map (as_reported network) (mm_buffer e) = map (as_reported network) taken
    end;
  ei_nonempty : Forall (fun batch => batch <> []) (mm_reports e)
}.

Lemma emit_reported events e : reported (emit events e) = reported e ++ events.
Proof.
  unfold reported, emit. destruct events as [|ev events]; [by rewrite app_nil_r |].
  cbn. by rewrite concat_app, concat_cons, app_nil_r.
Qed.

Lemma emit_nonempty events e :
  Forall (fun batch => batch <> []) (mm_reports e) -> Forall (fun batch => batch <> []) (mm_reports (emit events e)).
Proof. intros Hn. unfold emit. destruct events; [done |]. cbn. apply Forall_app. split; [done |]. by repeat constructor. Qed.

Lemma emit_frame events e :
  mm_network (emit events e) = mm_network e /\ mm_capacity (emit events e) = mm_capacity e /\
  mm_buffer (emit events e) = mm_buffer e /\ mm_shuttingDown (emit events e) = mm_shuttingDown e /\
  mm_loop (emit events e) = mm_loop e.
Proof. by destruct events. Qed.

Lemma collect_inv network capacity ev rest e taken :
  mm_loop e <> Done -> mm_buffer e = ev :: rest ->
  emitter_inv network capacity e taken -> emitter_inv network capacity (collect ev rest e) taken.
Proof.
  intros Hl Hb [I1 I2 I3 I4 I5 I6]. rewrite Hb in I3, I5. split; try done; cbn [collect mm_buffer mm_loop].
  - cbn in *. lia.
  - destruct (mm_loop e) eqn:E; [| |done]; unfold collect; cbn; rewrite E; cbn in I5; rewrite I1;
      unfold reported in *; cbn; by rewrite <- I5, <- app_assoc.
Qed.

Lemma loop_inv network capacity e e' taken :
  loop_step e e' -> emitter_inv network capacity e taken -> emitter_inv network capacity e' taken.
Proof.
  intros [e0 Hl Ht|e0 Hl|e0 ev rest Hl Hb|e0 ev rest Hl Hb|e0 Hl Hb] I; [| |by apply collect_inv; [congruence | |]..|];
    destruct I as [I1 I2 I3 I4 I5 I6]; rewrite Hl in I5.
  - by split.
  - destruct (emit_frame (mm_activeBatch e0) e0) as (F1 & F2 & F3 & F4 & F5).
    split; cbn; rewrite ?F1, ?F2, ?F3, ?F4, ?F5; try done; [|by apply emit_nonempty].
    rewrite Hl. change (reported (emit (mm_activeBatch e0) e0) ++ [] ++ map (as_reported network) (mm_buffer e0) =
                        map (as_reported network) taken). by rewrite emit_reported, <- app_assoc.
  - destruct (emit_frame (mm_activeBatch e0) e0) as (F1 & F2 & F3 & F4 & F5).
    split; cbn; rewrite ?F1, ?F2, ?F3, ?F4; try done; [intros _; apply I4; congruence | |by apply emit_nonempty].
    split; [done |]. change (reported (emit (mm_activeBatch e0) e0) = map (as_reported network) taken).
    rewrite emit_reported, <- I5, Hb. by rewrite app_nil_r.
Qed.

Lemma Emit_inv network capacity h ev e taken :
  emitter_inv network capacity e taken ->
  emitter_inv network capacity (Emit h ev e).2 (match (Emit h ev e).1 with Queued q => taken ++ [q] | _ => taken end).
Proof.
  intros I. unfold Emit. destruct (String.eqb _ _); [done |]. destruct (mm_terminating e); [done |].
  destruct (mm_shuttingDown e) eqn:Es; [done |].
  destruct (Nat.ltb_spec (length (mm_buffer e)) (mm_capacity e)) as [Hc|Hc]; [|by destruct (mm_panicOnDrop e)].
  destruct I as [I1 I2 I3 I4 I5 I6]. assert (mm_loop e = Running) as Hl.
  { destruct (mm_loop e) eqn:E; [done | |]; rewrite I4 in Es; done. }
  split; cbn; try done; [rewrite length_app; cbn; lia |].
  rewrite Hl in *. rewrite !map_app, <- I5. unfold reported. by rewrite <- !app_assoc.
Qed.

Lemma emitter_reachable_inv network capacity pod e taken :
  rtc emitter_step (newMeteringEmitter network capacity pod, []) (e, taken) -> emitter_inv network capacity e taken.
Proof.
  intros Hr. assert (emitter_inv network capacity (newMeteringEmitter network capacity pod) []) as I.
  { split; try done. cbn. lia. }
  change (emitter_inv network capacity (e, taken).1 (e, taken).2).
  change (emitter_inv network capacity (newMeteringEmitter network capacity pod, ([] : list emittedEvent)).1
            (newMeteringEmitter network capacity pod, ([] : list emittedEvent)).2) in I.
  revert I. induction Hr as [|x y z Hxy Hyz IH]; [done |]. intros I. apply IH.
  destruct Hxy as [e0 e0' tk Hl|h ev e0 tk|e0 tk]; cbn in *;
    [by apply (loop_inv _ _ e0) | by apply Emit_inv | by destruct I; split].
Qed.

(** The shutdown completes: the loop takes what is left in the buffer and ends. *)
Lemma flush_completes n e :
  mm_loop e = Flushing -> length (mm_buffer e) = n ->
  exists e', nsteps loop_step (S n) e e' /\ mm_loop e' = Done.
Proof.
  revert e. induction n as [|n IH]; intros e Hl Hb.
  - eexists. split; [apply nsteps_once, ls_done; [done | by apply nil_length_inv] | done].
  - destruct (mm_buffer e) as [|ev rest] eqn:E; [done |]. cbn in Hb.
    destruct (IH (collect ev rest e)) as (e' & He & Hd); [done | cbn; lia |].
    exists e'. split; [|done]. eapply nsteps_l; [by apply ls_flush | done].
Qed.

End Metering.

(** ** What the provider charges *)
Section Charging.
Context `{Float64} `{Dsession} `{Uint256Laws} `{Eth}.

(** The price of an event, and what the events of a list cost a session. *)
Definition event_price (pricing : PricingConfig) (id : string) (e : Event) : Z :=
  if String.eqb (ev_SdsSessionId e) "" then 0
  else if String.eqb (ev_SdsSessionId e) id then event_cost pricing (protoEventToUsageEvent 0 e) else 0.
Definition events_price (pricing : PricingConfig) (id : string) (events : list Event) : Z :=
  foldr (fun e acc => event_price pricing id e + acc) 0 events.

(** The time of the report does not enter the price. *)
Lemma metrics_time ms ue ue' :
  ue_Blocks ue = ue_Blocks ue' -> ue_Bytes ue = ue_Bytes ue' ->
  ue_Blocks (fold_left add_metric ms ue) = ue_Blocks (fold_left add_metric ms ue') /\
  ue_Bytes (fold_left add_metric ms ue) = ue_Bytes (fold_left add_metric ms ue').
Proof.
  revert ue ue'. induction ms as [|m ms IH]; intros ue ue' Hb Hy; [done |]. cbn. apply IH; unfold add_metric;
    destruct m as [m|]; try done; repeat case_match; cbn; congruence.
Qed.

Lemma charge_price pricing id env e : charge pricing id (env, Some e) = event_price pricing id e.
Proof.
  unfold charge, event_price. destruct (String.eqb _ ""); [done |]. destruct (String.eqb _ id); [|done].
  unfold event_cost, protoEventToUsageEvent, SanitizedTotals.
  destruct (metrics_time (ev_Metrics e) (mkUsageEvent (default (env_now env) (ev_Timestamp e)) 0 0 0)
    (mkUsageEvent (default 0 (ev_Timestamp e)) 0 0 0)) as [-> ->]; done.
Qed.

(** The provider handles the reports one after the other; each event is priced in
    the world at that moment. *)
Definition deliver cfg pricing runtime (batches : list (list (Env * option Event))) (g : Gateway InMemoryRepository) :
    Gateway InMemoryRepository :=
  fold_left (fun g batch => (Report cfg pricing runtime batch g).2) batches g.

Lemma deliver_concat cfg pricing runtime batches g :
  deliver cfg pricing runtime batches g =
  fold_left (fun g '(env, event) => report_event cfg pricing runtime env event g) (concat batches) g.
Proof.
  revert g. induction batches as [|b batches IH]; intros g; [done |]. cbn. rewrite fold_left_app.
  fold (deliver cfg pricing runtime batches (Report cfg pricing runtime b g).2). rewrite IH. by destruct b.
Qed.

(** The session is in both states or in neither, and what it owes grew by [c]. *)
Definition session_charged (id : string) (c : Z) (g g' : Gateway InMemoryRepository) : Prop :=
  match session_at (g_repo g) id, session_at (g_repo g') id with
  | Some s, Some s' => charged_by c s s'
  | None, None => True
  | _, _ => False
  end.

End Charging.

Module MeteringWitness.
Import Reference.
Import UsageWitness.
Import PluginSessionProps.PluginWitness.

(** Metrics as whole numbers. *)
#[global] Instance whole : Float64 := { float64 := Z; int64_of_float x := x }.

Definition headers1 : gmap string string := {[HeaderSessionID := "s1"%string]}.
Definition usage3 : MeteringEvent := mkMeteringEvent "org" "" "endpoint" "" 7 [("blocks"%string, 3)].

Definition e0 : meteringEmitter := newMeteringEmitter "net" 10 false.
Definition e1 : meteringEmitter := (Emit headers1 usage3 e0).2.
Definition e2 : meteringEmitter := e1 <| mm_terminating := true |>.
Definition e3 : meteringEmitter := (beginShutdown e2) <| mm_loop := Flushing |>.
Definition e4 : meteringEmitter := collect (mkEmitted usage3 "s1") [] e3.
Definition e5 : meteringEmitter := (emit (mm_activeBatch e4) e4) <| mm_loop := Done |>.
Definition taken : list emittedEvent := [mkEmitted usage3 "s1"].

Lemma run3 : rtc emitter_step (e0, []) (e3, taken).
Proof.
  eapply rtc_l; [exact (es_emit headers1 usage3 e0 []) |]. eapply rtc_l; [exact (es_shutdown e1 taken) |].
  eapply rtc_l; [apply (es_loop e2 e3), ls_terminating; reflexivity |]. apply rtc_refl.
Qed.
Lemma run5 : rtc emitter_step (e0, []) (e5, taken).
Proof.
  etrans; [exact run3 |]. eapply rtc_l; [apply (es_loop e3 e4), ls_flush; reflexivity |].
  eapply rtc_l; [apply (es_loop e4 e5), ls_done; reflexivity |]. apply rtc_refl.
Qed.
Definition batches : list (list (Env * option Event)) :=
  [[(AccountingWitness.env, Some (as_reported "net" (mkEmitted usage3 "s1")))]].
Lemma delivered : map (map snd) batches = map (map Some) (mm_reports e5).
Proof. reflexivity. Qed.
End MeteringWitness.

Import Reference.


