(* ===== verification/Endpoint.v ===== *)
(** Endpoint addresses: the settings the sidecars and the operator's client read
    from an endpoint string ([sidecar/endpoint.go]).

    The grammar of URLs is the business of [net/url]; it is the interface
    [NetURL] here, and every definition and theorem holds for whatever it
    parses.  Module [SimpleURL] is one executable instance. *)
From S2P Require Import Prelude.
From S2P Require Import GoStd.

(** [strings.Contains]. *)
Fixpoint contains (p l : chars) : bool :=
  has_prefix p l || match l with [] => false | _ :: l' => contains p l' end.

(** [url.Values]. *)
Abbreviation Values := (gmap string (list string)).
Definition Values_Get (v : Values) (key : string) : string :=
  match v !! key with Some (x :: _) => x | _ => ""%string end.

Class NetURL : Type := {
  URL : Type;
  url_Parse : string -> result go_error URL;
  url_Scheme : URL -> string;
  url_Host : URL -> string;
  url_Hostname : URL -> string;
  url_Port : URL -> string;
  url_String : URL -> string;
  url_Query : URL -> Values;
  Values_Encode : Values -> string;
  set_RawQuery : string -> URL -> URL
}.

Section Endpoint.
Context `{NetURL}.

Record ParsedEndpoint : Type := mkParsedEndpoint {
  pe_URL : string;
  pe_Plaintext : bool;
  pe_Insecure : bool
}.

(** An endpoint without a scheme is taken as [https]. *)
Definition with_scheme (endpoint : string) : string :=
  if contains (to_chars "://") (to_chars endpoint) then endpoint else ("https://" +:+ endpoint)%string.

Definition ParseEndpoint (endpoint : string) : ParsedEndpoint :=
  let endpoint := TrimSpace endpoint in
  if String.eqb endpoint "" then mkParsedEndpoint "" false false else
  let endpoint := with_scheme endpoint in
  match url_Parse endpoint with
  | Err _ => mkParsedEndpoint endpoint false false
  | Ok parsed =>
      let query := url_Query parsed in
      let insecure := EqualFold (Values_Get query "insecure") "true" in
      let query := delete "insecure"%string query in
      let parsed := set_RawQuery (Values_Encode query) parsed in
      mkParsedEndpoint (url_String parsed) (EqualFold (url_Scheme parsed) "http") insecure
  end.
End Endpoint.

(** ** An instance: [scheme://host?query], queries of [key=value] pairs. *)
Module SimpleURL.

Record url : Type := mkURL { u_scheme : string; u_host : string; u_query : string }.

(** Cuts at the first occurrence of a byte. *)
Fixpoint cut (sep : ascii) (l : chars) : chars * option chars :=
  match l with
  | [] => ([], None)
  | c :: l' => if ascii_dec c sep then ([], Some l') else let '(a, b) := cut sep l' in (c :: a, b)
  end.

Definition parse (s : string) : result go_error url :=
  match cut ":"%char (to_chars s) with
  | (scheme, Some (_ :: _ :: rest)) =>
      let '(host, q) := cut "?"%char rest in
      Ok (mkURL (of_chars scheme) (of_chars host) (of_chars (default [] q)))
  | _ => Err (Errorf "missing protocol scheme")
  end.

Definition query (u : url) : Values :=
  fold_right (fun kv m => let '(k, v) := cut "="%char kv in
      if decide (k = []) then m
      else <[of_chars k := of_chars (default [] v) :: default [] (m !! of_chars k)]> m)
    ∅ (split_on "&"%char (to_chars (u_query u))).

Definition encode (v : Values) : string :=
  String.concat "&" (concat (map (fun '(k, vs) => map (fun x => (k +:+ "=" +:+ x)%string) vs) (map_to_list v))).

#[export] Instance simple_url : NetURL := {|
  URL := url;
  url_Parse := parse;
  url_Scheme := u_scheme;
  url_Host := u_host;
  url_Hostname u := of_chars (cut ":"%char (to_chars (u_host u))).1;
  url_Port u := of_chars (default [] (cut ":"%char (to_chars (u_host u))).2);
  url_String u := (u_scheme u +:+ "://" +:+ u_host u +:+
                   (if String.eqb (u_query u) "" then "" else "?" +:+ u_query u))%string;
  url_Query := query;
  Values_Encode := encode;
  set_RawQuery q u := mkURL (u_scheme u) (u_host u) q
|}.

Example bare_host : ParseEndpoint "localhost:9001 " = mkParsedEndpoint "https://localhost:9001" false false.
Proof. vm_compute. reflexivity. Qed.
Example insecure_flag :
  ParseEndpoint "https://localhost:9001?foo=bar&insecure=true" = mkParsedEndpoint "https://localhost:9001?foo=bar" false true.
Proof. vm_compute. reflexivity. Qed.
End SimpleURL.
