(* ===== verification/PluginAuth.v ===== *)
(** The authentication plugin and the common parts of the plugins
    ([provider/plugin/auth.go], [auth_sanitizer.go], [plugin.go]): which headers
    of a request reach the provider, the sanitizer in front of the provider's
    auth service, and the plugins' configuration URLs.

    Bytes of a message are characters here, as in a Go string.  The wire format of
    protobuf belongs to [protowire] and [proto] (interface [ProtoWire]), the
    grammar of URLs to [net/url] ([NetURL]) and that of durations to [time]. *)
From S2P Require Import Prelude.
From S2P Require Import GoStd.
From S2P Require Import Utf8.
From S2P Require Import External.
From S2P Require Import GRT.
From S2P Require Import Horizon.
From S2P Require Import Proto.
From S2P Require Import Repository.
From S2P Require Import Runtime.
From S2P Require Import Gateway.
From S2P Require Import InMemory.
From S2P Require Import SessionService.
From S2P Require Import AuthService.
From S2P Require Import PluginSession.
From S2P Require Import Endpoint.

(** ** Forwarded headers ([auth.go]) *)

Definition forwardedAuthHeaderNames : list string := [ToLower HeaderRAV; ToLower HeaderSessionID; "x-trace-id"%string].
Definition is_forwarded (name : string) : bool := existsb (String.eqb name) forwardedAuthHeaderNames.

Definition ValidString (s : string) : bool := utf8_Valid (to_chars s).

(** The headers in the order the map yields them. *)
Definition forwardedAuthHeaders (headers : list (string * list string)) : gmap string (list string) :=
  fold_left (fun protoHeaders '(name, values) =>
    let lowerName := ToLower name in
    if negb (is_forwarded lowerName) then protoHeaders else
    match List.filter ValidString values with
    | [] => protoHeaders
    | safeValues => <[lowerName := safeValues]> protoHeaders
    end) headers ∅.

(** The request the plugin sends. *)
Definition auth_request (headers : list (string * list string)) (path ipAddress : string) : ValidateAuthRequest :=
  mkAuthReq (map (fun '(k, vs) => (k, Some vs)) (map_to_list (forwardedAuthHeaders headers))) path ipAddress.

(** [Authenticate]: the trusted headers the context is given, or the provider's
    error.  [headerMeta] is [dauth.HeaderMeta]. *)
Definition Authenticate `{Dsession} (headerMeta : string)
    (validate : ValidateAuthRequest -> result connect_error (gmap string string))
    (headers : list (string * list string)) (path ipAddress : string) : result connect_error (gmap string string) :=
  let? trustedHeaders := validate (auth_request headers path ipAddress) in
  let sessionID := Trusted_Get trustedHeaders HeaderSessionID in
  Ok (if String.eqb sessionID "" then trustedHeaders else <[headerMeta := sessionID]> trustedHeaders).

(** ** The sanitizer ([auth_sanitizer.go]) *)

(** The request as the sanitizer rebuilds it. *)
Record AuthMessage : Type := mkAuthMessage {
  am_UntrustedHeaders : gmap string (list string);
  am_Path : string;
  am_IpAddress : string
}.

(** [protowire] and [proto.Marshal] at this message.  A consumed piece comes with
    its length. *)
Class ProtoWire : Type := {
  BytesType : Z;
  ConsumeTag : chars -> result go_error (Z * Z * nat);
  ConsumeBytes : chars -> result go_error (chars * nat);
  ConsumeFieldValue : Z -> Z -> chars -> result go_error nat;
  Marshal : AuthMessage -> result go_error chars
}.

Section Sanitizer.
Context `{ProtoWire}.

(** [for len(payload) > 0]: [step] handles the field at the start of the payload
    and tells its length, which is not 0; [skip] bytes of it are still ahead. *)
Fixpoint wire_loop {St} (step : St -> chars -> result go_error (St * nat)) (skip : nat) (st : St) (l : chars) :
    result go_error St :=
  match l with
  | [] => Ok st
  | _ :: l' =>
    match skip with
    | S skip => wire_loop step skip st l'
    | O => let? r := step st l in wire_loop step (r.2 - 1) r.1 l'
    end
  end.

(** A field with the bytes type, [None] for any other. *)
Definition consume_bytes_field (typ : Z) (err : go_error) (tagLen : nat) (payload : chars) :
    result go_error (chars * nat) :=
  if negb (typ =? BytesType) then Err err else
  let? r := ConsumeBytes payload in Ok (r.1, (tagLen + r.2)%nat).

Definition not_values : go_error := Errorf "not header values encoding".

Definition values_step (st : list string * bool) (payload : chars) : result go_error (list string * bool * nat) :=
  let '(values, changed) := st in
  let? tag := ConsumeTag payload in
  let '(num, typ, tagLen) := tag in
  if negb (num =? 1) || negb (typ =? BytesType) then Err not_values else
  let? r := consume_bytes_field typ not_values tagLen (drop tagLen payload) in
  let '(valueBytes, n) := r in
  if negb (utf8_Valid valueBytes) then Ok (values, true, n)
  else Ok (values ++ [of_chars valueBytes], changed, n).

Definition sanitizeAuthHeaderValuesMessage (payload : chars) : result go_error (list string * bool) :=
  wire_loop values_step 0 ([], false) payload.

(** Also the legacy shape, where the payload is the value itself. *)
Definition sanitizeAuthHeaderValues (payload : chars) : list string * bool :=
  match sanitizeAuthHeaderValuesMessage payload with
  | Ok r => r
  | Err _ => if negb (utf8_Valid payload) then ([], true) else ([of_chars payload], true)
  end.

Definition chars_changed (a b : chars) : bool := negb (bool_decide (a = b)).

Definition entry_step (st : string * list string * bool) (payload : chars) :
    result go_error (string * list string * bool * nat) :=
  let '(key, values, changed) := st in
  let? tag := ConsumeTag payload in
  let '(num, typ, tagLen) := tag in
  let rest := drop tagLen payload in
  if num =? 1 then
    let? r := consume_bytes_field typ (Errorf "unexpected wire type for header key: %v") tagLen rest in
    let '(keyBytes, n) := r in
    let sanitizedKey := ToLower (of_chars (ToValidUTF8 keyBytes)) in
    Ok (sanitizedKey, values, changed || chars_changed (to_chars sanitizedKey) keyBytes, n)
  else if num =? 2 then
    let? r := consume_bytes_field typ (Errorf "unexpected wire type for header values: %v") tagLen rest in
    let '(valueBytes, n) := r in
    let '(sanitizedValues, valuesChanged) := sanitizeAuthHeaderValues valueBytes in
    Ok (key, sanitizedValues, changed || valuesChanged, n)
  else
    let? fieldLen := ConsumeFieldValue num typ rest in
    Ok (key, values, true, (tagLen + fieldLen)%nat).

Definition sanitizeAuthHeaderEntry (payload : chars) : result go_error (string * list string * bool) :=
  let? st := wire_loop entry_step 0 (""%string, [], false) payload in
  let '(key, values, changed) := st in
  if String.eqb key "" then Ok (""%string, [], changed)
  else if negb (is_forwarded key) then Ok (""%string, [], true)
  else Ok (key, values, changed).

Definition message_step (st : AuthMessage * bool) (payload : chars) : result go_error (AuthMessage * bool * nat) :=
  let '(req, changed) := st in
  let? tag := ConsumeTag payload in
  let '(num, typ, tagLen) := tag in
  let rest := drop tagLen payload in
  if num =? 1 then
    let? r := consume_bytes_field typ (Errorf "unexpected wire type for untrusted_headers: %v") tagLen rest in
    let '(entryBytes, n) := r in
    let? entry := sanitizeAuthHeaderEntry entryBytes in
    let '(key, values, entryChanged) := entry in
    let headers := match key, values with
                   | ""%string, _ | _, [] => am_UntrustedHeaders req
                   | _, _ => <[key := values]> (am_UntrustedHeaders req)
                   end in
    Ok (mkAuthMessage headers (am_Path req) (am_IpAddress req), changed || entryChanged, n)
  else if num =? 2 then
    let? r := consume_bytes_field typ (Errorf "unexpected wire type for path: %v") tagLen rest in
    let '(pathBytes, n) := r in
    let sanitizedPath := ToValidUTF8 pathBytes in
    Ok (mkAuthMessage (am_UntrustedHeaders req) (of_chars sanitizedPath) (am_IpAddress req),
        changed || chars_changed sanitizedPath pathBytes, n)
  else if num =? 3 then
    let? r := consume_bytes_field typ (Errorf "unexpected wire type for ip_address: %v") tagLen rest in
    let '(ipBytes, n) := r in
    let sanitizedIP := ToValidUTF8 ipBytes in
    Ok (mkAuthMessage (am_UntrustedHeaders req) (am_Path req) (of_chars sanitizedIP),
        changed || chars_changed sanitizedIP ipBytes, n)
  else
    let? fieldLen := ConsumeFieldValue num typ rest in
    Ok (req, true, (tagLen + fieldLen)%nat).

(** What was read of the payload, and whether it has to be replaced. *)
Definition sanitized_request (payload : chars) : result go_error (AuthMessage * bool) :=
  wire_loop message_step 0 (mkAuthMessage ∅ "" "", false) payload.

Definition sanitizeValidateAuthMessage (payload : chars) : result go_error (chars * bool) :=
  let? st := sanitized_request payload in
  let '(req, changed) := st in
  if negb changed then Ok (payload, false) else
  match Marshal req with
  | Ok msg => Ok (msg, true)
  | Err e => Err (Wrapf "marshal sanitized auth request: %w" e)
  end.

(** A byte of a number and back. *)
Definition byte_at (x : Z) (shift : Z) : ascii := ascii_of_N (Z.to_N (Z.land (Z.shiftr x shift) 255)).
Definition byte_value (c : ascii) : Z := Z.of_N (N_of_ascii c).

Definition grpc_frame (msg : chars) : chars :=
  let n := Z.of_nat (length msg) in
  [ascii_of_N 0; byte_at n 24; byte_at n 16; byte_at n 8; byte_at n 0] ++ msg.

Definition sanitizeAuthPayload (contentType : string) (payload : chars) : result go_error (chars * bool) :=
  match payload with
  | [] => Ok ([], false)
  | _ =>
    if has_prefix (to_chars "application/grpc") (to_chars contentType) then
      match payload with
      | c0 :: c1 :: c2 :: c3 :: c4 :: body =>
          if negb (byte_value c0 =? 0) then Err (Errorf "grpc compression is not supported on auth sanitizer") else
          let frameLen := Z.lor (Z.lor (Z.lor (Z.shiftl (byte_value c1) 24) (Z.shiftl (byte_value c2) 16))
                                   (Z.shiftl (byte_value c3) 8)) (byte_value c4) in
          if negb (frameLen =? Z.of_nat (length body)) then Err (Errorf "grpc frame length mismatch: frame=%d payload=%d") else
          let? r := sanitizeValidateAuthMessage body in
          if negb r.2 then Ok (payload, false) else Ok (grpc_frame r.1, true)
      | _ => Err (Errorf "grpc frame too short")
      end
    else
      let? r := sanitizeValidateAuthMessage payload in
      if negb r.2 then Ok (payload, false) else Ok (r.1, true)
  end.

(** [wrapAuthTransport]: the body the auth service is given, or the refusal;
    [body] is what reading the request's body gives. *)
Definition sanitizeAuthRequestBody (contentType : string) (body : result go_error chars) : result go_error (chars * bool) :=
  match body with
  | Err e => Err (Wrapf "read body: %w" e)
  | Ok rawBody =>
      let? r := sanitizeAuthPayload contentType rawBody in
      if negb r.2 then Ok (rawBody, false) else Ok (r.1, true)
  end.
End Sanitizer.

(** ** Configuration ([plugin.go] and the registrations) *)

Section Config.
Context `{NetURL}.
Variable ParseDuration : string -> result go_error Z.

Record baseConfig : Type := mkBaseConfig { bc_Endpoint : string; bc_Insecure : bool; bc_Plaintext : bool }.

Definition parseBaseConfig (configURL : string) : result go_error (baseConfig * Values) :=
  match url_Parse configURL with
  | Err e => Err (Wrapf "failed to parse URL: %w" e)
  | Ok u =>
      if negb (String.eqb (url_Scheme u) "sds") then Err (Errorf "invalid scheme %q, expected 'sds'") else
      let hostname := url_Hostname u in
      if String.eqb hostname "" then Err (Errorf "hostname is required, e.g. sds://<plugin-gateway-host>:9003") else
      let port := if String.eqb (url_Port u) "" then "443"%string else url_Port u in
      let vals := url_Query u in
      Ok (mkBaseConfig (hostname +:+ ":" +:+ port)%string (String.eqb (Values_Get vals "insecure") "true")
            (String.eqb (Values_Get vals "plaintext") "true"), vals)
  end.

Definition baseURL (cfg : baseConfig) : string :=
  ((if bc_Plaintext cfg then "http://" else "https://") +:+ bc_Endpoint cfg)%string.

Definition parseDuration (s : string) (defaultVal : Z) : result go_error Z :=
  if String.eqb s "" then Ok defaultVal else ParseDuration s.

(** [strconv.ParseInt(s, 10, 64)] and [ParseUint]: digits, for the former after
    an optional sign, in range. *)
Definition ParseUint (s : string) : result go_error Z :=
  match to_chars s with
  | [] => Err (Errorf "invalid syntax")
  | l => match read_digits 0 l with
         | Some v => if v <? two64 then Ok v else Err (Errorf "value out of range")
         | None => Err (Errorf "invalid syntax")
         end
  end.
Definition ParseInt (s : string) : result go_error Z :=
  match SetString (to_chars s) with
  | Some v => if (- 2 ^ 63 <=? v) && (v <? 2 ^ 63) then Ok v else Err (Errorf "value out of range")
  | None => Err (Errorf "invalid syntax")
  end.

Definition parseInt64 (s : string) (defaultVal : Z) : result go_error Z :=
  if String.eqb s "" then Ok defaultVal else ParseInt s.
Definition parseUint64 (s : string) (defaultVal : Z) : result go_error Z :=
  if String.eqb s "" then Ok defaultVal else ParseUint s.

(** The test for unknown parameters. *)
Definition known_only (known : list string) (vals : Values) : result go_error unit :=
  if forallb (fun '(k, _) => existsb (String.eqb k) known) (map_to_list vals) then Ok tt
  else Err (Errorf "unknown query parameter: %s").

(** The functions registered under the scheme [sds], up to the constructors;
    [config] after the expansion of environment variables. *)
Definition auth_config (config : string) : result go_error baseConfig :=
  match parseBaseConfig config with
  | Err e => Err (Wrapf "failed to parse auth config %q: %w" e)
  | Ok (baseCfg, vals) => let? _ := known_only ["insecure"; "plaintext"]%string vals in Ok baseCfg
  end.

Record SessionConfig : Type := mkSessionConfig {
  sc_base : baseConfig; sc_keepAliveDelay : Z; sc_minimalWorkerLifeDuration : Z
}.
Definition session_config (config : string) : result go_error SessionConfig :=
  match parseBaseConfig config with
  | Err e => Err (Wrapf "failed to parse session config %q: %w" e)
  | Ok (baseCfg, vals) =>
      let? _ := known_only ["insecure"; "plaintext"; "keep-alive-delay"; "minimal-worker-life-duration"]%string vals in
      match parseDuration (Values_Get vals "keep-alive-delay") (20 * 10 ^ 9) with
      | Err e => Err (Wrapf "invalid keep-alive-delay: %w" e)
      | Ok keepAliveDelay =>
        match parseDuration (Values_Get vals "minimal-worker-life-duration") (5 * 10 ^ 9) with
        | Err e => Err (Wrapf "invalid minimal-worker-life-duration: %w" e)
        | Ok minimal => Ok (mkSessionConfig baseCfg keepAliveDelay minimal)
        end
      end
  end.

Record MeteringConfig : Type := mkMeteringConfig {
  mc_base : baseConfig; mc_network : string; mc_bufferSize : Z; mc_delay : Z; mc_reportTimeout : Z; mc_panicOnDrop : bool
}.
(** The delay is in milliseconds; the product is a 64-bit number of nanoseconds. *)
Definition metering_config (config : string) : result go_error MeteringConfig :=
  match parseBaseConfig config with
  | Err e => Err (Wrapf "failed to parse metering config %q: %w" e)
  | Ok (baseCfg, vals) =>
      let? _ := known_only ["insecure"; "plaintext"; "network"; "buffer"; "delay"; "report-timeout"; "panic-on-drop";
                            "panicOnDrop"]%string vals in
      let network := Values_Get vals "network" in
      if String.eqb network "" then Err (Errorf "network is required (as query param)") else
      match parseUint64 (Values_Get vals "buffer") 10000 with
      | Err e => Err (Wrapf "invalid buffer: %w" e)
      | Ok bufferSize =>
        match parseInt64 (Values_Get vals "delay") 100 with
        | Err e => Err (Wrapf "invalid delay: %w" e)
        | Ok delay =>
          match parseDuration (Values_Get vals "report-timeout") (30 * 10 ^ 9) with
          | Err e => Err (Wrapf "invalid report-timeout: %w" e)
          | Ok reportTimeout =>
              Ok (mkMeteringConfig baseCfg network bufferSize (wrap_s64 (delay * 10 ^ 6)) reportTimeout
                    (String.eqb (Values_Get vals "panicOnDrop") "true" || String.eqb (Values_Get vals "panic-on-drop") "true"))
          end
        end
      end
  end.
End Config.

(** ** Only safe headers, and no loss *)

Lemma ToLower_idemp x : ToLower (ToLower x) = ToLower x.
Proof.
  unfold ToLower. rewrite String.list_ascii_of_string_of_list_ascii, map_map. f_equal. apply map_ext.
  intros c. unfold lower_char at 1 2. destruct ((65 <=? N_of_ascii c) && (N_of_ascii c <=? 90))%N eqn:E.
  - apply andb_prop in E as [E1%N.leb_le E2%N.leb_le]. unfold lower_char, chr. rewrite N_ascii_embedding by lia.
    destruct (N.leb_spec (N_of_ascii c + 32) 90); [lia |]. rewrite andb_false_r.
    by rewrite (proj2 (N.leb_le _ _) E1), (proj2 (N.leb_le _ _) E2).
  - unfold lower_char. by rewrite !E.
Qed.

(** Inserting the entries of a list one after the other. *)
Lemma fold_insert {A B} (f : A -> option (string * B)) (l : list A) (m : gmap string B) :
  fold_left (fun m x => match f x with Some (k, v) => <[k := v]> m | None => m end) l m =
  list_to_map (rev (omap f l)) ∪ m.
Proof.
  revert m. induction l as [|x l IH]; intros m; cbn; [by rewrite map_empty_union |]. rewrite IH.
  destruct (f x) as [[k v]|]; [|done]. cbn. rewrite list_to_map_app, <- map_union_assoc. f_equal. cbn.
  by rewrite <- insert_union_l, map_empty_union.
Qed.

Lemma fold_insert_lookup {A B} (f : A -> option (string * B)) (l : list A) k v :
  NoDup ((omap f l).*1) ->
  fold_left (fun m x => match f x with Some (k, v) => <[k := v]> m | None => m end) l (∅ : gmap string B) !! k = Some v <->
  (k, v) ∈ omap f l.
Proof.
  intros Hn. rewrite fold_insert, map_union_empty.
  assert (list_to_map (rev (omap f l)) = (list_to_map (omap f l) : gmap string B)) as ->
    by (symmetry; apply list_to_map_proper; [done | apply Permutation_rev]).
  symmetry. by apply elem_of_list_to_map.
Qed.

(** The entry a header gives in the lower-cased map of the auth service, and in
    the request of the plugin. *)
Definition lower_entry (h : string * option (list string)) : option (string * list string) :=
  match h with (name, Some (v :: vs)) => Some (ToLower name, v :: vs) | _ => None end.
Definition forwarded_entry (h : string * list string) : option (string * list string) :=
  let '(name, values) := h in
  if negb (is_forwarded (ToLower name)) then None else
  match List.filter ValidString values with [] => None | safeValues => Some (ToLower name, safeValues) end.

Lemma lower_headers_fold headers :
  lower_headers headers =
  fold_left (fun m x => match lower_entry x with Some (k, v) => <[k := v]> m | None => m end) headers ∅.
Proof.
  unfold lower_headers. generalize (∅ : gmap string (list string)).
  induction headers as [|[name [[|v vs]|]] l IH]; intros m; [done | apply IH..].
Qed.

Lemma forwarded_fold headers :
  forwardedAuthHeaders headers =
  fold_left (fun m x => match forwarded_entry x with Some (k, v) => <[k := v]> m | None => m end) headers ∅.
Proof.
  unfold forwardedAuthHeaders. generalize (∅ : gmap string (list string)).
  induction headers as [|[name vs] l IH]; intros m; [done |]. cbn [fold_left]. rewrite IH. f_equal.
  unfold forwarded_entry. destruct (is_forwarded (ToLower name)); cbn [negb]; [|done].
  by destruct (List.filter ValidString vs).
Qed.

(** Entries that keep a key of their header have distinct keys when the headers do. *)
Lemma omap_NoDup {A B} (f : A -> option (string * B)) (key : A -> string) l :
  (forall x k v, f x = Some (k, v) -> k = key x) -> NoDup (map key l) -> NoDup ((omap f l).*1).
Proof.
  intros Hk. induction l as [|x l IH]; intros Hn; [constructor |]. apply list.NoDup_cons in Hn as [Hx Hn].
  cbn. destruct (f x) as [[k v]|] eqn:E; [|by apply IH]. cbn. constructor; [|by apply IH].
  intros Hin. apply Hx. rewrite (Hk x k v E) in Hin. apply list_elem_of_fmap in Hin as ([k' v'] & Ek & Hin).
  apply list_elem_of_omap in Hin as (y & Hy & Ey). cbn in Ek. rewrite Ek, (Hk y k' v' Ey). by apply list_elem_of_fmap_2.
Qed.

Lemma forwarded_key x k v : forwarded_entry x = Some (k, v) -> k = ToLower x.1.
Proof.
  destruct x as [name vs]. unfold forwarded_entry. destruct (is_forwarded (ToLower name)); [|done]. cbn [negb fst].
  destruct (List.filter ValidString vs); [done |]. by intros [= <- _].
Qed.
Lemma lower_key x k v : lower_entry x = Some (k, v) -> k = ToLower x.1.
Proof. destruct x as [name [[|y vs]|]]; cbn; [done | by intros [= <- _] | done]. Qed.

(** A forwarded header has a name of the list and values that are valid UTF-8. *)
Lemma forwarded_safe headers k vs :
  forwardedAuthHeaders headers !! k = Some vs ->
  is_forwarded k = true /\ vs <> [] /\ Forall (fun v => ValidString v = true) vs.
Proof.
  rewrite forwarded_fold, fold_insert, map_union_empty. intros Hl.
  apply elem_of_list_to_map_2, list_elem_of_In, in_rev, list_elem_of_In, list_elem_of_omap in Hl as ([name values] & _ & E).
  unfold forwarded_entry in E. destruct (is_forwarded (ToLower name)) eqn:Hf; [|done]. cbn [negb] in E.
  destruct (List.filter ValidString values) as [|v vs'] eqn:Ev; [done |]. injection E as <- <-.
  split; [done |]. split; [done |]. apply List.Forall_forall. intros x Hx. rewrite <- Ev in Hx. by apply filter_In in Hx as [_ ?].
Qed.

Lemma filter_true_iff values : (forall v, In v values -> ValidString v = true) <-> List.filter ValidString values = values.
Proof.
  split.
  - intros Hv. induction values as [|v values IH]; [done |]. cbn. rewrite Hv by (by left). f_equal. apply IH.
    intros x Hx. apply Hv. by right.
  - intros <- v Hv. by apply filter_In in Hv as [_ ?].
Qed.

(** What the auth service sees of the plugin's request is the forwarded map. *)
Lemma auth_request_headers headers path ip :
  lower_headers (vr_UntrustedHeaders (auth_request headers path ip)) = forwardedAuthHeaders headers.
Proof.
  cbn [vr_UntrustedHeaders auth_request]. set (m := forwardedAuthHeaders headers).
  assert (omap lower_entry (map (fun '(k, vs) => (k, Some vs)) (map_to_list m)) = map_to_list m) as E.
  { assert (forall k vs, (k, vs) ∈ map_to_list m -> ToLower k = k /\ vs <> []) as Hm.
    { intros k vs Hk. apply elem_of_map_to_list in Hk. destruct (forwarded_safe headers k vs Hk) as (Hf & Hn & _).
      split; [|done]. unfold is_forwarded in Hf. apply existsb_exists in Hf as (x & Hx & ->%String.eqb_eq).
      destruct Hx as [<-|[<-|[<-|[]]]]; [apply ToLower_idemp.. | reflexivity]. }
    revert Hm. induction (map_to_list m) as [|[k vs] l IH]; intros Hm; [done |]. cbn.
    destruct (Hm k vs) as [Hk Hv]; [by left |]. destruct vs as [|v vs]; [done |]. cbn. rewrite Hk.
    f_equal. apply IH. intros k' vs' Hin. apply Hm. by right. }
  rewrite lower_headers_fold. apply map_eq. intros k. apply option_eq. intros v.
  rewrite fold_insert_lookup, E; [apply elem_of_map_to_list |]. rewrite E. apply NoDup_fst_map_to_list.
Qed.

Section Transparent.
Context `{Uint256} `{Eth} `{!GlobalRepository R} `{AuthDeps}.

(** The auth service reads two headers and the address of the client. *)
Lemma ValidateAuth_ext env req req' (s : AuthService R) :
  lower_headers (vr_UntrustedHeaders req) !! ToLower HeaderRAV = lower_headers (vr_UntrustedHeaders req') !! ToLower HeaderRAV ->
  lower_headers (vr_UntrustedHeaders req) !! ToLower HeaderSessionID =
    lower_headers (vr_UntrustedHeaders req') !! ToLower HeaderSessionID ->
  vr_IpAddress req = vr_IpAddress req' ->
  ValidateAuth env req s = ValidateAuth env req' s.
Proof. intros Hr Hs Hi. unfold ValidateAuth. by rewrite Hr, Hs, Hi. Qed.

(** Forwarding loses nothing.  The plugin forwards three headers of a request
    and drops all others; on a request whose header names differ (ignoring case)
    and whose forwarded headers are valid UTF-8, the provider's auth service
    decides as it would on all the headers of the request: the same answer and
    the same effect.  What is forwarded is always on the list of names and valid
    UTF-8. *)
Theorem forwarding_is_transparent env (s : AuthService R) headers path ip :
  NoDup (map (fun h => ToLower h.1) headers) ->
  (forall name values v, In (name, values) headers -> is_forwarded (ToLower name) = true -> In v values ->
     ValidString v = true) ->
  ValidateAuth env (auth_request headers path ip) s =
    ValidateAuth env (mkAuthReq (map (fun '(k, vs) => (k, Some vs)) headers) path ip) s /\
  forall k vs, forwardedAuthHeaders headers !! k = Some vs ->
    is_forwarded k = true /\ vs <> [] /\ Forall (fun v => ValidString v = true) vs.
Proof.
  intros Hn Hv. split; [|apply forwarded_safe].
  assert (NoDup (map (fun h : string * option (list string) => ToLower h.1) (map (fun '(k, vs) => (k, Some vs)) headers))) as Hn'.
  { rewrite map_map. erewrite map_ext; [exact Hn |]. by intros [k vs]. }
  assert (forall k, is_forwarded k = true ->
    lower_headers (vr_UntrustedHeaders (auth_request headers path ip)) !! k =
    lower_headers (map (fun '(k, vs) => (k, Some vs)) headers) !! k) as Hsame.
  { intros k Hk. rewrite auth_request_headers, forwarded_fold, lower_headers_fold. apply option_eq. intros vs.
    rewrite !fold_insert_lookup by (first [by apply (omap_NoDup _ (fun h => ToLower h.1)); [apply forwarded_key |]
                                          |by apply (omap_NoDup _ (fun h => ToLower h.1)); [apply lower_key |]]).
    rewrite !list_elem_of_omap. setoid_rewrite list_elem_of_In. split.
    - intros ([name values] & Hin & E). exists (name, Some values).
      split; [by apply (in_map (fun '(k, vs) => (k, Some vs)) _ (name, values)) |].
      unfold forwarded_entry in E. destruct (is_forwarded (ToLower name)) eqn:Hf; [|done]. cbn [negb] in E.
      rewrite (proj1 (filter_true_iff values)) in E by (intros v ?; by apply (Hv name values v)).
      by destruct values.
    - intros ([name ovalues] & Hin & E). apply in_map_iff in Hin as ([name' values] & Heq & Hin). injection Heq as -> <-.
      exists (name, values). split; [done |]. cbn in E. destruct values as [|v values]; [done |]. injection E as <- <-.
      unfold forwarded_entry. rewrite Hk. cbn [negb].
      by rewrite (proj1 (filter_true_iff (v :: values))) by (intros x ?; by apply (Hv name (v :: values) x)). }
  apply ValidateAuth_ext; [apply Hsame; reflexivity.. | done].
Qed.
End Transparent.

(** ** What the sanitizer lets through *)

Section SanitizerProofs.
Context `{ProtoWire}.

Lemma wire_loop_inv {St} (step : St -> chars -> result go_error (St * nat)) (P : St -> Prop) skip st l st' :
  (forall st l st' n, P st -> step st l = Ok (st', n) -> P st') ->
  P st -> wire_loop step skip st l = Ok st' -> P st'.
Proof.
  intros Hstep. revert skip st. induction l as [|c l IH]; intros skip st Hst; cbn [wire_loop]; [by intros [= <-] |].
  destruct skip as [|skip]; [|by apply IH].
  destruct (step st (c :: l)) as [[st1 n]|] eqn:E; [|done]. cbn [rbind fst snd]. apply IH. by apply (Hstep st (c :: l) st1 n).
Qed.

Definition safe_values (values : list string) : Prop := Forall (fun v => ValidString v = true) values.

(** A request with nothing but forwarded headers, all text valid UTF-8. *)
Record clean (req : AuthMessage) : Prop := {
  clean_headers k vs : am_UntrustedHeaders req !! k = Some vs -> is_forwarded k = true /\ vs <> [] /\ safe_values vs;
  clean_path : ValidString (am_Path req) = true;
  clean_ip : ValidString (am_IpAddress req) = true
}.

Lemma ValidString_of_chars l : ValidString (of_chars l) = utf8_Valid l.
Proof. unfold ValidString. by rewrite String.list_ascii_of_string_of_list_ascii. Qed.

Lemma values_safe payload : safe_values (sanitizeAuthHeaderValues payload).1.
Proof.
  unfold sanitizeAuthHeaderValues. destruct (sanitizeAuthHeaderValuesMessage payload) as [[vs c]|e] eqn:E.
  - apply (wire_loop_inv values_step (fun st => safe_values st.1)) in E; [done | | constructor].
    intros [values changed] l [st' n] n' Hst Es. unfold values_step in Es.
    apply rbind_Ok in Es as ([[num typ] tagLen] & _ & Es). destruct (_ || _); [done |].
    apply rbind_Ok in Es as ([valueBytes m] & _ & Es). destruct (utf8_Valid valueBytes) eqn:Ev; cbn [negb] in Es.
    + injection Es as <- <- _. apply Forall_app. split; [done |]. repeat constructor. by rewrite ValidString_of_chars.
    + by injection Es as <- <- _.
  - destruct (utf8_Valid payload) eqn:Ev; cbn [negb fst]; repeat constructor. by rewrite ValidString_of_chars.
Qed.

Lemma entry_safe payload key values changed :
  sanitizeAuthHeaderEntry payload = Ok (key, values, changed) ->
  safe_values values /\ (key <> ""%string -> is_forwarded key = true).
Proof.
  unfold sanitizeAuthHeaderEntry. intros E. apply rbind_Ok in E as ([[k vs] c] & El & E).
  apply (wire_loop_inv entry_step (fun st => safe_values st.1.2)) in El; [| |constructor].
  - destruct (String.eqb k ""); [injection E as <- <- _; split; [constructor | done] |].
    destruct (is_forwarded k) eqn:Hf; cbn [negb] in E; injection E as <- <- _; [by split | split; [constructor | done]].
  - intros [[key0 values0] changed0] l [[k1 v1] c1] n Hst Es. unfold entry_step in Es. cbn [fst snd] in *.
    apply rbind_Ok in Es as ([[num typ] tagLen] & _ & Es).
    destruct (num =? 1); [|destruct (num =? 2)]; apply rbind_Ok in Es as (r & _ & Es).
    + destruct r as [keyBytes m]. by injection Es as _ <- _.
    + destruct r as [valueBytes m]. pose proof (values_safe valueBytes) as Hs.
      destruct (sanitizeAuthHeaderValues valueBytes) as [vs1 vc]. by injection Es as _ <- _.
    + by injection Es as _ <- _.
Qed.

Lemma request_clean payload req changed : sanitized_request payload = Ok (req, changed) -> clean req.
Proof.
  intros E. apply (wire_loop_inv message_step (fun st => clean st.1)) in E; [done | |].
  2: { split; [|done..]. intros k vs Hk. cbn in Hk. by rewrite lookup_empty in Hk. }
  intros [req0 changed0] l [req1 c1] n Hst Es. cbn [fst] in *. unfold message_step in Es.
  apply rbind_Ok in Es as ([[num typ] tagLen] & _ & Es). destruct Hst as [Hh Hp Hi].
  destruct (num =? 1); [|destruct (num =? 2); [|destruct (num =? 3)]]; apply rbind_Ok in Es as (r & _ & Es).
  - destruct r as [entryBytes m]. apply rbind_Ok in Es as ([[key values] ec] & Ee & Es).
    destruct (entry_safe _ _ _ _ Ee) as [Hv Hk]. injection Es as <- _ _. split; cbn [am_UntrustedHeaders am_Path am_IpAddress]; try done.
    intros k vs. destruct key as [|a key]; [apply Hh |]. destruct values as [|v values]; [apply Hh |].
    intros [[<- <-]|[_ Hl]]%lookup_insert_Some; [|by apply Hh]. split; [by apply Hk | done].
  - destruct r as [pathBytes m]. injection Es as <- _ _. split; cbn [am_UntrustedHeaders am_Path am_IpAddress]; try done.
    rewrite ValidString_of_chars. apply ToValidUTF8_valid.
  - destruct r as [ipBytes m]. injection Es as <- _ _. split; cbn [am_UntrustedHeaders am_Path am_IpAddress]; try done.
    rewrite ValidString_of_chars. apply ToValidUTF8_valid.
  - by injection Es as <- _ _.
Qed.
End SanitizerProofs.

(** ** gRPC frames *)

Lemma byte_value_at x shift : 0 <= shift -> byte_value (byte_at x shift) = x / 2 ^ shift mod 256.
Proof.
  intros Hs. unfold byte_value, byte_at. rewrite Z.shiftr_div_pow2 by done. change 255 with (Z.ones 8).
  rewrite Z.land_ones by lia. change (2 ^ 8) with 256.
  pose proof (Z.mod_pos_bound (x / 2 ^ shift) 256 ltac:(lia)).
  rewrite N_ascii_embedding by lia. lia.
Qed.

Lemma lor_add a b k : 0 <= k -> 0 <= b < 2 ^ k -> Z.lor (Z.shiftl a k) b = a * 2 ^ k + b.
Proof.
  intros Hk Hb. rewrite <- Z.shiftl_mul_pow2 by done. rewrite <- Z.add_lor_land.
  assert (Z.land (Z.shiftl a k) b = 0) as ->; [|lia].
  apply Z.bits_inj'. intros n Hn. rewrite Z.land_spec, Z.bits_0, Z.shiftl_spec by done.
  destruct (Z.lt_ge_cases n k).
  - by rewrite Z.testbit_neg_r by lia.
  - rewrite andb_comm. destruct (Z.eq_dec b 0) as [->|]; [by rewrite Z.bits_0 |].
    rewrite Z.bits_above_log2; [done | lia |]. apply Z.lt_le_trans with k; [|done]. by apply Z.log2_lt_pow2; lia.
Qed.

(** The length a frame announces. *)
Definition announced (l : chars) : Z :=
  match l with
  | _ :: c1 :: c2 :: c3 :: c4 :: _ =>
      Z.lor (Z.lor (Z.lor (Z.shiftl (byte_value c1) 24) (Z.shiftl (byte_value c2) 16)) (Z.shiftl (byte_value c3) 8))
        (byte_value c4)
  | _ => 0
  end.

Lemma frame_announces msg : Z.of_nat (length msg) < 2 ^ 32 -> announced (grpc_frame msg) = Z.of_nat (length msg).
Proof.
  intros Hl. unfold grpc_frame, announced. cbn [app]. set (n := Z.of_nat (length msg)) in *.
  assert (0 <= n) as Hn by lia. rewrite !byte_value_at by lia. change (2 ^ 0) with 1. rewrite Z.div_1_r.
  set (a := n / 2 ^ 24 mod 256). set (b := n / 2 ^ 16 mod 256). set (c := n / 2 ^ 8 mod 256). set (d := n mod 256).
  assert (0 <= a < 256 /\ 0 <= b < 256 /\ 0 <= c < 256 /\ 0 <= d < 256) as (? & ? & ? & ?).
  { subst a b c d. split_and!; apply Z.mod_pos_bound; lia. }
  assert (n = ((a * 256 + b) * 256 + c) * 256 + d) as Hd.
  { subst a b c d. rewrite (Z.mod_small (n / 2 ^ 24)) by (change (2 ^ 24) with 16777216; change (2 ^ 32) with 4294967296 in Hl;
      split; [apply Z.div_pos; lia | apply Z.div_lt_upper_bound; lia]).
    change (2 ^ 24) with (2 ^ 8 * 2 ^ 8 * 2 ^ 8). change (2 ^ 16) with (2 ^ 8 * 2 ^ 8). change (2 ^ 8) with 256.
    rewrite <- !Z.div_div by lia.
    pose proof (Z.div_mod n 256 ltac:(lia)). pose proof (Z.div_mod (n / 256) 256 ltac:(lia)).
    pose proof (Z.div_mod (n / 256 / 256) 256 ltac:(lia)). lia. }
  rewrite (lor_add a (Z.shiftl b 16) 24) by (rewrite ?Z.shiftl_mul_pow2 by lia; lia).
  replace (a * 2 ^ 24 + Z.shiftl b 16) with (Z.shiftl (a * 256 + b) 16) by (rewrite !Z.shiftl_mul_pow2 by lia; lia).
  rewrite (lor_add (a * 256 + b) (Z.shiftl c 8) 16) by (rewrite ?Z.shiftl_mul_pow2 by lia; lia).
  replace ((a * 256 + b) * 2 ^ 16 + Z.shiftl c 8) with (Z.shiftl ((a * 256 + b) * 256 + c) 8)
    by (rewrite !Z.shiftl_mul_pow2 by lia; lia).
  rewrite lor_add by lia. rewrite Hd. change (2 ^ 8) with 256. lia.
Qed.

Section SanitizerTheorem.
Context `{ProtoWire}.

End SanitizerTheorem.

(** ** Concrete inputs *)
Module PluginAuthWitness.
Import Reference.
Import AuthWitness.

(** The consumer's headers among others, as they arrive at firehose-core. *)
Definition arriving : list (string * list string) :=
  [("Cookie", ["secret"]); ("X-Sds-Session-Id", ["s1"]); ("x-sds-rav", ["AQI="]); ("user-agent", ["substreams"])]%string.
Lemma arriving_distinct : NoDup (map (fun h => ToLower h.1) arriving).
Proof. apply (bool_decide_eq_true_1 (NoDup (map (fun h => ToLower h.1) arriving))). vm_compute. reflexivity. Qed.
Lemma arriving_valid name values v :
  In (name, values) arriving -> is_forwarded (ToLower name) = true -> In v values -> ValidString v = true.
Proof.
  intros [[= <- <-]|[[= <- <-]|[[= <- <-]|[[= <- <-]|[]]]]] _ [<-|[]]; vm_compute; reflexivity.
Qed.
Definition all_headers : ValidateAuthRequest :=
  mkAuthReq (map (fun '(k, vs) => (k, Some vs)) arriving) "/blocks" "10.0.0.1".
Definition accepted (x : result connect_error (gmap string string) * AuthService InMemoryRepository) : bool := is_ok x.1.
Lemma all_accepted : accepted (ValidateAuth env all_headers service) = true.
Proof. vm_compute. reflexivity. Qed.

(** The wire format for short fields: a tag is a byte, lengths are below 128. *)
Definition wire_tag (l : chars) : result go_error (Z * Z * nat) :=
  match l with [] => Err (Errorf "unexpected EOF") | c :: _ => Ok (byte_value c / 8, byte_value c mod 8, 1%nat) end.
Definition wire_bytes (l : chars) : result go_error (chars * nat) :=
  match l with
  | [] => Err (Errorf "unexpected EOF")
  | c :: l' => let n := Z.to_nat (byte_value c) in
               if (length l' <? n)%nat then Err (Errorf "unexpected EOF") else Ok (take n l', S n)
  end.
Definition put_bytes (tag : N) (l : chars) : chars := ascii_of_N tag :: ascii_of_N (N.of_nat (length l)) :: l.
Definition put_message (m : AuthMessage) : chars :=
  concat (map (fun '(k, vs) => put_bytes 10 (put_bytes 10 (to_chars k) ++ put_bytes 18
                 (concat (map (fun v => put_bytes 10 (to_chars v)) vs)))) (map_to_list (am_UntrustedHeaders m)))
  ++ (if String.eqb (am_Path m) "" then [] else put_bytes 18 (to_chars (am_Path m)))
  ++ (if String.eqb (am_IpAddress m) "" then [] else put_bytes 26 (to_chars (am_IpAddress m))).
#[export] Instance short_wire : ProtoWire := {|
  BytesType := 2;
  ConsumeTag := wire_tag;
  ConsumeBytes := wire_bytes;
  ConsumeFieldValue _ typ l := if typ =? 2 then (let? r := wire_bytes l in Ok r.2) else Err (Errorf "cannot parse");
  Marshal m := Ok (put_message m)
|}.

(** A request with a header that is not forwarded, in a gRPC frame. *)
Definition dirty : chars :=
  put_bytes 10 (put_bytes 10 (to_chars "cookie") ++ put_bytes 18 (put_bytes 10 (to_chars "secret")))
  ++ put_bytes 10 (put_bytes 10 (to_chars "x-sds-rav") ++ put_bytes 18 (put_bytes 10 (to_chars "AQI=")))
  ++ put_bytes 18 (to_chars "/blocks").
Definition expected : AuthMessage := mkAuthMessage {["x-sds-rav"%string := ["AQI="%string]]} "/blocks" "".
Lemma dirty_sanitized :
  sanitizeAuthPayload "application/grpc+proto" (grpc_frame dirty) = Ok (grpc_frame (put_message expected), true).
Proof. vm_compute. reflexivity. Qed.
Lemma expected_read : sanitized_request (drop 5 (grpc_frame dirty)) = Ok (expected, true).
Proof. vm_compute. reflexivity. Qed.

Import SimpleURL.
(** A plaintext endpoint without a port. *)
Example auth_endpoint :
  match auth_config "sds://gateway?plaintext=true" with Ok c => baseURL c | Err _ => ""%string end = "http://gateway:443"%string.
Proof. vm_compute. reflexivity. Qed.

(** A delay of zero passes, with which [time.NewTicker] panics. *)
Lemma zero_delay_accepted ParseDuration :
  exists c, metering_config ParseDuration "sds://gateway:9003?network=mainnet&delay=0" = Ok c /\ mc_delay c = 0.
Proof. eexists. split; [vm_compute; reflexivity | reflexivity]. Qed.
End PluginAuthWitness.

Import Reference.
Import AuthWitness.

Lemma forwarding_is_transparent_witness :
  PluginAuthWitness.accepted (ValidateAuth AuthWitness.env
    (auth_request PluginAuthWitness.arriving "/blocks" "10.0.0.1") AuthWitness.service) = true.
Proof.
  rewrite (proj1 (forwarding_is_transparent AuthWitness.env AuthWitness.service PluginAuthWitness.arriving "/blocks" "10.0.0.1"
    PluginAuthWitness.arriving_distinct PluginAuthWitness.arriving_valid)).
  exact PluginAuthWitness.all_accepted.
Defined.

