(* ===== verification/OperatorAuth.v ===== *)
(** Authorization of the operator surface ([internal/operatorauth/operatorauth.go]): a
    bearer token is mapped to a role, and the role is compared with the one the
    endpoint requires. *)
From S2P Require Import Prelude.
From S2P Require Import GoStd.
From S2P Require Import External.
From S2P Require Import Gateway.

(** [http.Header]: the values of each canonical name. *)
Abbreviation header := (gmap string (list string)).
Definition Header_Get (h : header) (name : string) : string :=
  match h !! name with Some (v :: _) => v | _ => "" end.

Definition authorizationHeader : string := "Authorization".

Definition Role : Type := string.
Definition RoleOperatorRead : Role := "operator.read".
Definition RoleAdminWrite : Role := "admin.write".

Record OperatorConfig : Type := mkOperatorConfig {
  oc_ReadBearerToken : string;
  oc_AdminBearerToken : string
}.

Definition Allows (r required : Role) : bool :=
  if String.eqb required RoleOperatorRead then String.eqb r RoleOperatorRead || String.eqb r RoleAdminWrite
  else if String.eqb required RoleAdminWrite then String.eqb r RoleAdminWrite
  else false.

(** [strings.Cut(s, " ")]: the parts around the first blank. *)
Fixpoint cut_blank (l : chars) : option (chars * chars) :=
  match l with
  | [] => None
  | c :: l' => if ascii_dec c " "%char then Some ([], l')
               else match cut_blank l' with Some (a, b) => Some (c :: a, b) | None => None end
  end.

Definition malformed : go_error := Errorf "malformed %s header: expected Bearer token".

Definition parseBearerToken (headerValue : string) : result go_error string :=
  match cut_blank (to_chars headerValue) with
  | None => Err malformed
  | Some (scheme, rest) =>
      if negb (EqualFold (of_chars scheme) "Bearer") then Err malformed else
      let token := TrimSpace (of_chars rest) in
      if String.eqb token "" || bool_decide (" "%char ∈ to_chars token) then Err malformed
      else Ok token
  end.

Definition roleForToken (c : OperatorConfig) (token : string) : option Role :=
  if String.eqb token "" then None
  else if String.eqb token (oc_AdminBearerToken c) && negb (String.eqb (oc_AdminBearerToken c) "")
  then Some RoleAdminWrite
  else if String.eqb token (oc_ReadBearerToken c) && negb (String.eqb (oc_ReadBearerToken c) "")
  then Some RoleOperatorRead
  else None.

(** The role is also returned with a permission error. *)
Definition AuthorizeHeader (h : header) (config : OperatorConfig) (required : Role) :
    Role * option connect_error :=
  let rawHeader := TrimSpace (Header_Get h authorizationHeader) in
  if String.eqb rawHeader "" then (""%string, Some (CodeUnauthenticated, Errorf "missing %s header")) else
  match parseBearerToken rawHeader with
  | Err e => (""%string, Some (CodeUnauthenticated, e))
  | Ok token =>
      match roleForToken config token with
      | None => (""%string, Some (CodeUnauthenticated, Errorf "invalid bearer token"))
      | Some role =>
          if negb (Allows role required)
          then (role, Some (CodePermissionDenied, Errorf "role %q does not satisfy %q"))
          else (role, None)
      end
  end.

(** ** Proofs *)

(** Visible ASCII, the characters of a token. *)
Definition visible (c : ascii) : bool := let n := N_of_ascii c in ((33 <=? n) && (n <=? 126))%N.

Lemma visible_ok c : visible c = true -> not_space_start c = true /\ not_space_end c = true /\ c <> " "%char.
Proof.
  assert (H : forallb (fun n => let c := ascii_of_N (N.of_nat n) in
    implb (visible c) (not_space_start c && not_space_end c && negb (bool_decide (c = " "%char)))) (seq 0 256) = true)
    by (vm_compute; reflexivity).
  intros Hv. rewrite forallb_forall in H. specialize (H (N.to_nat (N_of_ascii c))). cbv zeta in H.
  rewrite N2Nat.id, ascii_N_embedding, Hv in H. cbn [implb] in H.
  rewrite !andb_true_iff, negb_true_iff, bool_decide_eq_false in H.
  destruct H as [[? ?] ?]; [|done]. apply in_seq. pose proof (N_ascii_bounded c). lia.
Qed.

Lemma trim_visible c l d l' :
  visible c = true -> visible d = true -> c :: l = l' ++ [d] -> trim_space (c :: l) = c :: l.
Proof.
  intros Hc Hd E. unfold trim_space. rewrite trim_space_left_id by (by apply visible_ok). rewrite E.
  apply trim_space_right_id. by apply visible_ok.
Qed.

Definition bearer (token : string) : string := of_chars (to_chars "Bearer " ++ to_chars token).

Lemma last_visible l : Forall (fun c => visible c = true) l -> l <> [] -> exists l' d, l = l' ++ [d] /\ visible d = true.
Proof.
  intros Hl Hne. destruct (exists_last Hne) as (l' & d & ->). exists l', d. split; [done |].
  apply Forall_app in Hl as [_ Hd]. by apply Forall_cons_1 in Hd as [? _].
Qed.

Lemma TrimSpace_visible token :
  token <> ""%string -> Forall (fun c => visible c = true) (to_chars token) -> TrimSpace token = token.
Proof.
  intros Hne Hv. unfold TrimSpace. rewrite <- (String.string_of_list_ascii_of_string token) at 2. f_equal.
  destruct (to_chars token) as [|c l] eqn:E; [done |].
  destruct (last_visible (c :: l) Hv) as (l' & d & E' & Hd); [done |].
  apply Forall_cons_1 in Hv as [Hc _]. by eapply trim_visible.
Qed.

Lemma TrimSpace_bearer token :
  token <> ""%string -> Forall (fun c => visible c = true) (to_chars token) -> TrimSpace (bearer token) = bearer token.
Proof.
  intros Hne Hv. unfold TrimSpace, bearer. rewrite String.list_ascii_of_string_of_list_ascii. f_equal.
  destruct (last_visible _ Hv) as (l' & d & E & Hd).
  { intros E. apply (f_equal of_chars) in E. by rewrite String.string_of_list_ascii_of_string in E. }
  rewrite E. change (to_chars "Bearer ") with ("B"%char :: to_chars "earer ").
  rewrite <- app_comm_cons. eapply trim_visible; [done | exact Hd |]. by rewrite app_comm_cons, app_assoc.
Qed.

Lemma parse_bearer token :
  token <> ""%string -> Forall (fun c => visible c = true) (to_chars token) ->
  parseBearerToken (bearer token) = Ok token.
Proof.
  intros Hne Hv. unfold parseBearerToken, bearer. rewrite String.list_ascii_of_string_of_list_ascii.
  change (cut_blank (to_chars "Bearer " ++ to_chars token)) with (Some (to_chars "Bearer", to_chars token)).
  cbv beta iota. rewrite !String.string_of_list_ascii_of_string, TrimSpace_visible by done.
  change (EqualFold _ _) with true. cbn [negb].
  destruct (String.eqb_spec token ""); [done |]. rewrite bool_decide_false; [done |].
  intros Hin. rewrite list.Forall_forall in Hv. by destruct (visible_ok _ (Hv _ Hin)) as (_ & _ & ?).
Qed.

Lemma parse_nonempty s token : parseBearerToken s = Ok token -> token <> ""%string.
Proof.
  unfold parseBearerToken. destruct (cut_blank _) as [[scheme rest]|]; [|done].
  destruct (negb _); [done |]. destruct (String.eqb_spec (TrimSpace (of_chars rest)) ""); [done |]. simpl.
  case_match; [done |]. by intros [= <-].
Qed.

(** What a token is worth: the admin token admits everything, the read token
    only reads; tokens that are not configured are worth nothing. *)
Definition admits (config : OperatorConfig) (token : string) (required : Role) (role : Role) : Prop :=
  (token = oc_AdminBearerToken config /\ role = RoleAdminWrite /\
   (required = RoleOperatorRead \/ required = RoleAdminWrite)) \/
  (token = oc_ReadBearerToken config /\ token <> oc_AdminBearerToken config /\ role = RoleOperatorRead /\
   required = RoleOperatorRead).

Lemma role_admits config token required role :
  token <> ""%string ->
  (roleForToken config token = Some role /\ Allows role required = true) <-> admits config token required role.
Proof.
  intros Hne. unfold roleForToken, admits, Allows.
  destruct (String.eqb_spec token ""); [done |].
  destruct (String.eqb_spec token (oc_AdminBearerToken config)) as [E|E].
  - rewrite <- E. destruct (String.eqb_spec token ""); [done |]. simpl.
    destruct (String.eqb_spec required RoleOperatorRead), (String.eqb_spec required RoleAdminWrite); subst; naive_solver.
  - simpl. destruct (String.eqb_spec token (oc_ReadBearerToken config)) as [E'|E']; [|naive_solver].
    rewrite <- E'. destruct (String.eqb_spec token ""); [done |]. simpl.
    destruct (String.eqb_spec required RoleOperatorRead), (String.eqb_spec required RoleAdminWrite); subst; naive_solver.
Qed.

(** The operator surface admits exactly the configured tokens: a request is
    admitted only when its Authorization header carries a non-empty bearer token
    that is the configured admin token (any role) or the configured read token
    (read endpoints only), so an unset token admits nobody and the read token
    never writes; and a header "Bearer <token>" with a token of visible
    characters is admitted whenever its token is worth the required role. *)
Theorem AuthorizeHeader_correct (h : header) (config : OperatorConfig) (required : Role) :
  (forall role, AuthorizeHeader h config required = (role, None) ->
     exists token, parseBearerToken (TrimSpace (Header_Get h authorizationHeader)) = Ok token /\
       token <> ""%string /\ admits config token required role) /\
  (forall token role, Header_Get h authorizationHeader = bearer token -> token <> ""%string ->
     Forall (fun c => visible c = true) (to_chars token) -> admits config token required role ->
     AuthorizeHeader h config required = (role, None)).
Proof.
  unfold AuthorizeHeader. split.
  - intros role. destruct (String.eqb _ ""); [done |].
    destruct (parseBearerToken _) as [token|] eqn:Ep; [|done].
    pose proof (parse_nonempty _ _ Ep) as Hne. destruct (roleForToken config token) as [r|] eqn:Er; [|done].
    destruct (Allows r required) eqn:Ea; [|done]. intros [= <-]. exists token. split_and!; try done.
    by apply role_admits.
  - intros token role Hh Hne Hv Ha. rewrite Hh, TrimSpace_bearer by done.
    destruct (String.eqb_spec (bearer token) ""); [done |].
    rewrite parse_bearer by done. apply role_admits in Ha as [-> ->]; done.
Qed.

Module OperatorWitness.
Definition config : OperatorConfig := mkOperatorConfig "read-token" "admin-token".
Definition reader : header := {["Authorization"%string := ["Bearer read-token"%string]]}.
End OperatorWitness.

Lemma AuthorizeHeader_correct_witness :
  AuthorizeHeader OperatorWitness.reader OperatorWitness.config RoleOperatorRead = (RoleOperatorRead, None) /\
  (AuthorizeHeader OperatorWitness.reader OperatorWitness.config RoleAdminWrite).2 <> None.
Proof.
  split.
  - apply (proj2 (AuthorizeHeader_correct OperatorWitness.reader OperatorWitness.config RoleOperatorRead)
             "read-token"%string RoleOperatorRead); [reflexivity | discriminate | |].
    + apply list.Forall_forall. intros c Hc. apply list_elem_of_In in Hc.
      apply (proj1 (forallb_forall visible (to_chars "read-token")) eq_refl c Hc).
    + right. split_and!; [reflexivity | discriminate | reflexivity | reflexivity].
  - vm_compute. discriminate.
Defined.
