(* ===== verification/Consumer.v ===== *)
(** The consumer sidecar's payment side: the client session and its manager
    ([sidecar/session.go]), RAV signing ([consumer/sidecar/sidecar.go],
    [rav_request_signing.go]), the pricing ceiling of the oracle
    ([discovery.go]) and the unary [EndSession] ([handler_end_session.go]).

    A client session is one object behind its mutex: an operation is a function
    on the record, and the manager's map holds the current value of each
    session.  [TotalCost] and the baseline cost are never nil. *)
From S2P Require Import Prelude.
From S2P Require Import GoStd.
From S2P Require Import External.
From S2P Require Import GRT.
From S2P Require Import Horizon.
From S2P Require Import Proto.
From S2P Require Import Repository.
From S2P Require Import Runtime.
From S2P Require Import Gateway.
From S2P Require Import GatewayProps.
From S2P Require Import InMemory.
From S2P Require Import InMemoryProps.

Inductive SessionState : Type := SessionStateActive | SessionStatePaused | SessionStateEnded.
#[global] Instance SessionState_eq_dec : EqDecision SessionState.
Proof. solve_decision. Defined.

Section Consumer.
Context `{Uint256} `{Eth}.

(** ** Client sessions *)

Record ClientSession : Type := mkClientSession {
  c_ID : string;
  c_State : SessionState;
  c_CreatedAt : time;
  c_UpdatedAt : time;
  c_EndedAt : option time;
  c_EndReason : EndReason;
  c_Payer : address;
  c_Receiver : address;
  c_DataService : address;
  c_CurrentRAV : option SignedRAV;
  c_BlocksProcessed : Z;
  c_BytesTransferred : Z;
  c_Requests : Z;
  c_TotalCost : Z;
  c_baselineBlocks : Z;
  c_baselineBytes : Z;
  c_baselineReqs : Z;
  c_baselineCost : Z;
  c_PricePerBlock : option Z;
  c_PricePerByte : option Z;
  c_PricingConfig : option PricingConfig
}.
#[global] Instance ClientSession_eta : Eta ClientSession := fun s =>
  mkClientSession (c_ID s) (c_State s) (c_CreatedAt s) (c_UpdatedAt s) (c_EndedAt s) (c_EndReason s)
    (c_Payer s) (c_Receiver s) (c_DataService s) (c_CurrentRAV s) (c_BlocksProcessed s) (c_BytesTransferred s)
    (c_Requests s) (c_TotalCost s) (c_baselineBlocks s) (c_baselineBytes s) (c_baselineReqs s) (c_baselineCost s)
    (c_PricePerBlock s) (c_PricePerByte s) (c_PricingConfig s).

Definition NewSessionWithID (now : time) (id : string) (payer receiver dataService : address) : ClientSession :=
  mkClientSession id SessionStateActive now now None END_REASON_UNSPECIFIED payer receiver dataService None
    0 0 0 0 0 0 0 0 (Some 0) None None.

(** [NewSession]: [generated] is the random identifier. *)
Definition Client_NewSession (now : time) (generated : string) (payer receiver dataService : address) : ClientSession :=
  NewSessionWithID now generated payer receiver dataService.

Definition Client_AddUsage (now : time) (blocks bytes requests : Z) (cost : option Z) (s : ClientSession) :
    ClientSession :=
  let s := s <| c_BlocksProcessed := wrap_u64 (c_BlocksProcessed s + blocks) |>
             <| c_BytesTransferred := wrap_u64 (c_BytesTransferred s + bytes) |>
             <| c_Requests := wrap_u64 (c_Requests s + requests) |> in
  let s := match cost with Some c => s <| c_TotalCost := c_TotalCost s + c |> | None => s end in
  s <| c_UpdatedAt := now |>.

Definition Client_UsageDeltaSinceBaseline (s : ClientSession) : Z * Z * Z * Z :=
  (usage_delta (c_BlocksProcessed s) (c_baselineBlocks s),
   usage_delta (c_BytesTransferred s) (c_baselineBytes s),
   usage_delta (c_Requests s) (c_baselineReqs s),
   let cost := c_TotalCost s - c_baselineCost s in if cost <? 0 then 0 else cost).

Definition Client_MarkBaseline (s : ClientSession) : ClientSession :=
  s <| c_baselineBlocks := c_BlocksProcessed s |> <| c_baselineBytes := c_BytesTransferred s |>
    <| c_baselineReqs := c_Requests s |> <| c_baselineCost := c_TotalCost s |>.

Definition Client_GetUsage (s : ClientSession) : PUsage :=
  mkPUsage (c_BlocksProcessed s) (c_BytesTransferred s) (c_Requests s) (GRTFromBigInt (Some (c_TotalCost s))).

Definition SetRAV (now : time) (rav : option SignedRAV) (s : ClientSession) : ClientSession :=
  s <| c_CurrentRAV := rav |> <| c_UpdatedAt := now |>.

Definition GetRAV (s : ClientSession) : option SignedRAV := c_CurrentRAV s.

Definition Client_End (now : time) (reason : EndReason) (s : ClientSession) : ClientSession :=
  s <| c_State := SessionStateEnded |> <| c_EndedAt := Some now |> <| c_EndReason := reason |>
    <| c_UpdatedAt := now |>.

Definition Client_IsActive (s : ClientSession) : bool := bool_decide (c_State s = SessionStateActive).

Definition Client_SetPricingConfig (config : option PricingConfig) (s : ClientSession) : ClientSession :=
  let s := s <| c_PricingConfig := config |> in
  match config with
  | None => s
  | Some c =>
      let s := if GRT_IsZero (PricePerBlock c) then s
               else s <| c_PricePerBlock := Some (GRT_BigInt (PricePerBlock c)) |> in
      if GRT_IsZero (PricePerByte c) then s
      else s <| c_PricePerByte := Some (GRT_BigInt (PricePerByte c)) |>
  end.

(** Without a pricing configuration the counters are read as [int64]. *)
Definition Client_CalculateUsageCost (s : ClientSession) (blocksProcessed bytesTransferred : Z) : Z :=
  match c_PricingConfig s with
  | Some c => GRT_BigInt (CalculateUsageCost c blocksProcessed bytesTransferred)
  | None =>
      match c_PricePerBlock s with Some p => p * wrap_s64 blocksProcessed | None => 0 end +
      match c_PricePerByte s with Some p => p * wrap_s64 bytesTransferred | None => 0 end
  end.

Record SessionInfo : Type := mkSessionInfo {
  si_SessionId : string;
  si_EscrowAccount : PEscrowAccount;
  si_CurrentRav : option PSignedRAV;
  si_AccumulatedUsage : PUsage;
  si_PricingConfig : option PPricingConfig
}.

Definition ToSessionInfo (s : ClientSession) : SessionInfo :=
  mkSessionInfo (c_ID s)
    (mkPEscrowAccount (AddressFromEth (c_Payer s)) (AddressFromEth (c_Receiver s)) (AddressFromEth (c_DataService s)))
    (HorizonSignedRAVToProto (c_CurrentRAV s)) (Client_GetUsage s) (PricingConfigFromNative (c_PricingConfig s)).

(** ** Session manager *)

Abbreviation SessionManager := (gmap string ClientSession).
Definition NewSessionManager : SessionManager := ∅.

Definition Manager_Create (now : time) (generated : string) (payer receiver dataService : address)
    (sm : SessionManager) : ClientSession * SessionManager :=
  let session := Client_NewSession now generated payer receiver dataService in
  (session, <[c_ID session := session]> sm).

Definition CreateWithID (now : time) (id : string) (payer receiver dataService : address) (sm : SessionManager) :
    result go_error ClientSession * SessionManager :=
  if String.eqb id "" then (Err (Errorf "session id is required"), sm) else
  match sm !! id with
  | Some _ => (Err (Errorf "session already exists: %s"), sm)
  | None => let session := NewSessionWithID now id payer receiver dataService in
            (Ok session, <[c_ID session := session]> sm)
  end.

Definition Manager_Get (id : string) (sm : SessionManager) : result go_error ClientSession :=
  match sm !! id with Some s => Ok s | None => Err (Errorf "session not found: %s") end.

Definition Manager_Delete (id : string) (sm : SessionManager) : SessionManager := delete id sm.

Definition GetActive (sm : SessionManager) : list ClientSession :=
  List.filter Client_IsActive (map snd (map_to_list sm)).

Definition Manager_Count (sm : SessionManager) : Z := Z.of_nat (size sm).

(** ** Signing *)

(** The sidecar's signing identity. *)
Record Signer : Type := mkSigner { sg_domain : Domain; sg_key : PrivateKey }.

Definition signRAV (sg : Signer) (collectionID : CollectionID) (payer dataService serviceProvider : address)
    (timestampNs : Z) (valueAggregate : option Z) (metadata : list byte) : result go_error SignedRAV :=
  horizon_Sign (sg_domain sg)
    (mkRAV collectionID payer serviceProvider dataService timestampNs valueAggregate metadata) (sg_key sg).

(** [uint64(time.Now().UnixNano())]. *)
Definition nano_u64 (now : time) : Z := wrap_u64 (now - 62135596800 * 10 ^ 9).

Record RAVRequest : Type := mkRAVRequest {
  rq_CurrentRav : option PSignedRAV;
  rq_Usage : option PUsage
}.

Definition signRAVForRequest (sg : Signer) (now : time) (session : ClientSession) (req : option RAVRequest) :
    result go_error SignedRAV :=
  match req with
  | None => Err (Errorf "rav_request is required")
  | Some req =>
    match rq_CurrentRav req, rq_Usage req with
    | None, _ => Err (Errorf "rav_request.current_rav is required")
    | _, None => Err (Errorf "rav_request.usage is required")
    | Some _, Some usage =>
      match pu_Cost usage with
      | None => Err (Errorf "rav_request.usage.cost is required")
      | Some _ =>
        match ProtoSignedRAVToHorizon (rq_CurrentRav req) with
        | Err e => Err (Wrapf "invalid rav_request.current_rav: %w" e)
        | Ok None => Err (Errorf "rav_request.current_rav.rav is required")
        | Ok (Some current) =>
          match Message current with
          | None => Err (Errorf "rav_request.current_rav.rav is required")
          | Some m =>
            let deltaCost := GRT_ToBigInt (pu_Cost usage) in
            match rav_ValueAggregate m with
            | None => Err GoPanic
            | Some v =>
                signRAV sg (rav_CollectionID m) (c_Payer session) (c_DataService session) (c_Receiver session)
                  (nano_u64 now) (Some (v + deltaCost)) []
            end
          end
        end
      end
    end
  end.

(** ** The oracle's price ceiling *)

Definition effectiveSessionPricing (providerPricing oraclePricing : option PricingConfig) :
    result go_error (option PricingConfig) :=
  match oraclePricing with
  | None => Ok providerPricing
  | Some o =>
    match providerPricing with
    | None => Ok oraclePricing
    | Some p =>
        if GRT_Cmp (PricePerBlock p) (PricePerBlock o) >? 0
        then Err (Errorf "provider <pricing_config.price_per_block> %s exceeds oracle canonical price %s")
        else if GRT_Cmp (PricePerByte p) (PricePerByte o) >? 0
        then Err (Errorf "provider <pricing_config.price_per_byte> %s exceeds oracle canonical price %s")
        else Ok providerPricing
    end
  end.

(** ** EndSession *)

Record EndSessionResponse : Type := mkEndResp { er_FinalRav : option PSignedRAV; er_TotalUsage : PUsage }.

(** [managed] tells whether a payment-stream client is registered for the
    session.  The usage counters of the request are added before signing. *)
Definition EndSession (sg : Signer) (now : time) (managed : bool) (sessionID : string) (finalUsage : option PUsage)
    (sm : SessionManager) : result connect_error EndSessionResponse * SessionManager :=
  match Manager_Get sessionID sm with
  | Err e => (Err (CodeNotFound, e), sm)
  | Ok session =>
    if managed
    then (Err (CodeFailedPrecondition,
               Errorf "EndSession is deprecated for provider-managed sessions; use the consumer sidecar ingress endpoint instead"), sm)
    else
      let session := match finalUsage with
                     | Some u => Client_AddUsage now (pu_BlocksProcessed u) (pu_BytesTransferred u) (pu_Requests u)
                                   (Some (GRT_ToBigInt (pu_Cost u))) session
                     | None => session
                     end in
      let current := match GetRAV session with Some c => Message c | None => None end in
      let cost := match finalUsage with Some u => GRT_ToBigInt (pu_Cost u) | None => 0 end in
      let finalValue :=
        match current with
        | Some m => match finalUsage, rav_ValueAggregate m with
                    | Some _, Some v => Ok (Some (v + cost))
                    | Some _, None => Err GoPanic
                    | None, v => Ok v
                    end
        | None => Ok (Some cost)
        end in
      let collectionID := match current with Some m => rav_CollectionID m | None => zeros 32 end in
      match finalValue with
      | Err e => (Err (CodeInternal, e), <[sessionID := session]> sm)
      | Ok finalValue =>
        match signRAV sg collectionID (c_Payer session) (c_DataService session) (c_Receiver session) (nano_u64 now)
                finalValue [] with
        | Err e => (Err (CodeInternal, e), <[sessionID := session]> sm)
        | Ok finalRAV =>
            let session := Client_End now END_REASON_COMPLETE (SetRAV now (Some finalRAV) session) in
            (Ok (mkEndResp (HorizonSignedRAVToProto (Some finalRAV)) (Client_GetUsage session)),
             <[sessionID := session]> sm)
        end
      end
  end.
End Consumer.

Section ConsumerProofs.
Context `{Uint256Laws} `{EthLaws}.

(** A session identity that can appear in a voucher. *)
Definition wf_client (s : ClientSession) : Prop :=
  length (c_Payer s) = 20%nat /\ length (c_Receiver s) = 20%nat /\ length (c_DataService s) = 20%nat.

Lemma nano_u64_range now : u64 (nano_u64 now).
Proof. apply wrap_u64_range. Qed.

(** What a signed answer to a request is, whatever the request says. *)
Lemma signRAVForRequest_inv sg now cs req sm :
  signRAVForRequest sg now cs (Some req) = Ok sm ->
  exists usage current m v,
    rq_Usage req = Some usage /\ ProtoSignedRAVToHorizon (rq_CurrentRav req) = Ok (Some current) /\
    Message current = Some m /\ rav_ValueAggregate m = Some v /\ pu_Cost usage <> None /\
    signRAV sg (rav_CollectionID m) (c_Payer cs) (c_DataService cs) (c_Receiver cs) (nano_u64 now)
      (Some (v + GRT_ToBigInt (pu_Cost usage))) [] = Ok sm.
Proof.
  unfold signRAVForRequest. destruct (rq_CurrentRav req) as [psr|]; [|done].
  destruct (rq_Usage req) as [usage|]; [|done]. destruct (pu_Cost usage) as [c|] eqn:Ec; [|done].
  destruct (ProtoSignedRAVToHorizon (Some psr)) as [[current|]|]; [|done..].
  destruct (Message current) as [m|] eqn:Em; [|done]. destruct (rav_ValueAggregate m) as [v|] eqn:Ev; [|done].
  intros Hs. exists usage, current, m, v. rewrite Ec. done.
Qed.

(** A key that can sign, signs every well-formed voucher. *)
Lemma sign_wf_total domain (m : RAV) key :
  wf_rav m -> (forall h, exists sig, key_Sign key h = Ok sig) ->
  exists sm, horizon_Sign domain m key = Ok sm /\ Message sm = Some m /\ length (Signature sm) = 65%nat /\
    RecoverSigner sm domain = Ok (key_address key).
Proof.
  intros Hm Hsign. assert (Hs : exists sm, horizon_Sign domain m key = Ok sm).
  { unfold horizon_Sign, HashTypedData, hashStruct. simpl.
    destruct (RAV_EncodeData_total m Hm) as (l & -> & _). cbn [rbind].
    match goal with |- exists sm, match key_Sign _ ?h with _ => _ end = _ => destruct (Hsign h) as [sig ->] end. eauto. }
  destruct Hs as [sm Hs]. exists sm. split; [done |]. by apply RecoverSigner_Sign.
Qed.

(** The voucher the sidecar signs for a session. *)
Definition answer_rav (cs : ClientSession) (coll : CollectionID) (now : time) (value : Z) : RAV :=
  mkRAV coll (c_Payer cs) (c_Receiver cs) (c_DataService cs) (nano_u64 now) (Some value) [].

Lemma answer_rav_wf cs coll now value :
  wf_client cs -> length coll = 32%nat -> 0 <= value < two256 -> wf_rav (answer_rav cs coll now value).
Proof.
  intros (? & ? & ?) ? ?. unfold wf_rav, answer_rav. simpl. split_and!; try done; [apply nano_u64_range.. |]. eauto.
Qed.

(** Evaluating a well-formed request. *)
Lemma signRAVForRequest_eval sg now cs m0 sig0 v u :
  wf_rav m0 -> length sig0 = 65%nat -> rav_ValueAggregate m0 = Some v -> is_Some (pu_Cost u) ->
  signRAVForRequest sg now cs
    (Some (mkRAVRequest (HorizonSignedRAVToProto (Some (mkSigned (Some m0) sig0))) (Some u))) =
  horizon_Sign (sg_domain sg)
    (answer_rav cs (rav_CollectionID m0) now (v + GRT_ToBigInt (pu_Cost u))) (sg_key sg).
Proof.
  intros Hwf Hl Ev [c Ec]. pose proof (SignedRAV_wire m0 sig0 Hwf Hl) as Hw. unfold signRAVForRequest.
  cbn [rq_CurrentRav rq_Usage HorizonSignedRAVToProto Message Signature] in Hw |- *.
  rewrite Ec, Hw. cbn [Message]. rewrite Ev. done.
Qed.

Lemma GRT_ToBigInt_nonneg p : 0 <= GRT_ToBigInt p.
Proof. unfold GRT_ToBigInt. apply GRT_BigInt_range. Qed.

Context `{!GlobalRepository R}.
Implicit Types (g : Gateway R) (cfg : GatewayConfig) (env : Env).

(** The request the gateway sends for a session, and what it remembers of it. *)
Definition request_of (s : Session) : RAVRequest * option pendingRAVRequest :=
  let '(blocks, bytes, reqs, deltaCost) := UsageDeltaSinceBaseline s in
  let usage := Some (mkPUsage blocks bytes reqs (GRTFromBigInt (Some deltaCost))) in
  (mkRAVRequest (HorizonSignedRAVToProto (s_CurrentRAV s)) usage, pending_clone (newPendingRAVRequest s usage)).

(** What the gateway remembers of a request. *)
Lemma request_of_inv s req p m0 sig0 v :
  request_of s = (req, Some p) -> s_CurrentRAV s = Some (mkSigned (Some m0) sig0) -> rav_ValueAggregate m0 = Some v ->
  exists u, req = mkRAVRequest (HorizonSignedRAVToProto (Some (mkSigned (Some m0) sig0))) (Some u) /\
    is_Some (pu_Cost u) /\ pr_usage p = cloneUsage (cloneUsage (Some u)) /\ pr_currentRAVValue p = v /\
    pr_targetValue p = v + GRT_ToBigInt (pu_Cost u).
Proof.
  unfold request_of. intros Hreq Hrav Ev. destruct (UsageDeltaSinceBaseline s) as [[[blocks bytes] reqs] delta].
  set (u := mkPUsage blocks bytes reqs (GRTFromBigInt (Some delta))) in *. rewrite Hrav in Hreq.
  apply pair_equal_spec in Hreq as [<- Ep]. exists u. split; [done |].
  assert (Hu : is_Some (pu_Cost u)) by (simpl; eauto). split; [done |]. destruct Hu as [c Ec].
  unfold newPendingRAVRequest in Ep. rewrite Hrav in Ep. cbn [Message] in Ep. rewrite Ec, <- Ec, Ev in Ep.
  cbn [value_of default pending_clone] in Ep. apply (inj Some) in Ep. by rewrite <- Ep.
Qed.

Lemma cloneUsage_equal u : usageEqual (cloneUsage (cloneUsage (Some u))) (Some u) = true.
Proof.
  unfold usageEqual, cloneUsage. simpl. rewrite !Z.eqb_refl. simpl.
  destruct (pu_Cost u) as [c|]; [|done].
  change ((cmpZ (GRT_ToBigInt (GRTFromBigInt (Some (GRT_ToBigInt (GRTFromBigInt (Some (GRT_ToBigInt (Some c)))))))
    ) (GRT_ToBigInt (Some c)) =? 0) = true).
  assert (0 <= GRT_ToBigInt (Some c) < two256) by (unfold GRT_ToBigInt; apply GRT_BigInt_range).
  by rewrite !GRT_ToBigInt_FromBigInt, cmpZ_eqb, Z.eqb_refl by (rewrite ?GRT_ToBigInt_FromBigInt; done).
Qed.

(** An answer signed by the payer itself for this session passes every check. *)
Lemma honest_validates cfg env s' cs sm p u g :
  s_Payer s' = c_Payer cs -> s_DataService s' = c_DataService cs -> gc_serviceProvider cfg = c_Receiver cs ->
  (exists m, Message sm = Some m /\ wf_rav m /\ rav_Payer m = c_Payer cs /\ rav_ServiceProvider m = c_Receiver cs /\
     rav_DataService m = c_DataService cs /\ rav_ValueAggregate m = Some (pr_targetValue p)) ->
  length (Signature sm) = 65%nat -> RecoverSigner sm (gc_domain cfg) = Ok (c_Payer cs) ->
  matchesUsage (Some p) (Some u) = true -> pr_currentRAVValue p <= pr_targetValue p ->
  validateSubmission cfg env s' (mkSubmission (HorizonSignedRAVToProto (Some sm)) (Some u)) p g = (Ok sm, g).
Proof.
  intros Hp Hd Hr (m & Em & Hwf & Ep & Er & Ed & Ev) Hl Hrec Hu Hle.
  assert (Esm : sm = mkSigned (Some m) (Signature sm)) by (destruct sm; simpl in *; by subst).
  unfold validateSubmission. cbn [sb_Usage sb_SignedRav]. rewrite Hu. cbn [negb].
  rewrite Esm at 1. rewrite SignedRAV_wire, <- Esm, Hrec, Em by done. unfold AddressesEqual.
  rewrite !bool_decide_true by congruence. cbn [negb].
  unfold isSignerAuthorized, AddressesEqual. rewrite bool_decide_true by done.
  rewrite Ev. simpl. rewrite !cmpZ_ltb, cmpZ_gtb.
  destruct (Z.ltb_spec (pr_targetValue p) (pr_currentRAVValue p)); [lia |].
  rewrite Z.ltb_irrefl. destruct (pr_targetValue p >? pr_targetValue p) eqn:E; [|done].
  rewrite Z.gtb_ltb, Z.ltb_irrefl in E. done.
Qed.

(** The answer of the payer's own sidecar: it is signed, it has the requested
    value, and the provider's checks pass whatever else the gateway holds. *)
Lemma honest_signs cfg (s : Session) cs sg now req p m0 sig0 :
  request_of s = (req, Some p) -> s_CurrentRAV s = Some (mkSigned (Some m0) sig0) ->
  wf_rav m0 -> length sig0 = 65%nat -> gc_serviceProvider cfg = c_Receiver cs ->
  wf_client cs -> sg_domain sg = gc_domain cfg -> key_address (sg_key sg) = c_Payer cs ->
  (forall h, exists sig, key_Sign (sg_key sg) h = Ok sig) -> pr_targetValue p < two256 ->
  exists sm, signRAVForRequest sg now cs (Some req) = Ok sm /\
    Message sm = Some (answer_rav cs (rav_CollectionID m0) now (pr_targetValue p)) /\ length (Signature sm) = 65%nat /\
    forall env (s' : Session) g, s_Payer s' = c_Payer cs -> s_DataService s' = c_DataService cs ->
      validateSubmission cfg env s' (mkSubmission (HorizonSignedRAVToProto (Some sm)) (rq_Usage req)) p g = (Ok sm, g).
Proof.
  intros Hreq Hrav Hwf Hlen Hr Hc Hdom Hkey Hsign Hfit.
  pose proof Hwf as (Hcoll & _ & _ & _ & _ & v & Ev & Hv).
  destruct (request_of_inv _ _ _ _ _ _ Hreq Hrav Ev) as (u & -> & Hu & Hus & Hcur & Ht).
  pose proof (GRT_ToBigInt_nonneg (pu_Cost u)) as Hcost.
  set (m := answer_rav cs (rav_CollectionID m0) now (pr_targetValue p)).
  assert (Hm : wf_rav m) by (apply answer_rav_wf; [done | done | lia]).
  destruct (sign_wf_total (sg_domain sg) m (sg_key sg) Hm Hsign) as (sm & Hsm & Em & Hl & Hrec).
  rewrite Hdom, Hkey in Hrec. exists sm. split_and!; [| done | done |].
  - rewrite (signRAVForRequest_eval sg now cs m0 sig0 v u) by done. rewrite <- Ht. exact Hsm.
  - intros env s' g Hp Hd. cbn [rq_Usage]. apply (honest_validates cfg env s' cs sm p u); try done; [by exists m | | lia].
    unfold matchesUsage. rewrite Hus. apply cloneUsage_equal.
Qed.


(** The consumer signs what the provider asks: every answer the sidecar signs
    is a well-formed voucher of its own session (payer, provider and data
    service), recoverable to its own key, on the collection and exactly at the
    value the request names plus the requested cost.  Neither is compared with
    the RAV the consumer last signed or with its prices: for every value below
    2^256 there is a request, whose current RAV need not be signed by anybody, that
    makes any session of the sidecar sign that value. *)
Theorem signRAVForRequest_spec sg now cs :
  wf_client cs ->
  (forall req sm, signRAVForRequest sg now cs (Some req) = Ok sm ->
     exists usage current m0 v m, rq_Usage req = Some usage /\
       ProtoSignedRAVToHorizon (rq_CurrentRav req) = Ok (Some current) /\ Message current = Some m0 /\
       rav_ValueAggregate m0 = Some v /\ Message sm = Some m /\
       rav_Payer m = c_Payer cs /\ rav_ServiceProvider m = c_Receiver cs /\ rav_DataService m = c_DataService cs /\
       rav_CollectionID m = rav_CollectionID m0 /\
       rav_ValueAggregate m = Some (v + GRT_ToBigInt (pu_Cost usage)) /\
       RecoverSigner sm (sg_domain sg) = Ok (key_address (sg_key sg))) /\
  ((forall h, exists sig, key_Sign (sg_key sg) h = Ok sig) ->
   forall value, 0 <= value < two256 ->
   exists req sm, signRAVForRequest sg now cs (Some req) = Ok sm /\ rav_value (Some sm) = value).
Proof.
  intros Hc. split.
  - intros req sm Hs. destruct (signRAVForRequest_inv _ _ _ _ _ Hs) as (usage & current & m0 & v & Eu & Ec & Em & Ev & _ & Hsg).
    destruct (RecoverSigner_Sign _ _ _ _ Hsg) as (Em' & _ & Hrec).
    eexists usage, current, m0, v, _. split_and!; try done.
  - intros Hsign value Hv. set (m0 := answer_rav cs (zeros 32) now value).
    assert (Hm0 : wf_rav m0) by (by apply answer_rav_wf).
    destruct (sign_wf_total (sg_domain sg) m0 (sg_key sg) Hm0 Hsign) as (sm & Hsm & Em & _ & _).
    set (u := mkPUsage 0 0 0 (GRTFromBigInt (Some 0))).
    assert (Hz : GRT_ToBigInt (pu_Cost u) = 0) by (apply GRT_ToBigInt_FromBigInt; unfold two256; lia).
    exists (mkRAVRequest (HorizonSignedRAVToProto (Some (mkSigned (Some m0) (zeros 65)))) (Some u)), sm. split.
    + rewrite (signRAVForRequest_eval sg now cs m0 (zeros 65) value u), Hz, Z.add_0_r by (simpl; eauto). exact Hsm.
    + unfold rav_value. by rewrite Em.
Qed.

(** Neither price of a session exceeds the oracle's. *)
Lemma effective_le (provider : option PricingConfig) (oracle : PricingConfig) r :
  effectiveSessionPricing provider (Some oracle) = Ok r ->
  exists c, r = Some c /\ GRT_BigInt (PricePerBlock c) <= GRT_BigInt (PricePerBlock oracle) /\
    GRT_BigInt (PricePerByte c) <= GRT_BigInt (PricePerByte oracle).
Proof.
  intros E. unfold effectiveSessionPricing in E. destruct provider as [c|].
  - destruct (GRT_Cmp (PricePerBlock c) (PricePerBlock oracle) >? 0) eqn:E1; [done |].
    destruct (GRT_Cmp (PricePerByte c) (PricePerByte oracle) >? 0) eqn:E2; [done |].
    unfold GRT_Cmp in E1, E2. rewrite Cmp_spec, cmpZ_gtb, Z.gtb_ltb, Z.ltb_ge in E1, E2.
    apply Ok_inj in E as <-. exists c. done.
  - apply Ok_inj in E as <-. exists oracle. split_and!; [done | lia | lia].
Qed.

(** The oracle's price is a ceiling: when the oracle names a canonical price,
    the session is refused or runs at prices of which neither exceeds it, so no
    usage whose canonical cost is below 2^256 costs the consumer more than the
    canonical cost. *)
Theorem effective_pricing_within_ceiling (provider : option PricingConfig) (oracle : PricingConfig) r :
  effectiveSessionPricing provider (Some oracle) = Ok r ->
  exists c, r = Some c /\
    GRT_BigInt (PricePerBlock c) <= GRT_BigInt (PricePerBlock oracle) /\
    GRT_BigInt (PricePerByte c) <= GRT_BigInt (PricePerByte oracle) /\
    forall blocks bytes, u64 blocks -> u64 bytes ->
      GRT_BigInt (PricePerBlock oracle) * blocks + GRT_BigInt (PricePerByte oracle) * bytes < two256 ->
      GRT_BigInt (CalculateUsageCost c blocks bytes) <= GRT_BigInt (CalculateUsageCost oracle blocks bytes).
Proof.
  intros Hle%effective_le.
  destruct Hle as (c & -> & H1' & H2'). exists c. split_and!; [done.. |]. intros blocks bytes Hb Hy Hfit.
  rewrite !CalculateUsageCost_mod by done.
  pose proof (GRT_BigInt_range (PricePerBlock c)). pose proof (GRT_BigInt_range (PricePerByte c)).
  unfold u64 in *. rewrite !Z.mod_small by nia. nia.
Qed.
End ConsumerProofs.

(** ** Concrete runs *)
Module ConsumerWitness.
Import Reference.

Definition payer : address := fixed_bytes 20 2.
Definition provider : address := fixed_bytes 20 4.
Definition dataService : address := fixed_bytes 20 3.
Definition domain : Domain := NewDomain 42161 (fixed_bytes 20 9).
Definition cfg : GatewayConfig :=
  mkGatewayConfig provider domain (fixed_bytes 20 9) false false (Some DefaultPricingConfig) (Some 5) "http://provider".
Definition env : Env := mkEnv 1000 (fun _ _ _ => Ok None) (fun _ _ => Ok false).
Definition sg : Signer := mkSigner domain (2 : PrivateKey).
Definition client : ClientSession := NewSessionWithID 5 "s1" payer provider dataService.

(** The provider's session: an accepted RAV of 100 and a metered cost of 7. *)
Definition m0 : RAV := mkRAV (fixed_bytes 32 1) payer provider dataService 12 (Some 100) [].
Definition sig0 : signature := fixed_bytes 65 5.
Definition session : Session :=
  (NewSession 5 "s1" payer provider dataService (mkPricingConfig ZeroGRT ZeroGRT))
    <| s_CurrentRAV := Some (mkSigned (Some m0) sig0) |> <| s_TotalCost := Some 7 |>.
Definition pending : pendingRAVRequest := default (mkPending None 0 0 0 0 0 0) (request_of session).2.
Definition gw : Gateway InMemoryRepository :=
  mkGateway (put_session "s1" session NewInMemoryRepository) {["s1" := mkRuntime None (Some pending) None]} ∅ ∅.

Lemma m0_wf : wf_rav m0.
Proof.
  unfold wf_rav, m0, u64, two64, two256. split_and!; try apply fixed_bytes_length; try done.
  exists 100. split; [done | lia].
Qed.
Lemma client_wf : wf_client client.
Proof. split_and!; apply fixed_bytes_length. Qed.
Lemma can_sign h : exists sig, key_Sign (sg_key sg) h = Ok sig.
Proof. simpl. eauto. Qed.
Lemma default_Some {A} (o : option A) d : bool_decide (is_Some o) = true -> o = Some (default d o).
Proof. intros [x ->]%bool_decide_eq_true. done. Qed.
Lemma requested : bool_decide (is_Some (request_of session).2) = true.
Proof. vm_compute. reflexivity. Qed.
Lemma request_ok : request_of session = ((request_of session).1, Some pending).
Proof. unfold pending. rewrite <- (default_Some _ _ requested). apply surjective_pairing. Qed.
Lemma pending_ok : rs_pendingRAV (ensureSessionState "s1" gw).1 = Some pending.
Proof.
  pose proof (ensure_lookup "s1" gw) as E. unfold ensureSessionState in *.
  replace (g_sessions gw !! "s1"%string) with (Some (mkRuntime None (Some pending) None)) by reflexivity. done.
Qed.
Lemma target_fits : pr_targetValue pending < two256.
Proof. vm_compute. reflexivity. Qed.
End ConsumerWitness.

Import Reference.


Lemma signRAVForRequest_spec_witness :
  exists req sm, signRAVForRequest ConsumerWitness.sg 2000 ConsumerWitness.client (Some req) = Ok sm /\
    rav_value (Some sm) = 10 ^ 30.
Proof.
  apply (proj2 (signRAVForRequest_spec ConsumerWitness.sg 2000 ConsumerWitness.client ConsumerWitness.client_wf)
           ConsumerWitness.can_sign (10 ^ 30)).
  split; vm_compute; [discriminate | reflexivity].
Defined.

Lemma effective_pricing_within_ceiling_witness :
  exists c, effectiveSessionPricing (Some (mkPricingConfig (NewGRTFromUint64 3) (NewGRTFromUint64 1)))
    (Some (mkPricingConfig (NewGRTFromUint64 5) (NewGRTFromUint64 1))) = Ok (Some c) /\
    GRT_BigInt (PricePerBlock c) <= GRT_BigInt (NewGRTFromUint64 5).
Proof.
  set (p := mkPricingConfig (NewGRTFromUint64 3) (NewGRTFromUint64 1)).
  set (o := mkPricingConfig (NewGRTFromUint64 5) (NewGRTFromUint64 1)).
  assert (E : effectiveSessionPricing (Some p) (Some o) = Ok (Some p)) by reflexivity.
  destruct (effective_pricing_within_ceiling (Some p) o (Some p) E) as (c & Ec & Hb & _).
  exists c. split; [rewrite E; f_equal; exact Ec | exact Hb].
Defined.
