(* ===== verification/Operator.v ===== *)
(** The operator surface of the provider ([provider/gateway/handler_operator.go],
    [operator_gateway.go]): accepted RAVs and collection records are listed for
    operators, and the settlement tooling moves a record through its lifecycle.
    Every call is authorized first ([OperatorAuth]). *)
From S2P Require Import Prelude.
From S2P Require Import GoStd.
From S2P Require Import External.
From S2P Require Import GRT.
From S2P Require Import Horizon.
From S2P Require Import Proto.
From S2P Require Import Repository.
From S2P Require Import Runtime.
From S2P Require Import Gateway.
From S2P Require Import InMemory.
From S2P Require Import InMemoryProps.
From S2P Require Import OperatorAuth.

Definition defaultOperatorListLimit : Z := 100.
Definition maxOperatorListLimit : Z := 1000.

(** ** Messages *)

(** A protobuf enum is open: a message may carry a number without a name. *)
Inductive PCollectionState : Type :=
  | COLLECTION_STATE_UNSPECIFIED
  | COLLECTION_STATE_COLLECTIBLE
  | COLLECTION_STATE_COLLECT_PENDING
  | COLLECTION_STATE_COLLECTED
  | COLLECTION_STATE_COLLECT_FAILED_RETRYABLE
  | COLLECTION_STATE_OTHER (n : Z).
#[global] Instance PCollectionState_eq_dec : EqDecision PCollectionState.
Proof. solve_decision. Defined.

Record PCollectionKey : Type := mkPCollectionKey {
  pk_SessionId : string;
  pk_CollectionId : list byte;
  pk_Payer : option PAddress;
  pk_ServiceProvider : option PAddress;
  pk_DataService : option PAddress
}.

Record PCollectionRecord : Type := mkPCollectionRecord {
  pc_Key : option PCollectionKey;
  pc_State : PCollectionState;
  pc_SignedRav : option PSignedRAV;
  pc_ValueAggregate : option PGRT;
  pc_CollectedAmount : option PGRT;
  pc_AttemptCount : Z;
  pc_LastTxHash : string;
  pc_LastError : string;
  pc_CreatedAtNs : Z;
  pc_UpdatedAtNs : Z
}.

Record AcceptedRAV : Type := mkAcceptedRAV {
  av_SessionId : string;
  av_CollectionId : list byte;
  av_Payer : option PAddress;
  av_ServiceProvider : option PAddress;
  av_DataService : option PAddress;
  av_TimestampNs : Z;
  av_ValueAggregate : option PGRT;
  av_SignedRav : option PSignedRAV;
  av_CollectionState : PCollectionState
}.

(** The filters shared by the list requests. *)
Record ListRequest : Type := mkListRequest {
  lr_Limit : Z;
  lr_SessionId : string;
  lr_Payer : option PAddress;
  lr_ServiceProvider : option PAddress;
  lr_DataService : option PAddress;
  lr_CollectionId : list byte;
  lr_State : PCollectionState
}.

Section Operator.
Context `{Uint256} `{Eth} `{!GlobalRepository R}.
Implicit Types (r : R).

(** ** Conversions *)

Definition timeToUnixNano (t : time) : Z :=
  if t =? 0 then 0 else let nano := UnixNano t in if nano <? 0 then 0 else wrap_u64 nano.

Definition repositoryCollectionStateToProto (state : CollectionState) : PCollectionState :=
  match state with
  | CollectionStateCollectible => COLLECTION_STATE_COLLECTIBLE
  | CollectionStateCollectPending => COLLECTION_STATE_COLLECT_PENDING
  | CollectionStateCollected => COLLECTION_STATE_COLLECTED
  | CollectionStateCollectFailedRetryable => COLLECTION_STATE_COLLECT_FAILED_RETRYABLE
  end.

Definition protoCollectionStateToRepository (state : PCollectionState) : result connect_error (option CollectionState) :=
  match state with
  | COLLECTION_STATE_UNSPECIFIED => Ok None
  | COLLECTION_STATE_COLLECTIBLE => Ok (Some CollectionStateCollectible)
  | COLLECTION_STATE_COLLECT_PENDING => Ok (Some CollectionStateCollectPending)
  | COLLECTION_STATE_COLLECTED => Ok (Some CollectionStateCollected)
  | COLLECTION_STATE_COLLECT_FAILED_RETRYABLE => Ok (Some CollectionStateCollectFailedRetryable)
  | COLLECTION_STATE_OTHER _ => Err (CodeInvalidArgument, Errorf "invalid <state> %d")
  end.

Definition collectionKeyToProto (key : CollectionKey) : PCollectionKey :=
  mkPCollectionKey (ck_SessionID key) (ck_CollectionID key) (AddressFromEth (ck_Payer key))
    (AddressFromEth (ck_ServiceProvider key)) (AddressFromEth (ck_DataService key)).

Definition requiredAddress (addr : option PAddress) : result connect_error address :=
  match Address_ToEth addr with
  | Ok out => Ok out
  | Err e => Err (CodeInvalidArgument, Wrapf "invalid <%s>: %w" e)
  end.

Definition optionalAddress (addr : option PAddress) : result connect_error (option address) :=
  match addr with
  | None => Ok None
  | Some _ => let? out := requiredAddress addr in Ok (Some out)
  end.

Definition optionalCollectionID (raw : list byte) : result connect_error (option CollectionID) :=
  if (length raw =? 0)%nat then Ok None
  else if negb (length raw =? 32)%nat then Err (CodeInvalidArgument, Errorf "invalid <%s>: got %d bytes, want 32")
  else Ok (Some raw).

Definition requiredCollectionID (raw : list byte) : result connect_error CollectionID :=
  let? collectionID := optionalCollectionID raw in
  match collectionID with
  | None => Err (CodeInvalidArgument, Errorf "<%s> is required")
  | Some c => Ok c
  end.

Definition collectionKeyFromProto (key : option PCollectionKey) : result connect_error CollectionKey :=
  match key with
  | None => Err (CodeInvalidArgument, Errorf "<key> is required")
  | Some key =>
      if String.eqb (pk_SessionId key) "" then Err (CodeInvalidArgument, Errorf "<key.session_id> is required") else
      let? collectionID := requiredCollectionID (pk_CollectionId key) in
      let? payer := requiredAddress (pk_Payer key) in
      let? serviceProvider := requiredAddress (pk_ServiceProvider key) in
      let? dataService := requiredAddress (pk_DataService key) in
      Ok (mkCollectionKey (pk_SessionId key) collectionID payer serviceProvider dataService)
  end.

Definition collectionRecordToProto (record : CollectionRecord) : PCollectionRecord :=
  mkPCollectionRecord (Some (collectionKeyToProto (cr_Key record)))
    (repositoryCollectionStateToProto (cr_State record)) (HorizonSignedRAVToProto (cr_SignedRAV record))
    (GRTFromBigInt (cr_ValueAggregate record))
    (match cr_CollectedAmount record with Some _ => GRTFromBigInt (cr_CollectedAmount record) | None => None end)
    (wrap_u64 (cr_AttemptCount record)) (cr_LastTxHash record) (cr_LastError record)
    (timeToUnixNano (cr_CreatedAt record)) (timeToUnixNano (cr_UpdatedAt record)).

Definition collectionKeyFromRAV (sessionID : string) (m : RAV) : CollectionKey :=
  mkCollectionKey sessionID (rav_CollectionID m) (rav_Payer m) (rav_ServiceProvider m) (rav_DataService m).

Definition operatorLimit (limit : Z) : Z :=
  if limit =? 0 then defaultOperatorListLimit
  else if limit >? maxOperatorListLimit then maxOperatorListLimit else limit.

Definition repoError (e : go_error) : connect_error :=
  if errors_Is e ErrNotFound then (CodeNotFound, e) else (CodeInternal, e).

Definition collectionMutationError (e : go_error) : connect_error :=
  if errors_Is e ErrCollectionConflict then (CodeAborted, e)
  else if errors_Is e ErrInvalidCollectionTransition then (CodeFailedPrecondition, e)
  else if errors_Is e ErrNotFound then (CodeNotFound, e)
  else (CodeInternal, e).

(** ** Authorization *)

Definition authorize_as (config : OperatorConfig) (h : header) (required : Role) : result connect_error unit :=
  match AuthorizeHeader h config required with (_, Some e) => Err e | (_, None) => Ok tt end.
Definition authorizeRead (config : OperatorConfig) (h : header) := authorize_as config h RoleOperatorRead.
Definition authorizeAdmin (config : OperatorConfig) (h : header) := authorize_as config h RoleAdminWrite.

(** ** Collections *)

Definition opt_equal {A} `{EqDecision A} (want : option A) (got : A) : bool :=
  match want with Some w => bool_decide (got = w) | None => true end.

Definition collectionRecordMatches (record : CollectionRecord) (serviceProvider dataService : option address)
    (collectionID : option CollectionID) : bool :=
  opt_equal serviceProvider (ck_ServiceProvider (cr_Key record)) &&
  opt_equal dataService (ck_DataService (cr_Key record)) &&
  opt_equal collectionID (ck_CollectionID (cr_Key record)).

(** The loops stop once the response has [limit] entries; the limit is at least
    1. *)
Definition ListCollections (config : OperatorConfig) (h : header) (req : ListRequest) r :
    result connect_error (list PCollectionRecord) :=
  let? _ := authorizeRead config h in
  let? payer := optionalAddress (lr_Payer req) in
  let? serviceProvider := optionalAddress (lr_ServiceProvider req) in
  let? dataService := optionalAddress (lr_DataService req) in
  let? collectionID := optionalCollectionID (lr_CollectionId req) in
  let? state := protoCollectionStateToRepository (lr_State req) in
  let filter := mkCollectionFilter (if String.eqb (lr_SessionId req) "" then None else Some (lr_SessionId req))
                  state payer in
  match CollectionList r filter with
  | Err e => Err (CodeInternal, e)
  | Ok records =>
      Ok (take (Z.to_nat (operatorLimit (lr_Limit req)))
            (map collectionRecordToProto
               (List.filter (fun record => collectionRecordMatches record serviceProvider dataService collectionID)
                  records)))
  end.

Definition GetCollection (config : OperatorConfig) (h : header) (key : option PCollectionKey) r :
    result connect_error PCollectionRecord :=
  let? _ := authorizeRead config h in
  let? key := collectionKeyFromProto key in
  match CollectionGet r key with
  | Err e => Err (repoError e)
  | Ok record => Ok (collectionRecordToProto record)
  end.

Definition mutationKeyAndExpectedValue (key : option PCollectionKey) (expectedValue : option PGRT) :
    result connect_error (CollectionKey * Z) :=
  let? repositoryKey := collectionKeyFromProto key in
  match expectedValue with
  | None => Err (CodeInvalidArgument, Errorf "<expected_value> is required")
  | Some _ => Ok (repositoryKey, GRT_ToBigInt expectedValue)
  end.

Definition mutation_answer (res : result go_error CollectionRecord * R) : result connect_error PCollectionRecord * R :=
  match res with
  | (Err e, r) => (Err (collectionMutationError e), r)
  | (Ok record, r) => (Ok (collectionRecordToProto record), r)
  end.

Definition MarkCollectionPending (config : OperatorConfig) (now : time) (h : header) (key : option PCollectionKey)
    (expectedValue : option PGRT) (txHash : string) r : result connect_error PCollectionRecord * R :=
  match authorizeAdmin config h with
  | Err e => (Err e, r)
  | Ok _ =>
    match mutationKeyAndExpectedValue key expectedValue with
    | Err e => (Err e, r)
    | Ok (key, expected) => mutation_answer (CollectionMarkPending r now key (Some expected) txHash now)
    end
  end.

Definition MarkCollectionCollected (config : OperatorConfig) (now : time) (h : header) (key : option PCollectionKey)
    (expectedValue : option PGRT) (txHash : string) (collectedAmount : option PGRT) r :
    result connect_error PCollectionRecord * R :=
  match authorizeAdmin config h with
  | Err e => (Err e, r)
  | Ok _ =>
    match mutationKeyAndExpectedValue key expectedValue with
    | Err e => (Err e, r)
    | Ok (key, expected) =>
        if String.eqb txHash "" then (Err (CodeInvalidArgument, Errorf "<tx_hash> is required"), r) else
        let amount := match collectedAmount with Some _ => Some (GRT_ToBigInt collectedAmount) | None => None end in
        mutation_answer (CollectionMarkCollected r now key (Some expected) txHash amount now)
    end
  end.

Definition MarkCollectionRetryable (config : OperatorConfig) (now : time) (h : header) (key : option PCollectionKey)
    (expectedValue : option PGRT) (txHash lastError : string) r : result connect_error PCollectionRecord * R :=
  match authorizeAdmin config h with
  | Err e => (Err e, r)
  | Ok _ =>
    match mutationKeyAndExpectedValue key expectedValue with
    | Err e => (Err e, r)
    | Ok (key, expected) =>
        if String.eqb lastError "" then (Err (CodeInvalidArgument, Errorf "<last_error> is required"), r)
        else mutation_answer (CollectionMarkFailedRetryable r now key (Some expected) txHash lastError now)
    end
  end.

(** ** Accepted RAVs *)

Definition plainAcceptedRAVToProto (sessionID : string) (rav : option SignedRAV) : option AcceptedRAV :=
  match rav with
  | None => None
  | Some sm =>
    match Message sm with
    | None => None
    | Some m =>
        Some (mkAcceptedRAV sessionID (rav_CollectionID m) (AddressFromEth (rav_Payer m))
                (AddressFromEth (rav_ServiceProvider m)) (AddressFromEth (rav_DataService m)) (rav_TimestampNs m)
                (GRTFromBigInt (rav_ValueAggregate m)) (HorizonSignedRAVToProto rav) COLLECTION_STATE_UNSPECIFIED)
    end
  end.

Definition with_state (state : PCollectionState) (a : AcceptedRAV) : AcceptedRAV :=
  mkAcceptedRAV (av_SessionId a) (av_CollectionId a) (av_Payer a) (av_ServiceProvider a) (av_DataService a)
    (av_TimestampNs a) (av_ValueAggregate a) (av_SignedRav a) state.

Definition acceptedRAVToProto (sessionID : string) (rav : option SignedRAV) r :
    result connect_error (option AcceptedRAV) :=
  match plainAcceptedRAVToProto sessionID rav, rav ≫= Message with
  | Some out, Some m =>
      match CollectionGet r (collectionKeyFromRAV sessionID m) with
      | Ok record => Ok (Some (with_state (repositoryCollectionStateToProto (cr_State record)) out))
      | Err e => if errors_Is e ErrNotFound then Ok (Some out) else Err (CodeInternal, e)
      end
  | _, _ => Ok None
  end.

Definition acceptedRAVSessions (sessionID : string) (payer : option address) r : result connect_error (list Session) :=
  if negb (String.eqb sessionID "") then
    match SessionGet r sessionID with
    | Err e => Err (repoError e)
    | Ok session => Ok (if opt_equal payer (s_Payer session) then [session] else [])
    end
  else Ok (SessionList r (mkSessionFilter payer None None)).

Definition ravMatches (m : RAV) (serviceProvider dataService : option address) (collectionID : option CollectionID) :
    bool :=
  opt_equal serviceProvider (rav_ServiceProvider m) && opt_equal dataService (rav_DataService m) &&
  opt_equal collectionID (rav_CollectionID m).

(** The loop over the sessions, with the number of entries still wanted. *)
Fixpoint accepted_loop (wanted : nat) (serviceProvider dataService : option address)
    (collectionID : option CollectionID) (sessions : list Session) r : result connect_error (list AcceptedRAV) :=
  match wanted, sessions with
  | O, _ | _, [] => Ok []
  | S wanted', session :: rest =>
      match s_CurrentRAV session ≫= Message with
      | None => accepted_loop wanted serviceProvider dataService collectionID rest r
      | Some m =>
          if negb (ravMatches m serviceProvider dataService collectionID)
          then accepted_loop wanted serviceProvider dataService collectionID rest r
          else
            let? accepted := acceptedRAVToProto (s_ID session) (s_CurrentRAV session) r in
            let? others := accepted_loop wanted' serviceProvider dataService collectionID rest r in
            Ok (match accepted with Some a => a :: others | None => others end)
      end
  end.

Definition ListAcceptedRAVs (config : OperatorConfig) (h : header) (req : ListRequest) r :
    result connect_error (list AcceptedRAV) :=
  let? _ := authorizeRead config h in
  let? payer := optionalAddress (lr_Payer req) in
  let? serviceProvider := optionalAddress (lr_ServiceProvider req) in
  let? dataService := optionalAddress (lr_DataService req) in
  let? collectionID := optionalCollectionID (lr_CollectionId req) in
  let? sessions := acceptedRAVSessions (lr_SessionId req) payer r in
  accepted_loop (Z.to_nat (operatorLimit (lr_Limit req))) serviceProvider dataService collectionID sessions r.

Definition GetAcceptedRAV (config : OperatorConfig) (h : header) (sessionID : string) r :
    result connect_error (option AcceptedRAV) :=
  let? _ := authorizeRead config h in
  if String.eqb sessionID "" then Err (CodeInvalidArgument, Errorf "<session_id> is required") else
  match SessionGet r sessionID with
  | Err e => Err (repoError e)
  | Ok session =>
      match s_CurrentRAV session ≫= Message with
      | None => Err (CodeNotFound, Errorf "session %q has no accepted RAV")
      | Some _ => acceptedRAVToProto (s_ID session) (s_CurrentRAV session) r
      end
  end.
End Operator.
