(* ===== verification/OperatorSessions.v ===== *)
(** The session views of the operator surface
    ([provider/gateway/handler_operator.go]): sessions are listed and shown with
    the payment state the provider last assessed, which the gateway keeps as
    decimal strings in the session's metadata. *)
From S2P Require Import Prelude.
From S2P Require Import GoStd.
From S2P Require Import External.
From S2P Require Import GRT.
From S2P Require Import Horizon.
From S2P Require Import Proto.
From S2P Require Import Repository.
From S2P Require Import Runtime.
From S2P Require Import Gateway.
From S2P Require Import GatewayProps.
From S2P Require Import InMemory.
From S2P Require Import InMemoryProps.
From S2P Require Import Accounting.
From S2P Require Import GatewayFunds.
From S2P Require Import OperatorAuth.
From S2P Require Import Operator.

(** ** Messages *)

(** The enums are open, like every protobuf enum. *)
Inductive OperatorFundsStatus : Type :=
  | OPERATOR_FUNDS_STATUS_UNSPECIFIED
  | OPERATOR_FUNDS_STATUS_OK
  | OPERATOR_FUNDS_STATUS_INSUFFICIENT
  | OPERATOR_FUNDS_STATUS_UNKNOWN
  | OPERATOR_FUNDS_STATUS_OTHER (n : Z).
#[global] Instance OperatorFundsStatus_eq_dec : EqDecision OperatorFundsStatus.
Proof. solve_decision. Defined.

Inductive OperatorSessionStatus : Type :=
  | OPERATOR_SESSION_STATUS_UNSPECIFIED
  | OPERATOR_SESSION_STATUS_ACTIVE
  | OPERATOR_SESSION_STATUS_PAUSED
  | OPERATOR_SESSION_STATUS_TERMINATED
  | OPERATOR_SESSION_STATUS_OTHER (n : Z).

(** [commonv1.PaymentStatus]. *)
Record PaymentStatus : Type := mkPaymentStatus {
  ps_CurrentRavValue : option PGRT;
  ps_AccumulatedUsageValue : option PGRT;
  ps_EscrowBalance : option PGRT;
  ps_FundsSufficient : bool;
  ps_EstimatedBlocksRemaining : Z
}.

Record OperatorPaymentState : Type := mkPaymentState {
  op_PaymentStatus : PaymentStatus;
  op_FundsStatus : OperatorFundsStatus;
  op_CurrentOutstanding : option PGRT;
  op_ProjectedOutstanding : option PGRT;
  op_MinimumNeeded : option PGRT;
  op_FundsCheckError : string;
  op_OperatorHint : string
}.

Record OperatorSession : Type := mkOperatorSession {
  os_SessionId : string;
  os_Status : OperatorSessionStatus;
  os_Payer : option PAddress;
  os_Receiver : option PAddress;
  os_DataService : option PAddress;
  os_CreatedAtNs : Z;
  os_UpdatedAtNs : Z;
  os_EndedAtNs : Z;
  os_EndReason : EndReason;
  os_AccumulatedUsage : PUsage;
  os_BaselineUsage : PUsage;
  os_PaymentControlPending : bool;
  os_PaymentState : OperatorPaymentState;
  os_AcceptedRav : option AcceptedRAV
}.

Record ListSessionsRequest : Type := mkListSessions {
  ls_Payer : option PAddress;
  ls_Receiver : option PAddress;
  ls_DataService : option PAddress;
  ls_Status : OperatorSessionStatus;
  ls_FundsStatus : OperatorFundsStatus;
  ls_IncludeRav : bool;
  ls_Limit : Z
}.

(** ** Conversions *)

Definition repositorySessionStatusToProto (status : SessionStatus) : OperatorSessionStatus :=
  match status with
  | SessionStatusActive => OPERATOR_SESSION_STATUS_ACTIVE
  | SessionStatusPaused => OPERATOR_SESSION_STATUS_PAUSED
  | SessionStatusTerminated => OPERATOR_SESSION_STATUS_TERMINATED
  end.

Definition operatorSessionStatusToRepository (status : OperatorSessionStatus) :
    result connect_error (option SessionStatus) :=
  match status with
  | OPERATOR_SESSION_STATUS_UNSPECIFIED => Ok None
  | OPERATOR_SESSION_STATUS_ACTIVE => Ok (Some SessionStatusActive)
  | OPERATOR_SESSION_STATUS_PAUSED => Ok (Some SessionStatusPaused)
  | OPERATOR_SESSION_STATUS_TERMINATED => Ok (Some SessionStatusTerminated)
  | OPERATOR_SESSION_STATUS_OTHER _ => Err (CodeInvalidArgument, Errorf "invalid <status> %d")
  end.

Definition repositoryFundsStatusToProto (status : string) : OperatorFundsStatus :=
  if String.eqb status fundsStatusOK then OPERATOR_FUNDS_STATUS_OK
  else if String.eqb status fundsStatusInsufficient then OPERATOR_FUNDS_STATUS_INSUFFICIENT
  else if String.eqb status fundsStatusUnknown then OPERATOR_FUNDS_STATUS_UNKNOWN
  else OPERATOR_FUNDS_STATUS_UNSPECIFIED.

Definition protoFundsStatusToMetadata (status : OperatorFundsStatus) : result connect_error (option string) :=
  match status with
  | OPERATOR_FUNDS_STATUS_UNSPECIFIED => Ok None
  | OPERATOR_FUNDS_STATUS_OK => Ok (Some fundsStatusOK)
  | OPERATOR_FUNDS_STATUS_INSUFFICIENT => Ok (Some fundsStatusInsufficient)
  | OPERATOR_FUNDS_STATUS_UNKNOWN => Ok (Some fundsStatusUnknown)
  | OPERATOR_FUNDS_STATUS_OTHER _ => Err (CodeInvalidArgument, Errorf "unsupported funds_status %d")
  end.

Section Views.
Context `{Uint256} `{Eth}.

(** A lookup of a Go map without the key is the empty string. *)
Definition metadata (session : Session) (key : string) : string := default ""%string (s_Metadata session !! key).

(** ** The payment state of a session *)

Definition cloneOrZero (value : option Z) : Z := default 0 value.

Definition sessionCurrentRAVValue (session : Session) : Z :=
  match s_CurrentRAV session ≫= Message with
  | Some m => match rav_ValueAggregate m with Some v => v | None => 0 end
  | None => 0
  end.

Definition sessionProjectedOutstanding (session : Session) : Z :=
  let '(_, _, _, deltaCost) := UsageDeltaSinceBaseline session in sessionCurrentRAVValue session + deltaCost.

Definition sessionFundsStatus (session : Session) : string :=
  let status := metadata session fundsStatusKey in
  if negb (String.eqb status "") then status
  else if bool_decide (s_EndReason session = END_REASON_PAYMENT_ISSUE) then fundsStatusInsufficient
  else fundsStatusUnknown.

Definition sessionMetadataBigIntOK (session : Session) (key : string) : option Z :=
  let raw := metadata session key in
  if String.eqb raw "" then None
  else match SetString (to_chars raw) with
       | Some value => if value <? 0 then None else Some value
       | None => None
       end.

Definition sessionMetadataBigInt (session : Session) (key : string) (fallback : Z) : Z :=
  match sessionMetadataBigIntOK session key with
  | Some value => value
  | None => cloneOrZero (Some fallback)
  end.

(** The quotient's low 64 bits are kept. *)
Definition estimatedBlocksRemaining (session : Session) (projectedOutstanding : Z) (escrowBalance : option Z) : Z :=
  match escrowBalance with
  | None => 0
  | Some escrowBalance =>
      let pricePerBlock := GRT_BigInt (PricePerBlock (s_PricingConfig session)) in
      if pricePerBlock <=? 0 then 0 else
      let remaining := escrowBalance - projectedOutstanding in
      if remaining <=? 0 then 0 else wrap_u64 (remaining / pricePerBlock)
  end.

Definition operatorPaymentHint (session : Session) (fundsStatus : OperatorFundsStatus) (paymentControlPending : bool) :
    string :=
  (if paymentControlPending then
    "provider payment control is pending; wait for the runtime RAV or funding decision before taking operator action"
  else
    match fundsStatus with
    | OPERATOR_FUNDS_STATUS_INSUFFICIENT =>
        if bool_decide (s_EndReason session = END_REASON_PAYMENT_ISSUE)
        then "session ended due to insufficient funds; top up escrow before starting a replacement session"
        else "escrow funding is below projected outstanding usage; top up escrow before continuing heavy usage"
    | OPERATOR_FUNDS_STATUS_UNKNOWN =>
        if negb (String.eqb (metadata session fundsCheckErrorKey) "")
        then "escrow funding could not be checked; inspect RPC and escrow connectivity"
        else "escrow funding has not been assessed yet for this session"
    | OPERATOR_FUNDS_STATUS_OK => "escrow funding was sufficient at the last provider assessment"
    | _ => ""
    end)%string.

Definition operatorPaymentState (session : Session) (paymentControlPending : bool) : OperatorPaymentState :=
  let currentRAVValue := sessionCurrentRAVValue session in
  let accumulatedUsageValue := cloneOrZero (s_TotalCost session) in
  let currentOutstanding := sessionMetadataBigInt session fundsCurrentOutstandingWeiKey currentRAVValue in
  let projectedOutstanding :=
    sessionMetadataBigInt session fundsProjectedOutstandingWeiKey (sessionProjectedOutstanding session) in
  let escrowBalance := sessionMetadataBigIntOK session fundsEscrowBalanceWeiKey in
  let minimumNeeded := sessionMetadataBigInt session fundsMinimumNeededWeiKey 0 in
  let fundsStatus := repositoryFundsStatusToProto (sessionFundsStatus session) in
  let paymentStatus :=
    mkPaymentStatus (GRTFromBigInt (Some currentRAVValue)) (GRTFromBigInt (Some accumulatedUsageValue))
      (match escrowBalance with Some b => GRTFromBigInt (Some b) | None => None end)
      (bool_decide (fundsStatus = OPERATOR_FUNDS_STATUS_OK))
      (estimatedBlocksRemaining session projectedOutstanding escrowBalance) in
  mkPaymentState paymentStatus fundsStatus (GRTFromBigInt (Some currentOutstanding))
    (GRTFromBigInt (Some projectedOutstanding)) (GRTFromBigInt (Some minimumNeeded))
    (metadata session fundsCheckErrorKey) (operatorPaymentHint session fundsStatus paymentControlPending).

Definition sessionBaselineUsage (session : Session) : PUsage :=
  mkPUsage (s_BaselineBlocks session) (s_BaselineBytes session) (s_BaselineReqs session)
    (GRTFromBigInt (s_BaselineCost session)).

(** ** The handlers *)

Context `{!GlobalRepository R}.
Implicit Types (g : Gateway R).

Definition sessionToProto (cfg : GatewayConfig) (session : Session) (includeRAV : bool) g :
    result connect_error OperatorSession :=
  match paymentControlPending cfg session g with
  | Err e => Err (CodeInternal, e)
  | Ok pending =>
    let out accepted :=
      mkOperatorSession (s_ID session) (repositorySessionStatusToProto (s_Status session))
        (AddressFromEth (s_Payer session)) (AddressFromEth (s_Receiver session))
        (AddressFromEth (s_DataService session)) (timeToUnixNano (s_CreatedAt session))
        (timeToUnixNano (s_UpdatedAt session))
        (match s_EndedAt session with Some t => timeToUnixNano t | None => 0 end) (s_EndReason session)
        (Session_GetUsage session) (sessionBaselineUsage session) pending (operatorPaymentState session pending)
        accepted in
    match includeRAV, s_CurrentRAV session with
    | true, Some rav =>
        let? accepted := acceptedRAVToProto (s_ID session) (Some rav) (g_repo g) in
        Ok (out accepted)
    | _, _ => Ok (out None)
    end
  end.

Definition sessionMatchesAddresses (session : Session) (receiver dataService : option address) : bool :=
  opt_equal receiver (s_Receiver session) && opt_equal dataService (s_DataService session).

(** The loop's two filters. *)
Definition session_selected (receiver dataService : option address) (fundsStatus : option string) (session : Session) :
    bool :=
  sessionMatchesAddresses session receiver dataService && opt_equal fundsStatus (sessionFundsStatus session).

(** The loop, with the number of entries still wanted. *)
Fixpoint sessions_loop (cfg : GatewayConfig) (wanted : nat) (selected : Session -> bool) (includeRAV : bool)
    (sessions : list Session) g : result connect_error (list OperatorSession) :=
  match wanted, sessions with
  | O, _ | _, [] => Ok []
  | S wanted', session :: rest =>
      if negb (selected session) then sessions_loop cfg wanted selected includeRAV rest g
      else
        let? operatorSession := sessionToProto cfg session includeRAV g in
        let? others := sessions_loop cfg wanted' selected includeRAV rest g in
        Ok (operatorSession :: others)
  end.

Definition ListSessions (cfg : GatewayConfig) (config : OperatorConfig) (h : header) (req : ListSessionsRequest) g :
    result connect_error (list OperatorSession) :=
  let? _ := authorizeRead config h in
  let? payer := optionalAddress (ls_Payer req) in
  let? receiver := optionalAddress (ls_Receiver req) in
  let? dataService := optionalAddress (ls_DataService req) in
  let? status := operatorSessionStatusToRepository (ls_Status req) in
  let? fundsStatus := protoFundsStatusToMetadata (ls_FundsStatus req) in
  sessions_loop cfg (Z.to_nat (operatorLimit (ls_Limit req))) (session_selected receiver dataService fundsStatus)
    (ls_IncludeRav req) (SessionList (g_repo g) (mkSessionFilter payer status None)) g.

Definition GetSession (cfg : GatewayConfig) (config : OperatorConfig) (h : header) (sessionID : string)
    (includeRAV : bool) g : result connect_error OperatorSession :=
  let? _ := authorizeRead config h in
  if String.eqb sessionID "" then Err (CodeInvalidArgument, Errorf "<session_id> is required") else
  match SessionGet (g_repo g) sessionID with
  | Err e => Err (repoError e)
  | Ok session => sessionToProto cfg session includeRAV g
  end.
End Views.

Section Assessed.
Context `{Uint256Laws} `{EthLaws}.

(** ** The metadata round trip *)

Lemma big_String_not_empty x : of_chars (big_String x) <> ""%string.
Proof.
  intros E. pose proof (SetString_big_String x) as Hs. apply (f_equal to_chars) in E.
  rewrite String.list_ascii_of_string_of_list_ascii in E. by rewrite E in Hs.
Qed.

(** A non-negative amount written to the metadata is read back. *)
Lemma metadata_amount s key x :
  s_Metadata s !! key = Some (of_chars (big_String x)) -> 0 <= x -> sessionMetadataBigIntOK s key = Some x.
Proof.
  intros E Hx. unfold sessionMetadataBigIntOK.
  assert (metadata s key = of_chars (big_String x)) as -> by (unfold metadata; by rewrite E). cbv zeta.
  destruct (String.eqb_spec (of_chars (big_String x)) ""); [by destruct (big_String_not_empty x) |].
  rewrite String.list_ascii_of_string_of_list_ascii, SetString_big_String. destruct (Z.ltb_spec x 0); [lia | done].
Qed.

Lemma metadata_absent s key : s_Metadata s !! key = None -> sessionMetadataBigIntOK s key = None.
Proof. intros E. unfold sessionMetadataBigIntOK, metadata. by rewrite E. Qed.

Lemma metadata_text s key x : s_Metadata s !! key = x -> metadata s key = default ""%string x.
Proof. by intros <-. Qed.

(** What a session's metadata says once an assessment was applied to it. *)
Record carries (s : Session) (a : fundsAssessment) : Prop := {
  carries_status : s_Metadata s !! fundsStatusKey = Some (fa_status a);
  carries_current : s_Metadata s !! fundsCurrentOutstandingWeiKey = Some (of_chars (big_String (fa_currentOutstanding a)));
  carries_projected :
    s_Metadata s !! fundsProjectedOutstandingWeiKey = Some (of_chars (big_String (fa_projectedOutstanding a)));
  carries_balance :
    s_Metadata s !! fundsEscrowBalanceWeiKey = (fun b => of_chars (big_String b)) <$> fa_escrowBalance a;
  carries_needed :
    s_Metadata s !! fundsMinimumNeededWeiKey = (fun _ => of_chars (big_String (fa_minimumNeeded a))) <$> fa_escrowBalance a;
  carries_error : s_Metadata s !! fundsCheckErrorKey = error_string <$> fa_checkErr a
}.

Lemma applied_carries s a : carries (applyFundsAssessmentMetadata s a) a.
Proof.
  unfold applyFundsAssessmentMetadata.
  split; cbn [s_Metadata]; cbv beta zeta delta [setter]; cbn [s_Metadata];
    destruct (fa_escrowBalance a), (fa_checkErr a); simpl;
    repeat first [rewrite lookup_insert_eq | rewrite lookup_delete_eq | rewrite lookup_insert_ne by discriminate
                 | rewrite lookup_delete_ne by discriminate]; done.
Qed.

Lemma carries_metadata s s' a : s_Metadata s' = s_Metadata s -> carries s a -> carries s' a.
Proof. intros E []. by split; rewrite E. Qed.

(** ** The view of an assessed session *)

(** [p] shows a session that owes [owed], of which [accepted] is signed, against
    the balance [escrow] the provider could read; [price] is the session's price
    of a block. *)
Definition shows (p : OperatorPaymentState) (accepted owed : Z) (escrow : option Z) (price : Z) : Prop :=
  let ps := op_PaymentStatus p in
  GRT_ToBigInt (op_CurrentOutstanding p) = accepted /\ GRT_ToBigInt (ps_CurrentRavValue ps) = accepted /\
  GRT_ToBigInt (op_ProjectedOutstanding p) = owed /\
  match escrow with
  | Some b =>
      op_FundsStatus p = (if owed >? b then OPERATOR_FUNDS_STATUS_INSUFFICIENT else OPERATOR_FUNDS_STATUS_OK) /\
      ps_FundsSufficient ps = (owed <=? b) /\ GRT_ToBigInt (ps_EscrowBalance ps) = b /\
      GRT_ToBigInt (op_MinimumNeeded p) = Z.max 0 (owed - b) /\
      (0 < price -> owed <= b -> (b - owed) / price < 2 ^ 64 ->
       let n := ps_EstimatedBlocksRemaining ps in owed + n * price <= b < owed + (n + 1) * price)
  | None =>
      op_FundsStatus p = OPERATOR_FUNDS_STATUS_UNKNOWN /\ ps_FundsSufficient ps = false /\
      ps_EscrowBalance ps = None /\ GRT_ToBigInt (op_MinimumNeeded p) = 0 /\ ps_EstimatedBlocksRemaining ps = 0
  end.

(** The assessment of funds, in one equation. *)
Lemma assess_equation cfg env s :
  let accepted := rav_value (s_CurrentRAV s) in
  let owed := accepted + accrued s in
  assessSessionFunds cfg env s =
  match GetEscrowBalance cfg env (s_Payer s) with
  | Ok (Some b) => mkFunds (if owed >? b then fundsStatusInsufficient else fundsStatusOK) accepted owed (Some b)
                     (Z.max 0 (owed - b)) None
  | Ok None => mkFunds fundsStatusUnknown accepted owed None 0 None
  | Err e => mkFunds fundsStatusUnknown accepted owed None 0 (Some e)
  end.
Proof.
  unfold assessSessionFunds, UsageDeltaSinceBaseline, accrued. destruct (GetEscrowBalance _ _ _) as [[b|]|]; [|done..].
  rewrite cmpZ_gtb. destruct (Z.gtb_spec (rav_value (s_CurrentRAV s) + cost_delta (s_TotalCost s) (s_BaselineCost s)) b);
    f_equal; lia.
Qed.

(** How many blocks the rest of the balance pays for. *)
Lemma estimated_blocks s owed b :
  let price := GRT_BigInt (PricePerBlock (s_PricingConfig s)) in
  let n := estimatedBlocksRemaining s owed (Some b) in
  0 < price -> owed <= b -> (b - owed) / price < 2 ^ 64 -> owed + n * price <= b < owed + (n + 1) * price.
Proof.
  intros price n Hp Ho Hn. subst n. unfold estimatedBlocksRemaining. fold price.
  destruct (Z.leb_spec price 0); [lia |]. pose proof (Z.mul_div_le (b - owed) price Hp).
  pose proof (Z.mul_succ_div_gt (b - owed) price Hp). pose proof (Z.div_pos (b - owed) price ltac:(lia) Hp).
  destruct (Z.leb_spec (b - owed) 0); [nia |]. unfold wrap_u64, two64. rewrite Z.mod_small by lia. nia.
Qed.

Lemma sessionCurrentRAVValue_rav_value s : sessionCurrentRAVValue s = rav_value (s_CurrentRAV s).
Proof. unfold sessionCurrentRAVValue, rav_value. destruct (s_CurrentRAV s) as [sm|]; [|done]. simpl. by destruct (Message sm). Qed.

Lemma amount_shown s key x fallback :
  s_Metadata s !! key = Some (of_chars (big_String x)) -> 0 <= x < two256 ->
  GRT_ToBigInt (GRTFromBigInt (Some (sessionMetadataBigInt s key fallback))) = x.
Proof.
  intros E Hx. unfold sessionMetadataBigInt. rewrite (metadata_amount s key x) by (done || lia).
  by apply GRT_ToBigInt_FromBigInt.
Qed.

Lemma status_shown s x :
  s_Metadata s !! fundsStatusKey = Some x -> x <> ""%string -> sessionFundsStatus s = x.
Proof.
  intros E Hx. unfold sessionFundsStatus. rewrite (metadata_text _ _ _ E). cbn [from_option id].
  by destruct (String.eqb_spec x "").
Qed.

(** A session that carries its own assessment is shown as assessed. *)
Lemma assessed_view cfg env s s' pending :
  let accepted := rav_value (s_CurrentRAV s) in
  let owed := accepted + accrued s in
  let escrow := match GetEscrowBalance cfg env (s_Payer s) with Ok b => b | Err _ => None end in
  carries s' (assessSessionFunds cfg env s) ->
  s_CurrentRAV s' = s_CurrentRAV s -> s_PricingConfig s' = s_PricingConfig s ->
  0 <= accepted < two256 -> 0 <= owed < two256 ->
  match escrow with Some b => 0 <= b < two256 | None => True end ->
  shows (operatorPaymentState s' pending) accepted owed escrow (GRT_BigInt (PricePerBlock (s_PricingConfig s))).
Proof.
  intros accepted owed escrow Hc Hr Hp Ha Ho Hb. rewrite assess_equation in Hc. fold accepted owed in Hc.
  rewrite <- Hp. unfold shows, operatorPaymentState. cbn [op_PaymentStatus op_CurrentOutstanding op_ProjectedOutstanding
    op_FundsStatus op_MinimumNeeded ps_CurrentRavValue ps_FundsSufficient ps_EscrowBalance ps_EstimatedBlocksRemaining].
  rewrite sessionCurrentRAVValue_rav_value, Hr. fold accepted.
  subst escrow. destruct (GetEscrowBalance cfg env (s_Payer s)) as [[b|]|e]; destruct Hc as [H1c H2c H3c H4c H5c _];
    cbn [fa_status fa_currentOutstanding fa_projectedOutstanding fa_escrowBalance fa_minimumNeeded fmap option_fmap option_map]
      in *;
    rewrite (amount_shown _ _ _ _ H2c), (amount_shown _ _ _ _ H3c), GRT_ToBigInt_FromBigInt by done;
    (split; [done |]; split; [done |]; split; [done |]).
  - rewrite (status_shown _ _ H1c) by (by case_match).
    rewrite (metadata_amount _ _ _ H4c) by lia. rewrite (amount_shown _ _ _ _ H5c) by lia.
    unfold sessionMetadataBigInt. rewrite (metadata_amount _ _ _ H3c) by lia. rewrite GRT_ToBigInt_FromBigInt by done.
    split_and!; [by case_match | | done | done | apply estimated_blocks].
    rewrite Z.gtb_ltb, Z.leb_antisym. by destruct (b <? owed).
  - rewrite (status_shown _ _ H1c) by done. rewrite (metadata_absent _ _ H4c).
    unfold sessionMetadataBigInt. rewrite (metadata_absent _ _ H5c). by rewrite GRT_ToBigInt_FromBigInt.
  - rewrite (status_shown _ _ H1c) by done. rewrite (metadata_absent _ _ H4c).
    unfold sessionMetadataBigInt. rewrite (metadata_absent _ _ H5c). by rewrite GRT_ToBigInt_FromBigInt.
Qed.
End Assessed.

Section ViewTheorems.
Context `{Uint256Laws} `{EthLaws} `{!GlobalRepository R} `{!GlobalRepositoryLaws}.
Implicit Types (g : Gateway R).

(** C24: operators see what the provider decided on.  Once the metered usage of an
    active session was evaluated, the operator's view of the session shows exactly
    that assessment: the accepted value, the amount owed, the escrow balance, the
    missing amount and whether the funds suffice, all read back from the decimal
    strings in the metadata; the session is shown as terminated exactly when the
    amount owed exceeds the balance; and the estimated number of blocks is the
    largest number the rest of the balance pays for (while it fits 64 bits).
    Without a known balance the view says so instead of guessing. *)
Theorem operator_view_reports_assessment cfg env config h id g s g' workers :
  SessionGet (g_repo g) id = Ok s -> IsActive s = true -> id <> ""%string ->
  authorizeRead config h = Ok tt ->
  evaluateMeteredUsage cfg env id g = (Ok tt, g') ->
  WorkerCountBySession (g_repo g') (s_ID s) = Ok workers ->
  let accepted := rav_value (s_CurrentRAV s) in
  let owed := accepted + accrued s in
  let escrow := match GetEscrowBalance cfg env (s_Payer s) with Ok b => b | Err _ => None end in
  0 <= accepted < two256 -> 0 <= owed < two256 ->
  match escrow with Some b => 0 <= b < two256 | None => True end ->
  exists v, GetSession cfg config h id false g' = Ok v /\
    shows (os_PaymentState v) accepted owed escrow (GRT_BigInt (PricePerBlock (s_PricingConfig s))) /\
    os_Status v = (if match escrow with Some b => owed >? b | None => false end
                   then OPERATOR_SESSION_STATUS_TERMINATED else OPERATOR_SESSION_STATUS_ACTIVE).
Proof.
  intros Eg Ha Hid Hauth E Hw accepted owed escrow Hacc Howed Hesc.
  destruct (evaluate_stores cfg env id g s g' Eg Ha E) as [(s' & Es' & Hs') _]. cbv zeta in *.
  set (a := assessSessionFunds cfg env s) in *.
  assert (carries s' a) as Hc.
  { apply (carries_metadata (applyFundsAssessmentMetadata s a)); [|apply applied_carries].
    rewrite Hs'. unfold assessed. by destruct (insufficient a). }
  unfold GetSession. rewrite Hauth. cbn [rbind]. destruct (String.eqb_spec id ""); [done |].
  unfold session_at in Es'. destruct (SessionGet (g_repo g') id) as [s1|]; [|done]. injection Es' as ->.
  unfold sessionToProto, paymentControlPending. replace (s_ID s') with (s_ID s) by (by rewrite Hs').
  destruct (IsActive s') eqn:Ea; cbn [negb]; [rewrite Hw; cbn [rbind] |];
    (eexists; split; [reflexivity | cbn [os_PaymentState os_Status]; split;
      [by apply (assessed_view cfg env s s' _ Hc); first [done | rewrite Hs'] |]]).
  all: assert (s_Status s' = if insufficient a then SessionStatusTerminated else SessionStatusActive) as ->
         by (rewrite Hs'; unfold IsActive in Ha; bool_props; rewrite <- Ha; unfold assessed; by destruct (insufficient a)).
  all: assert (insufficient a = match escrow with Some b => owed >? b | None => false end) as <-
         by (subst a escrow; rewrite assess_equation; unfold insufficient; 
             destruct (GetEscrowBalance _ _ _) as [[b|]|]; [|done..]; cbn [fa_status]; fold accepted owed;
             by destruct (owed >? b)).
  all: by destruct (insufficient a).
Qed.
End ViewTheorems.

(** ** Listings *)

Section Listing.
Context `{Uint256Laws} `{EthLaws}.

Lemma operatorLimit_bounds n : 0 <= n -> 1 <= operatorLimit n <= 1000.
Proof.
  intros Hn. unfold operatorLimit, defaultOperatorListLimit, maxOperatorListLimit.
  destruct (Z.eqb_spec n 0); [lia |]. destruct (Z.gtb_spec n 1000); lia.
Qed.

Lemma sessions_loop_spec `{!GlobalRepository R} cfg wanted sel inc sessions (g : Gateway R) views :
  sessions_loop cfg wanted sel inc sessions g = Ok views ->
  Forall2 (fun s v => sessionToProto cfg s inc g = Ok v) (take wanted (List.filter sel sessions)) views.
Proof.
  revert wanted views. induction sessions as [|s rest IH]; intros [|wanted] views; simpl; try by intros [= <-]; constructor.
  destruct (sel s); cbn [negb]; [|apply IH].
  destruct (sessionToProto cfg s inc g) as [v|] eqn:Ev; [|done]. cbn [rbind].
  destruct (sessions_loop cfg wanted sel inc rest g) as [vs|] eqn:El; [|done]. cbn [rbind]. intros [= <-].
  cbn [take]. constructor; [done | by apply IH].
Qed.

(** The filters of a request, decoded. *)
Record decoded (req : ListSessionsRequest) (filter : SessionFilter) (sel : Session -> bool) : Prop := {
  decoded_filter : exists payer status, optionalAddress (ls_Payer req) = Ok payer /\
    operatorSessionStatusToRepository (ls_Status req) = Ok status /\ filter = mkSessionFilter payer status None;
  decoded_selection : exists receiver ds funds, optionalAddress (ls_Receiver req) = Ok receiver /\
    optionalAddress (ls_DataService req) = Ok ds /\ protoFundsStatusToMetadata (ls_FundsStatus req) = Ok funds /\
    sel = session_selected receiver ds funds
}.

(** The funds status a filter asks for is the one shown. *)
Lemma selected_status cfg (g : Gateway InMemoryRepository) receiver ds req funds s inc v :
  protoFundsStatusToMetadata (ls_FundsStatus req) = Ok funds -> session_selected receiver ds funds s = true ->
  sessionToProto cfg s inc g = Ok v -> ls_FundsStatus req <> OPERATOR_FUNDS_STATUS_UNSPECIFIED ->
  op_FundsStatus (os_PaymentState v) = ls_FundsStatus req.
Proof.
  intros Ef Hs Ev Hn.
  assert (op_FundsStatus (os_PaymentState v) = repositoryFundsStatusToProto (sessionFundsStatus s)) as ->.
  { unfold sessionToProto in Ev. destruct (paymentControlPending cfg s g) as [p|]; [|done].
    destruct inc, (s_CurrentRAV s); try by injection Ev as <-.
    destruct (acceptedRAVToProto _ _ _); [by injection Ev as <- | done]. }
  unfold session_selected, opt_equal in Hs. apply andb_prop in Hs as [_ Hs].
  destruct (ls_FundsStatus req); cbn in Ef; try done; injection Ef as <-; by apply bool_decide_eq_true in Hs as ->.
Qed.

Lemma filter_filter {A} (p q : A -> bool) l : List.filter p (List.filter q l) = List.filter (fun x => q x && p x) l.
Proof. induction l as [|x l IH]; [done |]. simpl. destruct (q x); simpl; [destruct (p x); by rewrite IH | done]. Qed.

(** A listing of sessions shows the stored sessions that pass every filter
    of the request, each once and no others, up to the limit: those sessions are
    split into the ones shown and a rest, which is empty unless the response has
    as many entries as the limit, between 1 and 1000.  Each entry is the view of
    its session and has the funds status the request asked for. *)
Theorem ListSessions_complete cfg config h req (g : Gateway InMemoryRepository) views :
  0 <= ls_Limit req ->
  ListSessions cfg config h req g = Ok views ->
  exists filter sel shown rest, decoded req filter sel /\ 1 <= operatorLimit (ls_Limit req) <= 1000 /\
    shown ++ rest = List.filter (fun s => session_matches filter s && sel s)
                      (map snd (map_to_list (im_sessions (g_repo g)))) /\
    (rest = [] \/ Z.of_nat (length views) = operatorLimit (ls_Limit req)) /\
    Forall2 (fun s v => sessionToProto cfg s (ls_IncludeRav req) g = Ok v /\
      (ls_FundsStatus req <> OPERATOR_FUNDS_STATUS_UNSPECIFIED ->
       op_FundsStatus (os_PaymentState v) = ls_FundsStatus req)) shown views.
Proof.
  intros Hl. unfold ListSessions. destruct (authorizeRead config h); [|done]. cbn [rbind].
  destruct (optionalAddress (ls_Payer req)) as [payer|] eqn:Ep; [|done]. cbn [rbind].
  destruct (optionalAddress (ls_Receiver req)) as [receiver|] eqn:Er; [|done]. cbn [rbind].
  destruct (optionalAddress (ls_DataService req)) as [ds|] eqn:Ed; [|done]. cbn [rbind].
  destruct (operatorSessionStatusToRepository (ls_Status req)) as [status|] eqn:Es; [|done]. cbn [rbind].
  destruct (protoFundsStatusToMetadata (ls_FundsStatus req)) as [funds|] eqn:Ef; [|done]. cbn [rbind].
  intros E%sessions_loop_spec. set (sel := session_selected receiver ds funds) in *.
  set (filter := mkSessionFilter payer status None) in *. pose proof (operatorLimit_bounds _ Hl) as Hb.
  unfold SessionList in E. cbn in E. unfold im_SessionList in E. rewrite filter_filter in E.
  set (all := List.filter _ _) in E. set (n := Z.to_nat (operatorLimit (ls_Limit req))) in *.
  exists filter, sel, (take n all), (drop n all).
  split; [split; [by exists payer, status | by exists receiver, ds, funds] |]. split; [done |].
  split; [apply take_drop |]. split.
  - apply Forall2_length in E. rewrite length_take in E. destruct (decide (length all <= n)%nat) as [Hn|Hn].
    + left. by apply drop_ge.
    + right. subst n. lia.
  - assert (Forall (fun s => sel s = true) (take n all)) as Hsel.
    { apply Forall_take, list.Forall_forall. intros s Hs%list_elem_of_In%filter_In.
      destruct Hs as [_ Hs%andb_prop]. apply Hs. }
    revert Hsel E. generalize (take n all). clear -Ef. intros l Hsel E. induction E as [|s v l vs Ev E IH]; [constructor |].
    apply list.Forall_cons in Hsel as [Hs Hsel]. constructor; [|by apply IH]. split; [done |].
    exact (selected_status cfg g receiver ds req funds s (ls_IncludeRav req) v Ef Hs Ev).
Qed.
End Listing.

(** ** Concrete runs *)
Module SessionsWitness.
Import Reference.
Import AccountingWitness.
Import FundsWitness.

Definition operator : OperatorConfig := mkOperatorConfig "read" "admin".
Definition bearer : header := {["Authorization"%string := ["Bearer read"%string]]}.
Lemma may_read : authorizeRead operator bearer = Ok tt.
Proof. vm_compute. reflexivity. Qed.

Definition count_check (g : Gateway InMemoryRepository) (id : string) : bool :=
  match WorkerCountBySession (g_repo g) id with Ok _ => true | Err _ => false end.
Lemma count_ok g id : count_check g id = true -> exists n, WorkerCountBySession (g_repo g) id = Ok n.
Proof. unfold count_check. destruct (WorkerCountBySession (g_repo g) id); [eauto | done]. Qed.

Definition everything : ListSessionsRequest :=
  mkListSessions None None None OPERATOR_SESSION_STATUS_UNSPECIFIED OPERATOR_FUNDS_STATUS_INSUFFICIENT false 0.
Abbreviation listed := (ListSessions cfg_escrow operator bearer everything evaluated.2).
Definition listed_check (x : result connect_error (list OperatorSession)) : bool :=
  match x with Ok l => (length l =? 1)%nat | Err _ => false end.
Lemma listed_one : listed_check listed = true.
Proof. vm_compute. reflexivity. Qed.
End SessionsWitness.

Import Reference.

Lemma operator_view_reports_assessment_witness :
  exists v, GetSession FundsWitness.cfg_escrow SessionsWitness.operator SessionsWitness.bearer "s1" false
              FundsWitness.evaluated.2 = Ok v /\
    op_FundsStatus (os_PaymentState v) = OPERATOR_FUNDS_STATUS_INSUFFICIENT /\
    GRT_ToBigInt (op_MinimumNeeded (os_PaymentState v)) = 4.
Proof.
  destruct (FundsWitness.active_check_sound _ FundsWitness.active3) as (s & Es & Ha & Hv & Hd).
  destruct (SessionsWitness.count_ok FundsWitness.evaluated.2 (s_ID s)) as [n Hn]; [reflexivity |].
  destruct (operator_view_reports_assessment FundsWitness.cfg_escrow FundsWitness.env_poor SessionsWitness.operator
    SessionsWitness.bearer "s1" AccountingWitness.g3 s FundsWitness.evaluated.2 n Es Ha ltac:(discriminate)
    SessionsWitness.may_read (FundsWitness.is_ok_unit _ FundsWitness.evaluated_ok) Hn) as (v & E & Hs & _);
    [rewrite Hv; unfold two256; lia | rewrite Hv, Hd; unfold two256; lia | cbn; unfold two256; lia |].
  exists v. split; [exact E |]. destruct Hs as (_ & _ & _ & Hs). rewrite Hv, Hd in Hs.
  destruct Hs as (Hst & _ & _ & Hm & _). split; [exact Hst | exact Hm].
Defined.

Lemma ListSessions_complete_witness :
  exists shown v, SessionsWitness.listed = Ok [v] /\ length shown = 1%nat /\
    Forall2 (fun s v => sessionToProto FundsWitness.cfg_escrow s false FundsWitness.evaluated.2 = Ok v /\
      (OPERATOR_FUNDS_STATUS_INSUFFICIENT <> OPERATOR_FUNDS_STATUS_UNSPECIFIED ->
       op_FundsStatus (os_PaymentState v) = OPERATOR_FUNDS_STATUS_INSUFFICIENT)) shown [v].
Proof.
  pose proof SessionsWitness.listed_one as Hc. destruct SessionsWitness.listed as [[|v [|? ?]]|] eqn:E; try discriminate Hc.
  destruct (ListSessions_complete FundsWitness.cfg_escrow SessionsWitness.operator SessionsWitness.bearer
    SessionsWitness.everything FundsWitness.evaluated.2 [v] ltac:(cbn; lia) E)
    as (filter & sel & shown & rest & _ & _ & _ & _ & Hf).
  exists shown, v. split; [reflexivity |]. split; [exact (Forall2_length Hf) | exact Hf].
Defined.
