(* ===== verification/CollectDaemon.v ===== *)
(** Settlement: the automatic collector
    ([cmd/sds/provider_operator_collect_daemon.go]) and the helpers it shares with
    the manual command ([provider_operator_collect.go]).  It lists collectible
    records through the operator surface, claims each one by marking it pending,
    sends the collect transaction, and marks the outcome.

    The chain is a parameter: [ChainDeps] has the calldata encoder and the
    address conversion, and each attempt is given the outcome of its transaction.
    A call to the operator surface may also lose its request or its response on
    the way ([delivery]). *)
From S2P Require Import Prelude.
From S2P Require Import GoStd.
From S2P Require Import External.
From S2P Require Import GRT.
From S2P Require Import Horizon.
From S2P Require Import Proto.
From S2P Require Import Repository.
From S2P Require Import Runtime.
From S2P Require Import Gateway.
From S2P Require Import InMemory.
From S2P Require Import InMemoryProps.
From S2P Require Import OperatorAuth.
From S2P Require Import Operator.

Definition collectDaemonListLimit : Z := 500.
(** One hour. *)
Definition collectDaemonMaxBackoff : Z := 3600 * 10 ^ 9.

(** [common.BytesToAddress] and [DataService.PackQueryFeeCollect]. *)
Class ChainDeps : Type := {
  BytesToAddress : list byte -> address;
  PackQueryFeeCollect : SignedRAV -> Z -> result go_error (list byte)
}.
(** A slice of 20 bytes is its own address. *)
Class ChainDepsLaws `{ChainDeps} : Prop := {
  BytesToAddress_20 l : length l = 20%nat -> BytesToAddress l = l
}.

Record autoCollector : Type := mkCollector {
  ac_header : header;
  ac_providerAddress : address;
  ac_dataServiceAddress : address;
  ac_cutPPM : Z;
  ac_minValue : Z;
  ac_maxAttempts : Z;
  ac_backoffBase : Z;
  ac_reclaimAfter : Z
}.

(** What happens to a call on its way. *)
Inductive delivery : Type := Delivered | LostRequest | LostResponse.

(** The outcome of sending a transaction: its error, if any, and its hash. *)
Record TxOutcome : Type := mkTx { tx_err : option go_error; tx_hash : string }.

(** [time.Unix(0, int64(ns))], and the saturating difference of two times. *)
Definition time_of_nanos (ns : Z) : time := wrap_s64 ns + 62135596800 * 10 ^ 9.
Definition time_Sub (t u : time) : Z := Z.max (- 2 ^ 63) (Z.min (2 ^ 63 - 1) (t - u)).

(** The doubling loop, [n] iterations at most. *)
Fixpoint backoff_loop (n : nat) (backoff : Z) : Z :=
  match n with
  | O => backoff
  | S n' => let backoff := wrap_s64 (backoff * 2) in
            if backoff >=? collectDaemonMaxBackoff then collectDaemonMaxBackoff else backoff_loop n' backoff
  end.

Definition backoffFor (c : autoCollector) (attempt : Z) : Z :=
  if attempt <? 1 then 0 else backoff_loop (Z.to_nat (attempt - 1)) (ac_backoffBase c).

Section Daemon.
Context `{Uint256} `{Eth} `{ChainDeps} `{!GlobalRepository R}.
Implicit Types (c : autoCollector) (r : R).

Definition protoGRTBigInt (value : option PGRT) : option Z :=
  match value with None => None | Some _ => Some (GRT_BigInt (GRT_ToNative value)) end.

Definition shouldCollect c (now : time) (record : PCollectionRecord) : bool :=
  match protoGRTBigInt (pc_ValueAggregate record) with
  | None => false
  | Some value =>
      if cmpZ value (ac_minValue c) <? 0 then false
      else if bool_decide (pc_State record = COLLECTION_STATE_COLLECT_FAILED_RETRYABLE) then
        if pc_AttemptCount record mod 2 ^ 32 >=? ac_maxAttempts c then false
        else negb (time_Sub now (time_of_nanos (pc_UpdatedAtNs record)) <? backoffFor c (pc_AttemptCount record))
      else true
  end.

Definition shouldReclaimPending c (now : time) (record : PCollectionRecord) : bool :=
  if ac_reclaimAfter c <=? 0 then false
  else if negb (bool_decide (pc_State record = COLLECTION_STATE_COLLECT_PENDING)) then false
  else time_Sub now (time_of_nanos (pc_UpdatedAtNs record)) >=? ac_reclaimAfter c.

Definition list_request (state : PCollectionState) : ListRequest :=
  mkListRequest collectDaemonListLimit "" None None None [] state.

(** A read through the operator surface; [up] tells whether it answers. *)
Definition list_state (config : OperatorConfig) c (up : bool) (state : PCollectionState) r :
    result connect_error (list PCollectionRecord) :=
  if up then ListCollections config (ac_header c) (list_request state) r
  else Err (CodeUnavailable, Errorf "operator endpoint unavailable").

Definition listEligible (config : OperatorConfig) c (now : time) (up : bool) r :
    result connect_error (list PCollectionRecord) :=
  let? collectible := list_state config c up COLLECTION_STATE_COLLECTIBLE r in
  let? failed := list_state config c up COLLECTION_STATE_COLLECT_FAILED_RETRYABLE r in
  Ok (List.filter (shouldCollect c now) collectible ++ List.filter (shouldCollect c now) failed).

Definition isProviderCollectableState (state : PCollectionState) : bool :=
  bool_decide (state = COLLECTION_STATE_COLLECTIBLE) ||
  bool_decide (state = COLLECTION_STATE_COLLECT_FAILED_RETRYABLE).

Definition protoAddressMatchesEth (protoAddr : option PAddress) (ethAddr : address) : result go_error unit :=
  match Address_ToEth protoAddr with
  | Err e => Err (Wrapf "collection key %s: %w" e)
  | Ok got => if negb (AddressesEqual got ethAddr)
              then Err (Errorf "collection key %s %s does not match signed RAV %s %s") else Ok tt
  end.

Definition validateCollectionKeyMatchesRAV (key : option PCollectionKey) (rav : RAV) : result go_error unit :=
  match key with
  | None => Err (Errorf "collection key is required")
  | Some key =>
      if negb (String.eqb (EncodeToString (pk_CollectionId key)) (EncodeToString (rav_CollectionID rav)))
      then Err (Errorf "collection key collection ID does not match signed RAV collection ID") else
      let? _ := protoAddressMatchesEth (pk_Payer key) (rav_Payer rav) in
      let? _ := protoAddressMatchesEth (pk_ServiceProvider key) (rav_ServiceProvider rav) in
      protoAddressMatchesEth (pk_DataService key) (rav_DataService rav)
  end.

Definition validateProviderCollectRecord (record : PCollectionRecord) (providerAddress dataServiceAddress : address) :
    result go_error SignedRAV :=
  if negb (isProviderCollectableState (pc_State record))
  then Err (Errorf "collection state is %s, expected collectible or collect_failed_retryable") else
  match pc_SignedRav record with
  | None => Err (Errorf "signed RAV is required")
  | Some _ =>
    match ProtoSignedRAVToHorizon (pc_SignedRav record) with
    | Err e => Err (Wrapf "signed RAV: %w" e)
    | Ok None => Err GoPanic
    | Ok (Some signedRAV) =>
      match pc_ValueAggregate record with
      | None => Err (Errorf "value aggregate is required")
      | Some _ =>
        match Message signedRAV with
        | None => Err GoPanic
        | Some m =>
          match rav_ValueAggregate m with
          | None => Err GoPanic
          | Some v =>
            if negb (cmpZ (GRT_ToBigInt (pc_ValueAggregate record)) v =? 0)
            then Err (Errorf "record value aggregate does not match signed RAV value aggregate") else
            let? _ := validateCollectionKeyMatchesRAV (pc_Key record) m in
            if negb (AddressesEqual providerAddress (BytesToAddress (rav_ServiceProvider m)))
            then Err (Errorf "provider private key address %s does not match RAV service provider %s")
            else if negb (AddressesEqual dataServiceAddress (BytesToAddress (rav_DataService m)))
            then Err (Errorf "--data-service-address %s does not match RAV data service %s")
            else Ok signedRAV
          end
        end
      end
    end
  end.

(** A mutation through the operator surface, as the client sees it. *)
Definition deliver {A} (d : delivery) (call : R -> result connect_error A * R) r : result connect_error A * R :=
  match d with
  | Delivered => call r
  | LostRequest => (Err (CodeUnavailable, Errorf "request lost"), r)
  | LostResponse => (Err (CodeUnavailable, Errorf "response lost"), (call r).2)
  end.

Definition markCollectionPending (config : OperatorConfig) c (now : time) (d : delivery) (record : PCollectionRecord) r :=
  deliver d (MarkCollectionPending config now (ac_header c) (pc_Key record) (pc_ValueAggregate record) "") r.
Definition markCollectionCollected (config : OperatorConfig) c (now : time) (d : delivery) (record : PCollectionRecord)
    (txHash : string) r :=
  deliver d (MarkCollectionCollected config now (ac_header c) (pc_Key record) (pc_ValueAggregate record) txHash None) r.
Definition markCollectionRetryable (config : OperatorConfig) c (now : time) (d : delivery) (record : PCollectionRecord)
    (txHash : string) (cause : go_error) r :=
  deliver d (MarkCollectionRetryable config now (ac_header c) (pc_Key record) (pc_ValueAggregate record) txHash
               (error_string cause)) r.

(** What one attempt meets: the clock, the fate of its two calls and of its
    transaction. *)
Record Attempt : Type := mkAttempt {
  at_now : time;
  at_pending : delivery;
  at_tx : TxOutcome;
  at_mark : delivery
}.

(** The calldata sent, if a transaction was sent, and the new state. *)
Definition collectOne (config : OperatorConfig) c (a : Attempt) (record : PCollectionRecord) r :
    option (list byte) * R :=
  match validateProviderCollectRecord record (ac_providerAddress c) (ac_dataServiceAddress c) with
  | Err _ => (None, r)
  | Ok signedRAV =>
    match PackQueryFeeCollect signedRAV (ac_cutPPM c) with
    | Err _ => (None, r)
    | Ok calldata =>
      match markCollectionPending config c (at_now a) (at_pending a) record r with
      | (Err _, r) => (None, r)
      | (Ok _, r) =>
        match tx_err (at_tx a) with
        | Some txErr =>
            (Some calldata,
             (markCollectionRetryable config c (at_now a) (at_mark a) record (tx_hash (at_tx a)) txErr r).2)
        | None =>
            (Some calldata,
             (markCollectionCollected config c (at_now a) (at_mark a) record (tx_hash (at_tx a)) r).2)
        end
      end
    end
  end.

Definition reclaim_one (config : OperatorConfig) c (now : time) (record : PCollectionRecord) r : R :=
  if shouldReclaimPending c now record
  then (markCollectionRetryable config c now Delivered record (pc_LastTxHash record)
          (Errorf "reclaimed stale collect_pending after %s") r).2
  else r.

Definition reclaimStalePending (config : OperatorConfig) c (now : time) (up : bool) r : R :=
  if ac_reclaimAfter c <=? 0 then r else
  match list_state config c up COLLECTION_STATE_COLLECT_PENDING r with
  | Err _ => r
  | Ok records => fold_left (fun r record => reclaim_one config c now record r) records r
  end.

(** One sweep: the attempts are given in order; the transactions sent are
    collected.  A cancelled context ends the sweep, here by running out of
    attempts. *)
Fixpoint collect_all (config : OperatorConfig) c (attempts : list Attempt) (records : list PCollectionRecord) r :
    list (list byte) * R :=
  match records, attempts with
  | record :: records', a :: attempts' =>
      let '(sent, r) := collectOne config c a record r in
      let '(others, r) := collect_all config c attempts' records' r in
      (match sent with Some calldata => calldata :: others | None => others end, r)
  | _, _ => ([], r)
  end.

Definition sweep (config : OperatorConfig) c (now : time) (up : bool) (attempts : list Attempt) r :
    list (list byte) * R :=
  match listEligible config c now up r with
  | Err _ => ([], r)
  | Ok [] => ([], r)
  | Ok records =>
      let '(sent, r') := collect_all config c attempts records r in
      if (length records <=? length attempts)%nat then (sent, reclaimStalePending config c now up r')
      else (sent, r')
  end.
End Daemon.

Lemma backoff_loop_spec n b :
  0 < b < 2 ^ 62 -> (n = 0%nat \/ b < collectDaemonMaxBackoff -> backoff_loop n b = if (n =? 0)%nat then b else Z.min collectDaemonMaxBackoff (b * 2 ^ Z.of_nat n)) /\
  ((0 < n)%nat -> collectDaemonMaxBackoff <= b -> backoff_loop n b = collectDaemonMaxBackoff).
Proof.
  assert (Hm : collectDaemonMaxBackoff = 3600000000000) by reflexivity.
  revert b. induction n as [|n IH]; intros b Hb; [split; [done | lia] |].
  cbn [backoff_loop Nat.eqb]. rewrite wrap_s64_small by (unfold s64; lia).
  rewrite Nat2Z.inj_succ, Z.pow_succ_r by lia. pose proof (Z.pow_pos_nonneg 2 (Z.of_nat n)).
  split.
  - intros [|Hlt]; [done |]. destruct (Z.geb_spec (b * 2) collectDaemonMaxBackoff); [nia |].
    destruct (IH (b * 2)) as [IH' _]; [lia |]. rewrite IH' by lia.
    destruct n as [|n]; simpl Nat.eqb; [simpl; lia |]. f_equal. lia.
  - intros _ Hle. destruct (Z.geb_spec (b * 2) collectDaemonMaxBackoff); [done | lia].
Qed.

(** The retry backoff doubles per attempt and is capped at one hour from the
    second attempt on; the first wait is the configured base, also when that is
    longer than an hour. *)
Theorem backoffFor_spec (c : autoCollector) (attempt : Z) :
  0 < ac_backoffBase c < 2 ^ 62 -> 1 <= attempt ->
  backoffFor c attempt =
  if attempt =? 1 then ac_backoffBase c
  else Z.min collectDaemonMaxBackoff (ac_backoffBase c * 2 ^ (attempt - 1)).
Proof.
  intros Hb Ha. unfold backoffFor. destruct (Z.ltb_spec attempt 1); [lia |].
  destruct (backoff_loop_spec (Z.to_nat (attempt - 1)) (ac_backoffBase c) Hb) as [H1 H2].
  destruct (Z.eqb_spec attempt 1) as [->|Hne]; [by rewrite H1 by (by left) |].
  pose proof (Z.pow_pos_nonneg 2 (attempt - 1)).
  destruct (Z_lt_le_dec (ac_backoffBase c) collectDaemonMaxBackoff) as [Hlt|Hle].
  - rewrite H1 by (by right). destruct (Nat.eqb_spec (Z.to_nat (attempt - 1)) 0); [lia |]. by rewrite Z2Nat.id by lia.
  - rewrite H2 by lia. nia.
Qed.

Lemma backoffFor_spec_witness :
  backoffFor (mkCollector ∅ [] [] 0 0 5 (60 * 10 ^ 9) 0) 4 = 480 * 10 ^ 9.
Proof.
  rewrite (backoffFor_spec (mkCollector ∅ [] [] 0 0 5 (60 * 10 ^ 9) 0) 4); [reflexivity | simpl; lia | lia].
Defined.

Section DaemonProofs.
Context `{Uint256Laws} `{EthLaws} `{ChainDepsLaws}.
Implicit Types (c : autoCollector) (r : InMemoryRepository) (config : OperatorConfig).

Definition claimable (cr : CollectionRecord) : Prop :=
  cr_State cr = CollectionStateCollectible \/ cr_State cr = CollectionStateCollectFailedRetryable.

(** A claimed record, and what the outcome of the attempt makes of it. *)
Definition claimed (a : Attempt) (cr : CollectionRecord) : CollectionRecord :=
  cr <| cr_State := CollectionStateCollectPending |> <| cr_AttemptCount := cr_AttemptCount cr + 1 |>
     <| cr_LastTxHash := ""%string |> <| cr_LastError := ""%string |>
     <| cr_UpdatedAt := collectionUpdatedAt (at_now a) (at_now a) |>.

Definition reached (d : delivery) : bool := match d with LostRequest => false | _ => true end.

Definition settled (a : Attempt) (cr : CollectionRecord) : CollectionRecord :=
  if negb (reached (at_mark a)) then claimed a cr else
  match tx_err (at_tx a) with
  | Some e => if String.eqb (error_string e) "" then claimed a cr
              else (claimed a cr) <| cr_State := CollectionStateCollectFailedRetryable |>
                     <| cr_LastTxHash := tx_hash (at_tx a) |> <| cr_LastError := error_string e |>
                     <| cr_UpdatedAt := collectionUpdatedAt (at_now a) (at_now a) |>
  | None => if String.eqb (tx_hash (at_tx a)) "" then claimed a cr
            else (claimed a cr) <| cr_State := CollectionStateCollected |>
                   <| cr_LastTxHash := tx_hash (at_tx a) |> <| cr_LastError := ""%string |>
                   <| cr_CollectedAmount := None |>
                   <| cr_UpdatedAt := collectionUpdatedAt (at_now a) (at_now a) |>
  end.

Lemma deliver_state {A R} d (call : R -> result connect_error A * R) (x : R) :
  (deliver d call x).2 = if reached d then (call x).2 else x.
Proof. by destruct d. Qed.

Lemma values_equal_Some o v : collectionValuesEqual o (Some v) = true <-> o = Some v.
Proof.
  destruct o as [w|]; simpl; [|done]. rewrite cmpZ_eqb, Z.eqb_eq. naive_solver.
Qed.

(** A record replaced under its key. *)
Definition put_at (k : CollectionKey) (cr : CollectionRecord) r : InMemoryRepository :=
  r <| im_records := <[collectionMapKey k := cr]> (im_records r) |>.

(** What an authorized, well-formed mutation request finds. *)
Record finds config c (record : PCollectionRecord) r (k : CollectionKey) (cr : CollectionRecord) : Prop := {
  fd_admin : authorizeAdmin config (ac_header c) = Ok tt;
  fd_key : mutationKeyAndExpectedValue (pc_Key record) (pc_ValueAggregate record) =
           Ok (k, GRT_ToBigInt (pc_ValueAggregate record));
  fd_record : im_records r !! collectionMapKey k = Some cr;
  fd_value : cr_ValueAggregate cr = Some (GRT_ToBigInt (pc_ValueAggregate record))
}.

Lemma update_found r k cr v f :
  im_records r !! collectionMapKey k = Some cr -> cr_ValueAggregate cr = Some v ->
  updateCollection r k (Some v) f =
  match f cr with Err e => (Err e, r) | Ok next => (Ok next, put_at k next r) end.
Proof.
  intros Er Ev. unfold updateCollection. rewrite Er, Ev. simpl. by rewrite cmpZ_eqb, Z.eqb_refl.
Qed.

Lemma key_value_inv key value k v :
  mutationKeyAndExpectedValue key value = Ok (k, v) -> v = GRT_ToBigInt value.
Proof.
  unfold mutationKeyAndExpectedValue. intros (k' & _ & E)%rbind_Ok. destruct value; [|done].
  apply Ok_inj in E. by simplify_eq.
Qed.

Lemma mark_pending_ok a cr cr' :
  mark_pending (at_now a) "" (at_now a) cr = Ok cr' -> claimable cr /\ cr' = claimed a cr.
Proof.
  unfold mark_pending, claimable. do 2 case_bool_decide; simpl; intros E; try done; apply Ok_inj in E as <-; auto.
Qed.

Lemma claim_spec config c a record r :
  match MarkCollectionPending config (at_now a) (ac_header c) (pc_Key record) (pc_ValueAggregate record) "" r with
  | (Ok _, r') => exists k cr, finds config c record r k cr /\ claimable cr /\ r' = put_at k (claimed a cr) r
  | (Err _, r') => r' = r
  end.
Proof.
  unfold MarkCollectionPending. destruct (authorizeAdmin _ _) as [[]|] eqn:Ea; [|done].
  destruct (mutationKeyAndExpectedValue _ _) as [[k v]|] eqn:Ek; [|done].
  pose proof (key_value_inv _ _ _ _ Ek) as ->. cbn [CollectionMarkPending inmemory_repository].
  unfold im_CollectionMarkPending.
  destruct (im_records r !! collectionMapKey k) as [cr|] eqn:Er; [|unfold updateCollection; by rewrite Er].
  destruct (collectionValuesEqual (cr_ValueAggregate cr) (Some (GRT_ToBigInt (pc_ValueAggregate record)))) eqn:Ev;
    [|unfold updateCollection; by rewrite Er, Ev].
  apply values_equal_Some in Ev. rewrite (update_found r k cr) by done.
  destruct (mark_pending _ _ _ cr) as [cr'|] eqn:Em; [|done]. simpl. apply mark_pending_ok in Em as [Hc ->].
  exists k, cr. done.
Qed.

(** Marking the outcome of a claimed record. *)
Lemma outcome_spec config c a record r k cr :
  finds config c record r k cr ->
  let r1 := put_at k (claimed a cr) r in
  match tx_err (at_tx a) with
  | Some e => (markCollectionRetryable config c (at_now a) (at_mark a) record (tx_hash (at_tx a)) e r1).2
  | None => (markCollectionCollected config c (at_now a) (at_mark a) record (tx_hash (at_tx a)) r1).2
  end = put_at k (settled a cr) r.
Proof.
  intros [Ha Hk Hr Hv] r1. unfold markCollectionRetryable, markCollectionCollected, settled.
  assert (Er1 : im_records r1 !! collectionMapKey k = Some (claimed a cr)) by apply lookup_insert_eq.
  assert (Hput : forall x, put_at k x r1 = put_at k x r).
  { intros x. unfold r1, put_at. simpl. by rewrite insert_insert_eq. }
  destruct (tx_err (at_tx a)) as [e|]; rewrite deliver_state; destruct (reached (at_mark a)); simpl; try done.
  - unfold MarkCollectionRetryable. rewrite Ha, Hk. destruct (String.eqb (error_string e) ""); [done |].
    cbn [CollectionMarkFailedRetryable inmemory_repository]. unfold im_CollectionMarkFailedRetryable.
    rewrite (update_found r1 k (claimed a cr)) by done. apply Hput.
  - unfold MarkCollectionCollected. rewrite Ha, Hk. destruct (String.eqb (tx_hash (at_tx a)) ""); [done |].
    cbn [CollectionMarkCollected inmemory_repository]. unfold im_CollectionMarkCollected.
    rewrite (update_found r1 k (claimed a cr)) by done. apply Hput.
Qed.

Lemma collectOne_spec config c a record r :
  match collectOne config c a record r with
  | (Some calldata, r') =>
      exists sm k cr, validateProviderCollectRecord record (ac_providerAddress c) (ac_dataServiceAddress c) = Ok sm /\
        PackQueryFeeCollect sm (ac_cutPPM c) = Ok calldata /\
        finds config c record r k cr /\ claimable cr /\ r' = put_at k (settled a cr) r
  | (None, r') =>
      r' = r \/ (at_pending a = LostResponse /\
                 exists k cr, finds config c record r k cr /\ claimable cr /\ r' = put_at k (claimed a cr) r)
  end.
Proof.
  unfold collectOne. destruct (validateProviderCollectRecord _ _ _) as [sm|]; [|by left].
  destruct (PackQueryFeeCollect sm (ac_cutPPM c)) as [calldata|] eqn:Ep; [|by left].
  unfold markCollectionPending, deliver. pose proof (claim_spec config c a record r) as Hc.
  destruct (MarkCollectionPending _ _ _ _ _ _ _) as [[p|e] r1]; destruct (at_pending a); simpl; auto.
  destruct Hc as (k & cr & Hf & Hcl & ->). pose proof (outcome_spec config c a record r k cr Hf) as Ho.
  simpl in Ho. destruct (tx_err (at_tx a)); rewrite Ho; exists sm, k, cr; done.
Qed.

Lemma validate_inv record pa da sm :
  validateProviderCollectRecord record pa da = Ok sm ->
  exists m v, ProtoSignedRAVToHorizon (pc_SignedRav record) = Ok (Some sm) /\ Message sm = Some m /\
    rav_ValueAggregate m = Some v /\ GRT_ToBigInt (pc_ValueAggregate record) = v /\
    pa = BytesToAddress (rav_ServiceProvider m) /\ da = BytesToAddress (rav_DataService m).
Proof.
  unfold validateProviderCollectRecord. destruct (negb _); [done |].
  destruct (pc_SignedRav record) as [psr|]; [|done].
  destruct (ProtoSignedRAVToHorizon (Some psr)) as [[sm'|]|]; [|done..].
  destruct (pc_ValueAggregate record) as [va|] eqn:Eva; [|done].
  destruct (Message sm') as [m|] eqn:Em; [|done]. destruct (rav_ValueAggregate m) as [v|] eqn:Ev; [|done].
  rewrite cmpZ_eqb. destruct (Z.eqb_spec (GRT_ToBigInt (Some va)) v) as [E|]; [|done]. cbn [negb].
  intros (u & _ & Hr)%rbind_Ok. unfold AddressesEqual in Hr. do 2 (case_bool_decide; [|done]). cbn [negb] in Hr.
  apply Ok_inj in Hr as <-. exists m, v. done.
Qed.

Lemma settled_not_claimable a cr :
  cr_State (settled a cr) <> CollectionStateCollectFailedRetryable -> ~ claimable (settled a cr).
Proof.
  unfold settled, claimable. intros Hn [Hc|Hc]; [|done]. revert Hc. clear Hn.
  repeat (case_match; try done).
Qed.

(** Settlement is exclusive and honest: a collect transaction is sent only for
    a voucher of this provider and data service at exactly the value of a stored
    record that was collectible or retryable and that this attempt has claimed
    first; afterwards that record, and no other, is collected, failed or still
    pending according to the outcome, with one more attempt counted.  Unless the
    attempt was recorded as failed, nobody can send a second transaction from the
    same listed record.  Without a transaction, nothing changed, or the claim was
    made and its acknowledgment lost. *)
Theorem collectOne_exclusive config c a record r sent r' :
  collectOne config c a record r = (sent, r') ->
  match sent with
  | Some calldata =>
      exists sm m k cr, PackQueryFeeCollect sm (ac_cutPPM c) = Ok calldata /\ Message sm = Some m /\
        ac_providerAddress c = BytesToAddress (rav_ServiceProvider m) /\
        ac_dataServiceAddress c = BytesToAddress (rav_DataService m) /\
        im_records r !! collectionMapKey k = Some cr /\ claimable cr /\ cr_ValueAggregate cr = rav_ValueAggregate m /\
        r' = put_at k (settled a cr) r /\ cr_AttemptCount (settled a cr) = cr_AttemptCount cr + 1 /\
        (cr_State (settled a cr) <> CollectionStateCollectFailedRetryable ->
         forall config2 c2 a2, (collectOne config2 c2 a2 record r').1 = None)
  | None =>
      r' = r \/ (at_pending a = LostResponse /\ exists k cr, im_records r !! collectionMapKey k = Some cr /\
                   claimable cr /\ r' = put_at k (claimed a cr) r)
  end.
Proof.
  intros E. pose proof (collectOne_spec config c a record r) as Hs. rewrite E in Hs. destruct sent as [calldata|].
  2: { destruct Hs as [->|(Hd & k & cr & [] & Hc & ->)]; [by left | right; eauto 10]. }
  destruct Hs as (sm & k & cr & Hval & Hp & Hf & Hc & ->).
  destruct (validate_inv _ _ _ _ Hval) as (m & v & _ & Em & Ev & Hv & Hpa & Hda).
  pose proof Hf as [_ Hk Hr Hcv]. exists sm, m, k, cr. split_and!; try done.
  - rewrite Hcv, Ev, Hv. done.
  - unfold settled, claimed. by repeat case_match.
  - intros Hn config2 c2 a2. pose proof (collectOne_spec config2 c2 a2 record (put_at k (settled a cr) r)) as H2s.
    destruct (collectOne config2 c2 a2 record _) as [[cd|] r2]; [|done].
    destruct H2s as (sm2 & k2 & cr2 & _ & _ & [_ Hk2 Hr2 _] & Hc2 & _). rewrite Hk in Hk2.
    assert (k2 = k) as -> by (by simplify_eq). unfold put_at in Hr2. simpl in Hr2. rewrite lookup_insert_eq in Hr2.
    apply (inj Some) in Hr2 as <-. destruct (settled_not_claimable a cr Hn Hc2).
Qed.

(** A record as the repository keeps it for a decoded voucher. *)
Definition wf_record (cr : CollectionRecord) : Prop :=
  exists sid m sig v, sid <> ""%string /\ cr_Key cr = collectionKeyFromRAV sid m /\
    cr_SignedRAV cr = Some (mkSigned (Some m) sig) /\ wf_rav m /\ length sig = 65%nat /\
    rav_ValueAggregate m = Some v /\ cr_ValueAggregate cr = Some v.

Lemma key_roundtrip sid m :
  sid <> ""%string -> wf_rav m ->
  collectionKeyFromProto (Some (collectionKeyToProto (collectionKeyFromRAV sid m))) =
  Ok (collectionKeyFromRAV sid m).
Proof.
  intros Hs (Hc & Hp & Hsp & Hd & _). unfold collectionKeyFromProto, collectionKeyToProto, collectionKeyFromRAV.
  cbn [pk_SessionId pk_CollectionId pk_Payer pk_ServiceProvider pk_DataService ck_SessionID ck_CollectionID ck_Payer
       ck_ServiceProvider ck_DataService].
  destruct (String.eqb_spec sid ""); [done |]. unfold requiredCollectionID, optionalCollectionID, requiredAddress.
  rewrite Hc, !Address_ToEth_FromEth by done. done.
Qed.

Lemma address_matches a : length a = 20%nat -> protoAddressMatchesEth (AddressFromEth a) a = Ok tt.
Proof.
  intros Ha. unfold protoAddressMatchesEth, AddressesEqual. rewrite Address_ToEth_FromEth by done.
  by rewrite bool_decide_true.
Qed.

Lemma validate_wf cr sid m sig v pa da :
  claimable cr -> cr_Key cr = collectionKeyFromRAV sid m -> cr_SignedRAV cr = Some (mkSigned (Some m) sig) ->
  wf_rav m -> length sig = 65%nat -> rav_ValueAggregate m = Some v -> cr_ValueAggregate cr = Some v ->
  pa = rav_ServiceProvider m -> da = rav_DataService m ->
  validateProviderCollectRecord (collectionRecordToProto cr) pa da = Ok (mkSigned (Some m) sig).
Proof.
  intros Hc Hk Hsr Hwf Hl Hv Hcv -> ->. pose proof Hwf as (_ & Hp & Hsp & Hd & _ & v' & Hv' & Hrange).
  assert (v' = v) as -> by congruence.
  unfold validateProviderCollectRecord. cbn [pc_State pc_SignedRav pc_ValueAggregate pc_Key collectionRecordToProto].
  assert (isProviderCollectableState (repositoryCollectionStateToProto (cr_State cr)) = true) as ->.
  { destruct Hc as [->| ->]; reflexivity. }
  cbn [negb]. rewrite Hsr, SignedRAV_wire, Hcv by done. cbn [HorizonSignedRAVToProto Message].
  rewrite Hv. unfold GRTFromBigInt at 1, GRTFromNative at 1. rewrite GRT_ToBigInt_FromBigInt, cmpZ_eqb, Z.eqb_refl by done.
  cbn [negb]. rewrite Hk. unfold validateCollectionKeyMatchesRAV, collectionKeyToProto, collectionKeyFromRAV.
  cbn [pk_CollectionId pk_Payer pk_ServiceProvider pk_DataService ck_CollectionID ck_Payer ck_ServiceProvider ck_DataService].
  rewrite String.eqb_refl, !address_matches by done. cbn [negb rbind]. unfold AddressesEqual.
  rewrite !BytesToAddress_20, !bool_decide_true by done. done.
Qed.

(** C36: settlement makes progress: for a well-formed stored record of this provider
    and data service that is collectible or retryable, an authorized collector
    whose calls get through sends the transaction, and a successful one leaves
    the record collected with its hash. *)
Theorem collectOne_completes config c a cr r sm calldata :
  im_records r !! collectionMapKey (cr_Key cr) = Some cr -> wf_record cr -> claimable cr ->
  cr_SignedRAV cr = Some sm ->
  ac_providerAddress c = ck_ServiceProvider (cr_Key cr) -> ac_dataServiceAddress c = ck_DataService (cr_Key cr) ->
  PackQueryFeeCollect sm (ac_cutPPM c) = Ok calldata -> authorizeAdmin config (ac_header c) = Ok tt ->
  at_pending a = Delivered -> at_mark a = Delivered -> tx_err (at_tx a) = None -> tx_hash (at_tx a) <> ""%string ->
  exists r' cr', collectOne config c a (collectionRecordToProto cr) r = (Some calldata, r') /\
    im_records r' !! collectionMapKey (cr_Key cr) = Some cr' /\ cr_State cr' = CollectionStateCollected /\
    cr_LastTxHash cr' = tx_hash (at_tx a) /\ cr_ValueAggregate cr' = cr_ValueAggregate cr.
Proof.
  intros Hr (sid & m & sig & v & Hsid & Hk & Hsr & Hwf & Hl & Hv & Hcv) Hc Hsm Hpa Hda Hp Ha Hd1 Hd2 Ht Hh.
  rewrite Hsr in Hsm. apply (inj Some) in Hsm as <-.
  pose proof Hwf as (_ & _ & _ & _ & _ & v' & Hv' & Hrange). assert (v' = v) as -> by congruence.
  assert (Hkey : mutationKeyAndExpectedValue (pc_Key (collectionRecordToProto cr))
      (pc_ValueAggregate (collectionRecordToProto cr)) = Ok (cr_Key cr, v)).
  { unfold mutationKeyAndExpectedValue. cbn [pc_Key pc_ValueAggregate collectionRecordToProto].
    rewrite Hk, key_roundtrip, Hcv by done. cbn [rbind]. unfold GRTFromBigInt at 1, GRTFromNative at 1.
    by rewrite GRT_ToBigInt_FromBigInt. }
  pose proof (key_value_inv _ _ _ _ Hkey) as Hval.
  assert (Hf : finds config c (collectionRecordToProto cr) r (cr_Key cr) cr) by (split; congruence).
  exists (put_at (cr_Key cr) (settled a cr) r), (settled a cr). split_and!.
  - unfold collectOne. rewrite (validate_wf cr sid m sig v) by (try done; rewrite ?Hpa, ?Hda, Hk; done). rewrite Hp.
    unfold markCollectionPending, deliver. rewrite Hd1. unfold MarkCollectionPending. rewrite Ha, Hkey.
    cbn [CollectionMarkPending inmemory_repository]. unfold im_CollectionMarkPending.
    rewrite (update_found r (cr_Key cr) cr) by done.
    assert (mark_pending (at_now a) "" (at_now a) cr = Ok (claimed a cr)) as ->.
    { unfold mark_pending. destruct Hc as [->| ->]; reflexivity. }
    cbn [mutation_answer]. rewrite Ht. pose proof (outcome_spec config c a _ r (cr_Key cr) cr Hf) as Ho.
    rewrite Ht in Ho. cbv zeta in Ho. rewrite Ho. done.
  - unfold put_at. simpl. apply lookup_insert_eq.
  - unfold settled. rewrite Hd2, Ht. simpl. by destruct (String.eqb_spec (tx_hash (at_tx a)) "").
  - unfold settled. rewrite Hd2, Ht. simpl. by destruct (String.eqb_spec (tx_hash (at_tx a)) "").
  - unfold settled. rewrite Hd2, Ht. simpl. by destruct (String.eqb_spec (tx_hash (at_tx a)) "").
Qed.

Lemma list_state_none config c up state st r :
  protoCollectionStateToRepository state = Ok (Some st) ->
  (forall k cr, im_records r !! k = Some cr -> cr_State cr <> st) ->
  forall l, list_state config c up state r = Ok l -> l = [].
Proof.
  intros Hst Hno l. unfold list_state. destruct up; [|done].
  unfold ListCollections, list_request. cbn [lr_Payer lr_ServiceProvider lr_DataService lr_CollectionId lr_State
    lr_SessionId lr_Limit optionalAddress optionalCollectionID length Nat.eqb].
  destruct (authorizeRead _ _); [|done]. rewrite Hst. cbn [rbind CollectionList inmemory_repository].
  intros El. apply Ok_inj in El as <-. cbn [String.eqb].
  assert (im_CollectionList r (mkCollectionFilter None (Some st) None) = []) as ->; [|apply take_nil].
  unfold im_CollectionList, collection_matches. cbn [cf_SessionID cf_State cf_Payer].
  assert (Hall : forall x, In x (map snd (map_to_list (im_records r))) ->
    true && bool_decide (cr_State x = st) && true = false).
  { intros x ([k cr] & <- & Hin)%in_map_iff. apply list_elem_of_In, elem_of_map_to_list in Hin. simpl.
    rewrite bool_decide_false by eauto. done. }
  induction (map snd (map_to_list (im_records r))) as [|x l IH]; [done |]. cbn [List.filter].
  rewrite Hall by (by left). apply IH. intros y Hy. apply Hall. by right.
Qed.

(** A collector never recovers on its own from a crash between claim and
    outcome: when every record left in the repository is pending, however old, a
    sweep does nothing, because it returns before the step that reclaims stale
    claims whenever no record is eligible. *)
Theorem sweep_skips_stale_claims config c now up attempts r :
  (forall k cr, im_records r !! k = Some cr -> cr_State cr = CollectionStateCollectPending) ->
  sweep config c now up attempts r = ([], r).
Proof.
  intros Hall. unfold sweep, listEligible.
  destruct (list_state config c up COLLECTION_STATE_COLLECTIBLE r) as [l1|] eqn:E1; [|done]. cbn [rbind].
  destruct (list_state config c up COLLECTION_STATE_COLLECT_FAILED_RETRYABLE r) as [l2|] eqn:E2; [|done]. cbn [rbind].
  apply (list_state_none _ _ _ _ CollectionStateCollectible) in E1 as ->; [|done | by intros k cr Ek; rewrite (Hall k cr Ek)].
  apply (list_state_none _ _ _ _ CollectionStateCollectFailedRetryable) in E2 as ->;
    [done | done | by intros k cr Ek; rewrite (Hall k cr Ek)].
Qed.
End DaemonProofs.

(** ** A concrete record *)
Module DaemonWitness.
Import Reference.

#[export] Instance deps : ChainDeps := {| BytesToAddress l := l; PackQueryFeeCollect _ _ := Ok [Byte.x01] |}.
#[export] Instance deps_laws : ChainDepsLaws.
Proof. by split. Qed.

Definition provider : address := fixed_bytes 20 4.
Definition dataService : address := fixed_bytes 20 3.
Definition m : RAV := mkRAV (fixed_bytes 32 1) (fixed_bytes 20 2) provider dataService 12 (Some 150) [].
Definition sig : signature := fixed_bytes 65 5.
Definition sm : SignedRAV := mkSigned (Some m) sig.
Definition record (state : CollectionState) : CollectionRecord :=
  mkCollectionRecord (collectionKeyFromRAV "s1" m) (Some sm) (Some 150) state 0 "" "" None 100 100.
Definition cr : CollectionRecord := record CollectionStateCollectible.
Definition stale : CollectionRecord := record CollectionStateCollectPending.
Definition repo : InMemoryRepository := put_record cr NewInMemoryRepository.
Definition stale_repo : InMemoryRepository := put_record stale NewInMemoryRepository.

Definition config : OperatorConfig := mkOperatorConfig "read-token" "admin-token".
Definition admin : header := {["Authorization"%string := ["Bearer admin-token"%string]]}.
Definition collector : autoCollector := mkCollector admin provider dataService 0 0 5 (60 * 10 ^ 9) (600 * 10 ^ 9).
Definition attempt : Attempt := mkAttempt 200 Delivered (mkTx None "0xabc") Delivered.

Lemma m_wf : wf_rav m.
Proof.
  unfold wf_rav, m, u64, two64, two256. split_and!; try apply fixed_bytes_length; try done.
  exists 150. split; [done | lia].
Qed.
Lemma cr_wf : wf_record cr.
Proof.
  exists "s1"%string, m, sig, 150.
  split_and!; first [discriminate | exact m_wf | exact (fixed_bytes_length 65 5) | reflexivity].
Qed.
Lemma stored : im_records repo !! collectionMapKey (cr_Key cr) = Some cr.
Proof. apply lookup_insert_eq. Qed.
Lemma only_stale k x : im_records stale_repo !! k = Some x -> cr_State x = CollectionStateCollectPending.
Proof.
  unfold stale_repo, put_record. simpl. intros [[_ <-]|[_ Hx]]%lookup_insert_Some; [done |].
  rewrite lookup_empty in Hx. done.
Qed.
Lemma packed : PackQueryFeeCollect sm (ac_cutPPM collector) = Ok [Byte.x01].
Proof. reflexivity. Qed.
Lemma is_admin : authorizeAdmin config (ac_header collector) = Ok tt.
Proof. vm_compute. reflexivity. Qed.
Lemma sent : (collectOne config collector attempt (collectionRecordToProto cr) repo).1 = Some [Byte.x01].
Proof. vm_compute. reflexivity. Qed.
End DaemonWitness.

Import Reference DaemonWitness.

Lemma collectOne_completes_witness :
  exists r' cr', collectOne config collector attempt (collectionRecordToProto cr) repo = (Some [Byte.x01], r') /\
    im_records r' !! collectionMapKey (cr_Key cr) = Some cr' /\ cr_State cr' = CollectionStateCollected.
Proof.
  destruct (collectOne_completes config collector attempt cr repo sm [Byte.x01] stored cr_wf (or_introl eq_refl)
    eq_refl eq_refl eq_refl packed is_admin eq_refl eq_refl eq_refl ltac:(discriminate))
    as (r' & cr' & E & Er & Es & _).
  exact (ex_intro _ r' (ex_intro _ cr' (conj E (conj Er Es)))).
Defined.

Lemma collectOne_exclusive_witness :
  exists k x, im_records repo !! collectionMapKey k = Some x /\ claimable x /\
    cr_AttemptCount (settled attempt x) = cr_AttemptCount x + 1.
Proof.
  pose proof (collectOne_exclusive config collector attempt (collectionRecordToProto cr) repo
    (collectOne config collector attempt (collectionRecordToProto cr) repo).1
    (collectOne config collector attempt (collectionRecordToProto cr) repo).2 (surjective_pairing _)) as Hs.
  rewrite sent in Hs. destruct Hs as (sm' & m' & k & x & _ & _ & _ & _ & Er & Hc & _ & _ & Ha & _).
  exact (ex_intro _ k (ex_intro _ x (conj Er (conj Hc Ha)))).
Defined.

Lemma sweep_skips_stale_claims_witness :
  let now := 62135596800 * 10 ^ 9 + 10 ^ 15 in
  shouldReclaimPending collector now (collectionRecordToProto stale) = true /\
  sweep config collector now true [attempt] stale_repo = ([], stale_repo).
Proof.
  intros now. split; [vm_compute; reflexivity |].
  exact (sweep_skips_stale_claims config collector now true [attempt] stale_repo only_stale).
Defined.
