(* ===== verification/PaymentClient.v ===== *)
(** The consumer's payment-stream client
    ([consumer/sidecar/payment_session_manager.go]): it owns one bidirectional
    stream to the provider's gateway, binds it to one session, and is used by
    several goroutines at once.

    A method runs in critical sections of the client's mutex with a send on the
    stream in between; each critical section is a function here, and [step] lets
    calls interleave between them.  Streams and channels are identified by
    numbers from a supply; closing a channel twice is recorded, since it panics. *)
From S2P Require Import Prelude.
From S2P Require Import GoStd.

Abbreviation chan := nat (only parsing).

Record paymentSessionClient : Type := mkClient {
  cl_providerEndpoint : string;
  cl_stream : option nat;
  cl_boundSessionID : string;
  cl_bindingSessionID : string;
  cl_bindingDone : option chan;
  cl_streamGeneration : Z;
  (** the supply of identifiers, the closed channels, and whether one was
      closed twice *)
  cl_next : nat;
  cl_closed : gset chan;
  cl_panic : bool
}.
#[global] Instance client_eta : Eta paymentSessionClient := fun c =>
  mkClient (cl_providerEndpoint c) (cl_stream c) (cl_boundSessionID c) (cl_bindingSessionID c) (cl_bindingDone c)
    (cl_streamGeneration c) (cl_next c) (cl_closed c) (cl_panic c).

Definition newPaymentSessionClient (providerEndpoint : string) : paymentSessionClient :=
  mkClient providerEndpoint None "" "" None 0 0 ∅ false.

(** ** Critical sections *)

Definition close_chan (ch : chan) (c : paymentSessionClient) : paymentSessionClient :=
  c <| cl_panic := cl_panic c || bool_decide (ch ∈ cl_closed c) |> <| cl_closed := {[ch]} ∪ cl_closed c |>.

Definition finishBindingLocked (c : paymentSessionClient) : paymentSessionClient :=
  match cl_bindingDone c with
  | None => c
  | Some ch => (close_chan ch c) <| cl_bindingDone := None |>
  end.

(** The stream's send mutex and receive channel live and die with the stream. *)
Definition closeLocked (c : paymentSessionClient) : paymentSessionClient :=
  finishBindingLocked
    (c <| cl_streamGeneration := wrap_u64 (cl_streamGeneration c + 1) |> <| cl_stream := None |>
       <| cl_boundSessionID := ""%string |> <| cl_bindingSessionID := ""%string |>).

Definition ensureStreamLocked (c : paymentSessionClient) : nat * paymentSessionClient :=
  match cl_stream c with
  | Some s => (s, c)
  | None => (cl_next c, c <| cl_stream := Some (cl_next c) |> <| cl_next := S (cl_next c) |>)
  end.

Definition Client_SetEndpoint (providerEndpoint : string) (c : paymentSessionClient) : paymentSessionClient :=
  if String.eqb providerEndpoint "" then c
  else if String.eqb (cl_providerEndpoint c) providerEndpoint then c
  else (closeLocked c) <| cl_providerEndpoint := providerEndpoint |>.

Definition Client_Close (c : paymentSessionClient) : paymentSessionClient := closeLocked c.

(** A binding attempt between its two critical sections. *)
Record attempt : Type := mkAttempt {
  am_session : string;
  am_stream : nat;
  am_done : chan;
  am_generation : Z
}.
#[global] Instance attempt_eq_dec : EqDecision attempt.
Proof. solve_decision. Defined.

(** What the first section of a call decides: to return, to wait on a channel
    and start over, or to send. *)
Inductive entered (A : Type) : Type :=
  | Return (res : result go_error unit)
  | Wait (ch : option chan)
  | Send (a : A).
Arguments Return {A}.
Arguments Wait {A}.
Arguments Send {A}.

Definition bind_enter (sessionID : string) (c : paymentSessionClient) : entered attempt * paymentSessionClient :=
  if String.eqb sessionID "" then (Return (Err (Errorf "session id is required")), c) else
  if String.eqb (cl_boundSessionID c) sessionID && bool_decide (is_Some (cl_stream c)) then (Return (Ok tt), c)
  else if String.eqb (cl_bindingSessionID c) sessionID then (Wait (cl_bindingDone c), c)
  else if negb (String.eqb (cl_boundSessionID c) "") && negb (String.eqb (cl_boundSessionID c) sessionID)
  then (Return (Err (Errorf "payment session client already bound to %q")), c)
  else if negb (String.eqb (cl_bindingSessionID c) "") && negb (String.eqb (cl_bindingSessionID c) sessionID)
  then (Return (Err (Errorf "payment session client is currently binding %q")), c)
  else
    let '(stream, c) := ensureStreamLocked c in
    let '(done, c) := match cl_bindingDone c with
                      | Some ch => (ch, c)
                      | None => (cl_next c, c <| cl_bindingDone := Some (cl_next c) |> <| cl_next := S (cl_next c) |>)
                      end in
    (Send (mkAttempt sessionID stream done (cl_streamGeneration c)), c <| cl_bindingSessionID := sessionID |>).

Definition sameStream (stream : nat) (generation : Z) (c : paymentSessionClient) : bool :=
  bool_decide (cl_stream c = Some stream) && (cl_streamGeneration c =? generation).

Definition attemptActive (a : attempt) (c : paymentSessionClient) : bool :=
  bool_decide (cl_bindingDone c = Some (am_done a)) && String.eqb (cl_bindingSessionID c) (am_session a).

Definition clear_binding (c : paymentSessionClient) : paymentSessionClient :=
  finishBindingLocked (c <| cl_bindingSessionID := ""%string |>).

Definition bind_finish (a : attempt) (send_ok : bool) (c : paymentSessionClient) :
    result go_error unit * paymentSessionClient :=
  let same := sameStream (am_stream a) (am_generation a) c in
  let active := attemptActive a c in
  if send_ok then
    if same && active then (Ok tt, clear_binding (c <| cl_boundSessionID := am_session a |>))
    else (Err (Errorf "bind payment session %q: stream changed while binding"),
          if active then clear_binding c else c)
  else
    (Err (Wrapf "bind payment session %q: %w" (Errorf "send failed")),
     if same && active then closeLocked c else if active then clear_binding c else c).

(** A submission between its two critical sections. *)
Record submission : Type := mkSubmitting { sb_stream : nat; sb_generation : Z }.

Definition submit_enter (sessionID : string) (has_rav : bool) (c : paymentSessionClient) : entered submission :=
  if String.eqb sessionID "" then Return (Err (Errorf "session id is required")) else
  if negb has_rav then Return (Err (Errorf "signed RAV is required")) else
  match cl_stream c with
  | Some stream =>
      if String.eqb (cl_boundSessionID c) sessionID then Send (mkSubmitting stream (cl_streamGeneration c))
      else if String.eqb (cl_bindingSessionID c) sessionID then Wait (cl_bindingDone c)
      else if String.eqb (cl_boundSessionID c) "" then Return (Err (Errorf "payment session client is not bound"))
      else Return (Err (Errorf "payment session client is bound to %q, not %q"))
  | None =>
      if String.eqb (cl_bindingSessionID c) sessionID then Wait (cl_bindingDone c)
      else if String.eqb (cl_boundSessionID c) "" then Return (Err (Errorf "payment session client is not bound"))
      else if negb (String.eqb (cl_boundSessionID c) sessionID)
      then Return (Err (Errorf "payment session client is bound to %q, not %q"))
      else Wait None
  end.

Definition submit_finish (s : submission) (send_ok : bool) (c : paymentSessionClient) :
    result go_error unit * paymentSessionClient :=
  if send_ok then (Ok tt, c)
  else (Err (Wrapf "send rav submission for session %q: %w" (Errorf "send failed")),
        if sameStream (sb_stream s) (sb_generation s) c then closeLocked c else c).

(** ** The manager *)

Abbreviation paymentSessionManager := (gmap string paymentSessionClient).

Definition Manager_SetEndpoint (sessionID providerEndpoint : string) (m : paymentSessionManager) :
    paymentSessionManager :=
  if String.eqb sessionID "" || String.eqb providerEndpoint "" then m else
  match m !! sessionID with
  | None => <[sessionID := newPaymentSessionClient providerEndpoint]> m
  | Some client => <[sessionID := Client_SetEndpoint providerEndpoint client]> m
  end.

(** The closed client is no longer in the map; whoever still holds it sees it
    closed. *)
Definition Manager_Close (sessionID : string) (m : paymentSessionManager) :
    option paymentSessionClient * paymentSessionManager :=
  (Client_Close <$> m !! sessionID, delete sessionID m).

(** ** Interleavings *)

Inductive thread : Type :=
  | Binding (a : attempt)
  | Waiting (ch : chan)
  | Submitting (s : submission).

Record world : Type := mkWorld { w_client : paymentSessionClient; w_threads : list thread }.

(** The thread a call leaves behind; a call that finds no channel to wait on
    would spin. *)
Inductive leaves {A} (mk : A -> thread) : entered A -> list thread -> Prop :=
  | leaves_return res : leaves mk (Return res) []
  | leaves_wait ch : leaves mk (Wait (Some ch)) [Waiting ch]
  | leaves_send a : leaves mk (Send a) [mk a].

Inductive step : world -> world -> Prop :=
  | st_bind id c ts new :
      leaves Binding (bind_enter id c).1 new ->
      step (mkWorld c ts) (mkWorld (bind_enter id c).2 (new ++ ts))
  | st_bind_finish a ok c ts1 ts2 :
      step (mkWorld c (ts1 ++ Binding a :: ts2)) (mkWorld (bind_finish a ok c).2 (ts1 ++ ts2))
  | st_submit id has_rav c ts new :
      leaves Submitting (submit_enter id has_rav c) new ->
      step (mkWorld c ts) (mkWorld c (new ++ ts))
  | st_submit_finish s ok c ts1 ts2 :
      step (mkWorld c (ts1 ++ Submitting s :: ts2)) (mkWorld (submit_finish s ok c).2 (ts1 ++ ts2))
  | st_wake ch c ts1 ts2 :
      ch ∈ cl_closed c -> step (mkWorld c (ts1 ++ Waiting ch :: ts2)) (mkWorld c (ts1 ++ ts2))
  | st_endpoint e c ts : step (mkWorld c ts) (mkWorld (Client_SetEndpoint e c) ts)
  | st_close c ts : step (mkWorld c ts) (mkWorld (Client_Close c) ts).

(** ** The invariant *)

Definition attempts (ts : list thread) : list attempt :=
  omap (fun t => match t with Binding a => Some a | _ => None end) ts.

(** An attempt is stale once its channel is closed; until then the client is
    exactly as the attempt left it. *)
Definition current (a : attempt) (c : paymentSessionClient) : Prop :=
  cl_bindingDone c = Some (am_done a) /\ cl_bindingSessionID c = am_session a /\
  cl_stream c = Some (am_stream a) /\ cl_streamGeneration c = am_generation a.

Record inv (c : paymentSessionClient) (ts : list thread) : Prop := {
  v_binding : cl_bindingSessionID c = ""%string <-> cl_bindingDone c = None;
  v_bound : cl_boundSessionID c <> ""%string -> is_Some (cl_stream c) /\ cl_bindingDone c = None;
  v_open ch : cl_bindingDone c = Some ch -> ch ∉ cl_closed c;
  v_panic : cl_panic c = false;
  v_closed ch : ch ∈ cl_closed c -> (ch < cl_next c)%nat;
  v_done ch : cl_bindingDone c = Some ch -> (ch < cl_next c)%nat;
  v_owner ch : cl_bindingDone c = Some ch -> exists a, a ∈ attempts ts /\ am_done a = ch;
  v_attempt a : a ∈ attempts ts -> (am_done a < cl_next c)%nat /\ (am_done a ∈ cl_closed c \/ current a c);
  v_distinct : NoDup (map am_done (attempts ts));
  v_waiting ch : Waiting ch ∈ ts -> ch ∈ cl_closed c \/ cl_bindingDone c = Some ch
}.

Lemma attempts_app ts1 ts2 : attempts (ts1 ++ ts2) = attempts ts1 ++ attempts ts2.
Proof. apply omap_app. Qed.

(** ** What the critical sections do *)

(** The fields of a client after its binding is finished. *)
Lemma finish_fields c :
  let c' := finishBindingLocked c in
  cl_bindingDone c' = None /\ cl_stream c' = cl_stream c /\ cl_boundSessionID c' = cl_boundSessionID c /\
  cl_bindingSessionID c' = cl_bindingSessionID c /\ cl_next c' = cl_next c /\
  (forall ch, ch ∈ cl_closed c' <-> ch ∈ cl_closed c \/ cl_bindingDone c = Some ch) /\
  (cl_panic c' = true -> cl_panic c = true \/ exists ch, cl_bindingDone c = Some ch /\ ch ∈ cl_closed c).
Proof.
  unfold finishBindingLocked, close_chan. destruct (cl_bindingDone c) as [ch|] eqn:E; simpl.
  - split_and!; try done; [set_solver |]. intros [?|?%bool_decide_eq_true]%orb_true_iff; eauto.
  - split_and!; try done; [|auto]. naive_solver.
Qed.

(** Finishing the binding, with or without dropping the stream, keeps the
    invariant whatever the stream and the bound session become, as long as a
    bound session has a stream. *)
Lemma inv_finish c c0 ts :
  inv c ts -> cl_bindingDone c0 = cl_bindingDone c -> cl_closed c0 = cl_closed c -> cl_panic c0 = cl_panic c ->
  cl_next c0 = cl_next c -> cl_bindingSessionID c0 = ""%string ->
  (cl_boundSessionID c0 <> ""%string -> is_Some (cl_stream c0)) ->
  inv (finishBindingLocked c0) ts.
Proof.
  intros I Ed Ec Ep En Eb Hb. destruct (finish_fields c0) as (F1 & F2 & F3 & F4 & F5 & F6 & F7).
  destruct I as [I1 I2 I3 I4 I5 I6 I7 I8 I9 I10]. split; rewrite ?F1, ?F2, ?F3, ?F4, ?F5, ?En; try done; auto.
  - destruct (cl_panic (finishBindingLocked c0)) eqn:E; [|done]. destruct (F7 eq_refl) as [E'|(ch & E1 & E2)].
    + congruence.
    + rewrite Ed in E1. rewrite Ec in E2. by destruct (I3 ch E1).
  - intros ch. rewrite F6, Ec, Ed. intros [?|?]; auto.
  - intros a Ha. destruct (I8 a Ha) as [? [?|(? & _)]]; (split; [done |]); left; apply F6; rewrite ?Ec, ?Ed; auto.
  - intros ch Hw. left. apply F6. rewrite Ec, Ed. auto.
Qed.

Lemma inv_closeLocked c ts : inv c ts -> inv (closeLocked c) ts.
Proof. intros I. unfold closeLocked. by eapply inv_finish. Qed.

(** Dropping a thread that is not the owner of the open binding. *)
Lemma inv_drop c t ts1 ts2 :
  inv c (ts1 ++ t :: ts2) ->
  (forall a, t = Binding a -> cl_bindingDone c <> Some (am_done a)) -> inv c (ts1 ++ ts2).
Proof.
  intros [I1 I2 I3 I4 I5 I6 I7 I8 I9 I10] Hn.
  assert (Hsub : forall a, a ∈ attempts (ts1 ++ ts2) -> a ∈ attempts (ts1 ++ t :: ts2)).
  { intros a. rewrite !attempts_app. unfold attempts at 4. cbn [omap list_omap].
    rewrite !elem_of_app. destruct t; simpl; rewrite ?elem_of_cons; naive_solver. }
  split; auto.
  - intros ch E. destruct (I7 ch E) as (a & Ha & Ed). exists a. split; [|done].
    rewrite attempts_app in *. unfold attempts at 2 in Ha. cbn [omap list_omap] in Ha. fold (attempts ts2) in Ha.
    rewrite elem_of_app in *. destruct t as [a'| |]; [|done..].
    rewrite elem_of_cons in Ha. destruct Ha as [?|[->|?]]; auto. destruct (Hn a' eq_refl). congruence.
  - rewrite attempts_app, map_app in *. unfold attempts at 2 in I9. cbn [omap list_omap] in I9.
    destruct t as [a'| |]; [|done..]. simpl in I9. rewrite list.NoDup_app in *. destruct I9 as (? & Hx & ?%list.NoDup_cons).
    split_and!; [done | | naive_solver]. intros x Hx1 Hx2. apply (Hx x Hx1). by right.
  - intros ch Hw. apply I10. rewrite elem_of_app, elem_of_cons in *. naive_solver.
Qed.

Lemma bind_enter_cases id c :
  match bind_enter id c with
  | (Return _, c') => c' = c
  | (Wait ch, c') => c' = c /\ ch = cl_bindingDone c /\ cl_bindingSessionID c = id /\ id <> ""%string
  | (Send a, c') =>
      id <> ""%string /\ am_session a = id /\ cl_bindingSessionID c = ""%string /\
      (cl_boundSessionID c = ""%string \/ (cl_boundSessionID c = id /\ cl_stream c = None)) /\
      c' = (let c1 := (ensureStreamLocked c).2 in
            match cl_bindingDone c1 with
            | Some ch => c1
            | None => c1 <| cl_bindingDone := Some (cl_next c1) |> <| cl_next := S (cl_next c1) |>
            end) <| cl_bindingSessionID := id |> /\
      cl_bindingDone c' = Some (am_done a) /\ cl_stream c' = Some (am_stream a) /\
      cl_streamGeneration c' = am_generation a
  end.
Proof.
  unfold bind_enter. destruct (String.eqb_spec id ""); [done |].
  destruct (String.eqb_spec (cl_boundSessionID c) id) as [Eb|Eb]; cbn [andb].
  - case_bool_decide as Hs; [done |].
    destruct (String.eqb_spec (cl_bindingSessionID c) id) as [Ei|Ei]; [by split_and!; auto|].
    rewrite andb_false_r. destruct (String.eqb_spec (cl_bindingSessionID c) "") as [Ee|Ee]; cbn [negb andb].
    + unfold ensureStreamLocked. destruct (cl_stream c) eqn:Es; [destruct Hs; eauto |]. simpl.
      destruct (cl_bindingDone c) eqn:Ed; simpl; rewrite ?Ed; split_and!; auto.
    + done.
  - destruct (String.eqb_spec (cl_bindingSessionID c) id) as [Ei|Ei]; [by split_and!; auto|].
    destruct (String.eqb_spec (cl_boundSessionID c) "") as [Ee|Ee]; cbn [negb andb]; [|done].
    destruct (String.eqb_spec (cl_bindingSessionID c) "") as [Ee'|Ee']; cbn [negb andb]; [|done].
    unfold ensureStreamLocked. destruct (cl_stream c) eqn:Es; simpl;
      destruct (cl_bindingDone c) eqn:Ed; simpl; rewrite ?Ed; split_and!; auto.
Qed.

Lemma inv_bind_send id c a c' ts : inv c ts -> bind_enter id c = (Send a, c') -> inv c' (Binding a :: ts).
Proof.
  intros I E. pose proof (bind_enter_cases id c) as Hc. rewrite E in Hc.
  destruct Hc as (Hid & Ha & Eb & Hbound & Ec & Ed & Es & Eg).
  destruct I as [I1 I2 I3 I4 I5 I6 I7 I8 I9 I10].
  assert (Hdone : cl_bindingDone c = None) by (by apply I1).
  assert (Hb : cl_boundSessionID c = ""%string).
  { destruct Hbound as [|[E1 E2]]; [done |]. destruct I2 as [[s Hs] _]; congruence. }
  assert (Hf : exists n, (cl_next c <= n)%nat /\ cl_bindingDone c' = Some n /\ cl_next c' = S n /\
    cl_bindingSessionID c' = id /\ cl_boundSessionID c' = ""%string /\ cl_closed c' = cl_closed c /\ cl_panic c' = cl_panic c).
  { rewrite Ec. unfold ensureStreamLocked. cbv zeta. destruct (cl_stream c); simpl; rewrite Hdone; simpl; eauto 10. }
  destruct Hf as (n & Hn & Hd & Hnx & Hbd & Hbo & Hcl & Hpa). assert (n = am_done a) as -> by congruence.
  assert (Hold : forall x, x ∈ attempts ts -> (am_done x < am_done a)%nat /\ am_done x ∈ cl_closed c).
  { intros x Hx. destruct (I8 x Hx) as [? [?|(? & _)]]; [split; [lia | done] | congruence]. }
  split; rewrite ?Hcl, ?Hnx, ?Hbd, ?Hbo, ?Hpa; try done.
  - rewrite Hd. done.
  - intros ch. rewrite Hd. intros [= <-] Hin. apply I5 in Hin. lia.
  - intros ch Hin. apply I5 in Hin. lia.
  - intros ch. rewrite Hd. intros [= <-]. lia.
  - intros ch. rewrite Hd. intros [= <-]. exists a. split; [apply list_elem_of_here | done].
  - intros x [->|Hx]%elem_of_cons.
    + split; [lia |]. right. unfold current. rewrite Ha. done.
    + destruct (Hold x Hx). split; [lia | by left].
  - simpl. apply list.NoDup_cons. split; [|done]. intros (x & Hx & Hin)%list_elem_of_fmap.
    destruct (Hold x Hin). lia.
  - intros ch [?|Hw]%elem_of_cons; [done |]. destruct (I10 ch Hw) as [?|?]; [by left | congruence].
Qed.

(** An attempt that is still the open one finds the client as it left it. *)
Lemma attempt_active_iff c ts1 a ts2 :
  inv c (ts1 ++ Binding a :: ts2) ->
  (attemptActive a c = true -> current a c /\ sameStream (am_stream a) (am_generation a) c = true) /\
  (attemptActive a c = false -> cl_bindingDone c <> Some (am_done a)).
Proof.
  intros I. destruct (v_attempt _ _ I a) as [_ Hx].
  { rewrite attempts_app. apply elem_of_app. right. unfold attempts. cbn [omap list_omap]. apply list_elem_of_here. }
  unfold attemptActive, sameStream. split.
  - intros [E%bool_decide_eq_true _]%andb_true_iff. destruct Hx as [Hx|Hx].
    + by destruct (v_open _ _ I _ E).
    + split; [done |]. destruct Hx as (_ & _ & -> & ->). rewrite Z.eqb_refl, bool_decide_true; done.
  - intros E Hd. destruct Hx as [Hx|(_ & Hb & _)].
    + by destruct (v_open _ _ I _ Hd).
    + rewrite Hd, Hb, bool_decide_true, String.eqb_refl in E by done. done.
Qed.

Lemma inv_step x y : step x y -> inv (w_client x) (w_threads x) -> inv (w_client y) (w_threads y).
Proof.
  intros Hs I. destruct Hs as [id c ts new Hl|a ok c ts1 ts2|id hr c ts new Hl|s ok c ts1 ts2|ch c ts1 ts2 Hc|e c ts|c ts];
    simpl in *.
  - pose proof (bind_enter_cases id c) as Hb. destruct (bind_enter id c) as [res c'] eqn:E. simpl in *.
    inversion Hl as [r|w|a]; subst; simpl.
    + by subst.
    + destruct Hb as (-> & Hw & _). destruct I as [I1 I2 I3 I4 I5 I6 I7 I8 I9 I10]. split; auto.
      intros ch [[= ->]|?]%elem_of_cons; auto.
    + by eapply inv_bind_send.
  - destruct (attempt_active_iff c ts1 a ts2 I) as [Ha1 Ha2]. unfold bind_finish.
    destruct (attemptActive a c) eqn:Ea.
    + destruct (Ha1 eq_refl) as [Hcur Hsame]. rewrite Hsame. destruct Hcur as (Hd & Hbs & Hst & Hg).
      assert (Hdrop : forall c', cl_bindingDone c' = None -> inv c' (ts1 ++ Binding a :: ts2) -> inv c' (ts1 ++ ts2)).
      { intros c' En I'. eapply inv_drop; [exact I' |]. intros a' _. congruence. }
      destruct ok; simpl; apply Hdrop.
      * apply finish_fields.
      * unfold clear_binding. eapply inv_finish; [exact I | done..|]. intros _. simpl. eauto.
      * apply finish_fields.
      * by apply inv_closeLocked.
    + rewrite andb_false_r. destruct ok; simpl; (eapply inv_drop; [exact I |]; intros a' [= <-]; auto).
  - unfold submit_enter in Hl. inversion Hl as [r|w Hw|sb]; subst; simpl; [done | |].
    + assert (Hw' : cl_bindingDone c = Some w) by (repeat case_match; simplify_eq; done).
      destruct I as [I1 I2 I3 I4 I5 I6 I7 I8 I9 I10]. split; auto. intros ch [[= ->]|?]%elem_of_cons; auto.
    + destruct I as [I1 I2 I3 I4 I5 I6 I7 I8 I9 I10]. split; auto. intros ch [?|?]%elem_of_cons; [done | auto].
  - assert (Hd : inv c (ts1 ++ ts2)) by (eapply inv_drop; [exact I | done]).
    unfold submit_finish. destruct ok; simpl; [done |]. case_match; [by apply inv_closeLocked | done].
  - eapply inv_drop; [exact I | done].
  - unfold Client_SetEndpoint. do 2 (case_match; [done |]). apply inv_closeLocked in I.
    destruct I as [I1 I2 I3 I4 I5 I6 I7 I8 I9 I10]. split; done.
  - by apply inv_closeLocked.
Qed.

Lemma inv_reachable e w : rtc step (mkWorld (newPaymentSessionClient e) []) w -> inv (w_client w) (w_threads w).
Proof.
  intros Hr. assert (I : inv (newPaymentSessionClient e) []).
  { split; simpl; try done; try set_solver. constructor. }
  remember (mkWorld (newPaymentSessionClient e) []) as w0 eqn:E.
  assert (I0 : inv (w_client w0) (w_threads w0)) by (by subst). clear E I.
  induction Hr; eauto using inv_step.
Qed.

(** C22: the payment client is safe under concurrent use: however calls that bind,
    submit, change the endpoint or close interleave, no channel is closed twice,
    a bound session always has its stream, no call ends up spinning or stuck for
    want of a channel to wait on, and every waiter waits on a channel that is
    closed or belongs to a binding attempt still in flight, which closes it when
    its send returns.  A binding attempt reports success only when the client is
    then bound to its session on the very stream it used; an attempt overtaken by
    a close or a change of endpoint fails and leaves the client untouched. *)
Theorem payment_client_safe e w :
  rtc step (mkWorld (newPaymentSessionClient e) []) w ->
  let c := w_client w in
  cl_panic c = false /\
  (cl_boundSessionID c <> ""%string -> is_Some (cl_stream c)) /\
  (forall id, (bind_enter id c).1 <> Wait None /\ forall hr, submit_enter id hr c <> Wait None) /\
  (forall ch, Waiting ch ∈ w_threads w ->
     ch ∈ cl_closed c \/
     exists a, Binding a ∈ w_threads w /\ am_done a = ch /\ forall ok, ch ∈ cl_closed (bind_finish a ok c).2) /\
  (forall a ok, Binding a ∈ w_threads w ->
     match bind_finish a ok c with
     | (Ok _, c') => ok = true /\ cl_boundSessionID c' = am_session a /\ cl_stream c' = Some (am_stream a) /\
                     cl_streamGeneration c' = am_generation a /\ cl_stream c = Some (am_stream a)
     | (Err _, c') => am_done a ∈ cl_closed c -> c' = c
     end).
Proof.
  intros Hr c. pose proof (inv_reachable e w Hr) as I. fold c in I.
  assert (Hact : forall a, Binding a ∈ w_threads w ->
    (attemptActive a c = true -> current a c /\ sameStream (am_stream a) (am_generation a) c = true) /\
    (attemptActive a c = false -> cl_bindingDone c <> Some (am_done a))).
  { intros a (ts1 & ts2 & E)%list_elem_of_split. rewrite E in I. by eapply attempt_active_iff. }
  split_and!.
  - apply I.
  - intros Hb. by apply I.
  - intros id. assert (Hn : cl_bindingSessionID c <> ""%string -> cl_bindingDone c <> None).
    { intros Hx Hd. by apply Hx, (v_binding _ _ I). }
    split.
    + pose proof (bind_enter_cases id c) as Hb. destruct (bind_enter id c) as [[|ch|] c']; try done. simpl.
      destruct Hb as (_ & -> & <- & Hne). intros [= Hx]. by apply (Hn Hne).
    + intros hr. unfold submit_enter. destruct (String.eqb_spec id ""); [done |]. destruct (negb hr); [done |].
      destruct (cl_stream c) eqn:Es.
      * destruct (String.eqb (cl_boundSessionID c) id); [done |].
        destruct (String.eqb_spec (cl_bindingSessionID c) id) as [Ei|]; [intros [= Hx]; apply (Hn ltac:(congruence) Hx) |].
        by case_match.
      * destruct (String.eqb_spec (cl_bindingSessionID c) id) as [Ei|]; [intros [= Hx]; apply (Hn ltac:(congruence) Hx) |].
        destruct (String.eqb_spec (cl_boundSessionID c) ""); [done |].
        destruct (v_bound _ _ I) as [[s Hs] _]; [done | congruence].
  - intros ch Hw. destruct (v_waiting _ _ I ch Hw) as [?|Hd]; [by left | right].
    destruct (v_owner _ _ I ch Hd) as (a & Ha & Ed).
    assert (Hin : Binding a ∈ w_threads w).
    { unfold attempts in Ha. apply list_elem_of_omap in Ha as (t & Ht & Et). destruct t; by simplify_eq. }
    exists a. split_and!; [done | done |]. intros ok. destruct (Hact a Hin) as [H1 H2]. unfold bind_finish.
    destruct (attemptActive a c) eqn:Ea; [|by destruct (H2 eq_refl); rewrite Ed].
    destruct (H1 eq_refl) as [_ ->]. destruct ok; simpl; apply finish_fields; right; exact Hd.
  - intros a ok Hin. destruct (Hact a Hin) as [H1 H2]. unfold bind_finish.
    destruct (attemptActive a c) eqn:Ea.
    + destruct (H1 eq_refl) as [(Hd & Hbs & Hst & Hg) ->]. destruct ok; simpl.
      * destruct (finish_fields (c <| cl_boundSessionID := am_session a |> <| cl_bindingSessionID := ""%string |>))
          as (_ & F2 & F3 & _). unfold clear_binding. rewrite F2, F3. simpl. split_and!; try done.
        unfold finishBindingLocked. simpl. by rewrite Hd.
      * intros Hcl. by destruct (v_open _ _ I _ Hd).
    + rewrite andb_false_r. by destruct ok.
Qed.

Module ClientWitness.
Definition c0 : paymentSessionClient := newPaymentSessionClient "http://provider".
Definition a1 : attempt := mkAttempt "s1" 0 1 0.
Definition c1 : paymentSessionClient := (bind_enter "s1" c0).2.
(** one call binds, a second one for the same session waits for it *)
Definition w2 : world := mkWorld c1 [Waiting 1; Binding a1].
Lemma run : rtc step (mkWorld c0 []) w2.
Proof.
  apply (rtc_l _ _ (mkWorld c1 [Binding a1])).
  - exact (st_bind "s1" c0 [] [Binding a1] (leaves_send Binding a1)).
  - apply rtc_once. exact (st_bind "s1" c1 [Binding a1] [Waiting 1] (leaves_wait Binding 1%nat)).
Qed.
End ClientWitness.

Lemma payment_client_safe_witness :
  cl_panic (w_client ClientWitness.w2) = false /\
  match bind_finish ClientWitness.a1 true (w_client ClientWitness.w2) with
  | (Ok _, c') => cl_boundSessionID c' = "s1"%string
  | (Err _, _) => False
  end.
Proof.
  destruct (payment_client_safe "http://provider" ClientWitness.w2 ClientWitness.run) as (Hp & _ & _ & _ & Hb).
  split; [exact Hp |].
  specialize (Hb ClientWitness.a1 true (list_elem_of_further _ _ _ (list_elem_of_here _ _))).
  exact (proj1 (proj2 Hb)).
Defined.
