(* ===== verification/Oracle.v ===== *)
(** The oracle ([oracle/config.go], [oracle/oracle.go]): the curated catalog of
    providers and canonical prices per network, and the discovery call that
    serves it.

    The YAML decoder is third-party code: [ParseCatalog] takes what it returns.
    The networks of the document are a Go map, so they come as a list of
    key-value pairs in the order in which the loop happens to visit them. *)
From S2P Require Import Prelude.
From S2P Require Import GoStd.
From S2P Require Import External.
From S2P Require Import GRT.
From S2P Require Import Horizon.
From S2P Require Import Proto.
From S2P Require Import Repository.
From S2P Require Import Runtime.
From S2P Require Import Gateway.
From S2P Require Import Endpoint.
From stdpp Require Import sorting.

(** [slices.Sort] on strings: byte order. *)
Definition sort_strings (l : list string) : list string := merge_sort String.le l.

Section Oracle.
Context `{Uint256} `{Eth} `{NetURL}.

Record Provider : Type := mkProvider {
  p_ID : string;
  p_ServiceProvider : address;
  p_ControlPlaneEndpoint : string
}.
(** The zero value, which a missing map key reads as. *)
Definition zeroProvider : Provider := mkProvider "" [] "".

Record DiscoveryResult : Type := mkDiscovery {
  d_Network : string;
  d_Pricing : option PricingConfig;
  d_EligibleProviders : list Provider;
  d_RecommendedProvider : Provider
}.

Record Catalog : Type := mkCatalog { networks : gmap string DiscoveryResult }.

Record rawProviderConfig : Type := mkRawProvider {
  rp_ID : string;
  rp_ServiceProvider : string;
  rp_ControlPlaneEndpoint : string
}.
Record rawNetworkDiscovery : Type := mkRawNetwork {
  rn_Pricing : PricingConfig;
  rn_ProviderIDs : list string;
  rn_PreferredProviderID : string
}.
Record rawCatalog : Type := mkRawCatalog {
  rc_Providers : list rawProviderConfig;
  rc_Networks : list (string * rawNetworkDiscovery)
}.

Definition normalizeEndpoint (raw : string) : result go_error string :=
  let endpoint := TrimSpace raw in
  if String.eqb endpoint "" then Err (Errorf "endpoint is required") else
  let? parsed := url_Parse (with_scheme endpoint) in
  if negb (String.eqb (url_Scheme parsed) "http") && negb (String.eqb (url_Scheme parsed) "https")
  then Err (Errorf "unsupported scheme %q")
  else if String.eqb (TrimSpace (url_Host parsed)) "" then Err (Errorf "missing host")
  else Ok (url_String parsed).

(** The first loop: the provider registry. *)
Fixpoint parse_providers (raws : list rawProviderConfig) (providers : gmap string Provider) :
    result go_error (gmap string Provider) :=
  match raws with
  | [] => Ok providers
  | provider :: rest =>
      let id := TrimSpace (rp_ID provider) in
      if String.eqb id "" then Err (Errorf "provider id is required") else
      match providers !! id with
      | Some _ => Err (Errorf "duplicate provider id %q")
      | None =>
          let? serviceProvider := wrap_err "invalid provider %q <service_provider> %q: %w"
                                    (NewAddress (TrimSpace (rp_ServiceProvider provider))) in
          let? controlPlaneEndpoint := wrap_err "invalid provider %q <control_plane_endpoint>: %w"
                                         (normalizeEndpoint (rp_ControlPlaneEndpoint provider)) in
          parse_providers rest (<[id := mkProvider id serviceProvider controlPlaneEndpoint]> providers)
      end
  end.

(** The loop over the provider ids of one network. *)
Fixpoint parse_provider_ids (providers : gmap string Provider) (raws : list string) (seen : gset string)
    (providerIDs : list string) : result go_error (gset string * list string) :=
  match raws with
  | [] => Ok (seen, providerIDs)
  | rawProviderID :: rest =>
      let providerID := TrimSpace rawProviderID in
      if String.eqb providerID "" then Err (Errorf "network %q contains an empty provider id")
      else if bool_decide (providerID ∈ seen) then Err (Errorf "network %q contains duplicate provider id %q")
      else match providers !! providerID with
           | None => Err (Errorf "network %q references unknown provider id %q")
           | Some _ => parse_provider_ids providers rest ({[providerID]} ∪ seen) (providerIDs ++ [providerID])
           end
  end.

(** One round of the loop over the networks. *)
Definition parse_network (providers : gmap string Provider) (rawNetwork : string) (rawDiscovery : rawNetworkDiscovery) :
    result go_error DiscoveryResult :=
  let network := TrimSpace rawNetwork in
  if String.eqb network "" then Err (Errorf "network key is required") else
  let pricing := rn_Pricing rawDiscovery in
  if GRT_IsZero (PricePerBlock pricing) && GRT_IsZero (PricePerByte pricing)
  then Err (Errorf "network %q pricing must define at least one non-zero price")
  else if (length (rn_ProviderIDs rawDiscovery) =? 0)%nat
  then Err (Errorf "network %q must define at least one provider id")
  else
    let? collected := parse_provider_ids providers (rn_ProviderIDs rawDiscovery) ∅ [] in
    let '(seenProviderIDs, providerIDs) := collected in
    let providerIDs := sort_strings providerIDs in
    let eligibleProviders := map (fun id => default zeroProvider (providers !! id)) providerIDs in
    match eligibleProviders with
    | [] => Err GoPanic
    | recommendedProvider :: _ =>
        let preferredProviderID := TrimSpace (rn_PreferredProviderID rawDiscovery) in
        if String.eqb preferredProviderID ""
        then Ok (mkDiscovery network (Some pricing) eligibleProviders recommendedProvider)
        else if bool_decide (preferredProviderID ∈ seenProviderIDs)
        then Ok (mkDiscovery network (Some pricing) eligibleProviders
                   (default zeroProvider (providers !! preferredProviderID)))
        else Err (Errorf "network %q preferred_provider_id %q is not in provider_ids")
    end.

Fixpoint parse_networks (providers : gmap string Provider) (raws : list (string * rawNetworkDiscovery))
    (nets : gmap string DiscoveryResult) : result go_error (gmap string DiscoveryResult) :=
  match raws with
  | [] => Ok nets
  | (rawNetwork, rawDiscovery) :: rest =>
      let? d := parse_network providers rawNetwork rawDiscovery in
      parse_networks providers rest (<[d_Network d := d]> nets)
  end.

Definition ParseCatalog (unmarshalled : result go_error rawCatalog) : result go_error Catalog :=
  let? raw := wrap_err "parsing oracle config: %w" unmarshalled in
  if (length (rc_Networks raw) =? 0)%nat then Err (Errorf "oracle config must define at least one network") else
  let? providers := parse_providers (rc_Providers raw) ∅ in
  let? nets := parse_networks providers (rc_Networks raw) ∅ in
  Ok (mkCatalog nets).

Definition Discover (c : option Catalog) (network : string) : option DiscoveryResult :=
  match c with None => None | Some c => networks c !! network end.

(** ** The discovery call *)

Record EligibleProvider : Type := mkEligible {
  ep_ProviderId : string;
  ep_ServiceProvider : option PAddress;
  ep_ControlPlaneEndpoint : string
}.
Record DiscoverProvidersResponse : Type := mkDiscoverResp {
  dr_Network : string;
  dr_CanonicalPricing : option PPricingConfig;
  dr_EligibleProviders : list EligibleProvider;
  dr_RecommendedProviderId : string;
  dr_SelectedProvider : option EligibleProvider
}.

Definition providerToProto (provider : Provider) : EligibleProvider :=
  mkEligible (p_ID provider) (AddressFromEth (p_ServiceProvider provider)) (p_ControlPlaneEndpoint provider).

Definition DiscoverProviders (catalog : option Catalog) (reqNetwork : string) :
    result connect_error DiscoverProvidersResponse :=
  let network := TrimSpace reqNetwork in
  if String.eqb network "" then Err (CodeInvalidArgument, ErrorsNew "<network> is required") else
  match Discover catalog network with
  | None => Err (CodeNotFound, ErrorsNew "network not found")
  | Some discovery =>
      Ok (mkDiscoverResp (d_Network discovery) (PricingConfigFromNative (d_Pricing discovery))
            (map providerToProto (d_EligibleProviders discovery)) (p_ID (d_RecommendedProvider discovery))
            (Some (providerToProto (d_RecommendedProvider discovery))))
  end.
End Oracle.

(** ** What a catalog means *)

Section OracleProofs.
Context `{Uint256} `{Eth} `{NetURL}.

(** A provider of the document, with its fields trimmed and parsed. *)
Definition resolves (raw : rawProviderConfig) (p : Provider) : Prop :=
  p_ID p = TrimSpace (rp_ID raw) /\ p_ID p <> ""%string /\
  NewAddress (TrimSpace (rp_ServiceProvider raw)) = Ok (p_ServiceProvider p) /\
  normalizeEndpoint (rp_ControlPlaneEndpoint raw) = Ok (p_ControlPlaneEndpoint p).

Definition registry (ps : list Provider) : gmap string Provider :=
  list_to_map (map (fun p => (p_ID p, p)) ps).

(** The declarative meaning of one network of the document: the eligible
    providers are the listed ones in the order of their ids, and the recommended
    one is the preferred provider or else the first. *)
Record network_entry (ps : list Provider) (key : string) (raw : rawNetworkDiscovery) (d : DiscoveryResult) : Prop := {
  ne_key : d_Network d = TrimSpace key /\ d_Network d <> ""%string;
  ne_priced : GRT_IsZero (PricePerBlock (rn_Pricing raw)) && GRT_IsZero (PricePerByte (rn_Pricing raw)) = false;
  ne_pricing : d_Pricing d = Some (rn_Pricing raw);
  ne_listed : map p_ID (d_EligibleProviders d) ≡ₚ map TrimSpace (rn_ProviderIDs raw);
  ne_sorted : StronglySorted String.le (map p_ID (d_EligibleProviders d));
  ne_distinct : NoDup (map p_ID (d_EligibleProviders d));
  ne_known : Forall (fun p => p ∈ ps) (d_EligibleProviders d);
  ne_recommended : d_RecommendedProvider d ∈ d_EligibleProviders d;
  ne_preferred :
    let preferred := TrimSpace (rn_PreferredProviderID raw) in
    if String.eqb preferred "" then head (d_EligibleProviders d) = Some (d_RecommendedProvider d)
    else p_ID (d_RecommendedProvider d) = preferred
}.

(** The documents that make a catalog: at least one network, well-formed
    providers with distinct ids, and an entry for every network. *)
Definition catalog_of (raw : rawCatalog) (ps : list Provider) (ds : list DiscoveryResult) : Prop :=
  rc_Networks raw <> [] /\ Forall2 resolves (rc_Providers raw) ps /\ NoDup (map p_ID ps) /\
  Forall2 (fun kr d => network_entry ps kr.1 kr.2 d) (rc_Networks raw) ds.

Lemma registry_lookup ps id p :
  NoDup (map p_ID ps) -> registry ps !! id = Some p <-> p ∈ ps /\ p_ID p = id.
Proof.
  intros Hnd. unfold registry. rewrite <- elem_of_list_to_map by (by rewrite map_map).
  rewrite list_elem_of_fmap. naive_solver.
Qed.

Lemma registry_None ps id : id ∉ map p_ID ps -> registry ps !! id = None.
Proof. intros Hn. apply not_elem_of_list_to_map_1. by rewrite <- list_fmap_compose. Qed.

Lemma parse_providers_iff raws m m' :
  parse_providers raws m = Ok m' <->
  exists ps, Forall2 resolves raws ps /\ NoDup (map p_ID ps) /\ Forall (fun p => m !! p_ID p = None) ps /\
    m' = registry ps ∪ m.
Proof.
  revert m. induction raws as [|r raws IH]; intros m; cbn [parse_providers].
  - split.
    + intros [= <-]. exists []. split_and!; [constructor.. |]. exact (eq_sym (map_empty_union m)).
    + intros (ps & ->%Forall2_nil_inv_l & _ & _ & ->). f_equal. exact (eq_sym (map_empty_union m)).
  - split.
    + destruct (String.eqb_spec (TrimSpace (rp_ID r)) "") as [|Hid]; [done |].
      destruct (m !! _) eqn:Em; [done |]. rewrite rbind_Ok. setoid_rewrite wrap_err_Ok. intros (a & Ea & HE).
      apply rbind_Ok in HE as (e & Ee%wrap_err_Ok & (ps & Hrs & Hnd & Hf & ->)%IH).
      set (p := mkProvider _ a e) in *. exists (p :: ps).
      assert (p_ID p ∉ map p_ID ps) as Hn.
      { intros (q & Eq & Hq)%list_elem_of_fmap. rewrite Forall_forall in Hf. specialize (Hf q Hq).
        rewrite <- Eq in Hf. by rewrite lookup_insert_eq in Hf. }
      split_and!.
      * constructor; [done | exact Hrs].
      * by constructor.
      * constructor; [exact Em |]. apply (Forall_impl _ _ _ Hf). intros q Hq.
        by apply lookup_insert_None in Hq as [? _].
      * change (registry (p :: ps)) with (<[p_ID p := p]> (registry ps)).
        rewrite <- insert_union_l, insert_union_r; [done |]. by apply registry_None.
    + intros (ps & (p & ps' & (Ep & Hne & Ea & Ee) & Hrs & ->)%Forall2_cons_inv_l & Hnd & Hf & ->).
      apply Forall_cons in Hf as [Hm Hf]. cbn [map] in Hnd. apply NoDup_cons in Hnd as [Hn Hnd].
      rewrite <- Ep. destruct (String.eqb_spec (p_ID p) ""); [done |]. rewrite Hm, Ea. cbn [wrap_err rbind].
      rewrite Ee. cbn [wrap_err rbind]. apply IH. exists ps'. destruct p as [pid pa pe]. split_and!; [done | done | |].
      * rewrite Forall_forall in *. intros q Hq. rewrite lookup_insert_ne; [by apply Hf |].
        cbn [p_ID] in *. intros Eq. apply Hn. rewrite Eq. by apply list_elem_of_fmap_2.
      * cbn [p_ID p_ServiceProvider p_ControlPlaneEndpoint] in *.
        change (registry (mkProvider pid pa pe :: ps')) with (<[pid := mkProvider pid pa pe]> (registry ps')).
        rewrite <- insert_union_l, insert_union_r; [done |]. by apply registry_None.
Qed.

Lemma parse_provider_ids_iff providers raws seen ids r :
  parse_provider_ids providers raws seen ids = Ok r <->
  NoDup (map TrimSpace raws) /\
  Forall (fun t => t <> ""%string /\ (t ∉ seen) /\ is_Some (providers !! t)) (map TrimSpace raws) /\
  r = ((list_to_set (map TrimSpace raws) ∪ seen : gset string), ids ++ map TrimSpace raws).
Proof.
  revert seen ids. induction raws as [|x raws IH]; intros seen ids; cbn [parse_provider_ids map].
  - rewrite app_nil_r. simpl. rewrite union_empty_l_L. split; [intros [= <-] | intros (_ & _ & ->)]; [|done].
    split_and!; [constructor | constructor | done].
  - set (t := TrimSpace x). rewrite NoDup_cons, Forall_cons.
    destruct (String.eqb_spec t ""); [by split; [|intros (_ & ((? & _) & _) & _)] |].
    case_bool_decide as Hs; [by split; [|intros (_ & ((_ & ? & _) & _) & _)] |].
    destruct (providers !! t) as [p|] eqn:Ep;
      [|split; [done | by intros (_ & ((_ & _ & []) & _) & _)]].
    rewrite IH, <- app_assoc, list_to_set_cons. cbn [app].
    rewrite union_assoc_L, (union_comm_L _ {[t]}).
    split.
    + intros (Hnd & Hf & ->). split_and!; [| done | done | done | by eexists | | done].
      * intros Ht. rewrite Forall_forall in Hf. destruct (Hf t Ht) as (_ & Hn & _). set_solver.
      * apply (Forall_impl _ _ _ Hf). set_solver.
    + intros ((Hn & Hnd) & (_ & Hf) & ->). split_and!; [done | | done].
      rewrite Forall_forall in *. intros y Hy. destruct (Hf y Hy) as (? & ? & ?). split_and!; [done | set_solver | done].
Qed.

Lemma sort_strings_sorted l : StronglySorted String.le (sort_strings l).
Proof. apply StronglySorted_merge_sort; apply _. Qed.
Lemma sort_strings_perm l : sort_strings l ≡ₚ l.
Proof. apply merge_sort_Permutation. Qed.

Section Networks.
Variable ps : list Provider.
Hypothesis ps_distinct : NoDup (map p_ID ps).
Hypothesis ps_named : Forall (fun p => p_ID p <> ""%string) ps.

Definition provider_at (id : string) : Provider := default zeroProvider (registry ps !! id).

Lemma provider_at_spec id : is_Some (registry ps !! id) -> provider_at id ∈ ps /\ p_ID (provider_at id) = id.
Proof.
  intros [p Hp]. unfold provider_at. rewrite Hp. by apply registry_lookup.
Qed.

Lemma registered p : p ∈ ps -> registry ps !! p_ID p = Some p.
Proof. intros Hp. by apply registry_lookup. Qed.

Lemma p_ID_inj p q : p ∈ ps -> q ∈ ps -> p_ID p = p_ID q -> p = q.
Proof. intros Hp%registered Hq%registered E. rewrite E in Hp. congruence. Qed.

Lemma map_provider_at ids :
  Forall (fun t => is_Some (registry ps !! t)) ids ->
  map p_ID (map provider_at ids) = ids /\ Forall (fun p => p ∈ ps) (map provider_at ids).
Proof.
  induction 1 as [|t ids Ht _ [IH1 IH2]]; [done |]. destruct (provider_at_spec t Ht) as [Hp E].
  cbn [map]. rewrite IH1, E. split; [done | by constructor].
Qed.

(** An entry is determined by the document. *)
Lemma network_entry_unique key raw d d' :
  network_entry ps key raw d -> network_entry ps key raw d' -> d = d'.
Proof.
  intros [[Hk _] _ Hpr Hl Hs Hn Hkn Hr Hpf] [[Hk' _] _ Hpr' Hl' Hs' Hn' Hkn' Hr' Hpf'].
  assert (Eids : map p_ID (d_EligibleProviders d) = map p_ID (d_EligibleProviders d')).
  { apply (StronglySorted_unique String.le); [done | done |]. by rewrite Hl, Hl'. }
  assert (Eel : d_EligibleProviders d = d_EligibleProviders d').
  { clear -ps_distinct Eids Hkn Hkn'. revert Eids Hkn'.
    generalize (d_EligibleProviders d') as l'. induction Hkn as [|p l Hp _ IH]; intros [|p' l'] Eids Hkn'; try done.
    apply Forall_cons in Hkn' as [Hp' Hkn']. cbn [map] in Eids. injection Eids as E1 E2.
    f_equal; [by apply p_ID_inj | by apply IH]. }
  assert (Erec : d_RecommendedProvider d = d_RecommendedProvider d').
  { cbv zeta in Hpf, Hpf'. rewrite Eel in Hr, Hpf. destruct (String.eqb _ _); [congruence |].
    rewrite Forall_forall in Hkn'. apply p_ID_inj; [by apply Hkn'.. | congruence]. }
  destruct d, d'. cbn in *. congruence.
Qed.

Lemma parse_network_sound key raw d : parse_network (registry ps) key raw = Ok d -> network_entry ps key raw d.
Proof.
  unfold parse_network. destruct (String.eqb_spec (TrimSpace key) "") as [|Hk]; [done |].
  destruct (GRT_IsZero _ && GRT_IsZero _) eqn:Ez; [done |]. destruct (_ =? 0)%nat; [done |].
  rewrite rbind_Ok. intros (r & (Hnd & Hf & ->)%parse_provider_ids_iff & HE). cbn [app] in HE.
  fold provider_at in HE. set (ts := map TrimSpace (rn_ProviderIDs raw)) in *.
  pose proof (sort_strings_perm ts) as Hperm. pose proof (sort_strings_sorted ts) as Hsort.
  assert (Hknown : Forall (fun t => is_Some (registry ps !! t)) (sort_strings ts)).
  { rewrite Hperm. apply (Forall_impl _ _ _ Hf). tauto. }
  destruct (map_provider_at _ Hknown) as [Eids Hin].
  assert (Hentry : forall rec, rec ∈ map provider_at (sort_strings ts) ->
    (let preferred := TrimSpace (rn_PreferredProviderID raw) in
     if String.eqb preferred "" then head (map provider_at (sort_strings ts)) = Some rec else p_ID rec = preferred) ->
    network_entry ps key raw (mkDiscovery (TrimSpace key) (Some (rn_Pricing raw)) (map provider_at (sort_strings ts)) rec)).
  { intros rec Hrec Hpref. split; cbn [d_Network d_Pricing d_EligibleProviders d_RecommendedProvider];
      rewrite ?Eids; try done; by rewrite Hperm. }
  cbv zeta in Hentry.
  destruct (map provider_at (sort_strings ts)) as [|first rest] eqn:El; [done |].
  destruct (String.eqb_spec (TrimSpace (rn_PreferredProviderID raw)) "") as [E|E] in Hentry, HE.
  - apply Ok_inj in HE as <-. apply Hentry; [left | done].
  - case_bool_decide as Hmem; [|done]. apply Ok_inj in HE as <-. rewrite union_empty_r_L in Hmem.
    apply elem_of_list_to_set in Hmem. rewrite <- Hperm in Hmem. apply Hentry.
    + rewrite <- El. fold (provider_at (TrimSpace (rn_PreferredProviderID raw))). by apply list_elem_of_fmap_2.
    + apply provider_at_spec. rewrite Forall_forall in Hknown. by apply Hknown.
Qed.

Lemma parse_network_complete key raw d : network_entry ps key raw d -> parse_network (registry ps) key raw = Ok d.
Proof.
  intros Hd. pose proof Hd as [[Hk Hkn] Hz Hpr Hl Hs Hn Hin Hr Hpf].
  enough (exists d', parse_network (registry ps) key raw = Ok d') as (d' & E).
  { rewrite E. f_equal. by eapply network_entry_unique; [apply parse_network_sound |]. }
  unfold parse_network. rewrite <- Hk. destruct (String.eqb_spec (d_Network d) ""); [done |]. rewrite Hz.
  assert (Hids : Forall (fun t => t <> ""%string /\ (t ∉ (∅ : gset string)) /\ is_Some (registry ps !! t))
                   (map TrimSpace (rn_ProviderIDs raw))).
  { rewrite <- Hl, Forall_forall. intros t (p & -> & Hp)%list_elem_of_fmap. rewrite !Forall_forall in *.
    specialize (Hin p Hp). split_and!; [by apply ps_named | set_solver | eexists; by apply registered]. }
  destruct (rn_ProviderIDs raw) as [|x xs] eqn:Ex.
  { apply Permutation_nil_r in Hl. destruct (d_EligibleProviders d); [by apply elem_of_nil in Hr | done]. }
  rewrite <- Ex in *. replace (length (rn_ProviderIDs raw) =? 0)%nat with false by (by rewrite Ex).
  assert (exists r, parse_provider_ids (registry ps) (rn_ProviderIDs raw) ∅ [] = Ok r) as [r Er].
  { eexists. apply parse_provider_ids_iff. split_and!; [by rewrite <- Hl | exact Hids | reflexivity]. }
  rewrite Er. apply parse_provider_ids_iff in Er as (_ & _ & ->). cbn [rbind app]. pose proof (sort_strings_perm (map TrimSpace (rn_ProviderIDs raw))) as Hperm.
  destruct (sort_strings _) as [|t ts]; [apply Permutation_nil_l in Hperm; by rewrite Ex in Hperm |]. cbn [map].
  cbv zeta in Hpf.
  destruct (String.eqb_spec (TrimSpace (rn_PreferredProviderID raw)) "") in Hpf |- *; [eauto |].
  rewrite bool_decide_true; [eauto |]. rewrite union_empty_r_L, elem_of_list_to_set, <- Hl, <- Hpf.
  by apply list_elem_of_fmap_2.
Qed.

Lemma parse_networks_iff raws nets nets' :
  parse_networks (registry ps) raws nets = Ok nets' <->
  exists ds, Forall2 (fun kr d => network_entry ps kr.1 kr.2 d) raws ds /\
    nets' = foldl (fun m d => <[d_Network d := d]> m) nets ds.
Proof.
  revert nets. induction raws as [|[k r] raws IH]; intros nets; cbn [parse_networks].
  - split; [intros [= <-]; exists []; split; [constructor | done] | intros (ds & ->%Forall2_nil_inv_l & ->); done].
  - rewrite rbind_Ok. split.
    + intros (d & Hd%parse_network_sound & (ds & Hds & ->)%IH). exists (d :: ds). split; [by constructor | done].
    + intros (ds & (d & ds' & Hd & Hds & ->)%Forall2_cons_inv_l & ->). exists d.
      split; [by apply parse_network_complete | apply IH; eauto].
Qed.
End Networks.

Definition catalog_map (ds : list DiscoveryResult) : gmap string DiscoveryResult :=
  foldl (fun m d => <[d_Network d := d]> m) ∅ ds.

Lemma resolves_named raws ps : Forall2 resolves raws ps -> Forall (fun p => p_ID p <> ""%string) ps.
Proof. induction 1 as [|raw p raws ps (_ & Hp & _) _ IH]; by constructor. Qed.

(** The parser accepts exactly the documents that have a meaning. *)
Lemma ParseCatalog_iff raw c :
  ParseCatalog (Ok raw) = Ok c <-> exists ps ds, catalog_of raw ps ds /\ c = mkCatalog (catalog_map ds).
Proof.
  unfold ParseCatalog, catalog_of. cbn [wrap_err rbind]. split.
  - destruct (Nat.eqb_spec (length (rc_Networks raw)) 0) as [|Hlen]; [done |]. rewrite rbind_Ok.
    intros (m & (ps & Hps & Hnd & _ & ->)%parse_providers_iff & HE). rewrite map_union_empty in HE.
    apply rbind_Ok in HE as (nets & Hn & [= <-]).
    apply parse_networks_iff in Hn as (ds & Hds & ->); [|done | by eapply resolves_named].
    exists ps, ds. split_and!; try done. intros E. by rewrite E in Hlen.
  - intros (ps & ds & (Hne & Hps & Hnd & Hds) & ->). destruct (rc_Networks raw) as [|kr rest] eqn:En; [done |].
    cbn [length Nat.eqb]. rewrite (proj2 (parse_providers_iff (rc_Providers raw) ∅ (registry ps ∪ ∅))).
    + cbn [rbind]. rewrite map_union_empty.
      rewrite (proj2 (parse_networks_iff ps Hnd (resolves_named _ _ Hps) (kr :: rest) ∅ (catalog_map ds))); [done | eauto].
    + exists ps. split_and!; [done | done | by apply Forall_true | done].
Qed.

Lemma catalog_map_snoc ds d : catalog_map (ds ++ [d]) = <[d_Network d := d]> (catalog_map ds).
Proof. unfold catalog_map. by rewrite foldl_app. Qed.

Lemma catalog_map_sound ds net d : catalog_map ds !! net = Some d -> d ∈ ds /\ d_Network d = net.
Proof.
  induction ds as [|x ds IH] using rev_ind; [done |]. rewrite catalog_map_snoc, elem_of_app, list_elem_of_singleton.
  rewrite lookup_insert_Some. intros [[<- ->]|[_ Hd]]; naive_solver.
Qed.

Lemma catalog_map_total ds d : d ∈ ds -> is_Some (catalog_map ds !! d_Network d).
Proof.
  induction ds as [|x ds IH] using rev_ind; [by intros ?%elem_of_nil |]. rewrite catalog_map_snoc.
  rewrite elem_of_app, list_elem_of_singleton, lookup_insert_is_Some'. naive_solver.
Qed.

(** With distinct keys the order of the entries is immaterial. *)
Lemma catalog_map_perm ds ds' : NoDup (map d_Network ds) -> ds ≡ₚ ds' -> catalog_map ds = catalog_map ds'.
Proof.
  intros Hnd Hp. assert (Hinj : forall d d', d ∈ ds -> d' ∈ ds -> d_Network d = d_Network d' -> d = d').
  { clear Hp. induction ds as [|x ds IH]; [intros ?? ?%elem_of_nil; done |]. cbn [map] in Hnd.
    apply NoDup_cons in Hnd as [Hx Hnd]. intros d d' [->|Hd]%elem_of_cons [->|Hd']%elem_of_cons E; [done | | |by apply IH].
    - exfalso. apply Hx. rewrite E. by apply list_elem_of_fmap_2.
    - exfalso. apply Hx. rewrite <- E. by apply list_elem_of_fmap_2. }
  apply map_eq. intros net. apply option_eq. intros d.
  assert (Hone : forall l l', (forall x, x ∈ l -> x ∈ ds) -> (forall x, x ∈ l' -> x ∈ ds) ->
    (forall x, x ∈ l -> x ∈ l') -> catalog_map l !! net = Some d -> catalog_map l' !! net = Some d).
  { intros l l' Hl Hl' Hsub Hd. apply catalog_map_sound in Hd as [Hd <-].
    destruct (catalog_map_total l' d (Hsub d Hd)) as [d' Hd']. rewrite Hd'. f_equal.
    apply catalog_map_sound in Hd' as [Hd' E]. symmetry. apply Hinj; [by apply Hl | by apply Hl' | done]. }
  split; apply Hone; intros x; rewrite <- ?Hp; done.
Qed.

Lemma catalog_keys ps raws ds :
  Forall2 (fun kr d => network_entry ps kr.1 kr.2 d) raws ds ->
  map d_Network ds = map (fun kr => TrimSpace kr.1) raws.
Proof. induction 1 as [|kr d raws ds [[Hk _] _ _ _ _ _ _ _ _] _ IH]; [done |]. cbn [map]. by rewrite Hk, IH. Qed.

(** C27: the oracle's configuration means what it says.  [ParseCatalog] accepts
    exactly the documents that define a network, whose providers have distinct
    non-blank ids, an address and a usable endpoint, and whose networks have a
    price and distinct registered providers, a preferred one among them.  The
    catalog it builds serves exactly the networks of the document, each with its
    price, its providers sorted by id, and as the recommended provider the
    preferred one or else the first; and it does not depend on the order in
    which the map of networks is visited, as long as the keys differ after
    trimming. *)
Theorem ParseCatalog_correct (raw : rawCatalog) :
  (is_ok (ParseCatalog (Ok raw)) = true <-> exists ps ds, catalog_of raw ps ds) /\
  forall c, ParseCatalog (Ok raw) = Ok c ->
    (exists ps ds, catalog_of raw ps ds /\
       (forall net d, Discover (Some c) net = Some d -> d ∈ ds /\ d_Network d = net) /\
       (forall d, d ∈ ds -> is_Some (Discover (Some c) (d_Network d)))) /\
    forall nets', NoDup (map (fun kr => TrimSpace kr.1) (rc_Networks raw)) -> nets' ≡ₚ rc_Networks raw ->
      ParseCatalog (Ok (mkRawCatalog (rc_Providers raw) nets')) = Ok c.
Proof.
  split.
  - split.
    + destruct (ParseCatalog (Ok raw)) as [c|] eqn:E; [|done]. intros _.
      apply ParseCatalog_iff in E as (ps & ds & Hc & _). eauto.
    + intros (ps & ds & Hc). rewrite (proj2 (ParseCatalog_iff raw (mkCatalog (catalog_map ds)))); [done | eauto].
  - intros c (ps & ds & Hc & ->)%ParseCatalog_iff. split.
    + exists ps, ds. split_and!; [done | apply catalog_map_sound | apply catalog_map_total].
    + intros nets' Hnd Hperm. apply ParseCatalog_iff. destruct Hc as (Hne & Hps & Hids & Hds).
      rewrite <- (catalog_keys _ _ _ Hds) in Hnd.
      destruct (Permutation_Forall2 (symmetry Hperm) Hds) as (ds' & Hp & Hds').
      exists ps, ds'. split; [|f_equal; by apply catalog_map_perm].
      unfold catalog_of. cbn [rc_Networks rc_Providers]. split_and!; [|done..].
      intros ->. by apply Permutation_nil_l in Hperm.
Qed.
End OracleProofs.

(** ** Concrete catalogs *)
Module OracleWitness.
Import Reference SimpleURL.

Definition provider_z : rawProviderConfig :=
  mkRawProvider " z " "0x1111111111111111111111111111111111111111" "provider-b.example.com:9001".
Definition provider_a : rawProviderConfig :=
  mkRawProvider "a" "0x2222222222222222222222222222222222222222" "https://provider-a.example.com:9001?insecure=true".
Definition price (n : Z) : PricingConfig := mkPricingConfig (NewGRTFromUint64 n) ZeroGRT.
Definition network (n : Z) (ids : list string) (preferred : string) : rawNetworkDiscovery :=
  mkRawNetwork (price n) ids preferred.
Definition document : rawCatalog :=
  mkRawCatalog [provider_z; provider_a]
    [("mainnet"%string, network 5 ["z"; "a"]%string "z"); (" sepolia"%string, network 1 ["z"; "a"]%string "")].
Definition catalog : Catalog :=
  match ParseCatalog (Ok document) with Ok c => c | Err _ => mkCatalog ∅ end.

Lemma document_ok : is_ok (ParseCatalog (Ok document)) = true.
Proof. vm_compute. reflexivity. Qed.
Lemma document_catalog : ParseCatalog (Ok document) = Ok catalog.
Proof. unfold catalog. pose proof document_ok. by destruct (ParseCatalog (Ok document)). Qed.
Definition recommended (c : Catalog) (net : string) : option string :=
  p_ID ∘ d_RecommendedProvider <$> Discover (Some c) net.
Example recommended_providers :
  (recommended catalog "mainnet", recommended catalog "sepolia", recommended catalog "base") =
  (Some "z", Some "a", None)%string.
Proof. vm_compute. reflexivity. Qed.

(** Two keys that are equal after trimming: whichever is visited last wins, so
    the catalog depends on the iteration order of the map. *)
Definition twice (first second : string * rawNetworkDiscovery) : rawCatalog :=
  mkRawCatalog [provider_z; provider_a] [first; second].
Definition by_z : string * rawNetworkDiscovery := ("mainnet"%string, network 5 ["z"]%string "").
Definition by_a : string * rawNetworkDiscovery := ("mainnet "%string, network 1 ["a"]%string "").
Definition recommends (raw : rawCatalog) (net : string) : result go_error (option string) :=
  match ParseCatalog (Ok raw) with Ok c => Ok (recommended c net) | Err e => Err e end.
Lemma trimmed_keys_collide :
  by_z.1 <> by_a.1 /\
  recommends (twice by_z by_a) "mainnet" = Ok (Some "a"%string) /\
  recommends (twice by_a by_z) "mainnet" = Ok (Some "z"%string).
Proof. split; [done |]. split; vm_compute; reflexivity. Qed.
End OracleWitness.

Import Reference SimpleURL.

Lemma ParseCatalog_correct_witness :
  exists c, is_ok (ParseCatalog (Ok OracleWitness.document)) = true /\
    ParseCatalog (Ok (mkRawCatalog (rc_Providers OracleWitness.document) (rev (rc_Networks OracleWitness.document)))) = Ok c.
Proof.
  exists OracleWitness.catalog. split; [exact OracleWitness.document_ok |].
  refine (proj2 (proj2 (ParseCatalog_correct OracleWitness.document) OracleWitness.catalog OracleWitness.document_catalog) _ _ _).
  - apply (bool_decide_unpack _). vm_compute. exact I.
  - apply perm_swap.
Defined.
