(* ===== verification/Discovery.v ===== *)
(** Network names and provider selection of the consumer sidecar
    ([consumer/sidecar/discovery.go]): the canonical form of a network name, the
    network a request is for, and the provider the oracle names for it.

    A package carries its per-network parameters in a Go map, of which only the
    keys matter here: they come as a list, in the order of the iteration.  Case
    mapping is the one of [GoStd], exact on ASCII text, which network names are. *)
From S2P Require Import Prelude.
From S2P Require Import GoStd.
From S2P Require Import External.
From S2P Require Import GRT.
From S2P Require Import Horizon.
From S2P Require Import Proto.
From S2P Require Import Repository.
From S2P Require Import Runtime.
From S2P Require Import Gateway.
From S2P Require Import Endpoint.
From S2P Require Import Oracle.
From stdpp Require Import list.

(** ** Words of a text *)

(** The number of bytes of the space character at the front, if there is one. *)
Definition space_len (l : chars) : option nat :=
  match first_stripped space_runes l with
  | Some r => Some (length l - length r)%nat
  | None => None
  end.

Definition flush (cur : chars) : list chars := if decide (cur = []) then [] else [cur].

(** [strings.Fields]: [skip] counts the bytes left of a space character, [cur]
    is the word being read. *)
Fixpoint fields (skip : nat) (cur l : chars) : list chars :=
  match l with
  | [] => flush cur
  | c :: l' =>
      match skip with
      | S k => fields k cur l'
      | O => match space_len l with
             | Some n => flush cur ++ fields (n - 1) [] l'
             | None => fields 0 (cur ++ [c]) l'
             end
      end
  end.
Definition Fields (l : chars) : list chars := fields 0 [] l.

(** [strings.Join] and [strings.ReplaceAll] with one-byte arguments. *)
Fixpoint join (sep : ascii) (ws : list chars) : chars :=
  match ws with
  | [] => []
  | [w] => w
  | w :: ws' => w ++ sep :: join sep ws'
  end.
Definition replace_all (old new : ascii) (l : chars) : chars :=
  map (fun c => if ascii_dec c old then new else c) l.

(** ** Network keys *)

Definition networkAliases : gmap string string := list_to_map [
  ("arb", "arbitrum-one"); ("arb-one", "arbitrum-one"); ("arbitrum", "arbitrum-one");
  ("arbitrum-mainnet", "arbitrum-one"); ("arbitrum-one", "arbitrum-one");
  ("base", "base"); ("base-mainnet", "base");
  ("eth", "mainnet"); ("eth-mainnet", "mainnet"); ("ethereum", "mainnet"); ("ethereum-mainnet", "mainnet");
  ("mainnet", "mainnet");
  ("matic", "polygon"); ("matic-mainnet", "polygon"); ("polygon", "polygon"); ("polygon-mainnet", "polygon");
  ("sepolia", "sepolia") ]%string.

Definition normalizeNetworkKey (raw : string) : result go_error string :=
  let network := TrimSpace raw in
  if String.eqb network "" then Ok ""%string else
  let network := ToLower network in
  let network := of_chars (replace_all "_" "-" (to_chars network)) in
  let network := of_chars (join "-" (Fields (to_chars network))) in
  if String.eqb network "" then Err (ErrorsNew "network is required") else
  match networkAliases !! network with
  | Some canonical => Ok canonical
  | None => Ok network
  end.

(** [pbsubstreams.Package], as far as it is read: the top-level network and the
    keys of the map of networks. *)
Record Package : Type := mkPackage { pk_Network : string; pk_Networks : list string }.

Fixpoint normalizePackageNetworks_loop (networks : list string) (normalized : gset string) :
    result go_error (gset string) :=
  match networks with
  | [] => Ok normalized
  | rawNetwork :: rest =>
      if String.eqb (TrimSpace rawNetwork) ""
      then Err (Errorf "invalid <substreams_package.networks[%q]>: network is required") else
      let? network := wrap_err "invalid <substreams_package.networks[%q]>: %w" (normalizeNetworkKey rawNetwork) in
      if bool_decide (network ∈ normalized)
      then Err (Errorf "duplicate normalized <substreams_package.networks> entry %q")
      else normalizePackageNetworks_loop rest ({[network]} ∪ normalized)
  end.
Definition normalizePackageNetworks (networks : list string) : result go_error (gset string) :=
  normalizePackageNetworks_loop networks ∅.

Definition ErrNetworkRequired : go_error := ErrorsNew
  "either <substreams_package.network> or <requested_network> is required when <provider_control_plane_endpoint> is not set".

(** The network the package stands for, "" when it does not say. *)
Definition derive_network (topLevelNetwork requestedNetwork : string) (normalizedNetworks : gset string) :
    result go_error string :=
  match elements normalizedNetworks with
  | [] => Ok topLevelNetwork
  | [network] => Ok network
  | _ =>
      if negb (String.eqb topLevelNetwork "") && bool_decide (topLevelNetwork ∈ normalizedNetworks)
      then Ok topLevelNetwork
      else if negb (String.eqb requestedNetwork "") && bool_decide (requestedNetwork ∈ normalizedNetworks)
      then Ok requestedNetwork
      else Err (Errorf "ambiguous package network metadata: multiple <substreams_package.networks> entries require a matching top-level <substreams_package.network> or <requested_network>")
  end.

Definition resolveRequestedNetwork (pkg : option Package) (requested : string) : result go_error string :=
  let? requestedNetwork := wrap_err "invalid <requested_network>: %w" (normalizeNetworkKey requested) in
  match pkg with
  | None => if negb (String.eqb requestedNetwork "") then Ok requestedNetwork else Err ErrNetworkRequired
  | Some pkg =>
      let? topLevelNetwork := wrap_err "invalid <substreams_package.network>: %w" (normalizeNetworkKey (pk_Network pkg)) in
      let? normalizedNetworks := normalizePackageNetworks (pk_Networks pkg) in
      let? derivedNetwork := derive_network topLevelNetwork requestedNetwork normalizedNetworks in
      if negb (String.eqb derivedNetwork "") then
        if negb (String.eqb requestedNetwork "") && negb (String.eqb derivedNetwork requestedNetwork)
        then Err (Errorf "package-derived network %q conflicts with requested network %q")
        else Ok derivedNetwork
      else if negb (String.eqb requestedNetwork "") then Ok requestedNetwork
      else Err ErrNetworkRequired
  end.

Example normalize_examples :
  map normalizeNetworkKey [" Eth_Mainnet "; "arbitrum   one"; "  "; "My Chain_2"]%string =
  map Ok ["mainnet"; "arbitrum-one"; ""; "my-chain-2"]%string.
Proof. vm_compute. reflexivity. Qed.

(** ** Provider selection *)

Section Selection.
Context `{Uint256} `{Eth} `{NetURL}.

Record initProviderSelection : Type := mkSelection {
  is_ControlPlaneEndpoint : string;
  is_ProviderID : string;
  is_Network : string;
  is_OraclePricing : option PricingConfig;
  is_Receiver : address
}.

(** [discover] is the oracle's [DiscoverProviders] at a URL, on a network. *)
Definition resolveProviderSelection (oracleEndpoint : string)
    (discover : string -> string -> result connect_error DiscoverProvidersResponse)
    (expectedReceiver : option address) (directEndpoint : string) (substreamsPackage : option Package)
    (requestedNetwork : string) : result connect_error initProviderSelection :=
  let endpoint := TrimSpace directEndpoint in
  if negb (String.eqb endpoint "") then
    match expectedReceiver with
    | None => Err (CodeInvalidArgument, ErrorsNew "<receiver> is required when <provider_control_plane_endpoint> is set")
    | Some receiver => Ok (mkSelection endpoint "" "" None receiver)
    end
  else
  let oracleEndpoint := TrimSpace oracleEndpoint in
  if String.eqb oracleEndpoint ""
  then Err (CodeFailedPrecondition, ErrorsNew "consumer sidecar oracle discovery is not configured") else
  match resolveRequestedNetwork substreamsPackage requestedNetwork with
  | Err e => Err (CodeInvalidArgument, e)
  | Ok network =>
    let parsedOracleEndpoint := ParseEndpoint oracleEndpoint in
    if String.eqb (pe_URL parsedOracleEndpoint) ""
    then Err (CodeFailedPrecondition, ErrorsNew "invalid configured oracle endpoint") else
    let? resp := discover (pe_URL parsedOracleEndpoint) network in
    match dr_SelectedProvider resp with
    | None => Err (CodeInternal, ErrorsNew "oracle returned no selected provider")
    | Some selectedProvider =>
      match ep_ServiceProvider selectedProvider with
      | None => Err (CodeInternal, ErrorsNew "oracle selected provider is missing <service_provider>")
      | Some selectedProviderAddr =>
        match Address_ToEth (Some selectedProviderAddr) with
        | Err e => Err (CodeInternal, Wrapf "oracle returned invalid selected provider <service_provider>: %w" e)
        | Ok selectedReceiver =>
          if match expectedReceiver with Some r => negb (AddressesEqual selectedReceiver r) | None => false end
          then Err (CodeInvalidArgument, Errorf "oracle selected provider %q (%s) does not match <receiver> %s") else
          match dr_CanonicalPricing resp with
          | None => Err (CodeInternal, ErrorsNew "oracle returned no canonical pricing")
          | Some oraclePricing =>
            match PricingConfig_ToNative (Some oraclePricing) with
            | None => Err (CodeInternal, ErrorsNew "oracle returned invalid canonical pricing")
            | Some oraclePricingConfig =>
                Ok (mkSelection (ep_ControlPlaneEndpoint selectedProvider) (ep_ProviderId selectedProvider) network
                      (Some oraclePricingConfig) selectedReceiver)
            end
          end
        end
      end
    end
  end.
End Selection.

(** ** Canonical names *)

(** No space character starts inside [w] when [rest] follows it. *)
Fixpoint clean (w rest : chars) : Prop :=
  match w with
  | [] => True
  | _ :: w' => first_stripped space_runes (w ++ rest) = None /\ clean w' rest
  end.

Lemma strip_prefix_Some p l r : GoStd.strip_prefix p l = Some r <-> l = p ++ r.
Proof.
  revert l. induction p as [|a p IH]; intros [|b l]; simpl; [naive_solver.. |].
  destruct (ascii_dec a b) as [<-|]; [rewrite IH; naive_solver | naive_solver].
Qed.

Lemma first_stripped_Some ps l r : first_stripped ps l = Some r -> exists p, p ∈ ps /\ l = p ++ r.
Proof.
  induction ps as [|p ps IH]; simpl; [done |]. destruct (GoStd.strip_prefix p l) as [r'|] eqn:E.
  - intros [= ->]. apply strip_prefix_Some in E. exists p. split; [left | done].
  - intros (q & Hq & ->)%IH. exists q. split; [by right | done].
Qed.

Lemma first_stripped_None ps l : first_stripped ps l = None <-> forall p r, p ∈ ps -> l <> p ++ r.
Proof.
  split.
  - induction ps as [|p ps IH]; simpl; [by intros _ p r ?%elem_of_nil |].
    destruct (GoStd.strip_prefix p l) eqn:E; [done |]. intros Hn q r [->|Hq]%elem_of_cons; [|by apply IH].
    intros Hl%strip_prefix_Some. congruence.
  - intros Hn. destruct (first_stripped ps l) as [r|] eqn:E; [|done].
    apply first_stripped_Some in E as (p & Hp & E). by apply Hn in E.
Qed.

Lemma clean_snoc w c l :
  clean (w ++ [c]) l <-> clean w (c :: l) /\ first_stripped space_runes (c :: l) = None.
Proof.
  induction w as [|a w IH]; cbn [clean app]; [tauto |]. rewrite IH, <- app_assoc. cbn [app]. tauto.
Qed.

Lemma clean_weaken w l : clean w l -> clean w [].
Proof.
  induction w as [|a w IH]; [done |]. intros [Hn Hc]. split; [|by apply IH].
  rewrite first_stripped_None in Hn |- *. intros p r Hp E. apply (Hn p (r ++ l) Hp).
  rewrite app_nil_r in E. by rewrite E, <- app_assoc.
Qed.

(** A space character has no "-" in it, so a "-" ends what it may start in. *)
Lemma space_runes_dash : Forall (fun p => p <> [] /\ "-"%char ∉ p) space_runes.
Proof. apply (bool_decide_unpack _). vm_compute. exact I. Qed.

Lemma clean_dash w l : clean w [] -> clean w ("-"%char :: l).
Proof.
  induction w as [|a w IH]; [done |]. intros [Hn Hc]. split; [|by apply IH].
  rewrite app_nil_r in Hn. rewrite first_stripped_None in Hn |- *. intros p r Hp E.
  pose proof space_runes_dash as HD. rewrite Forall_forall in HD. destruct (HD p Hp) as [_ Hd].
  symmetry in E. destruct (app_eq_inv _ _ _ _ E) as [(k & E1 & E2)|(k & E1 & E2)].
  - destruct k as [|c k]; [rewrite app_nil_r in E1; apply (Hn p [] Hp); by rewrite app_nil_r |].
    apply Hd. rewrite E1. apply elem_of_app. right. injection E2 as -> _. left.
  - by apply (Hn p k).
Qed.

Lemma clean_app_dash w l : clean w [] -> clean l [] -> clean (w ++ "-"%char :: l) [].
Proof.
  intros Hw Hl. apply (clean_dash _ l) in Hw. revert Hw. induction w as [|a w IH]; intros Hw.
  - split; [|done]. rewrite app_nil_r. apply first_stripped_none. reflexivity.
  - destruct Hw as [Hn Hw]. split; [by rewrite app_nil_r | by apply IH].
Qed.

Definition word (P : ascii -> Prop) (w : chars) : Prop := w <> [] /\ clean w [] /\ Forall P w.

Lemma flush_words P cur l : clean cur l -> Forall P cur -> Forall (word P) (flush cur).
Proof.
  intros Hc HP. unfold flush. case_decide; [constructor |]. constructor; [|constructor].
  split_and!; [done | by eapply clean_weaken | done].
Qed.

Lemma fields_words P k cur l : (k = 0%nat /\ clean cur l) \/ cur = [] -> Forall P (cur ++ l) -> Forall (word P) (fields k cur l).
Proof.
  revert k cur. induction l as [|c l IH]; intros k cur Hc HP; cbn [fields].
  - rewrite app_nil_r in HP. apply (flush_words P cur []); [destruct Hc as [[_ ?]| ->]; done | done].
  - apply Forall_app in HP as [HP1 HP2]. pose proof HP2 as [_ HP2']%Forall_cons_1.
    destruct k as [|k].
    + unfold space_len. destruct (first_stripped space_runes (c :: l)) as [r|] eqn:E.
      * apply Forall_app. split; [apply (flush_words P cur (c :: l)); [destruct Hc as [[_ ?]| ->]; done | done] |].
        apply IH; [by right | done].
      * apply IH; [|rewrite <- app_assoc; by apply Forall_app]. left. split; [done |]. apply clean_snoc.
        destruct Hc as [[_ ?]| ->]; done.
    + destruct Hc as [[Hk _]| ->]; [done |]. apply IH; [by right | done].
Qed.

(** ** Normal forms *)

Definition lowered (c : ascii) : Prop := lower_char c = c /\ c <> "_"%char.
#[local] Instance lowered_dec c : Decision (lowered c) := _.

Lemma all_ascii (P : ascii -> Prop) `{!forall c, Decision (P c)} :
  forallb (fun n => bool_decide (P (ascii_of_nat n))) (seq 0 256) = true -> forall c, P c.
Proof.
  rewrite forallb_forall. intros Hall c. rewrite <- (ascii_nat_embedding c).
  assert (nat_of_ascii c ∈ seq 0 256) as Hc by (apply elem_of_seq; pose proof (nat_ascii_bounded c); lia).
  apply list_elem_of_In, Hall, bool_decide_eq_true in Hc. done.
Qed.

Lemma lowered_map l : Forall lowered (replace_all "_" "-" (map lower_char l)).
Proof.
  unfold replace_all. rewrite map_map. apply Forall_fmap, Forall_true. revert l. intros _.
  refine (all_ascii (fun c => lowered (if ascii_dec (lower_char c) "_" then "-"%char else lower_char c)) _).
  vm_compute. reflexivity.
Qed.

Lemma lowered_id l : Forall lowered l -> replace_all "_" "-" (map lower_char l) = l.
Proof.
  induction 1 as [|c l [Hl Hu] _ IH]; [done |]. cbn. unfold replace_all in IH. rewrite IH, Hl.
  by destruct (ascii_dec c "_").
Qed.

Lemma join_words P sep ws : P sep -> Forall (word P) ws -> Forall P (join sep ws).
Proof.
  intros Hs. induction 1 as [|w ws (_ & _ & Hw) Hws IH]; [constructor |]. destruct ws; [done |].
  apply Forall_app. split; [done | by constructor].
Qed.

Lemma join_clean P ws : Forall (word P) ws -> clean (join "-" ws) [].
Proof.
  induction 1 as [|w ws (_ & Hw & _) Hws IH]; [done |]. destruct ws; [done |]. by apply clean_app_dash.
Qed.

Lemma fields_clean l cur : clean l [] -> fields 0 cur l = flush (cur ++ l).
Proof.
  revert cur. induction l as [|c l IH]; intros cur Hc; cbn [fields]; [by rewrite app_nil_r |].
  destruct Hc as [Hn Hc]. unfold space_len. rewrite app_nil_r in Hn. rewrite Hn, IH by done. by rewrite <- app_assoc.
Qed.

Lemma clean_suffix a b : clean (a ++ b) [] -> clean b [].
Proof. induction a as [|c a IH]; [done |]. intros [_ Hc]. by apply IH. Qed.

Lemma trim_space_clean l : clean l [] -> trim_space l = l.
Proof.
  intros Hc. unfold trim_space, trim_space_left, trim_space_right.
  rewrite (trim_left_none space_runes).
  2: { destruct l as [|c l]; [reflexivity |]. destruct Hc as [Hn _]. by rewrite app_nil_r in Hn. }
  rewrite trim_left_none, rev_involutive; [done |]. apply first_stripped_None. intros q r Hq E.
  apply list_elem_of_In, in_map_iff in Hq as (p & <- & Hp%list_elem_of_In).
  apply (f_equal (@rev ascii)) in E. rewrite rev_involutive, rev_app_distr, rev_involutive in E. subst l.
  apply clean_suffix in Hc. pose proof space_runes_dash as HD. rewrite Forall_forall in HD.
  destruct (HD p Hp) as [Hne _]. destruct p as [|c p]; [done |]. destruct Hc as [Hn _].
  rewrite app_nil_r, first_stripped_None in Hn. apply (Hn (c :: p) [] Hp). by rewrite app_nil_r.
Qed.

Lemma trim_left_suffix ps fuel l : exists pre, l = pre ++ trim_left ps fuel l.
Proof.
  revert l. induction fuel as [|fuel IH]; intros l; simpl; [by exists [] |].
  destruct (first_stripped ps l) as [r|] eqn:E; [|by exists []].
  apply first_stripped_Some in E as (p & _ & ->). destruct (IH r) as [pre E]. exists (p ++ pre).
  rewrite <- app_assoc. by rewrite <- E.
Qed.

Lemma trim_left_done ps fuel l :
  Forall (fun p => p <> []) ps -> (length l <= fuel)%nat -> first_stripped ps (trim_left ps fuel l) = None.
Proof.
  intros Hps. revert l. induction fuel as [|fuel IH]; intros l Hl; simpl.
  - destruct l; [|simpl in Hl; lia]. apply first_stripped_None. intros p r Hp E. rewrite Forall_forall in Hps.
    apply (Hps p Hp). by destruct p.
  - destruct (first_stripped ps l) as [r|] eqn:E; [|done]. apply IH.
    apply first_stripped_Some in E as (p & Hp & ->). rewrite Forall_forall in Hps. specialize (Hps p Hp).
    destruct p; [done |]. rewrite length_app in Hl. simpl in Hl. lia.
Qed.

Lemma trim_space_front l : first_stripped space_runes (trim_space l) = None.
Proof.
  unfold trim_space. set (l' := trim_space_left l).
  assert (first_stripped space_runes l' = None) as Hn.
  { apply trim_left_done; [|done]. eapply Forall_impl; [exact space_runes_dash |]. by intros p [? _]. }
  unfold trim_space_right. destruct (trim_left_suffix (map (@rev ascii) space_runes) (length l') (rev l')) as [pre E].
  apply (f_equal (@rev ascii)) in E. rewrite rev_involutive, rev_app_distr in E.
  apply first_stripped_None. rewrite first_stripped_None in Hn. intros p r Hp E'. apply (Hn p (r ++ rev pre) Hp).
  by rewrite E, E', <- app_assoc.
Qed.

Lemma space_runes_nonempty : Forall (fun p => p <> []) space_runes.
Proof. eapply Forall_impl; [exact space_runes_dash |]. by intros p [? _]. Qed.

Lemma trim_space_idem l : trim_space (trim_space l) = trim_space l.
Proof.
  unfold trim_space at 1, trim_space_left. rewrite trim_left_none by apply trim_space_front.
  unfold trim_space_right at 1. rewrite trim_left_none, rev_involutive; [done |].
  unfold trim_space, trim_space_right. rewrite rev_involutive. apply trim_left_done.
  - apply Forall_fmap. eapply Forall_impl; [exact space_runes_nonempty |]. intros p Hp E. apply Hp.
    apply (f_equal (@rev ascii)) in E. by rewrite rev_involutive in E.
  - by rewrite length_rev.
Qed.

Lemma TrimSpace_idem s : TrimSpace (TrimSpace s) = TrimSpace s.
Proof. unfold TrimSpace. by rewrite String.list_ascii_of_string_of_list_ascii, trim_space_idem. Qed.

(** Lower-casing and replacing "_" neither makes nor breaks a space character. *)
Definition canon_char (c : ascii) : ascii := if ascii_dec (lower_char c) "_" then "-"%char else lower_char c.

Lemma canon_char_space : forall c, Forall (fun b => canon_char c = b -> c = b) (concat space_runes).
Proof. refine (all_ascii (fun c => Forall (fun b => canon_char c = b -> c = b) (concat space_runes)) _). vm_compute. reflexivity. Qed.

Lemma canon_front l : first_stripped space_runes l = None -> first_stripped space_runes (map canon_char l) = None.
Proof.
  rewrite !first_stripped_None. intros Hn p r Hp E. apply map_eq_app in E as (l1 & l2 & -> & E1 & _).
  assert (p = l1) as ->.
  { assert (Hb : Forall (fun b => b ∈ concat space_runes) p).
    { apply Forall_forall. intros b Hb. apply list_elem_of_In, in_concat. exists p.
      by split; apply list_elem_of_In. }
    clear Hp Hn. revert l1 E1. induction Hb as [|b p Hb _ IH]; intros [|c l1] E1; try done.
    cbn [map] in E1. injection E1 as Ec E1. f_equal; [|by apply IH]. symmetry.
    pose proof (canon_char_space c) as Hc. rewrite Forall_forall in Hc. by apply Hc. }
  by apply (Hn _ l2 Hp).
Qed.

Lemma fields_nonempty cur l : cur <> [] -> fields 0 cur l <> [].
Proof.
  revert cur. induction l as [|c l IH]; intros cur Hc; cbn [fields].
  - unfold flush. by case_decide.
  - destruct (space_len _); [|apply IH; by destruct cur]. unfold flush. by case_decide.
Qed.

Lemma Fields_nonempty l : l <> [] -> first_stripped space_runes l = None -> Fields l <> [].
Proof.
  destruct l as [|c l]; [done |]. intros _ Hn. unfold Fields. cbn [fields]. unfold space_len. rewrite Hn.
  by apply fields_nonempty.
Qed.

Lemma join_nonempty P sep ws : Forall (word P) ws -> ws <> [] -> join sep ws <> [].
Proof.
  intros Hw Hne. destruct Hw as [|w ws (Hw & _) _]; [done |]. destruct ws; simpl; [done |]. by destruct w.
Qed.

(** The text the name is looked up under. *)
Definition canonical_text (raw : string) : string :=
  of_chars (join "-" (Fields (replace_all "_" "-" (map lower_char (trim_space (to_chars raw)))))).

Lemma of_to_chars s : of_chars (to_chars s) = s.
Proof. apply String.string_of_list_ascii_of_string. Qed.
Lemma to_of_chars l : to_chars (of_chars l) = l.
Proof. apply String.list_ascii_of_string_of_list_ascii. Qed.
Lemma to_chars_nil s : to_chars s = [] <-> s = ""%string.
Proof. by destruct s. Qed.
Lemma of_chars_nil l : of_chars l = ""%string <-> l = [].
Proof. by destruct l. Qed.

Lemma canonical_text_spec raw :
  clean (to_chars (canonical_text raw)) [] /\ Forall lowered (to_chars (canonical_text raw)) /\
  (TrimSpace raw <> ""%string -> canonical_text raw <> ""%string).
Proof.
  unfold canonical_text. rewrite to_of_chars. set (l := trim_space (to_chars raw)).
  assert (Hw : Forall (word lowered) (Fields (replace_all "_" "-" (map lower_char l)))).
  { apply fields_words; [by right | apply lowered_map]. }
  split_and!; [by eapply join_clean | by apply join_words; [|exact Hw] |].
  intros Hne. unfold TrimSpace in Hne. rewrite of_chars_nil in Hne |- *. fold l in Hne.
  eapply join_nonempty; [exact Hw |]. unfold replace_all. rewrite map_map. fold canon_char.
  apply Fields_nonempty; [by destruct l |]. apply canon_front, trim_space_front.
Qed.

(** A text in canonical form stands for itself. *)
Lemma canonical_text_id n :
  clean (to_chars n) [] -> Forall lowered (to_chars n) -> TrimSpace n = n /\ canonical_text n = n.
Proof.
  intros Hc Hl. unfold TrimSpace, canonical_text. rewrite trim_space_clean, lowered_id, of_to_chars by done.
  split; [done |]. unfold Fields. rewrite fields_clean by done. unfold flush. simpl.
  case_decide as E; [|apply of_to_chars]. by apply to_chars_nil in E as ->.
Qed.

Lemma normalizeNetworkKey_eval raw :
  normalizeNetworkKey raw =
  Ok (if String.eqb (TrimSpace raw) "" then "" else default (canonical_text raw) (networkAliases !! canonical_text raw))%string.
Proof.
  unfold normalizeNetworkKey. destruct (String.eqb_spec (TrimSpace raw) "") as [|Hne]; [done |].
  unfold ToLower, TrimSpace in *. rewrite !to_of_chars. fold (canonical_text raw).
  destruct (String.eqb_spec (canonical_text raw) "") as [E|]; [by apply canonical_text_spec in E |].
  by destruct (networkAliases !! _).
Qed.

(** Every alias leads to a name that is canonical and its own alias. *)
Definition canonical (n : string) : Prop :=
  clean (to_chars n) [] /\ Forall lowered (to_chars n) /\ n <> ""%string /\
  default n (networkAliases !! n) = n.
#[local] Instance clean_dec w rest : Decision (clean w rest).
Proof. induction w; simpl; apply _. Defined.
#[local] Instance canonical_dec n : Decision (canonical n) := _.

Lemma aliases_canonical : map_Forall (fun _ n => canonical n) networkAliases.
Proof. apply (bool_decide_unpack _). vm_compute. exact I. Qed.

Definition network_key (raw : string) : string :=
  match normalizeNetworkKey raw with Ok n => n | Err _ => ""%string end.

Lemma normalizeNetworkKey_total raw : normalizeNetworkKey raw = Ok (network_key raw).
Proof. unfold network_key. by rewrite normalizeNetworkKey_eval. Qed.

Lemma network_key_blank raw : TrimSpace raw = ""%string -> network_key raw = ""%string.
Proof. unfold network_key. rewrite normalizeNetworkKey_eval. by intros ->. Qed.

Lemma network_key_canonical raw : TrimSpace raw <> ""%string -> canonical (network_key raw).
Proof.
  intros Hne. unfold network_key. rewrite normalizeNetworkKey_eval.
  destruct (String.eqb_spec (TrimSpace raw) ""); [done |].
  destruct (canonical_text_spec raw) as (Hc & Hl & Hn).
  destruct (networkAliases !! canonical_text raw) as [n'|] eqn:E; simpl.
  - by apply (aliases_canonical _ _ E).
  - split_and!; [done | done | by apply Hn | by rewrite E].
Qed.

Lemma canonical_key n : canonical n -> network_key n = n /\ TrimSpace n = n.
Proof.
  intros (Hc & Hl & Hne & Ha). destruct (canonical_text_id n Hc Hl) as [Ht Hx]. split; [|done].
  unfold network_key. rewrite normalizeNetworkKey_eval, Ht, Hx, Ha. by destruct (String.eqb_spec n "").
Qed.

Lemma network_key_nonblank raw : network_key raw <> ""%string <-> canonical (network_key raw).
Proof.
  split; [|by intros (_ & _ & ? & _)]. intros Hn. apply network_key_canonical. by intros ?%network_key_blank.
Qed.

(** Network names have one canonical form.  Normalisation succeeds on every
    text (its own error branch is dead), yields the empty name only for blank
    text, never changes a name it produced, and yields names without blanks at
    either end, which is how the oracle looks them up. *)
Theorem normalizeNetworkKey_canonical (raw : string) :
  exists n, normalizeNetworkKey raw = Ok n /\ normalizeNetworkKey n = Ok n /\ TrimSpace n = n /\
    (n = ""%string <-> TrimSpace raw = ""%string).
Proof.
  exists (network_key raw). rewrite !normalizeNetworkKey_total.
  destruct (decide (TrimSpace raw = ""%string)) as [E|E].
  - by rewrite (network_key_blank _ E).
  - pose proof (network_key_canonical _ E) as Hc. destruct (canonical_key _ Hc) as [-> ->].
    split_and!; [done.. |]. destruct Hc as (_ & _ & Hne & _). naive_solver.
Qed.

(** ** The network of a request *)

Lemma normalizePackageNetworks_loop_iff ks acc r :
  normalizePackageNetworks_loop ks acc = Ok r <->
  Forall (fun k => TrimSpace k <> ""%string /\ network_key k ∉ acc) ks /\ NoDup (map network_key ks) /\
  r = list_to_set (map network_key ks) ∪ acc.
Proof.
  revert acc. induction ks as [|k ks IH]; intros acc; cbn [normalizePackageNetworks_loop map].
  - simpl. rewrite union_empty_l_L. split; [intros [= ->] | intros (_ & _ & ->)]; [|done].
    split_and!; [constructor | constructor | done].
  - rewrite NoDup_cons, Forall_cons, list_to_set_cons, normalizeNetworkKey_total. cbn [wrap_err rbind].
    destruct (String.eqb_spec (TrimSpace k) ""); [by split; [|intros ((? & _) & _)]; [|tauto] |].
    case_bool_decide as Hin; [by split; [|intros (((_ & ?) & _) & _)] |].
    rewrite IH, (union_assoc_L (list_to_set _)), (union_comm_L _ {[network_key k]}). rewrite !Forall_forall.
    split.
    + intros (Hf & Hnd & ->). split_and!; [done | done | | | done | done].
      * intros x Hx. destruct (Hf x Hx). set_solver.
      * intros (x & E & Hx)%list_elem_of_fmap. destruct (Hf x Hx) as [_ Hx']. rewrite <- E in Hx'. set_solver.
    + intros ((_ & Hf) & (Hk & Hnd) & ->). split_and!; [|done | done]. intros x Hx. destruct (Hf x Hx) as [? ?].
      split; [done |]. apply not_elem_of_union. split; [|done]. rewrite not_elem_of_singleton. intros E.
      apply Hk. rewrite <- E. by apply list_elem_of_fmap_2.
Qed.

(** What a package says about its network: [ks] are its canonical keys, [top]
    its top-level name. *)
Definition stands_for (top requested : string) (ks : list string) (n : string) : Prop :=
  match ks with
  | [] => top = n \/ (top = ""%string /\ requested = n)
  | [k] => k = n
  | _ => n ∈ ks /\ (top = n \/ ((top ∉ ks) /\ requested = n))
  end.

#[global] Instance stands_for_proper top req : Proper ((≡ₚ) ==> eq ==> iff) (stands_for top req).
Proof.
  assert (Himp : forall ks ks' n, ks ≡ₚ ks' -> stands_for top req ks n -> stands_for top req ks' n).
  { intros ks ks' n Hp. destruct ks as [|k [|k' ks]].
    - apply Permutation_nil_l in Hp. by rewrite <- Hp.
    - apply Permutation_singleton_l in Hp. by rewrite Hp.
    - destruct ks' as [|x [|x' ks']]; [by apply Permutation_nil_r in Hp | by apply Permutation_singleton_r in Hp |].
      simpl. rewrite Hp. done. }
  intros ks ks' Hp n _ <-. split; by apply Himp.
Qed.

Lemma derive_network_iff top req ks n :
  NoDup ks -> ~ (""%string ∈ ks) ->
  (derive_network top req (list_to_set ks) = Ok n /\ n <> ""%string /\ (req = ""%string \/ req = n)) \/
  (derive_network top req (list_to_set ks) = Ok ""%string /\ n <> ""%string /\ req = n) <->
  stands_for top req ks n /\ n <> ""%string /\ (req = ""%string \/ req = n).
Proof.
  intros Hnd Hne. pose proof (elements_list_to_set (C := gset string) ks Hnd) as Hp.
  unfold derive_network. destruct ks as [|k [|k' ks]].
  - apply Permutation_nil_r in Hp. rewrite Hp. simpl. naive_solver.
  - apply Permutation_singleton_r in Hp. rewrite Hp. simpl.
    assert (k <> ""%string) by (intros ->; apply Hne; left). naive_solver.
  - set (all := k :: k' :: ks) in *. assert (Hs : forall x, x ∈ (list_to_set all : gset string) <-> x ∈ all)
      by (intros x; apply elem_of_list_to_set).
    destruct (elements _) as [|x [|x' xs]]; [by apply Permutation_nil_l in Hp | by apply Permutation_singleton_l in Hp |].
    unfold all at 2. cbn [stands_for]. fold all.
    destruct (String.eqb_spec top ""), (String.eqb_spec req ""); cbn [negb andb];
      repeat case_bool_decide; rewrite ?Hs in *; naive_solver.
Qed.

Lemma keys_nonempty ks : Forall (fun k => TrimSpace k <> ""%string) ks -> ~ (""%string ∈ map network_key ks).
Proof.
  rewrite Forall_forall. intros Hf (k & E & Hk)%list_elem_of_fmap.
  destruct (network_key_canonical k (Hf k Hk)) as (_ & _ & Hn & _). by rewrite <- E in Hn.
Qed.

Lemma resolve_package_iff top keys requested n :
  resolveRequestedNetwork (Some (mkPackage top keys)) requested = Ok n <->
  Forall (fun k => TrimSpace k <> ""%string) keys /\ NoDup (map network_key keys) /\ n <> ""%string /\
  (network_key requested = ""%string \/ network_key requested = n) /\
  stands_for (network_key top) (network_key requested) (map network_key keys) n.
Proof.
  unfold resolveRequestedNetwork. cbn [pk_Network pk_Networks].
  rewrite !normalizeNetworkKey_total. cbn [wrap_err rbind]. rewrite rbind_Ok. unfold normalizePackageNetworks.
  setoid_rewrite normalizePackageNetworks_loop_iff. split.
  - intros (r & (Hf & Hnd & ->) & HE). rewrite union_empty_r_L in HE.
    assert (Hf' : Forall (fun k => TrimSpace k <> ""%string) keys) by (eapply Forall_impl; [exact Hf | by intros ? []]).
    split; [done |]. split; [done |]. apply rbind_Ok in HE as (d & Hd & HE).
    enough (stands_for (network_key top) (network_key requested) (map network_key keys) n /\ n <> ""%string /\
      (network_key requested = ""%string \/ network_key requested = n)) by tauto.
    apply derive_network_iff; [done | by apply keys_nonempty |]. rewrite Hd.
    destruct (String.eqb_spec d ""), (String.eqb_spec (network_key requested) ""), (String.eqb_spec d (network_key requested));
      simpl in HE; simplify_eq; naive_solver.
  - intros (Hf & Hnd & Hne & Hr & Hs). exists (list_to_set (map network_key keys)). split.
    + rewrite union_empty_r_L. split_and!; [|done | done]. eapply Forall_impl; [exact Hf |]. set_solver.
    + apply rbind_Ok.
      destruct (proj2 (derive_network_iff _ _ _ n Hnd (keys_nonempty _ Hf)) (conj Hs (conj Hne Hr))) as [(Hd & _ & _)|(Hd & _ & Hq)].
      * exists n. rewrite Hd. destruct (String.eqb_spec n ""); [done |]. split; [done |]. simpl.
        destruct (String.eqb_spec (network_key requested) ""), (String.eqb_spec n (network_key requested)); naive_solver.
      * exists ""%string. rewrite Hd, Hq. split; [done |]. simpl. by destruct (String.eqb_spec n "").
Qed.

Lemma resolve_request_iff requested n :
  resolveRequestedNetwork None requested = Ok n <-> network_key requested = n /\ n <> ""%string.
Proof.
  unfold resolveRequestedNetwork. rewrite normalizeNetworkKey_total. cbn [wrap_err rbind].
  destruct (String.eqb_spec (network_key requested) ""); simpl; split; naive_solver.
Qed.

(** The network a request runs on.  With a package the answer is exactly this:
    the keys of the package are non-blank and distinct once canonical, an explicit
    request that differs from the answer is refused, and the answer is the only
    key of the package if it has one, among several keys the top-level name or
    else the requested one, and without keys the top-level name or else the
    requested one; it does not depend on the order of the map of networks.
    Without a package it is the requested name. *)
Theorem resolveRequestedNetwork_exact (top : string) (keys : list string) (requested n : string) :
  (resolveRequestedNetwork (Some (mkPackage top keys)) requested = Ok n <->
   Forall (fun k => TrimSpace k <> ""%string) keys /\ NoDup (map network_key keys) /\ n <> ""%string /\
   (network_key requested = ""%string \/ network_key requested = n) /\
   stands_for (network_key top) (network_key requested) (map network_key keys) n) /\
  (resolveRequestedNetwork None requested = Ok n <-> network_key requested = n /\ n <> ""%string) /\
  forall keys', keys ≡ₚ keys' ->
    resolveRequestedNetwork (Some (mkPackage top keys)) requested = Ok n ->
    resolveRequestedNetwork (Some (mkPackage top keys')) requested = Ok n.
Proof.
  split_and!; [apply resolve_package_iff | apply resolve_request_iff |].
  intros keys' Hp. rewrite !resolve_package_iff. pose proof (Permutation_map network_key Hp) as Hk.
  intros (Hf & Hnd & Hne & Hr & Hs). split_and!; [|by rewrite <- Hk | done | done |].
  - rewrite Forall_forall in *. intros k Hin. apply Hf. by rewrite Hp.
  - by apply (stands_for_proper _ _ _ _ Hk n n eq_refl).
Qed.

Lemma stands_for_canonical top req ks n :
  Forall canonical ks -> n <> ""%string -> (top <> ""%string -> canonical top) -> (req <> ""%string -> canonical req) ->
  stands_for top req ks n -> canonical n.
Proof.
  rewrite Forall_forall. intros Hk Hn Ht Hr. destruct ks as [|k [|k' ks]]; simpl.
  - intros [->|[_ ->]]; auto.
  - intros <-. apply Hk. left.
  - intros [Hin _]. by apply Hk.
Qed.

(** The answer is a canonical name, so the oracle looks up the same text. *)
Lemma resolved_canonical pkg requested n : resolveRequestedNetwork pkg requested = Ok n -> canonical n.
Proof.
  destruct pkg as [[top keys]|].
  - rewrite resolve_package_iff. intros (Hf & _ & Hne & _ & Hs).
    eapply stands_for_canonical; [| exact Hne | | | exact Hs]; [|apply network_key_nonblank..].
    apply Forall_fmap. eapply Forall_impl; [exact Hf |]. apply network_key_canonical.
  - rewrite resolve_request_iff. intros [<- Hne]. by apply network_key_nonblank.
Qed.

Section SelectionProofs.
Context `{Uint256Laws} `{EthLaws} `{NetURL}.

Lemma Forall2_elem_r {A B} (P : A -> B -> Prop) l k y : Forall2 P l k -> y ∈ k -> exists x, x ∈ l /\ P x y.
Proof.
  intros HF [i Hy]%list_elem_of_lookup. destruct (Forall2_lookup_r _ _ _ _ _ HF Hy) as (x & Hx & HP).
  exists x. split; [by eapply list_elem_of_lookup_2 | done].
Qed.

Lemma catalog_entry_facts raw c n d :
  ParseCatalog (Ok raw) = Ok c -> Discover (Some c) n = Some d ->
  is_Some (d_Pricing d) /\ d_RecommendedProvider d ∈ d_EligibleProviders d /\
  length (p_ServiceProvider (d_RecommendedProvider d)) = 20%nat.
Proof.
  intros (ps & ds & (_ & Hps & _ & Hds) & ->)%ParseCatalog_iff [Hd _]%catalog_map_sound.
  destruct (Forall2_elem_r _ _ _ _ Hds Hd) as (kr & _ & [_ _ Hpr _ _ _ Hin Hrec _]).
  split_and!; [rewrite Hpr; eauto | done |]. rewrite Forall_forall in Hin.
  destruct (Forall2_elem_r _ _ _ _ Hps (Hin _ Hrec)) as (rp & _ & (_ & _ & Ha & _)). by eapply NewAddress_length.
Qed.

(** What the sidecar selects is what the oracle's configuration says.  With no
    direct endpoint, a well-formed oracle endpoint and a request that has a
    network, the selection against a parsed catalog succeeds exactly when the
    network is served and the caller's receiver, if given, is the recommended
    provider; it then names that provider's address and endpoint, and carries
    the canonical price unchanged across the wire. *)
Theorem selection_follows_catalog oracleEndpoint raw c (expected : option address) pkg requested n :
  ParseCatalog (Ok raw) = Ok c ->
  TrimSpace oracleEndpoint <> ""%string -> pe_URL (ParseEndpoint (TrimSpace oracleEndpoint)) <> ""%string ->
  resolveRequestedNetwork pkg requested = Ok n ->
  forall sel,
    resolveProviderSelection oracleEndpoint (fun _ net => DiscoverProviders (Some c) net) expected "" pkg requested = Ok sel <->
    exists d, Discover (Some c) n = Some d /\
      let p := d_RecommendedProvider d in
      (expected = None \/ expected = Some (p_ServiceProvider p)) /\ p ∈ d_EligibleProviders d /\
      sel = mkSelection (p_ControlPlaneEndpoint p) (p_ID p) n (d_Pricing d) (p_ServiceProvider p) /\
      is_Some (d_Pricing d).
Proof.
  intros Hc Ho Hu Hn sel. destruct (canonical_key _ (resolved_canonical _ _ _ Hn)) as [_ Ht].
  assert (Hne : n <> ""%string) by apply (resolved_canonical _ _ _ Hn).
  unfold resolveProviderSelection. change (TrimSpace "") with ""%string. cbn [String.eqb negb].
  destruct (String.eqb_spec (TrimSpace oracleEndpoint) ""); [done |]. rewrite Hn.
  destruct (String.eqb_spec (pe_URL (ParseEndpoint (TrimSpace oracleEndpoint))) ""); [done |]. unfold DiscoverProviders. rewrite Ht.
  destruct (String.eqb_spec n ""); [done |].
  destruct (Discover (Some c) n) as [d|] eqn:Ed; [|split; [done | by intros (? & ? & _)]].
  destruct (catalog_entry_facts _ _ _ _ Hc Ed) as ([pr Epr] & Hrec & Hlen).
  cbn [rbind dr_SelectedProvider dr_CanonicalPricing providerToProto ep_ServiceProvider AddressFromEth ep_ControlPlaneEndpoint ep_ProviderId].
  rewrite (Address_ToEth_FromEth _ Hlen : Address_ToEth (Some (mkPAddress _)) = _).
  rewrite Epr. change (Some pr) with (Some pr). pose proof (PricingConfig_roundtrip (Some pr)) as Hpr.
  destruct (PricingConfigFromNative (Some pr)) as [w|] eqn:Ew; [|done]. rewrite Hpr.
  assert (Hm : match expected with Some r => negb (AddressesEqual (p_ServiceProvider (d_RecommendedProvider d)) r) | None => false end = false
          <-> expected = None \/ expected = Some (p_ServiceProvider (d_RecommendedProvider d))).
  { unfold AddressesEqual. destruct expected as [r|]; [|naive_solver]. rewrite negb_false_iff, bool_decide_eq_true. naive_solver. }
  destruct (match expected with Some _ => _ | None => _ end).
  - split; [done |]. intros (d' & [= <-] & Hx & _). by apply Hm in Hx.
  - split; [intros [= <-]; exists d | intros (d' & [= <-] & _ & _ & -> & _); by rewrite Epr]. rewrite Epr. naive_solver.
Qed.
End SelectionProofs.

(** ** Concrete runs *)
Import Reference SimpleURL.

Lemma resolveRequestedNetwork_exact_witness :
  resolveRequestedNetwork (Some (mkPackage "eth" ["sepolia"; "mainnet"]%string)) "Ethereum" = Ok "mainnet"%string /\
  resolveRequestedNetwork (Some (mkPackage "eth" ["mainnet"; "sepolia"]%string)) "Ethereum" = Ok "mainnet"%string.
Proof.
  assert (E : resolveRequestedNetwork (Some (mkPackage "eth" ["sepolia"; "mainnet"]%string)) "Ethereum" = Ok "mainnet"%string)
    by (vm_compute; reflexivity).
  split; [exact E |].
  exact (proj2 (proj2 (resolveRequestedNetwork_exact "eth" ["sepolia"; "mainnet"]%string "Ethereum" "mainnet"))
           ["mainnet"; "sepolia"]%string (perm_swap _ _ _) E).
Defined.

Lemma is_ok_true {E A} (r : result E A) : is_ok r = true -> exists a, r = Ok a.
Proof. destruct r as [a|]; [by exists a | done]. Qed.

Definition selected_provider (r : result connect_error initProviderSelection) : option (string * string) :=
  match r with Ok s => Some (is_ProviderID s, is_ControlPlaneEndpoint s) | Err _ => None end.

Lemma selection_follows_catalog_witness :
  exists d, Discover (Some OracleWitness.catalog) "mainnet" = Some d /\
    selected_provider (resolveProviderSelection "oracle:9000"
      (fun _ net => DiscoverProviders (Some OracleWitness.catalog) net) None "" (Some (mkPackage "eth" [])) "") =
    Some (p_ID (d_RecommendedProvider d), p_ControlPlaneEndpoint (d_RecommendedProvider d)).
Proof.
  assert (Hs : exists sel, resolveProviderSelection "oracle:9000"
    (fun _ net => DiscoverProviders (Some OracleWitness.catalog) net) None "" (Some (mkPackage "eth" [])) "" = Ok sel).
  { apply is_ok_true. vm_compute. reflexivity. }
  destruct Hs as [sel E].
  destruct (proj1 (selection_follows_catalog "oracle:9000" OracleWitness.document OracleWitness.catalog None
    (Some (mkPackage "eth" [])) "" "mainnet" OracleWitness.document_catalog ltac:(vm_compute; discriminate)
    ltac:(vm_compute; discriminate) ltac:(vm_compute; reflexivity) sel) E) as (d & Hd & _ & _ & Hsel & _).
  exists d. split; [exact Hd |]. rewrite E, Hsel. reflexivity.
Defined.
