(* ===== verification/Bootstrap.v ===== *)
(** Opening a session from the consumer's side
    ([consumer/sidecar/managed_session.go], [handler_init.go]): provider
    selection, the initial RAV, the provider's [StartSession], the price ceiling
    and the local session.

    The remote calls are arguments: the oracle's discovery, and the gateway as a
    function on its own state [W], so that the theorems can put the gateway of
    this development in its place. *)
From S2P Require Import Prelude.
From S2P Require Import GoStd.
From S2P Require Import External.
From S2P Require Import GRT.
From S2P Require Import Horizon.
From S2P Require Import Proto.
From S2P Require Import Repository.
From S2P Require Import InMemory.
From S2P Require Import InMemoryProps.
From S2P Require Import Runtime.
From S2P Require Import Gateway.
From S2P Require Import GatewayProps.
From S2P Require Import Consumer.
From S2P Require Import PaymentClient.
From S2P Require Import Endpoint.
From S2P Require Import Oracle.
From S2P Require Import Discovery.

(** The remote calls: the oracle at a URL on a network, a gateway at a URL. *)
Abbreviation Discovering := (string -> string -> result connect_error DiscoverProvidersResponse).
Abbreviation Starting W := (string -> StartSessionRequest -> W -> result connect_error StartSessionResponse * W).

Section Bootstrap.
Context `{Uint256} `{Eth} `{NetURL}.

Record Sidecar : Type := mkSidecar { sc_signer : Signer; sc_oracleEndpoint : string }.

(** What the sidecar's calls change. *)
Record SidecarState : Type := mkSidecarState {
  sd_sessions : gmap string ClientSession;
  sd_paymentSessions : paymentSessionManager
}.

Record sessionBootstrapInput : Type := mkBootstrapInput {
  bi_Payer : address;
  bi_Receiver : option address;
  bi_DataService : address;
  bi_ProviderControlPlaneEndpoint : string;
  bi_SubstreamsPackage : option Package;
  bi_RequestedNetwork : string
}.

Record sessionBootstrapResult : Type := mkBootstrapResult {
  br_LocalSession : ClientSession;
  br_PaymentRAV : option PSignedRAV;
  br_DataPlaneEndpoint : string
}.

(** The request of [StartSession]. *)
Definition start_request (input : sessionBootstrapInput) (receiver : address) (initialRAV : SignedRAV) :
    StartSessionRequest :=
  mkStartReq
    (Some (mkPEscrowAccount (AddressFromEth (bi_Payer input)) (AddressFromEth receiver)
             (AddressFromEth (bi_DataService input))))
    (HorizonSignedRAVToProto (Some initialRAV)).

Definition bootstrapManagedSession {W} (s : Sidecar) (now : time) (discover : Discovering) (start : Starting W)
    (input : sessionBootstrapInput) (st : SidecarState) (w : W) :
    result connect_error sessionBootstrapResult * SidecarState * W :=
  match resolveProviderSelection (sc_oracleEndpoint s) discover (bi_Receiver input)
          (bi_ProviderControlPlaneEndpoint input) (bi_SubstreamsPackage input) (bi_RequestedNetwork input) with
  | Err e => (Err e, st, w)
  | Ok providerSelection =>
    let receiver := is_Receiver providerSelection in
    match signRAV (sc_signer s) (zeros 32) (bi_Payer input) (bi_DataService input) receiver (nano_u64 now) (Some 0) [] with
    | Err e => (Err (CodeInternal, e), st, w)
    | Ok initialRAV =>
      let parsedEndpoint := ParseEndpoint (is_ControlPlaneEndpoint providerSelection) in
      if String.eqb (pe_URL parsedEndpoint) ""
      then (Err (CodeInvalidArgument, ErrorsNew "invalid <provider_control_plane_endpoint>"), st, w) else
      match start (pe_URL parsedEndpoint) (start_request input receiver initialRAV) w with
      | (Err e, w) => (Err (CodeUnavailable, e.2), st, w)
      | (Ok gatewayResp, w) =>
        if negb (sp_Accepted gatewayResp) then
          let reason := TrimSpace (sp_RejectionReason gatewayResp) in
          let reason := if String.eqb reason "" then "provider rejected session"%string else reason in
          (Err (CodeFailedPrecondition, ErrorsNew reason), st, w)
        else
        let sessionID := TrimSpace (sp_SessionId gatewayResp) in
        if String.eqb sessionID ""
        then (Err (CodeInternal, ErrorsNew "provider returned an empty session id"), st, w) else
        let dataPlaneEndpoint := TrimSpace (sp_DataPlaneEndpoint gatewayResp) in
        if String.eqb dataPlaneEndpoint ""
        then (Err (CodeInternal, ErrorsNew "provider returned an empty data-plane endpoint"), st, w) else
        let providerPricingConfig := PricingConfig_ToNative (sp_PricingConfig gatewayResp) in
        match effectiveSessionPricing providerPricingConfig (is_OraclePricing providerSelection) with
        | Err e => (Err (CodeFailedPrecondition, e), st, w)
        | Ok effectivePricingConfig =>
          let useRAV := match sp_UseRav gatewayResp with
                        | None => Ok initialRAV
                        | Some r => match ProtoSignedRAVToHorizon (Some r) with
                                    | Err e => Err (Wrapf "invalid <use_rav> received from provider gateway: %w" e)
                                    | Ok None => Ok initialRAV
                                    | Ok (Some useRAV) => Ok useRAV
                                    end
                        end in
          match useRAV with
          | Err e => (Err (CodeInternal, e), st, w)
          | Ok initialRAV =>
            match CreateWithID now sessionID (bi_Payer input) receiver (bi_DataService input) (sd_sessions st) with
            | (Err e, _) => (Err (CodeInternal, Wrapf "unable to create session: %w" e), st, w)
            | (Ok session, sessions) =>
              let session := SetRAV now (Some initialRAV) session in
              let session := match effectivePricingConfig with
                             | Some _ => Client_SetPricingConfig effectivePricingConfig session
                             | None => session
                             end in
              let st := mkSidecarState (<[sessionID := session]> sessions)
                          (Manager_SetEndpoint sessionID (pe_URL parsedEndpoint) (sd_paymentSessions st)) in
              (Ok (mkBootstrapResult session (HorizonSignedRAVToProto (Some initialRAV)) dataPlaneEndpoint), st, w)
            end
          end
        end
      end
    end
  end.

(** ** Init *)

Record InitRequest : Type := mkInitReq {
  ir_EscrowAccount : option PEscrowAccount;
  ir_ProviderControlPlaneEndpoint : string;
  ir_SubstreamsPackage : option Package;
  ir_RequestedNetwork : string
}.
Record InitResponse : Type := mkInitResp {
  ip_Session : SessionInfo;
  ip_PaymentRav : option PSignedRAV;
  ip_DataPlaneEndpoint : string
}.

(** The checks on the escrow account are the ones of the gateway's
    [StartSession], message by message. *)
Definition Init {W} (s : Sidecar) (now : time) (discover : Discovering) (start : Starting W) (req : InitRequest)
    (st : SidecarState) (w : W) : result connect_error InitResponse * SidecarState * W :=
  match escrow_addresses (mkStartReq (ir_EscrowAccount req) None) with
  | Err e => (Err e, st, w)
  | Ok (payer, receiver, dataService) =>
    match bootstrapManagedSession s now discover start
            (mkBootstrapInput payer (Some receiver) dataService (ir_ProviderControlPlaneEndpoint req)
               (ir_SubstreamsPackage req) (ir_RequestedNetwork req)) st w with
    | (Err e, st, w) => (Err e, st, w)
    | (Ok b, st, w) =>
        (Ok (mkInitResp (ToSessionInfo (br_LocalSession b)) (br_PaymentRAV b) (br_DataPlaneEndpoint b)), st, w)
    end
  end.
End Bootstrap.

Section BootstrapProofs.
Context `{Uint256Laws} `{EthLaws} `{NetURL}.

Lemma CreateWithID_Ok now id payer receiver ds (sm : gmap string ClientSession) s sm' :
  CreateWithID now id payer receiver ds sm = (Ok s, sm') ->
  id <> ""%string /\ sm !! id = None /\ s = NewSessionWithID now id payer receiver ds /\ sm' = <[id := s]> sm.
Proof.
  unfold CreateWithID. destruct (String.eqb_spec id ""); [done |]. destruct (sm !! id); [done |]. by intros [= <- <-].
Qed.

(** The local session of a bootstrap. *)
Definition opened (now : time) (id : string) (payer receiver ds : address) (rav : SignedRAV)
    (pricing : option PricingConfig) : ClientSession :=
  let s := SetRAV now (Some rav) (NewSessionWithID now id payer receiver ds) in
  match pricing with Some _ => Client_SetPricingConfig pricing s | None => s end.

(** Setting prices changes nothing else. *)
Lemma opened_fields now id payer receiver ds rav pricing :
  let s := opened now id payer receiver ds rav pricing in
  c_ID s = id /\ c_Payer s = payer /\ c_Receiver s = receiver /\ c_DataService s = ds /\
  c_CurrentRAV s = Some rav /\ c_State s = SessionStateActive /\ c_PricingConfig s = pricing /\
  Client_UsageDeltaSinceBaseline s = (0, 0, 0, 0) /\ c_TotalCost s = 0.
Proof.
  unfold opened. destruct pricing as [p|]; [|done]. simpl.
  destruct (GRT_IsZero (PricePerBlock p)), (GRT_IsZero (PricePerByte p)); done.
Qed.

(** What a successful bootstrap did. *)
Record bootstrapped (input : sessionBootstrapInput) (sel : initProviderSelection) (st st' : SidecarState)
    (b : sessionBootstrapResult) : Prop := {
  bs_fresh : sd_sessions st !! c_ID (br_LocalSession b) = None /\ c_ID (br_LocalSession b) <> ""%string;
  bs_added : sd_sessions st' = <[c_ID (br_LocalSession b) := br_LocalSession b]> (sd_sessions st);
  bs_others : forall i, i <> c_ID (br_LocalSession b) -> sd_paymentSessions st' !! i = sd_paymentSessions st !! i;
  bs_parties : c_Payer (br_LocalSession b) = bi_Payer input /\ c_Receiver (br_LocalSession b) = is_Receiver sel /\
    c_DataService (br_LocalSession b) = bi_DataService input;
  bs_unused : Client_IsActive (br_LocalSession b) = true /\ c_TotalCost (br_LocalSession b) = 0 /\
    Client_UsageDeltaSinceBaseline (br_LocalSession b) = (0, 0, 0, 0);
  bs_price : forall o, is_OraclePricing sel = Some o -> exists p, c_PricingConfig (br_LocalSession b) = Some p /\
    GRT_BigInt (PricePerBlock p) <= GRT_BigInt (PricePerBlock o) /\
    GRT_BigInt (PricePerByte p) <= GRT_BigInt (PricePerByte o);
  bs_answer : br_PaymentRAV b = HorizonSignedRAVToProto (c_CurrentRAV (br_LocalSession b)) /\
    br_DataPlaneEndpoint b <> ""%string
}.

Lemma bootstrap_effect {W} s now discover (start : Starting W) input st w res st' w' :
  bootstrapManagedSession s now discover start input st w = (res, st', w') ->
  match res with
  | Err _ => st' = st
  | Ok b => exists sel, resolveProviderSelection (sc_oracleEndpoint s) discover (bi_Receiver input)
      (bi_ProviderControlPlaneEndpoint input) (bi_SubstreamsPackage input) (bi_RequestedNetwork input) = Ok sel /\
      bootstrapped input sel st st' b
  end.
Proof.
  unfold bootstrapManagedSession. destruct (resolveProviderSelection _ _ _ _ _ _) as [sel|]; [|by intros [= <- <- _]].
  destruct (signRAV _ _ _ _ _ _ _ _) as [rav0|]; [|by intros [= <- <- _]].
  destruct (String.eqb (pe_URL _) ""); [by intros [= <- <- _] |].
  destruct (start _ _ _) as [[resp|] w1]; [|by intros [= <- <- _]].
  destruct (negb (sp_Accepted resp)); [by intros [= <- <- _] |].
  destruct (String.eqb _ _); [by intros [= <- <- _] |].
  destruct (String.eqb_spec (TrimSpace (sp_DataPlaneEndpoint resp)) "") as [|Hdp]; [by intros [= <- <- _] |].
  destruct (effectiveSessionPricing _ _) as [eff|] eqn:Eeff; [|by intros [= <- <- _]].
  destruct (match sp_UseRav resp with Some _ => _ | None => _ end) as [rav|]; [|by intros [= <- <- _]].
  destruct (CreateWithID _ _ _ _ _ _) as [[cs|] sm] eqn:Ec; [|by intros [= <- <- _]].
  apply CreateWithID_Ok in Ec as (Hid & Hfresh & -> & ->). intros [= <- <- _]. exists sel. split; [done |].
  change (match eff with Some _ => _ | None => _ end) with
    (opened now (TrimSpace (sp_SessionId resp)) (bi_Payer input) (is_Receiver sel) (bi_DataService input) rav eff).
  destruct (opened_fields now (TrimSpace (sp_SessionId resp)) (bi_Payer input) (is_Receiver sel) (bi_DataService input) rav eff)
    as (Ei & Ep & Er & Ed & Erav & Est & Epr & Eu & Et).
  split; cbn [br_LocalSession br_PaymentRAV br_DataPlaneEndpoint sd_sessions sd_paymentSessions];
    unfold Client_IsActive; rewrite ?Ei, ?Ep, ?Er, ?Ed, ?Erav, ?Epr, ?Eu, ?Et, ?Est, ?insert_insert_eq; try done.
  - intros i Hi. unfold Manager_SetEndpoint. destruct (_ || _); [done |]. destruct (sd_paymentSessions st !! TrimSpace (sp_SessionId resp)); by rewrite lookup_insert_ne.
  - intros o Eo. rewrite Eo in Eeff. destruct (effective_le _ _ _ Eeff) as (p & -> & ? & ?). by exists p.
Qed.


(** The voucher a session opens with. *)
Definition opening_rav (input : sessionBootstrapInput) (receiver : address) (now : time) : RAV :=
  mkRAV (zeros 32) (bi_Payer input) receiver (bi_DataService input) (nano_u64 now) (Some 0) [].

Context `{!GlobalRepository R} `{!GlobalRepositoryLaws}.
Implicit Types (g : Gateway R) (cfg : GatewayConfig) (env : Env).

(** The session the gateway stores for it. *)
Definition started cfg env (sid : string) (payer ds : address) (rav : SignedRAV) : Session :=
  MarkBaseline ((NewSession (env_now env) sid payer (gc_serviceProvider cfg) ds
                   (toRepoPricingConfig (gc_pricingConfig cfg))) <| s_CurrentRAV := Some rav |>).

(** ** The consumer and the provider's gateway together *)

Section Agreement.
Variables (s : Sidecar) (now : time) (discover : Discovering) (input : sessionBootstrapInput).
Variables (cfg : GatewayConfig) (env : Env) (sid : string) (sel : initProviderSelection) (eff : option PricingConfig).
Hypothesis selected : resolveProviderSelection (sc_oracleEndpoint s) discover (bi_Receiver input)
  (bi_ProviderControlPlaneEndpoint input) (bi_SubstreamsPackage input) (bi_RequestedNetwork input) = Ok sel.
Hypothesis selected_this : is_Receiver sel = gc_serviceProvider cfg.
Hypothesis reachable : pe_URL (ParseEndpoint (is_ControlPlaneEndpoint sel)) <> ""%string.
Hypothesis addresses : length (bi_Payer input) = 20%nat /\ length (gc_serviceProvider cfg) = 20%nat /\
  length (bi_DataService input) = 20%nat.
Hypothesis same_domain : sg_domain (sc_signer s) = gc_domain cfg.
Hypothesis payer_key : key_address (sg_key (sc_signer s)) = bi_Payer input.
Hypothesis key_signs : forall h, exists sig, key_Sign (sg_key (sc_signer s)) h = Ok sig.
Hypothesis served : TrimSpace (gc_dataPlaneEndpoint cfg) <> ""%string.
Hypothesis proper_id : TrimSpace sid = sid /\ sid <> ""%string.
Hypothesis within_ceiling : effectiveSessionPricing (gc_pricingConfig cfg) (is_OraclePricing sel) = Ok eff.

Let m : RAV := opening_rav input (gc_serviceProvider cfg) now.

Lemma opening_rav_wf : wf_rav m.
Proof.
  destruct addresses as (? & ? & ?). unfold wf_rav, m, opening_rav. simpl.
  split_and!; try done; [apply nano_u64_range.. |]. exists 0. unfold two256. split; [done | lia].
Qed.

Lemma opening_signed :
  exists rav, signRAV (sc_signer s) (zeros 32) (bi_Payer input) (bi_DataService input) (gc_serviceProvider cfg)
      (nano_u64 now) (Some 0) [] = Ok rav /\
    rav = mkSigned (Some m) (Signature rav) /\ length (Signature rav) = 65%nat /\
    RecoverSigner rav (gc_domain cfg) = Ok (bi_Payer input).
Proof.
  destruct (sign_wf_total (sg_domain (sc_signer s)) m _ opening_rav_wf key_signs) as (rav & Hs & Em & Hl & Hr).
  exists rav. rewrite same_domain, payer_key in Hr. split_and!; try done. destruct rav. simpl in *. by subst.
Qed.

(** What the gateway answers to the opening request. *)
Lemma StartSession_eval rav g :
  rav = mkSigned (Some m) (Signature rav) -> length (Signature rav) = 65%nat ->
  RecoverSigner rav (gc_domain cfg) = Ok (bi_Payer input) ->
  StartSession cfg env sid (start_request input (gc_serviceProvider cfg) rav) g =
  match SessionCreate (g_repo g) (env_now env) (Some (started cfg env sid (bi_Payer input) (bi_DataService input) rav)) with
  | (Err e, repo) => (Err (CodeInternal, Wrapf "failed to create session: %w" e), g <| g_repo := repo |>)
  | (Ok _, repo) =>
      (Ok (mkStartResp sid (HorizonSignedRAVToProto (Some rav)) true "" (PricingConfigFromNative (gc_pricingConfig cfg))
             (TrimSpace (gc_dataPlaneEndpoint cfg))), g <| g_repo := repo |>)
  end.
Proof.
  intros Er Hl Hrec. destruct addresses as (Hp & Hs & Hd). unfold StartSession, start_request, escrow_addresses.
  cbn [sr_EscrowAccount sr_InitialRav pea_Payer pea_Receiver pea_DataService AddressFromEth].
  pose proof (fun a => Address_ToEth_FromEth a) as Ha. unfold AddressFromEth in Ha. rewrite !Ha by done.
  unfold AddressesEqual. rewrite bool_decide_true by done. cbn [negb].
  assert (Hw : ProtoSignedRAVToHorizon (HorizonSignedRAVToProto (Some rav)) = Ok (Some rav)).
  { rewrite Er. apply SignedRAV_wire; [apply opening_rav_wf | done]. }
  rewrite Hw. unfold check_initial_rav. rewrite Er at 1. cbn [Message]. rewrite Hrec.
  unfold isSignerAuthorized, AddressesEqual. rewrite bool_decide_true by done.
  unfold m, opening_rav. cbn [rav_Payer rav_ServiceProvider rav_DataService]. rewrite !bool_decide_true by done. cbn [negb].
  fold (started cfg env sid (bi_Payer input) (bi_DataService input) rav).
  destruct (SessionCreate _ _ _) as [[[]|e] repo]; [|done].
  destruct (String.eqb_spec (TrimSpace (gc_dataPlaneEndpoint cfg)) ""); [done |]. done.
Qed.

(** C18: a session opened by the sidecar at this gateway is the same session on
    both sides.  A consumer that holds the payer's key signs an opening RAV of
    value zero; whenever the gateway's repository stores the session, the call
    succeeds, and both sides then hold a session of the same id, parties and
    current RAV, and, when the gateway has a price, charge every usage the same. *)
Theorem bootstrap_agrees (st : SidecarState) g :
  sd_sessions st !! sid = None ->
  exists rav, Message rav = Some (opening_rav input (gc_serviceProvider cfg) now) /\
    RecoverSigner rav (gc_domain cfg) = Ok (bi_Payer input) /\
    (is_ok (SessionCreate (g_repo g) (env_now env)
       (Some (started cfg env sid (bi_Payer input) (bi_DataService input) rav))).1 = true ->
     exists b st' g' cs sv,
       bootstrapManagedSession s now discover (fun _ req g => StartSession cfg env sid req g) input st g = (Ok b, st', g') /\
       sd_sessions st' !! sid = Some cs /\ session_at (g_repo g') sid = Some sv /\
       c_ID cs = s_ID sv /\ c_Payer cs = s_Payer sv /\ c_Receiver cs = s_Receiver sv /\ c_DataService cs = s_DataService sv /\
       c_CurrentRAV cs = Some rav /\ s_CurrentRAV sv = Some rav /\
       (gc_pricingConfig cfg <> None -> forall blocks bytes,
          Client_CalculateUsageCost cs blocks bytes = GRT_BigInt (CalculateUsageCost (s_PricingConfig sv) blocks bytes))).
Proof.
  intros Hfresh. destruct opening_signed as (rav & Hsg & Er & Hl & Hrec). exists rav. split_and!; [by rewrite Er | done |].
  set (sv := started cfg env sid (bi_Payer input) (bi_DataService input) rav). intros Hok.
  pose proof (StartSession_eval rav g Er Hl Hrec) as HS. fold sv in HS.
  pose proof (SessionCreate_law (g_repo g) (env_now env) sv) as Hlaw.
  destruct (SessionCreate _ _ _) as [[[]|e] repo]; [|done]. destruct Hlaw as (_ & Hsv & _).
  set (cs := opened now sid (bi_Payer input) (gc_serviceProvider cfg) (bi_DataService input) rav eff).
  destruct (opened_fields now sid (bi_Payer input) (gc_serviceProvider cfg) (bi_DataService input) rav eff)
    as (Ei & Ep & Ere & Ed & Erav & Est & Epr & Eu & Et). fold cs in Ei, Ep, Ere, Ed, Erav, Est, Epr, Eu, Et.
  eexists (mkBootstrapResult cs (HorizonSignedRAVToProto (Some rav)) (TrimSpace (gc_dataPlaneEndpoint cfg))),
    (mkSidecarState (<[sid := cs]> (sd_sessions st)) _), _, cs, sv. split_and!.
  - unfold bootstrapManagedSession. rewrite selected, selected_this, Hsg.
    destruct (String.eqb_spec (pe_URL (ParseEndpoint (is_ControlPlaneEndpoint sel))) ""); [done |]. rewrite HS.
    cbn [sp_Accepted sp_SessionId sp_DataPlaneEndpoint sp_PricingConfig sp_UseRav negb]. destruct proper_id as [-> Hid].
    destruct (String.eqb_spec sid ""); [done |]. rewrite TrimSpace_idem.
    destruct (String.eqb_spec (TrimSpace (gc_dataPlaneEndpoint cfg)) ""); [done |].
    rewrite PricingConfig_roundtrip, within_ceiling.
    assert (Hw : ProtoSignedRAVToHorizon (HorizonSignedRAVToProto (Some rav)) = Ok (Some rav)).
    { rewrite Er. apply SignedRAV_wire; [apply opening_rav_wf | done]. }
    cbn [HorizonSignedRAVToProto] in Hw |- *. rewrite Hw. unfold CreateWithID.
    destruct (String.eqb_spec sid ""); [done |]. rewrite Hfresh, insert_insert_eq. reflexivity.
  - apply lookup_insert_eq.
  - exact Hsv.
  - exact Ei.
  - exact Ep.
  - exact Ere.
  - exact Ed.
  - exact Erav.
  - done.
  - intros Hpc blocks bytes. unfold Client_CalculateUsageCost. rewrite Epr.
    destruct (gc_pricingConfig cfg) as [pc|] eqn:Epc; [|done].
    assert (eff = Some pc) as ->.
    { unfold effectiveSessionPricing in within_ceiling. destruct (is_OraclePricing sel) as [o|]; [|congruence].
      destruct (GRT_Cmp _ _ >? 0); [done |]. destruct (GRT_Cmp _ _ >? 0); [done | congruence]. }
    unfold sv, started. rewrite Epc. by destruct pc.
Qed.
End Agreement.
End BootstrapProofs.

(** ** Concrete runs *)
Module BootstrapWitness.
Import Reference SimpleURL.

Definition cfg : GatewayConfig := ConsumerWitness.cfg.
Definition env : Env := ConsumerWitness.env.
Definition sidecar : Sidecar := mkSidecar ConsumerWitness.sg "".
Definition no_oracle : Discovering := fun _ _ => Err (CodeUnavailable, Errorf "no oracle").
Definition input : sessionBootstrapInput :=
  mkBootstrapInput ConsumerWitness.payer (Some ConsumerWitness.provider) ConsumerWitness.dataService "provider:9001" None "".
Definition sel : initProviderSelection := mkSelection "provider:9001" "" "" None ConsumerWitness.provider.
Definition st0 : SidecarState := mkSidecarState ∅ ∅.
Definition g0 : Gateway InMemoryRepository := mkGateway NewInMemoryRepository ∅ ∅ ∅.


(** The empty in-memory repository stores the session, whatever the signature. *)
Lemma stores rav :
  Message rav = Some (opening_rav input (gc_serviceProvider cfg) 2000) ->
  is_ok (SessionCreate (g_repo g0) (env_now env)
    (Some (started cfg env "s1" (bi_Payer input) (bi_DataService input) rav))).1 = true.
Proof. destruct rav as [msg sig]. simpl Message. intros ->. vm_compute. reflexivity. Qed.
Lemma signs h : exists sig, key_Sign (sg_key (sc_signer sidecar)) h = Ok sig.
Proof. simpl. eauto. Qed.
Lemma lengths : length (bi_Payer input) = 20%nat /\ length (gc_serviceProvider cfg) = 20%nat /\
  length (bi_DataService input) = 20%nat.
Proof. split_and!; apply fixed_bytes_length. Qed.

Lemma selected_direct : resolveProviderSelection (sc_oracleEndpoint sidecar) no_oracle (bi_Receiver input)
  (bi_ProviderControlPlaneEndpoint input) (bi_SubstreamsPackage input) (bi_RequestedNetwork input) = Ok sel.
Proof. reflexivity. Qed.
Lemma has_url : pe_URL (ParseEndpoint (is_ControlPlaneEndpoint sel)) <> ""%string.
Proof. vm_compute. discriminate. Qed.
Lemma own_key : key_address (sg_key (sc_signer sidecar)) = bi_Payer input.
Proof. reflexivity. Qed.
Lemma has_data_plane : TrimSpace (gc_dataPlaneEndpoint cfg) <> ""%string.
Proof. vm_compute. discriminate. Qed.
Lemma id_ok : TrimSpace "s1" = "s1"%string /\ "s1"%string <> ""%string.
Proof. split; [vm_compute; reflexivity | discriminate]. Qed.
Lemma price_ok : effectiveSessionPricing (gc_pricingConfig cfg) (is_OraclePricing sel) = Ok (gc_pricingConfig cfg).
Proof. reflexivity. Qed.
Lemma fresh : sd_sessions st0 !! "s1"%string = None.
Proof. reflexivity. Qed.

Abbreviation run :=
  (bootstrapManagedSession sidecar 2000 no_oracle (fun _ req g => StartSession cfg env "s1" req g) input st0 g0).
Definition opened_id (x : result connect_error sessionBootstrapResult) : option string :=
  match x with Ok b => Some (c_ID (br_LocalSession b)) | Err _ => None end.
Lemma run_opens : opened_id run.1.1 = Some "s1"%string.
Proof. vm_compute. reflexivity. Qed.
End BootstrapWitness.

Import Reference SimpleURL.


Lemma bootstrap_agrees_witness :
  exists b st' g' cs sv,
    BootstrapWitness.run = (Ok b, st', g') /\ sd_sessions st' !! "s1"%string = Some cs /\
    session_at (g_repo g') "s1" = Some sv /\ c_CurrentRAV cs = s_CurrentRAV sv.
Proof.
  destruct (bootstrap_agrees BootstrapWitness.sidecar 2000 BootstrapWitness.no_oracle BootstrapWitness.input
    BootstrapWitness.cfg BootstrapWitness.env "s1" BootstrapWitness.sel (gc_pricingConfig BootstrapWitness.cfg)
    BootstrapWitness.selected_direct eq_refl BootstrapWitness.has_url BootstrapWitness.lengths eq_refl
    BootstrapWitness.own_key BootstrapWitness.signs BootstrapWitness.has_data_plane BootstrapWitness.id_ok
    BootstrapWitness.price_ok BootstrapWitness.st0 BootstrapWitness.g0 BootstrapWitness.fresh) as (rav & Em & _ & Hagree).
  destruct (Hagree (BootstrapWitness.stores rav Em)) as (b & st' & g' & cs & sv & E & Hcs & Hsv & _ & _ & _ & _ & E1 & E2 & _).
  exists b, st', g', cs, sv. split; [exact E |]. split; [exact Hcs |]. split; [exact Hsv |]. rewrite E1, E2. reflexivity.
Defined.
