(* ===== verification/Ingress.v ===== *)
(** The consumer's stream proxy ([consumer/sidecar/ingress.go]): a Substreams
    stream runs through the sidecar while a second goroutine answers the
    provider's payment control, and a coordinator decides how the stream ends.

    The payment-control goroutine is a step function over what it receives; the
    coordinator's methods are functions on its record, each a critical section of
    its mutex.  A wait is a function of the observations its rounds make (the
    coordinator as it is then, the provider's status, the case its [select]
    takes), so the theorems hold for every interleaving.  A channel that is
    closed and replaced is a counter. *)
From S2P Require Import Prelude.
From S2P Require Import GoStd.
From S2P Require Import External.
From S2P Require Import GRT.
From S2P Require Import Horizon.
From S2P Require Import Proto.
From S2P Require Import Repository.
From S2P Require Import InMemory.
From S2P Require Import InMemoryProps.
From S2P Require Import Runtime.
From S2P Require Import Gateway.
From S2P Require Import GatewayProps.
From S2P Require Import Consumer.
From S2P Require Import PaymentClient.
From S2P Require Import Endpoint.
From S2P Require Import Oracle.
From S2P Require Import Discovery.
From S2P Require Import Bootstrap.

(** ** Errors of a stream *)

(** The gRPC codes the proxy produces or tests for. *)
Inductive grpc_code : Type :=
  | codes_Canceled | codes_Unknown | codes_InvalidArgument | codes_ResourceExhausted | codes_FailedPrecondition
  | codes_Internal | codes_Unavailable.
#[global] Instance grpc_code_eq_dec : EqDecision grpc_code.
Proof. solve_decision. Defined.

(** [io.EOF], the two errors of a context, a gRPC status, a Connect error of the
    sidecar's own calls, or any other error. *)
Inductive stream_error : Type :=
  | EOF
  | Canceled
  | DeadlineExceeded
  | Status (c : grpc_code) (e : go_error)
  | Connect (e : connect_error)
  | OtherError (e : go_error).

(** [status.Code]. *)
Definition status_Code (e : stream_error) : grpc_code :=
  match e with Status c _ => c | _ => codes_Unknown end.

Definition isAmbiguousIngressUpstreamError (err : option stream_error) : bool :=
  match err with
  | None => false
  | Some Canceled => true
  | Some e => match status_Code e with codes_Canceled | codes_Unavailable => true | _ => false end
  end.

(** ** The termination coordinator *)

Inductive ingressControlResultKind : Type :=
  | ingressControlResultNone | ingressControlResultSemanticStop
  | ingressControlResultControlFailure | ingressControlResultCanceled.
#[global] Instance result_kind_eq_dec : EqDecision ingressControlResultKind.
Proof. solve_decision. Defined.

(** [co_cancelled]: the runtime context was cancelled through the coordinator;
    [co_changed]: how often the [changed] channel was closed and replaced. *)
Record ingressTerminationCoordinator : Type := mkCoordinator {
  co_kind : ingressControlResultKind;
  co_err : option stream_error;
  co_cancelled : bool;
  co_pending : bool;
  co_changed : nat
}.
#[global] Instance coordinator_eta : Eta ingressTerminationCoordinator := fun c =>
  mkCoordinator (co_kind c) (co_err c) (co_cancelled c) (co_pending c) (co_changed c).

Definition newIngressTerminationCoordinator : ingressTerminationCoordinator :=
  mkCoordinator ingressControlResultNone None false false 0.

Definition setResult (kind : ingressControlResultKind) (err : option stream_error) (cancelRuntime : bool)
    (c : ingressTerminationCoordinator) : ingressTerminationCoordinator :=
  match err with
  | None => c
  | Some _ =>
      if negb (bool_decide (co_kind c = ingressControlResultNone)) then c
      else
        let c := c <| co_kind := kind |> <| co_err := err |> in
        if cancelRuntime then c <| co_cancelled := true |> else c
  end.

Definition setSemanticStop (err : stream_error) := setResult ingressControlResultSemanticStop (Some err) true.
Definition setControlFailure (err : stream_error) := setResult ingressControlResultControlFailure (Some err) true.
Definition setCanceled := setResult ingressControlResultCanceled (Some Canceled) false.

Definition setPaymentControlPending (pending : bool) (c : ingressTerminationCoordinator) :
    ingressTerminationCoordinator :=
  if Bool.eqb (co_pending c) pending then c
  else c <| co_pending := pending |> <| co_changed := S (co_changed c) |>.

Definition currentError (c : ingressTerminationCoordinator) : option stream_error := co_err c.

(** ** Progress of the stream *)

Record ingressStreamProgress : Type := mkProgress { ig_sawBlock : bool; ig_highestBlock : Z }.

Definition noteBlock (blockNum : Z) (p : ingressStreamProgress) : ingressStreamProgress :=
  mkProgress true (if negb (ig_sawBlock p) || (blockNum >? ig_highestBlock p) then blockNum else ig_highestBlock p).

(** What a response says about blocks: for v2 and v3 the block of its data, for
    v4 a batch of items, each with its clock if it has one; and the last valid
    block of an undo signal. *)
Record StreamResponse : Type := mkStreamResponse {
  re_clocks : list (option Z);
  re_undo : option Z
}.

Definition note_option (b : option Z) (p : ingressStreamProgress) : ingressStreamProgress :=
  match b with Some n => noteBlock n p | None => p end.

Definition observeV2 (resp : option StreamResponse) (p : ingressStreamProgress) : ingressStreamProgress :=
  match resp with
  | None => p
  | Some r => note_option (re_undo r) (note_option (mjoin (head (re_clocks r))) p)
  end.

Definition observeV4 (resp : option StreamResponse) (p : ingressStreamProgress) : ingressStreamProgress :=
  match resp with
  | None => p
  | Some r => note_option (re_undo r) (foldl (fun p item => note_option item p) p (re_clocks r))
  end.

Definition expectedEOF (stopBlockNum : Z) (p : ingressStreamProgress) : bool :=
  if (stopBlockNum =? 0) || negb (ig_sawBlock p) then false
  else wrap_u64 (ig_highestBlock p + 1) >=? stopBlockNum.

(** ** Ambiguous endings *)

(** [None]: not resolved; [Some None]: a clean end. *)
Definition resolveAmbiguousIngressSessionStatus (resp : option GetSessionStatusResponse) :
    option (option stream_error) :=
  match resp with
  | None => None
  | Some resp =>
    if st_Active resp then None else
    match st_EndReason resp with
    | END_REASON_COMPLETE | END_REASON_CLIENT_DISCONNECT => Some None
    | END_REASON_PAYMENT_ISSUE => Some (Some (Status codes_ResourceExhausted (ErrorsNew "need more funds")))
    | END_REASON_PROVIDER_STOP =>
        Some (Some (Status codes_Unavailable (ErrorsNew "provider session terminated with end reason provider stop")))
    | END_REASON_ERROR =>
        Some (Some (Status codes_Unavailable (ErrorsNew "provider session terminated with end reason error")))
    | END_REASON_UNSPECIFIED =>
        Some (Some (Status codes_Unavailable (Errorf "provider session terminated with end reason %s")))
    end
  end.

(** The case a [select] takes. *)
Inductive select_case : Type := ClientDone | DeadlineDone | PendingChanged | Ticked | ControlDone.

(** One round of a wait: the coordinator when the round starts, the answer of the
    status call, the case taken, the client's context error, and the coordinator
    after the [select]. *)
Record poll : Type := mkPoll {
  po_before : ingressTerminationCoordinator;
  po_status : result go_error GetSessionStatusResponse;
  po_select : select_case;
  po_ctx_err : stream_error;
  po_after : ingressTerminationCoordinator
}.

(** The [select] of a round: the error the wait gives up with, if it does.  A
    result the coordinator has by then comes first. *)
Definition select_verdict (failed timedOut : string) (lastStatusErr : option go_error) (p : poll) :
    option stream_error :=
  match po_select p with
  | ClientDone => Some match currentError (po_after p) with Some e => e | None => po_ctx_err p end
  | DeadlineDone =>
      Some match currentError (po_after p) with
           | Some e => e
           | None => match lastStatusErr with
                     | Some _ => Status codes_Unavailable (Errorf failed)
                     | None => Status codes_Unavailable (Errorf timedOut)
                     end
           end
  | PendingChanged | Ticked | ControlDone => None
  end.

(** A wait's answer: [None] while it waits, [Some None] for nil. *)
Fixpoint awaitFiniteIngressPostStreamControl (lastStatusErr : option go_error) (polls : list poll) :
    option (option stream_error) :=
  match polls with
  | [] => None
  | p :: rest =>
    match currentError (po_before p) with
    | Some e => Some (Some e)
    | None =>
      let localPending := co_pending (po_before p) in
      let select lastStatusErr :=
        match select_verdict
                "finite upstream Substreams stream ended before provider payment control status resolved the session: %v"
                "finite upstream Substreams stream ended while provider payment control remained pending for %s"
                lastStatusErr p with
        | Some e => Some (Some e)
        | None => awaitFiniteIngressPostStreamControl lastStatusErr rest
        end in
      match po_status p with
      | Ok statusResp =>
          match resolveAmbiguousIngressSessionStatus (Some statusResp) with
          | Some resolvedErr => Some resolvedErr
          | None => if negb localPending && negb (st_PaymentControlPending statusResp) then Some None
                    else select lastStatusErr
          end
      | Err err => select (Some err)
      end
    end
  end.

Fixpoint awaitAmbiguousIngressTerminationResolution (lastStatusErr : option go_error) (polls : list poll) :
    option (option stream_error) :=
  match polls with
  | [] => None
  | p :: rest =>
    match currentError (po_before p) with
    | Some e => Some (Some e)
    | None =>
      let select lastStatusErr :=
        match select_verdict
                "upstream Substreams stream terminated before provider session status resolved the session: %v"
                "upstream Substreams stream terminated before provider session status resolved the session within %s"
                lastStatusErr p with
        | Some e => Some (Some e)
        | None => awaitAmbiguousIngressTerminationResolution lastStatusErr rest
        end in
      match po_status p with
      | Ok statusResp =>
          match resolveAmbiguousIngressSessionStatus (Some statusResp) with
          | Some resolvedErr => Some resolvedErr
          | None => select lastStatusErr
          end
      | Err err => select (Some err)
      end
    end
  end.

(** How a stream ends.  [first], [later] are the coordinator at the two places it
    is read, [client_done] and [runtime_done] whether the contexts have ended,
    [configured] whether the payment client is still registered, and [polls] the
    rounds of a wait. *)
Definition not_configured : stream_error :=
  Status codes_Unavailable (ErrorsNew "provider payment session client is not configured").

Definition resolveIngressStreamTermination (upstreamErr : stream_error) (expected : bool)
    (first later : ingressTerminationCoordinator) (client_done runtime_done configured : bool) (polls : list poll) :
    option (option stream_error) :=
  match currentError first with
  | Some e => Some (Some e)
  | None =>
    let finite := if configured then awaitFiniteIngressPostStreamControl None polls else Some (Some not_configured) in
    let ambiguous := match currentError later with
                     | Some e => Some (Some e)
                     | None => if configured then awaitAmbiguousIngressTerminationResolution None polls
                               else Some (Some not_configured)
                     end in
    match upstreamErr with
    | EOF => if expected then finite else ambiguous
    | _ =>
      if negb client_done && (runtime_done || isAmbiguousIngressUpstreamError (Some upstreamErr)) then ambiguous
      else match currentError later with
           | Some e => Some (Some e)
           | None => Some (Some upstreamErr)
           end
    end
  end.

(** ** Payment control *)

Section Control.
Context `{Uint256} `{Eth} `{NetURL}.

(** What the goroutine owns, and the coordinator it reports to. *)
Record control : Type := mkControl {
  ct_session : ClientSession;
  ct_pendingRAV : option SignedRAV;
  ct_coord : ingressTerminationCoordinator
}.
#[global] Instance control_eta : Eta control := fun c =>
  mkControl (ct_session c) (ct_pendingRAV c) (ct_coord c).

(** What [client.Receive] returns: an error, with the state of the context then,
    a message without a known body, or a message. *)
Inductive received : Type :=
  | RecvError (e : go_error) (ctx_done : bool)
  | RecvNothing
  | RecvMessage (m : PaymentSessionResponse).

(** One round of the loop: the clock, the message, and the outcomes of the calls
    the round may make. *)
Record control_event : Type := mkControlEvent {
  ce_now : time;
  ce_recv : received;
  ce_send : result go_error unit;
  ce_status : result go_error GetSessionStatusResponse
}.

(** The end of the loop when a submission could not be sent. *)
Definition submit_failed (statusResp : result go_error GetSessionStatusResponse) (c : ingressTerminationCoordinator) :
    ingressTerminationCoordinator :=
  let failure := setControlFailure (Status codes_Unavailable (Errorf "submit RAV on provider payment session: %v")) c in
  match statusResp with
  | Err _ => failure
  | Ok resp =>
      match resolveAmbiguousIngressSessionStatus (Some resp) with
      | None => failure
      | Some None => setCanceled c
      | Some (Some resolvedErr) =>
          if bool_decide (status_Code resolvedErr = codes_ResourceExhausted) then setSemanticStop resolvedErr c
          else setControlFailure resolvedErr c
      end
  end.

(** The usage of an answered request is added to the session. *)
Definition add_requested_usage (now : time) (usage : option PUsage) (s : ClientSession) : ClientSession :=
  match usage with
  | None => s
  | Some u => Client_AddUsage now (pu_BlocksProcessed u) (pu_BytesTransferred u) (pu_Requests u)
                match pu_Cost u with Some _ => Some (GRT_ToBigInt (pu_Cost u)) | None => None end s
  end.

(** One round; [true] when the goroutine returns. *)
Definition control_step (sg : Signer) (ev : control_event) (c : control) : bool * control :=
  match ce_recv ev with
  | RecvError _ true => (true, c <| ct_coord := setCanceled (ct_coord c) |>)
  | RecvError _ false =>
      (true, c <| ct_coord := setControlFailure (Status codes_Unavailable (Errorf "receive provider payment control: %v"))
                                (ct_coord c) |>)
  | RecvNothing => (false, c)
  | RecvMessage (RavRequest currentRav usage _) =>
      let c := c <| ct_coord := setPaymentControlPending true (ct_coord c) |> in
      match signRAVForRequest sg (ce_now ev) (ct_session c) (Some (mkRAVRequest currentRav usage)) with
      | Err _ =>
          (true, c <| ct_coord := setControlFailure (Status codes_Internal (Errorf "sign RAV for provider request: %v"))
                                    (ct_coord c) |>)
      | Ok signed =>
          let c := c <| ct_session := add_requested_usage (ce_now ev) usage (ct_session c) |> in
          match ce_send ev with
          | Err _ => (true, c <| ct_coord := submit_failed (ce_status ev) (ct_coord c) |>)
          | Ok _ => (false, c <| ct_pendingRAV := Some signed |>)
          end
      end
  | RecvMessage (NeedMoreFunds _ _ _ minimumNeeded) =>
      let reason := match minimumNeeded with
                    | Some _ => "need more funds (minimum needed %s)"%string
                    | None => "need more funds"%string
                    end in
      (true, c <| ct_coord := setSemanticStop (Status codes_ResourceExhausted (ErrorsNew reason)) (ct_coord c) |>)
  | RecvMessage (SessionControl action reason) =>
      if bool_decide (action = ACTION_CONTINUE) then
        let c := match ct_pendingRAV c with
                 | Some rav => c <| ct_session := SetRAV (ce_now ev) (Some rav) (ct_session c) |> <| ct_pendingRAV := None |>
                 | None => c
                 end in
        (false, c <| ct_coord := setPaymentControlPending false (ct_coord c) |>)
      else
        let reason := if String.eqb reason "" then "provider ended stream"%string else reason in
        (true, c <| ct_coord := setSemanticStop (Status codes_ResourceExhausted (ErrorsNew reason)) (ct_coord c) |>)
  end.

Fixpoint control_loop (sg : Signer) (evs : list control_event) (c : control) : bool * control :=
  match evs with
  | [] => (false, c)
  | ev :: rest => match control_step sg ev c with
                  | (true, c) => (true, c)
                  | (false, c) => control_loop sg rest c
                  end
  end.

(** [runIngressPaymentControl]; [session] may be nil, [client] tells whether a
    payment client is registered, [bound] the outcome of binding it. *)
Definition runIngressPaymentControl (sg : Signer) (session : option ClientSession) (client : bool)
    (bound : result go_error unit) (evs : list control_event) (coord : ingressTerminationCoordinator) :
    bool * option control * ingressTerminationCoordinator :=
  let fail c e := (true, None, setControlFailure (Status c e) coord) in
  match session with
  | None => fail codes_Internal (ErrorsNew "consumer ingress session is required")
  | Some session =>
    if negb client then fail codes_Unavailable (ErrorsNew "provider payment session client is not configured") else
    match bound with
    | Err _ => fail codes_Unavailable (Errorf "bind provider payment session: %v")
    | Ok _ => let '(done, c) := control_loop sg evs (mkControl session None coord) in (done, Some c, ct_coord c)
    end
  end.

(** ** Streams *)

(** [IngressConfig]. *)
Record IngressConfig : Type := mkIngressConfig {
  ic_Payer : address;
  ic_Receiver : option address;
  ic_DataService : address;
  ic_ProviderControlPlaneEndpoint : string
}.

Definition requireIngressConfig (cfg : option IngressConfig) : result stream_error IngressConfig :=
  match cfg with
  | None => Err (Status codes_FailedPrecondition (ErrorsNew "consumer ingress runtime is not configured"))
  | Some c => Ok c
  end.

(** What the proxy loop sees of one response: it arrives or the stream ends, and
    forwarding it succeeds or fails. *)
Inductive upstream_event : Type :=
  | UpResponse (resp : option StreamResponse) (send : result stream_error unit)
  | UpEnd (err : stream_error).

Inductive proxied : Type :=
  | Forwarding (p : ingressStreamProgress)
  | ForwardFailed (err : stream_error)
  | UpstreamEnded (err : stream_error) (p : ingressStreamProgress).

Fixpoint proxy_loop (observe : option StreamResponse -> ingressStreamProgress -> ingressStreamProgress)
    (evs : list upstream_event) (p : ingressStreamProgress) : proxied :=
  match evs with
  | [] => Forwarding p
  | UpEnd err :: _ => UpstreamEnded err p
  | UpResponse resp (Err err) :: _ => ForwardFailed err
  | UpResponse resp (Ok _) :: rest => proxy_loop observe rest (observe resp p)
  end.

(** The surroundings of one stream, after its session was opened: the outcome of
    connecting, of building the headers and of opening the stream, what upstream
    sends, and what the resolution of the ending observes. *)
Record stream_world : Type := mkStreamWorld {
  sw_connect : result go_error unit;
  sw_headers : result go_error unit;
  sw_open : result go_error unit;
  sw_upstream : list upstream_event;
  sw_first : ingressTerminationCoordinator;
  sw_later : ingressTerminationCoordinator;
  sw_client_done : bool;
  sw_runtime_done : bool;
  sw_polls : list poll
}.

(** The deferred calls: [finishIngressRuntime], which cancels the control
    goroutine, waits for it and deletes the session, then the cleanup, which
    closes the payment client. *)
Definition finishIngressRuntime (sessionID : string) (st : SidecarState) : SidecarState :=
  mkSidecarState (Manager_Delete sessionID (sd_sessions st)) (sd_paymentSessions st).
Definition cleanup (sessionID : string) (st : SidecarState) : SidecarState :=
  mkSidecarState (sd_sessions st) (Manager_Close sessionID (sd_paymentSessions st)).2.

(** The body of [proxyV2Stream], [proxyV3Stream] and [proxyV4Stream], which
    differ in the stream they open and in [observe].  [running] is the sidecar's
    state when the body ends: the control goroutine and other calls go on
    meanwhile.  [None]: the stream is still running. *)
Definition proxyStream {W} (s : Sidecar) (now : time) (discover : Discovering) (start : Starting W)
    (input : sessionBootstrapInput) (stopBlockNum : Z)
    (observe : option StreamResponse -> ingressStreamProgress -> ingressStreamProgress)
    (sw : stream_world) (running : SidecarState -> SidecarState) (st : SidecarState) (w : W) :
    option (option stream_error) * SidecarState * W :=
  match bootstrapManagedSession s now discover start input st w with
  | (Err e, st, w) => (Some (Some (Connect e)), st, w)
  | (Ok bootstrap, st, w) =>
    let id := c_ID (br_LocalSession bootstrap) in
    let st := running st in
    let return_ (err : option stream_error) := (Some err, cleanup id (finishIngressRuntime id st), w) in
    match sw_connect sw with
    | Err _ => return_ (Some (Status codes_Unavailable (Errorf "connect upstream Substreams endpoint: %v")))
    | Ok _ =>
      match sw_headers sw with
      | Err _ => return_ (Some (Status codes_Internal (Errorf "encode SDS upstream headers: %v")))
      | Ok _ =>
        match sw_open sw with
        | Err _ => return_ (Some (Status codes_Unavailable (Errorf "open upstream Blocks stream: %v")))
        | Ok _ =>
          match proxy_loop observe (sw_upstream sw) (mkProgress false 0) with
          | Forwarding _ => (None, st, w)
          | ForwardFailed err => return_ (Some err)
          | UpstreamEnded err progress =>
            match resolveIngressStreamTermination err (expectedEOF stopBlockNum progress) (sw_first sw) (sw_later sw)
                    (sw_client_done sw) (sw_runtime_done sw)
                    (bool_decide (is_Some (sd_paymentSessions st !! id))) (sw_polls sw) with
            | None => (None, st, w)
            | Some err => return_ err
            end
          end
        end
      end
    end
  end.

(** ** The stream services *)

(** The fields of the stream requests the services read; the modules of a v2
    request only end up in a package without network information. *)
Record RequestV2 : Type := mkRequestV2 { r2_StopBlockNum : Z }.
Record RequestV3 : Type := mkRequestV3 { r3_Package : option Package; r3_Network : string; r3_StopBlockNum : Z }.

(** What a service needs besides the request: the state and the surroundings of
    the stream it starts. *)
Definition Proxying (W : Type) : Type :=
  sessionBootstrapInput -> Z -> (option StreamResponse -> ingressStreamProgress -> ingressStreamProgress) ->
  SidecarState -> W -> option (option stream_error) * SidecarState * W.

Definition ingress_input (c : IngressConfig) (pkg : option Package) (network : string) : sessionBootstrapInput :=
  mkBootstrapInput (ic_Payer c) (ic_Receiver c) (ic_DataService c) (ic_ProviderControlPlaneEndpoint c) pkg network.

Definition request_required : stream_error := Status codes_InvalidArgument (ErrorsNew "request is required").

Definition BlocksV2 {W} (proxy : Proxying W) (cfg : option IngressConfig) (req : option RequestV2)
    (st : SidecarState) (w : W) : option (option stream_error) * SidecarState * W :=
  let refuse e := (Some (Some e), st, w) in
  match req with
  | None => refuse request_required
  | Some req =>
    match requireIngressConfig cfg with
    | Err e => refuse e
    | Ok c =>
      if String.eqb (ic_ProviderControlPlaneEndpoint c) ""
      then refuse (Status codes_FailedPrecondition
             (ErrorsNew "oracle-backed ingress requires a v3/v4 Substreams request containing package/network context"))
      else proxy (ingress_input c (Some (mkPackage "" [])) "") (r2_StopBlockNum req) observeV2 st w
    end
  end.

(** The v3 and v4 services differ in the responses they forward. *)
Definition blocks_with_package {W} (observe : option StreamResponse -> ingressStreamProgress -> ingressStreamProgress)
    (proxy : Proxying W) (cfg : option IngressConfig) (req : option RequestV3)
    (st : SidecarState) (w : W) : option (option stream_error) * SidecarState * W :=
  let refuse e := (Some (Some e), st, w) in
  match req with
  | None => refuse request_required
  | Some req =>
    match requireIngressConfig cfg with
    | Err e => refuse e
    | Ok c => proxy (ingress_input c (r3_Package req) (r3_Network req)) (r3_StopBlockNum req) observe st w
    end
  end.
Definition BlocksV3 {W} := @blocks_with_package W observeV2.
Definition BlocksV4 {W} := @blocks_with_package W observeV4.
End Control.
