(* ===== verification/IngressProps.v ===== *)
(** The stream proxy is correct: how the payment-control goroutine and the
    coordinator decide an ending, what a clean ending means, that a stream
    leaves nothing behind, and that a round of payment keeps the two sides in
    step. *)
From S2P Require Import Prelude.
From S2P Require Import GoStd.
From S2P Require Import External.
From S2P Require Import GRT.
From S2P Require Import Horizon.
From S2P Require Import Proto.
From S2P Require Import Repository.
From S2P Require Import InMemory.
From S2P Require Import InMemoryProps.
From S2P Require Import Runtime.
From S2P Require Import Gateway.
From S2P Require Import GatewayProps.
From S2P Require Import Consumer.
From S2P Require Import PaymentClient.
From S2P Require Import Endpoint.
From S2P Require Import Oracle.
From S2P Require Import Discovery.
From S2P Require Import Bootstrap.
From S2P Require Import Ingress.

(** ** The coordinator *)

(** The first result stays. *)
Lemma setResult_first kind err b c : co_kind c <> ingressControlResultNone -> setResult kind err b c = c.
Proof. intros Hk. unfold setResult. destruct err; [|done]. by rewrite bool_decide_false. Qed.

Definition undecided (c : ingressTerminationCoordinator) : Prop :=
  co_kind c = ingressControlResultNone /\ co_err c = None /\ co_cancelled c = false.

(** How a result is classified: a semantic stop is exactly an exhausted
    resource, and only a stop or a failure cancels the stream. *)
Record decided (c : ingressTerminationCoordinator) : Prop := {
  dc_kind : co_kind c <> ingressControlResultNone;
  dc_err : is_Some (co_err c);
  dc_stop : co_kind c = ingressControlResultSemanticStop <->
    exists e, co_err c = Some (Status codes_ResourceExhausted e);
  dc_cancelled : co_cancelled c = negb (bool_decide (co_kind c = ingressControlResultCanceled));
  dc_clean : co_kind c = ingressControlResultCanceled <-> co_err c = Some Canceled
}.

Lemma undecided_pending b c : undecided c -> undecided (setPaymentControlPending b c).
Proof. unfold undecided, setPaymentControlPending. by destruct (Bool.eqb _ _). Qed.

Lemma setSemanticStop_decided e c : undecided c -> decided (setSemanticStop (Status codes_ResourceExhausted e) c).
Proof.
  intros (Hk & He & Hc). unfold setSemanticStop, setResult. rewrite bool_decide_true by done. simpl.
  split; simpl; [done | eauto | split; [eauto | done] | done | done].
Qed.

Lemma setControlFailure_decided e c :
  undecided c -> status_Code e <> codes_ResourceExhausted -> e <> Canceled -> decided (setControlFailure e c).
Proof.
  intros (Hk & He & Hc) Hne Hca. unfold setControlFailure, setResult. rewrite bool_decide_true by done. simpl.
  split; simpl; [done | eauto | | done | split; [done | by intros [= ->]]].
  split; [done |]. intros [e' [= ->]]. by destruct Hne.
Qed.

Lemma setCanceled_decided c : undecided c -> decided (setCanceled c).
Proof.
  intros (Hk & He & Hc). unfold setCanceled, setResult. rewrite bool_decide_true by done. simpl.
  split; simpl; [done | eauto | split; [done | by intros [e [=]]] | done | done].
Qed.

(** Errors an inactive session stands for are stops or failures. *)
Lemma resolved_codes resp e :
  resolveAmbiguousIngressSessionStatus resp = Some (Some e) -> exists c m, e = Status c m.
Proof. unfold resolveAmbiguousIngressSessionStatus. intros E. repeat (case_match; simplify_eq; eauto). Qed.

Lemma submit_failed_decided st c : undecided c -> decided (submit_failed st c).
Proof.
  intros Hu. unfold submit_failed. destruct st as [resp|]; [|by apply setControlFailure_decided].
  destruct (resolveAmbiguousIngressSessionStatus (Some resp)) as [[e|]|] eqn:E;
    [|by apply setCanceled_decided | by apply setControlFailure_decided].
  destruct (resolved_codes _ _ E) as (k & m & ->). case_bool_decide as Hk; simpl in Hk.
  - rewrite Hk. by apply setSemanticStop_decided.
  - by apply setControlFailure_decided.
Qed.

Section ControlProofs.
Context `{Uint256Laws} `{EthLaws} `{NetURL}.

(** A RAV of the session's parties that the sidecar's own key signed. *)
Definition own_rav (sg : Signer) (s : ClientSession) (sm : SignedRAV) : Prop :=
  exists m, Message sm = Some m /\ rav_Payer m = c_Payer s /\ rav_ServiceProvider m = c_Receiver s /\
    rav_DataService m = c_DataService s /\ RecoverSigner sm (sg_domain sg) = Ok (key_address (sg_key sg)).

Lemma signed_own sg now s req sm : signRAVForRequest sg now s (Some req) = Ok sm -> own_rav sg s sm.
Proof.
  intros Hs. destruct (signRAVForRequest_inv _ _ _ _ _ Hs) as (u & cur & m & v & _ & _ & _ & _ & _ & Hsg).
  destruct (RecoverSigner_Sign _ _ _ _ Hsg) as (Em & _ & Hrec). eexists. split_and!; [exact Em | done..].
Qed.

Definition same_parties (s s' : ClientSession) : Prop :=
  c_ID s' = c_ID s /\ c_Payer s' = c_Payer s /\ c_Receiver s' = c_Receiver s /\ c_DataService s' = c_DataService s.

Lemma own_rav_parties sg s s' sm : same_parties s s' -> own_rav sg s sm -> own_rav sg s' sm.
Proof. intros (_ & E1 & E2 & E3) (m & ? & ? & ? & ? & ?). exists m. rewrite E1, E2, E3. done. Qed.

(** The loop from the session [s0]: while it runs, nothing is decided and the
    coordinator's flag tells whether an answer awaits its acknowledgment. *)
Record running (sg : Signer) (s0 : ClientSession) (c : control) : Prop := {
  rn_undecided : undecided (ct_coord c);
  rn_pending : co_pending (ct_coord c) = bool_decide (is_Some (ct_pendingRAV c));
  rn_awaiting : forall sm, ct_pendingRAV c = Some sm -> own_rav sg s0 sm
}.

Record kept (sg : Signer) (s0 : ClientSession) (c : control) : Prop := {
  kp_parties : same_parties s0 (ct_session c);
  kp_rav : c_CurrentRAV (ct_session c) = c_CurrentRAV s0 \/
           exists sm, c_CurrentRAV (ct_session c) = Some sm /\ own_rav sg s0 sm
}.

Lemma pending_set b c : co_pending (setPaymentControlPending b c) = b.
Proof. unfold setPaymentControlPending. destruct (Bool.eqb_spec (co_pending c) b); done. Qed.

Lemma add_requested_usage_frame now u s :
  same_parties s (add_requested_usage now u s) /\ c_CurrentRAV (add_requested_usage now u s) = c_CurrentRAV s.
Proof. destruct u as [u|]; [|done]. simpl. by destruct (pu_Cost u). Qed.

Lemma control_step_inv sg s0 ev c done c' :
  running sg s0 c -> kept sg s0 c -> control_step sg ev c = (done, c') ->
  kept sg s0 c' /\ if done then decided (ct_coord c') else running sg s0 c'.
Proof.
  intros [Hu Hp Ha] [Hpa Hrav]. unfold control_step. destruct (ce_recv ev) as [e [] | |m].
  - intros [= <- <-]. split; [done | by apply setCanceled_decided].
  - intros [= <- <-]. split; [done | by apply setControlFailure_decided].
  - intros [= <- <-]. done.
  - destruct m as [cur usage dl|outs tot bal mn|act reason]; cbv zeta.
    + destruct (signRAVForRequest _ _ _ _) as [signed|] eqn:Es.
      2: { intros [= <- <-]. split; [done |]. apply setControlFailure_decided; try done. by apply undecided_pending. }
      destruct (add_requested_usage_frame (ce_now ev) usage (ct_session c)) as [(E1 & E2 & E3 & E4) Er].
      assert (Hpa' : same_parties s0 (add_requested_usage (ce_now ev) usage (ct_session c))).
      { destruct Hpa as (? & ? & ? & ?). split_and!; congruence. }
      rewrite <- Er in Hrav. destruct (ce_send ev); intros [= <- <-]; (split; [split; [exact Hpa' | exact Hrav] |]).
      * split; [by apply undecided_pending | apply pending_set |]. intros sm [= <-].
        apply signed_own in Es. eapply own_rav_parties; [|exact Es]. destruct Hpa as (? & ? & ? & ?). split_and!; done.
      * apply submit_failed_decided. by apply undecided_pending.
    + intros [= <- <-]. split; [done |]. by apply setSemanticStop_decided.
    + destruct (bool_decide (act = ACTION_CONTINUE)).
      2: { intros [= <- <-]. split; [done | by apply setSemanticStop_decided]. }
      destruct (ct_pendingRAV c) as [sm|] eqn:Ep; intros [= <- <-]; cbn [ct_session ct_coord ct_pendingRAV].
      * split; [split; [exact Hpa | right; exists sm; split; [done | by apply Ha]] |].
        split; [by apply undecided_pending | apply pending_set | done].
      * split; [done |]. split; [by apply undecided_pending | etrans; [apply pending_set |]; simpl; by rewrite Ep | simpl; by rewrite Ep].
Qed.

Lemma control_loop_inv sg s0 evs c fin c' :
  running sg s0 c -> kept sg s0 c -> control_loop sg evs c = (fin, c') ->
  kept sg s0 c' /\ if fin then decided (ct_coord c') else running sg s0 c'.
Proof.
  revert c. induction evs as [|ev evs IH]; intros c Hr Hk; cbn [control_loop]; [by intros [= <- <-] |].
  destruct (control_step sg ev c) as [fin1 c1] eqn:E. destruct (control_step_inv _ _ _ _ _ _ Hr Hk E) as [Hk1 H1'].
  destruct fin1; [by intros [= <- <-] | by apply IH].
Qed.

Lemma control_loop_app sg evs evs' c :
  control_loop sg (evs ++ evs') c =
  match control_loop sg evs c with (true, c') => (true, c') | (false, c') => control_loop sg evs' c' end.
Proof.
  revert c. induction evs as [|ev evs IH]; intros c; [done |]. cbn [app control_loop].
  destruct (control_step sg ev c) as [[] c1]; [done | apply IH].
Qed.

(** The provider asks for funds or ends the stream. *)
Definition asks_to_stop (m : PaymentSessionResponse) : bool := isTerminalPaymentSessionResponse m.

Definition control_start (s : ClientSession) : control := mkControl s None newIngressTerminationCoordinator.

Lemma control_start_inv sg s : running sg s (control_start s) /\ kept sg s (control_start s).
Proof. split; split; try done. by left. Qed.

(** How payment control ends a stream.  Whatever the provider sends and
    whatever fails, the goroutine returns exactly when it has reported a result;
    the result is an exhausted resource exactly when it is a semantic stop, which
    every request for funds and every stop of the provider becomes; an ending
    other than the client's own cancels the stream; while it runs, the pending
    flag says exactly that an answer awaits its acknowledgment; and the session
    keeps its parties and holds its first RAV or one signed by the sidecar's own
    key for those parties. *)
Theorem payment_control_decides sg s evs fin c :
  control_loop sg evs (control_start s) = (fin, c) ->
  (fin = true <-> is_Some (currentError (ct_coord c))) /\
  (fin = true -> decided (ct_coord c)) /\
  (fin = false -> co_pending (ct_coord c) = bool_decide (is_Some (ct_pendingRAV c))) /\
  (forall ev m, fin = false -> ce_recv ev = RecvMessage m -> asks_to_stop m = true ->
     exists c', control_loop sg (evs ++ [ev]) (control_start s) = (true, c') /\
       co_kind (ct_coord c') = ingressControlResultSemanticStop) /\
  same_parties s (ct_session c) /\
  (c_CurrentRAV (ct_session c) = c_CurrentRAV s \/ exists sm, c_CurrentRAV (ct_session c) = Some sm /\ own_rav sg s sm).
Proof.
  intros E. destruct (control_start_inv sg s) as [Hr Hk].
  destruct (control_loop_inv _ _ _ _ _ _ Hr Hk E) as [[Hpa Hrav] Hfin].
  split; [|split; [by intros -> | split; [intros ->; apply Hfin | split]]].
  - destruct fin; [split; [intros _; apply Hfin | done] |]. destruct Hfin as [(_ & He & _) _ _].
    split; [done | unfold currentError; rewrite He; by intros [? [=]]].
  - intros ev m -> Hev Hm. rewrite control_loop_app, E. cbn [control_loop]. unfold control_step. rewrite Hev.
    destruct Hfin as [(Hk0 & _) _ _].
    destruct m as [? ? ?|outs tot bal mn|act reason]; [done | |]; cbv zeta.
    + eexists. split; [done |]. simpl. unfold setSemanticStop, setResult. by rewrite bool_decide_true by done.
    + simpl in Hm. apply negb_true_iff in Hm. rewrite Hm. eexists. split; [done |]. simpl.
      unfold setSemanticStop, setResult. by rewrite bool_decide_true by done.
  - done.
Qed.
End ControlProofs.

(** ** Waiting for an ending *)

Definition gives_up (p : poll) : Prop := po_select p = ClientDone \/ po_select p = DeadlineDone.

(** A round that justifies reporting a clean end: nothing was decided, and the
    session ended normally or no payment is pending on either side. *)
Definition settled (p : poll) : Prop :=
  currentError (po_before p) = None /\
  exists r, po_status p = Ok r /\
    ((st_Active r = false /\ (st_EndReason r = END_REASON_COMPLETE \/ st_EndReason r = END_REASON_CLIENT_DISCONNECT)) \/
     (st_Active r = true /\ co_pending (po_before p) = false /\ st_PaymentControlPending r = false)).

Definition ended_normally (p : poll) : Prop :=
  exists r, po_status p = Ok r /\ st_Active r = false /\
    (st_EndReason r = END_REASON_COMPLETE \/ st_EndReason r = END_REASON_CLIENT_DISCONNECT).

Lemma resolve_clean r :
  resolveAmbiguousIngressSessionStatus (Some r) = Some None <->
  st_Active r = false /\ (st_EndReason r = END_REASON_COMPLETE \/ st_EndReason r = END_REASON_CLIENT_DISCONNECT).
Proof.
  unfold resolveAmbiguousIngressSessionStatus. destruct (st_Active r), (st_EndReason r); simpl; naive_solver.
Qed.

Lemma resolve_open r : resolveAmbiguousIngressSessionStatus (Some r) = None <-> st_Active r = true.
Proof. unfold resolveAmbiguousIngressSessionStatus. destruct (st_Active r), (st_EndReason r); naive_solver. Qed.

Lemma await_finite_clean last polls :
  awaitFiniteIngressPostStreamControl last polls = Some None -> exists p, p ∈ polls /\ settled p.
Proof.
  revert last. induction polls as [|p polls IH]; intros last; cbn [awaitFiniteIngressPostStreamControl]; [done |].
  destruct (currentError (po_before p)) eqn:Ec; [done |]. cbv zeta.
  assert (Hrest : forall l', awaitFiniteIngressPostStreamControl l' polls = Some None ->
    exists q, q ∈ p :: polls /\ settled q) by (intros l' (q & Hq & Hs)%IH; exists q; split; [by right | done]).
  destruct (po_status p) as [r|e] eqn:Es; [|destruct (select_verdict _ _ _ p); [done | apply Hrest]].
  destruct (resolveAmbiguousIngressSessionStatus (Some r)) as [[e|]|] eqn:Er; [done | |].
  - intros _. exists p. split; [left | split; [done |]]. exists r. split; [done |]. left. by apply resolve_clean.
  - apply resolve_open in Er. destruct (negb (co_pending (po_before p)) && _) eqn:Eb.
    + intros _. bool_props. exists p. split; [left | split; [done |]]. exists r. eauto.
    + destruct (select_verdict _ _ _ p); [done | apply Hrest].
Qed.

Lemma await_ambiguous_clean last polls :
  awaitAmbiguousIngressTerminationResolution last polls = Some None -> exists p, p ∈ polls /\ ended_normally p.
Proof.
  revert last. induction polls as [|p polls IH]; intros last; cbn [awaitAmbiguousIngressTerminationResolution]; [done |].
  destruct (currentError (po_before p)) eqn:Ec; [done |]. cbv zeta.
  assert (Hrest : forall l', awaitAmbiguousIngressTerminationResolution l' polls = Some None ->
    exists q, q ∈ p :: polls /\ ended_normally q) by (intros l' (q & Hq & Hs)%IH; exists q; split; [by right | done]).
  destruct (po_status p) as [r|e] eqn:Es; [|destruct (select_verdict _ _ _ p); [done | apply Hrest]].
  destruct (resolveAmbiguousIngressSessionStatus (Some r)) as [[e|]|] eqn:Er; [done | |].
  - intros _. exists p. split; [left |]. exists r. split; [done |]. by apply resolve_clean.
  - destruct (select_verdict _ _ _ p); [done | apply Hrest].
Qed.

Lemma gives_up_verdict a b last p : gives_up p -> exists e, select_verdict a b last p = Some e.
Proof. unfold select_verdict. intros [-> | ->]; eauto. Qed.

Ltac give_up_now Hg :=
  match goal with |- context [select_verdict ?a ?b ?l ?q] => destruct (gives_up_verdict a b l q Hg) as [? ->] end; eauto.

(** Once a round gives up, or sees the session inactive or a result, the wait is over. *)
Definition final_round (p : poll) : Prop :=
  gives_up p \/ is_Some (currentError (po_before p)) \/ exists r, po_status p = Ok r /\ st_Active r = false.

Lemma final_resolves r : st_Active r = false -> exists v, resolveAmbiguousIngressSessionStatus (Some r) = Some v.
Proof. intros Ha. unfold resolveAmbiguousIngressSessionStatus. rewrite Ha. destruct (st_EndReason r); eauto. Qed.

Lemma await_finite_ends last polls :
  Exists final_round polls -> is_Some (awaitFiniteIngressPostStreamControl last polls).
Proof.
  intros Hx. revert last. induction Hx as [p polls Hp|p polls _ IH]; intros last; cbn [awaitFiniteIngressPostStreamControl].
  - destruct Hp as [Hg|[[e ->]|(r & -> & Ha)]]; [|eauto |].
    + destruct (currentError _); [eauto |]. cbv zeta.
      destruct (po_status p) as [r|e]; [destruct (resolveAmbiguousIngressSessionStatus (Some r)); [eauto |];
        destruct (_ && _); [eauto |] |].
      all: give_up_now Hg.
    + destruct (currentError _); [eauto |]. destruct (final_resolves r Ha) as [v ->]. eauto.
  - destruct (currentError _); [eauto |]. cbv zeta. destruct (po_status p) as [r|e].
    + destruct (resolveAmbiguousIngressSessionStatus (Some r)); [eauto |]. destruct (_ && _); [eauto |].
      destruct (select_verdict _ _ _ p); eauto.
    + destruct (select_verdict _ _ _ p); eauto.
Qed.

Lemma await_ambiguous_ends last polls :
  Exists final_round polls -> is_Some (awaitAmbiguousIngressTerminationResolution last polls).
Proof.
  intros Hx. revert last. induction Hx as [p polls Hp|p polls _ IH]; intros last; cbn [awaitAmbiguousIngressTerminationResolution].
  - destruct Hp as [Hg|[[e ->]|(r & -> & Ha)]]; [|eauto |].
    + destruct (currentError _); [eauto |]. cbv zeta.
      destruct (po_status p) as [r|e]; [destruct (resolveAmbiguousIngressSessionStatus (Some r)); [eauto |] |].
      all: give_up_now Hg.
    + destruct (currentError _); [eauto |]. destruct (final_resolves r Ha) as [v ->]. eauto.
  - destruct (currentError _); [eauto |]. cbv zeta. destruct (po_status p) as [r|e].
    + destruct (resolveAmbiguousIngressSessionStatus (Some r)); [eauto |]. destruct (select_verdict _ _ _ p); eauto.
    + destruct (select_verdict _ _ _ p); eauto.
Qed.

(** How a stream that upstream ended is reported.  The resolution returns as
    soon as one round gives up, sees a result or sees the session inactive; it
    returns at once when payment control has decided, with that decision; it
    reports a clean end only for an end of file, or an ambiguous error, after
    which a round found the session ended normally, or (for a stream that reached
    its stop block) found no payment pending on either side; and any other
    upstream error is reported unless payment control decided meanwhile. *)
Theorem stream_ending_resolved err expected first later client_done runtime_done configured polls :
  let answer := resolveIngressStreamTermination err expected first later client_done runtime_done configured polls in
  (Exists final_round polls \/ configured = false -> is_Some answer) /\
  (forall e, currentError first = Some e -> answer = Some (Some e)) /\
  (answer = Some None ->
     (err = EOF \/ isAmbiguousIngressUpstreamError (Some err) = true \/ runtime_done = true) /\ configured = true /\
     exists p, p ∈ polls /\ (ended_normally p \/ (err = EOF /\ expected = true /\ settled p))) /\
  (currentError first = None -> currentError later = None -> err <> EOF ->
   isAmbiguousIngressUpstreamError (Some err) = false -> client_done = true \/ runtime_done = false ->
   answer = Some (Some err)).
Proof.
  cbv zeta. unfold resolveIngressStreamTermination. split_and!.
  - intros Hend. destruct (currentError first); [eauto |].
    assert (Hf : is_Some (if configured then awaitFiniteIngressPostStreamControl None polls else Some (Some not_configured))).
    { destruct configured; [|eauto]. destruct Hend; [by apply await_finite_ends | done]. }
    assert (Ha : is_Some (match currentError later with Some e => Some (Some e) | None =>
      if configured then awaitAmbiguousIngressTerminationResolution None polls else Some (Some not_configured) end)).
    { destruct (currentError later), configured; eauto. destruct Hend; [by apply await_ambiguous_ends | done]. }
    destruct err; [by destruct expected | ..]; destruct (_ && _); try done; destruct (currentError later); eauto.
  - by intros e ->.
  - destruct (currentError first); [done |].
    assert (Ha : (match currentError later with Some e => Some (Some e) | None =>
      if configured then awaitAmbiguousIngressTerminationResolution None polls else Some (Some not_configured) end) = Some None ->
      configured = true /\ exists p, p ∈ polls /\ ended_normally p).
    { destruct (currentError later), configured; try done. intros Hx%await_ambiguous_clean. done. }
    assert (Hamb : forall e, (if negb client_done && (runtime_done || isAmbiguousIngressUpstreamError (Some e))
      then match currentError later with Some e => Some (Some e) | None =>
        if configured then awaitAmbiguousIngressTerminationResolution None polls else Some (Some not_configured) end
      else match currentError later with Some e => Some (Some e) | None => Some (Some e) end) = Some None ->
      (e = EOF \/ isAmbiguousIngressUpstreamError (Some e) = true \/ runtime_done = true) /\ configured = true /\
      exists p, p ∈ polls /\ (ended_normally p \/ (e = EOF /\ expected = true /\ settled p))).
    { intros e. destruct (negb client_done && _) eqn:Eb; [|by destruct (currentError later)]. intros (Hc & p & Hp & Hn)%Ha.
      apply andb_true_iff in Eb as [_ Eb]. apply orb_true_iff in Eb. split_and!; [tauto | done | eauto]. }
    destruct err; try apply Hamb. destruct expected.
    + destruct configured; [|done]. intros (p & Hp & Hs)%await_finite_clean.
      split_and!; [by left | done |]. exists p. split; [done | by right].
    + intros (Hc & p & Hp & Hn)%Ha. split_and!; [by left | done |]. exists p. split; [done | by left].
  - intros -> Hl Hne Hna Hd. rewrite Hl.
    assert (Eb : negb client_done && (runtime_done || isAmbiguousIngressUpstreamError (Some err)) = false).
    { rewrite Hna. destruct Hd as [-> | ->]; [done |]. by destruct client_done. }
    destruct err; [done | ..]; by rewrite Eb.
Qed.

(** ** Block progress *)

(** The blocks a response speaks of, in the order they are noted. *)
Definition blocks_v2 (r : option StreamResponse) : list Z :=
  match r with
  | None => []
  | Some r => option_list (mjoin (head (re_clocks r))) ++ option_list (re_undo r)
  end.
Definition blocks_v4 (r : option StreamResponse) : list Z :=
  match r with None => [] | Some r => omap id (re_clocks r) ++ option_list (re_undo r) end.

Definition note_all (p : ingressStreamProgress) (bs : list Z) : ingressStreamProgress :=
  foldl (fun p b => noteBlock b p) p bs.

Lemma observeV2_notes r p : observeV2 r p = note_all p (blocks_v2 r).
Proof. destruct r as [[clocks undo]|]; [|done]. simpl. by destruct (mjoin (head clocks)), undo. Qed.

Lemma observeV4_notes r p : observeV4 r p = note_all p (blocks_v4 r).
Proof.
  destruct r as [[clocks undo]|]; [|done]. cbn [observeV4 blocks_v4 re_clocks re_undo]. unfold note_all.
  rewrite foldl_app. revert p. induction clocks as [|[b|] clocks IH]; intros p; cbn [foldl note_option omap list_omap id];
    [by destruct undo | apply IH..].
Qed.

Lemma note_all_spec p bs :
  ig_sawBlock (note_all p bs) = ig_sawBlock p || negb (bool_decide (bs = [])) /\
  forall n, ig_sawBlock (note_all p bs) = true ->
    (n <= ig_highestBlock (note_all p bs) <-> (ig_sawBlock p = true /\ n <= ig_highestBlock p) \/ exists b, b ∈ bs /\ n <= b).
Proof.
  revert p. induction bs as [|b bs IH]; intros p.
  - simpl. rewrite orb_false_r. split; [done |]. intros n ->. split; [tauto |]. intros [[_ ?]|(b & Hb%elem_of_nil & _)]; done.
  - change (note_all p (b :: bs)) with (note_all (noteBlock b p) bs). destruct (IH (noteBlock b p)) as [IH1 IH2].
    rewrite IH1. simpl. split; [by rewrite orb_true_r |]. intros n _. rewrite IH2 by (by rewrite IH1).
    unfold noteBlock. cbn [ig_sawBlock ig_highestBlock].
    assert (n <= (if negb (ig_sawBlock p) || (b >? ig_highestBlock p) then b else ig_highestBlock p) <->
      (ig_sawBlock p = true /\ n <= ig_highestBlock p) \/ n <= b) as Hn.
    { destruct (ig_sawBlock p); simpl; [|naive_solver]. destruct (b >? ig_highestBlock p) eqn:E; bool_props; split; intros; try tauto; lia. }
    setoid_rewrite elem_of_cons. split.
    + intros [[_ [?|?]%Hn]|(b' & ? & ?)]; eauto.
    + intros [?|(b' & [->|?] & ?)]; [left; split; [done | apply Hn; by left] | left; split; [done | apply Hn; by right] | eauto].
Qed.

(** A stream reached its stop block when it showed the block before it or a
    later one. *)
Lemma expectedEOF_iff stop bs :
  0 <= stop -> Forall (fun b => 0 <= b < two64 - 1) bs ->
  expectedEOF stop (note_all (mkProgress false 0) bs) = true <-> stop <> 0 /\ exists b, b ∈ bs /\ stop <= b + 1.
Proof.
  intros Hs Hb. unfold expectedEOF. destruct (note_all_spec (mkProgress false 0) bs) as [H1 H2]. simpl in H1, H2.
  destruct (Z.eqb_spec stop 0) as [|Hne]; [naive_solver |]. cbn [orb].
  destruct (ig_sawBlock (note_all (mkProgress false 0) bs)) eqn:Es.
  - set (h := ig_highestBlock _) in *. assert (Hh : exists b, b ∈ bs /\ h <= b) by (destruct (H2 h eq_refl) as [H3 _]; destruct H3; [lia | naive_solver | done]).
    assert (0 <= h).
    { destruct bs as [|b0 bs]; [destruct Hh as (b & Hx%elem_of_nil & _); done |]. apply (H2 0 eq_refl). right. exists b0. split; [left |].
      inversion Hb; lia. }
    assert (h < two64 - 1).
    { destruct Hh as (b & Hin & Hle). rewrite list.Forall_forall in Hb. specialize (Hb b Hin). lia. }
    simpl. rewrite wrap_u64_small by (unfold u64; lia). rewrite Z.geb_leb, Z.leb_le.
    split.
    + intros Hle. split; [done |]. destruct (H2 (stop - 1) eq_refl) as [H3 _]. destruct H3 as [[? _]|(b & ? & ?)]; [lia | done |].
      exists b. split; [done | lia].
    + intros (_ & b & Hin & Hle). assert (stop - 1 <= h) by (apply (H2 _ eq_refl); right; exists b; split; [done | lia]). lia.
  - simpl. split; [done |]. intros (_ & b & Hin & _). destruct bs; [by apply elem_of_nil in Hin | done].
Qed.

(** ** Streams leave nothing behind *)

Section ProxyProofs.
Context `{Uint256Laws} `{EthLaws} `{NetURL}.

(** A stream leaves nothing behind.  When a proxied stream has returned, for
    whatever reason, either its session was never opened and the sidecar is as it
    was, or the session it opened is deleted and its payment client closed; if
    nothing but that session changed meanwhile, the sidecar's sessions are the
    ones it had before the stream. *)
Theorem stream_leaves_nothing {W} s now discover (start : Starting W) input stop observe sw running st w err st' w' :
  proxyStream s now discover start input stop observe sw running st w = (Some err, st', w') ->
  (exists e, err = Some (Connect e) /\ st' = st) \/
  exists b st1, bootstrapManagedSession s now discover start input st w = (Ok b, st1, w') /\
    let id := c_ID (br_LocalSession b) in
    sd_sessions st' !! id = None /\ sd_paymentSessions st' !! id = None /\
    (forall i, i <> id -> sd_sessions st' !! i = sd_sessions (running st1) !! i /\
                          sd_paymentSessions st' !! i = sd_paymentSessions (running st1) !! i) /\
    ((forall i, i <> id -> sd_sessions (running st1) !! i = sd_sessions st1 !! i) -> sd_sessions st' = sd_sessions st).
Proof.
  unfold proxyStream. destruct (bootstrapManagedSession s now discover start input st w) as [[[b|e] st1] w1] eqn:Eb.
  2: { intros [= <- <- <-]. left. exists e. split; [done |]. by apply bootstrap_effect in Eb. }
  apply bootstrap_effect in Eb as Hb. destruct Hb as (sel & _ & [[Hf _] Hadd _ _ _ _ _]). cbv zeta.
  set (id := c_ID (br_LocalSession b)) in *. intros E. right. exists b, st1.
  assert (w' = w1 /\ st' = cleanup id (finishIngressRuntime id (running st1))) as [-> ->].
  { repeat (case_match; simplify_eq; try done). }
  split; [done |]. unfold cleanup, finishIngressRuntime, Manager_Close, Manager_Delete.
  cbn [sd_sessions sd_paymentSessions fst snd]. split_and!; [apply lookup_delete_eq.. | |].
  - intros i Hi. by rewrite !lookup_delete_ne.
  - intros Hr. apply map_eq. intros i. destruct (decide (i = id)) as [->|Hi]; [by rewrite lookup_delete_eq, Hf |].
    by rewrite lookup_delete_ne, Hr, Hadd, lookup_insert_ne.
Qed.
End ProxyProofs.

(** ** A round of payment *)

Section Round.
Context `{Uint256Laws} `{EthLaws} `{!GlobalRepository R} `{!GlobalRepositoryLaws}.
Implicit Types (g : Gateway R) (cfg : GatewayConfig) (env : Env).

(** The two sides of a session agree on what has been paid for: same parties,
    same RAV, and the consumer's totals are the provider's baseline. *)
Record in_step (cs : ClientSession) (sv : Session) : Prop := {
  is_parties : c_Payer cs = s_Payer sv /\ c_Receiver cs = s_Receiver sv /\ c_DataService cs = s_DataService sv;
  is_rav : c_CurrentRAV cs = s_CurrentRAV sv;
  is_counters : c_BlocksProcessed cs = s_BaselineBlocks sv /\ c_BytesTransferred cs = s_BaselineBytes sv /\
    c_Requests cs = s_BaselineReqs sv;
  is_cost : s_BaselineCost sv = Some (c_TotalCost cs)
}.

(** A provider session whose counters have not wrapped since the baseline. *)
Record accrues (sv : Session) : Prop := {
  ac_blocks : 0 <= s_BaselineBlocks sv <= s_BlocksProcessed sv /\ s_BlocksProcessed sv < two64;
  ac_bytes : 0 <= s_BaselineBytes sv <= s_BytesTransferred sv /\ s_BytesTransferred sv < two64;
  ac_reqs : 0 <= s_BaselineReqs sv <= s_Requests sv /\ s_Requests sv < two64;
  ac_cost : exists t b, s_TotalCost sv = Some t /\ s_BaselineCost sv = Some b /\ 0 <= b <= t /\ t < two256
}.

Lemma usage_delta_le c b : b <= c -> usage_delta c b = c - b.
Proof. intros Hle. unfold usage_delta. rewrite Z.geb_leb. by rewrite (proj2 (Z.leb_le b c) Hle). Qed.

(** What the gateway remembers of a request is the session's totals. *)
Lemma request_of_totals sv req p m0 sig0 v :
  accrues sv -> request_of sv = (req, Some p) -> s_CurrentRAV sv = Some (mkSigned (Some m0) sig0) ->
  rav_ValueAggregate m0 = Some v ->
  exists t b, s_TotalCost sv = Some t /\ s_BaselineCost sv = Some b /\
    rq_Usage req = Some (mkPUsage (s_BlocksProcessed sv - s_BaselineBlocks sv) (s_BytesTransferred sv - s_BaselineBytes sv)
                           (s_Requests sv - s_BaselineReqs sv) (GRTFromBigInt (Some (t - b)))) /\
    rq_CurrentRav req = HorizonSignedRAVToProto (s_CurrentRAV sv) /\
    GRT_ToBigInt (GRTFromBigInt (Some (t - b))) = t - b /\
    pr_baselineBlocks p = s_BlocksProcessed sv /\ pr_baselineBytes p = s_BytesTransferred sv /\
    pr_baselineReqs p = s_Requests sv /\ pr_baselineCost p = t.
Proof.
  intros [Hb Hy Hq (t & b & Et & Ebl & Hle & Ht)] Hreq Hrav Ev. exists t, b.
  assert (Hd : UsageDeltaSinceBaseline sv = (s_BlocksProcessed sv - s_BaselineBlocks sv,
    s_BytesTransferred sv - s_BaselineBytes sv, s_Requests sv - s_BaselineReqs sv, t - b)).
  { unfold UsageDeltaSinceBaseline. rewrite !usage_delta_le by tauto. f_equal. unfold cost_delta. rewrite Et, Ebl. simpl.
    destruct (Z.ltb_spec (t - b) 0); lia. }
  unfold request_of in Hreq. rewrite Hd in Hreq. unfold newPendingRAVRequest in Hreq. rewrite Hrav in Hreq |- *.
  cbn [Message pu_Cost] in Hreq. destruct (GRTFromBigInt (Some (t - b))) as [w|] eqn:Ew; [|done].
  cbn [pending_clone] in Hreq. rewrite Et in Hreq. injection Hreq as <- <-. rewrite <- Ew.
  rewrite GRT_ToBigInt_FromBigInt by lia. cbn. split_and!; done.
Qed.

(** C3: a round of payment keeps the two sides in step.  For a session on which
    consumer and provider agree, the consumer holding the payer's key answers the
    provider's request; whenever the provider's repository stores the answer,
    however much usage was metered meanwhile, the provider says "continue", and
    once the consumer has read it the two sides agree again: on the new RAV and
    on exactly the usage of the request being paid for, with nothing pending. *)
Theorem payment_round_in_step cfg env g id cs (sv s' : Session) sg now now' req p m0 sig0 coord dl status :
  in_step cs sv -> accrues sv -> request_of sv = (req, Some p) ->
  s_CurrentRAV sv = Some (mkSigned (Some m0) sig0) -> wf_rav m0 -> length sig0 = 65%nat ->
  pr_targetValue p < two256 -> wf_client cs -> gc_serviceProvider cfg = c_Receiver cs ->
  sg_domain sg = gc_domain cfg -> key_address (sg_key sg) = c_Payer cs ->
  (forall h, exists sig, key_Sign (sg_key sg) h = Ok sig) ->
  session_at (g_repo g) id = Some s' -> s_Payer s' = s_Payer sv -> s_Receiver s' = s_Receiver sv ->
  s_DataService s' = s_DataService sv -> rs_pendingRAV (ensureSessionState id g).1 = Some p ->
  exists c1 sm,
    control_step sg (mkControlEvent now (RecvMessage (RavRequest (rq_CurrentRav req) (rq_Usage req) dl)) (Ok tt) status)
      (mkControl cs None coord) = (false, c1) /\ ct_pendingRAV c1 = Some sm /\ co_pending (ct_coord c1) = true /\
    (is_ok (commitAcceptedRAV (g_repo g) (env_now env) id sm p).1 = true ->
     exists g' c2 sv',
       handleRAVSubmission cfg env id s' (Some (mkSubmission (HorizonSignedRAVToProto (Some sm)) (rq_Usage req))) g =
         (continuePaymentSessionResponse, g') /\
       control_step sg (mkControlEvent now' (RecvMessage continuePaymentSessionResponse) (Ok tt) status) c1 = (false, c2) /\
       session_at (g_repo g') id = Some sv' /\ in_step (ct_session c2) sv' /\
       rav_value (s_CurrentRAV sv') = pr_targetValue p /\
       ct_pendingRAV c2 = None /\ co_pending (ct_coord c2) = false).
Proof.
  intros [(Ep & Er & Ed) Erav (E1 & E2 & E3) Ec] Hacc Hreq Hrav Hwf Hlen Hfit Hcl Hr Hdom Hkey Hsign Hs' Hp' Hr' Hd' Hpend.
  pose proof Hwf as (_ & _ & _ & _ & _ & v & Ev & _).
  destruct (request_of_totals _ _ _ _ _ _ Hacc Hreq Hrav Ev) as (t & b & Et & Eb & Eu & Ecur & Hcost & Q1 & Q2 & Q3 & Q4).
  destruct (honest_signs (R := R) cfg sv cs sg now req p m0 sig0) as (sm & Hsg & Em & Hl & Hval); try done.
  set (cs1 := add_requested_usage now (rq_Usage req) cs).
  exists (mkControl cs1 (Some sm) (setPaymentControlPending true coord)), sm. split_and!; [| done | apply pending_set |].
  { unfold control_step. cbn [ce_recv ce_now ce_send ct_session ct_coord].
    replace (mkRAVRequest (rq_CurrentRav req) (rq_Usage req)) with req by (by destruct req).
    cbv beta zeta delta [setter]. cbn [ct_session ct_coord ct_pendingRAV]. by rewrite Hsg. }
  intros Hok. unfold handleRAVSubmission. cbn [sb_SignedRav]. pose proof (ensure_repo id g) as Hg.
  destruct (ensureSessionState id g) as [st g1]. simpl in Hg, Hpend.
  specialize (Hval env s' g1). rewrite Hp', Hd' in Hval. specialize (Hval (eq_sym Ep) (eq_sym Ed)).
  cbn [HorizonSignedRAVToProto] in Hval |- *. rewrite Hpend, Hval, Hg.
  pose proof (commit_law (g_repo g) (env_now env) id sm p) as Hc.
  destruct (commitAcceptedRAV _ _ _ _ _) as [[[]|e] r']; [|done]. destruct Hc as [(s0 & E0 & Es1) _].
  rewrite Hs' in E0. injection E0 as <-.
  set (g3 := put_state id _ _). pose proof (evaluate_money cfg env id g3 id) as Hm.
  destruct (evaluateMeteredUsage cfg env id g3) as [e4 g4]. cbn [snd] in Hm.
  change (g_repo g3) with r' in Hm. rewrite Es1 in Hm.
  destruct (session_at (g_repo g4) id) as [sv'|] eqn:Esv; [|done]. cbn [fmap option_fmap option_map] in Hm.
  apply (inj Some) in Hm. unfold money in Hm. simpl in Hm.
  injection Hm as _ Mrav _ _ _ _ Mb My Mq Mc Mp Mr Md _.
  set (cs2 := SetRAV now' (Some sm) cs1).
  exists g4, (mkControl cs2 None (setPaymentControlPending false (setPaymentControlPending true coord))), sv'.
  split_and!; [done | done | done | | by rewrite Mrav; unfold rav_value; rewrite Em | done | apply pending_set].
  cbn [ct_session]. destruct Hacc as [(Hb1 & Hb2) (Hy1 & Hy2) (Hq1 & Hq2) _].
  rewrite Eb in Ec. injection Ec as Ec. unfold cs2, cs1. rewrite Eu. cbn [add_requested_usage].
  destruct (GRTFromBigInt (Some (t - b))) as [w|] eqn:Ew; [|done]. split; simpl.
  - split_and!; congruence.
  - by rewrite Mrav.
  - rewrite E1, E2, E3, Mb, My, Mq, Q1, Q2, Q3. rewrite !wrap_u64_small by (unfold u64; lia). split_and!; lia.
  - rewrite Mc, Q4, <- Ec, Hcost. f_equal. lia.
Qed.
End Round.

(** ** Concrete runs *)
Module IngressWitness.
Import Reference SimpleURL.

Definition cs : ClientSession := SetRAV 5 (s_CurrentRAV ConsumerWitness.session) ConsumerWitness.client.
Definition request : PaymentSessionResponse :=
  RavRequest (rq_CurrentRav (request_of ConsumerWitness.session).1) (rq_Usage (request_of ConsumerWitness.session).1) 0.
Definition no_status : result go_error GetSessionStatusResponse := Err (Errorf "unavailable").
Definition asked : control_event := mkControlEvent 2000 (RecvMessage request) (Ok tt) no_status.
Definition funds : control_event := mkControlEvent 2100 (RecvMessage (NeedMoreFunds [] None None None)) (Ok tt) no_status.

Abbreviation answered := (control_step ConsumerWitness.sg asked (mkControl cs None newIngressTerminationCoordinator)).
Definition answer : SignedRAV := default (mkSigned None []) (ct_pendingRAV answered.2).
Lemma commits : is_ok (commitAcceptedRAV (g_repo ConsumerWitness.gw) (env_now ConsumerWitness.env) "s1" answer
  ConsumerWitness.pending).1 = true.
Proof. vm_compute. reflexivity. Qed.

Lemma agree : in_step cs ConsumerWitness.session.
Proof. split; done. Qed.
Lemma accrued_ok : accrues ConsumerWitness.session.
Proof. split; simpl; unfold two64; try lia. exists 7, 0. unfold two256. split_and!; done || lia. Qed.
Lemma cs_wf : wf_client cs.
Proof. split_and!; apply fixed_bytes_length. Qed.
Lemma session_stored : session_at (g_repo ConsumerWitness.gw) "s1" = Some ConsumerWitness.session.
Proof. reflexivity. Qed.

(** Payment control that answers a request and is then told to stop. *)
Abbreviation ran := (control_loop ConsumerWitness.sg [asked] (control_start cs)).
Lemma ran_on : ran.1 = false.
Proof. vm_compute. reflexivity. Qed.

(** A stream that ends at its stop block with nothing pending. *)
Definition quiet : poll :=
  mkPoll newIngressTerminationCoordinator (Ok (mkStatusResp true END_REASON_UNSPECIFIED false None None)) Ticked Canceled
    newIngressTerminationCoordinator.
Definition complete : poll :=
  mkPoll newIngressTerminationCoordinator (Ok (mkStatusResp false END_REASON_COMPLETE false None None)) Ticked Canceled
    newIngressTerminationCoordinator.
Definition world : stream_world :=
  mkStreamWorld (Ok tt) (Ok tt) (Ok tt) [UpResponse (Some (mkStreamResponse [Some 99] None)) (Ok tt); UpEnd EOF]
    newIngressTerminationCoordinator newIngressTerminationCoordinator false false [quiet].
Abbreviation proxied_run :=
  (proxyStream BootstrapWitness.sidecar 2000 BootstrapWitness.no_oracle
     (fun _ req g => StartSession BootstrapWitness.cfg BootstrapWitness.env "s1" req g) BootstrapWitness.input 100 observeV2
     world (fun st => st) BootstrapWitness.st0 BootstrapWitness.g0).
Definition clean (x : option (option stream_error)) : bool := match x with Some None => true | _ => false end.
Lemma proxied_clean : clean proxied_run.1.1 = true.
Proof. vm_compute. reflexivity. Qed.
End IngressWitness.

Import Reference SimpleURL.

Lemma payment_control_decides_witness :
  exists c, control_loop ConsumerWitness.sg ([IngressWitness.asked] ++ [IngressWitness.funds]) (control_start IngressWitness.cs) = (true, c) /\
    co_kind (ct_coord c) = ingressControlResultSemanticStop.
Proof.
  pose proof IngressWitness.ran_on as Hr. destruct IngressWitness.ran as [fin c] eqn:E. simpl in Hr. subst fin.
  destruct (payment_control_decides ConsumerWitness.sg IngressWitness.cs [IngressWitness.asked] false c E)
    as (_ & _ & _ & Hstop & _).
  exact (Hstop IngressWitness.funds (NeedMoreFunds [] None None None) eq_refl eq_refl eq_refl).
Defined.

Lemma stream_ending_resolved_witness :
  is_Some (resolveIngressStreamTermination EOF true newIngressTerminationCoordinator newIngressTerminationCoordinator
    false false true [IngressWitness.complete]).
Proof.
  apply (proj1 (stream_ending_resolved EOF true newIngressTerminationCoordinator newIngressTerminationCoordinator
    false false true [IngressWitness.complete])).
  left. constructor 1. right. right. eexists. split; reflexivity.
Defined.

Lemma stream_leaves_nothing_witness :
  IngressWitness.proxied_run.1.1 = Some None /\ sd_sessions IngressWitness.proxied_run.1.2 = ∅.
Proof.
  pose proof IngressWitness.proxied_clean as Hc. destruct IngressWitness.proxied_run as [[[[e|]|] st'] w'] eqn:E; [discriminate Hc | | discriminate Hc].
  destruct (stream_leaves_nothing BootstrapWitness.sidecar 2000 BootstrapWitness.no_oracle
    (fun _ req g => StartSession BootstrapWitness.cfg BootstrapWitness.env "s1" req g) BootstrapWitness.input 100 observeV2
    IngressWitness.world (fun st => st) BootstrapWitness.st0 BootstrapWitness.g0 None st' w' E)
    as [(e & He & _)|(b & st1 & _ & _ & _ & _ & Hs)]; [discriminate He |].
  split; [reflexivity |]. exact (Hs (fun i _ => eq_refl)).
Defined.

Lemma payment_round_in_step_witness :
  exists g' c2 sv', session_at (g_repo g') "s1" = Some sv' /\ in_step (ct_session c2) sv' /\
    rav_value (s_CurrentRAV sv') = pr_targetValue ConsumerWitness.pending /\
    handleRAVSubmission ConsumerWitness.cfg ConsumerWitness.env "s1" ConsumerWitness.session
      (Some (mkSubmission (HorizonSignedRAVToProto (Some IngressWitness.answer)) (rq_Usage (request_of ConsumerWitness.session).1)))
      ConsumerWitness.gw = (continuePaymentSessionResponse, g').
Proof.
  destruct (payment_round_in_step ConsumerWitness.cfg ConsumerWitness.env ConsumerWitness.gw "s1" IngressWitness.cs
    ConsumerWitness.session ConsumerWitness.session ConsumerWitness.sg 2000 2100 (request_of ConsumerWitness.session).1
    ConsumerWitness.pending ConsumerWitness.m0 ConsumerWitness.sig0 newIngressTerminationCoordinator 0 IngressWitness.no_status
    IngressWitness.agree IngressWitness.accrued_ok ConsumerWitness.request_ok eq_refl ConsumerWitness.m0_wf
    (fixed_bytes_length 65 5) ConsumerWitness.target_fits IngressWitness.cs_wf eq_refl eq_refl eq_refl
    ConsumerWitness.can_sign IngressWitness.session_stored eq_refl eq_refl eq_refl ConsumerWitness.pending_ok)
    as (c1 & sm & E1 & E2 & _ & Hround).
  assert (sm = IngressWitness.answer) as ->.
  { unfold IngressWitness.answer, IngressWitness.asked, IngressWitness.request. rewrite E1. simpl. rewrite E2. reflexivity. }
  destruct (Hround IngressWitness.commits) as (g' & c2 & sv' & Hh & _ & Hs & Hi & Hv & _).
  exists g', c2, sv'. split; [exact Hs |]. split; [exact Hi |]. split; [exact Hv | exact Hh].
Defined.
