(* ===== verification/Postgres.v ===== *)
(** The Postgres repository ([provider/repository/psql]): the column types and
    row mappings of the Go code, the tables of the schema
    ([migrations/000001_init_schema.up.sql]), one function per SQL statement
    ([sql/]), and the operations composed of them.

    A statement runs on the tables and answers rows or an error, which undoes
    it; so does a transaction as a whole.  What the server does to a value on its
    way into a column of a type of its own is the interface [PostgresTypes]; a
    connection that breaks down is not modelled.  The trigger on [sessions] reads
    the server's clock, a field of the state. *)
From S2P Require Import Prelude.
From S2P Require Import GoStd.
From S2P Require Import Utf8.
From S2P Require Import External.
From S2P Require Import GRT.
From S2P Require Import Horizon.
From S2P Require Import Proto.
From S2P Require Import Repository.
From S2P Require Import InMemory.
From stdpp Require Import sorting.
#[local] Open Scope Z_scope.

(** ** Column types *)

(** Text that a UTF-8 database stores as it is: valid, without NUL. *)
Definition plain_text (s : string) : bool :=
  utf8_Valid (to_chars s) && forallb (fun c => negb (bool_decide (c = ascii_of_N 0))) (to_chars s).
Definition plain_map (m : gmap string string) : bool :=
  forallb (fun '(k, v) => plain_text k && plain_text v) (map_to_list m).

(** The value a column of each type holds after a write, or a refusal. *)
Class PostgresTypes : Type := {
  timestamptz : time -> time;
  varchar : nat -> string -> option string;
  pg_text : string -> option string;
  jsonb : gmap string string -> option (gmap string string)
}.

(** Timestamps are rounded to the microsecond; short valid text is kept. *)
Class PostgresTypesLaws `{PostgresTypes} : Prop := {
  timestamptz_mono a b : a <= b -> timestamptz a <= timestamptz b;
  timestamptz_near t : timestamptz t mod 1000 = 0 /\ Z.abs (timestamptz t - t) <= 500;
  varchar_plain n s : plain_text s = true -> (String.length s <= n)%nat -> varchar n s = Some s;
  pg_text_plain s : plain_text s = true -> pg_text s = Some s;
  jsonb_plain m : plain_map m = true -> jsonb m = Some m
}.

(** ** Values of the driver ([sqltypes.go]) *)

Inductive driver_value : Type :=
  | DriverNil
  | DriverString (s : chars)
  | DriverBytes (b : list byte)
  | DriverInt64 (z : Z)
  | DriverOther.

Definition byte_chars (b : list byte) : chars := map (fun x => ascii_of_byte x) b.

(** A [*big.Int], nil being [None]. *)
Definition newGRT (value : option Z) : option Z := Some (default 0 value).
Definition grt_Scan (value : driver_value) : result go_error (option Z) :=
  match value with
  | DriverNil => Ok None
  | DriverString s =>
      match SetString s with
      | Some v => Ok (Some v) | None => Err (Errorf "grt: failed to parse string %q as big.Int") end
  | DriverBytes b =>
      match SetString (byte_chars b) with
      | Some v => Ok (Some v) | None => Err (Errorf "grt: failed to parse bytes %q as big.Int") end
  | DriverInt64 z => Ok (Some z)
  | DriverOther => Err (Errorf "grt: unsupported type %T")
  end.
Definition grt_Value (g : option Z) : driver_value :=
  match g with None => DriverNil | Some v => DriverString (big_String v) end.

(** Arrays of a fixed length. *)
Definition newAddress (addr : address) : list byte :=
  if (length addr =? 20)%nat then addr else zeros 20.
Definition copy_array (n : nat) (l : list byte) : list byte := take n l ++ zeros (n - length l).
Definition newSignature (sig : signature) : list byte := copy_array 65 sig.
Definition newCollectionID (id : CollectionID) : list byte := copy_array 32 id.

Definition array_Scan (name : string) (n : nat) (value : driver_value) : result go_error (list byte) :=
  match value with
  | DriverNil => Err (Errorf (name +:+ ": cannot scan nil"))
  | DriverBytes b =>
      if (length b =? n)%nat then Ok b else Err (Errorf (name +:+ ": expected bytes, got another number"))
  | _ => Err (Errorf (name +:+ ": expected []byte, got %T"))
  end.
Definition address_Scan := array_Scan "address" 20.
Definition signature_Scan := array_Scan "signature" 65.
Definition collectionID_Scan := array_Scan "collectionID" 32.
Definition address_Value (a : list byte) : driver_value := DriverBytes a.
Definition signature_Value (s : list byte) : driver_value := DriverBytes s.
Definition collectionID_Value (c : list byte) : driver_value := DriverBytes c.

(** ** Rows ([mappings.go])

    A status or state column holds the text of one of the constants, so it is
    their type here; a NULL metadata object reads as the empty map. *)

Section Rows.
Context `{Uint256}.

Record sessionRow : Type := mkSessionRow {
  sr_ID : string;
  sr_CreatedAt : time;
  sr_UpdatedAt : time;
  sr_LastKeepAlive : time;
  sr_Status : SessionStatus;
  sr_Metadata : gmap string string;
  sr_EndedAt : option time;
  sr_EndReason : option EndReason;
  sr_Payer : list byte;
  sr_Receiver : list byte;
  sr_DataService : list byte;
  sr_Signer : list byte;
  sr_BlocksProcessed : Z;
  sr_BytesTransferred : Z;
  sr_Requests : Z;
  sr_TotalCost : option Z;
  sr_BaselineBlocks : Z;
  sr_BaselineBytes : Z;
  sr_BaselineReqs : Z;
  sr_BaselineCost : option Z
}.
#[global] Instance sessionRow_eta : Eta sessionRow := fun r =>
  mkSessionRow (sr_ID r) (sr_CreatedAt r) (sr_UpdatedAt r) (sr_LastKeepAlive r) (sr_Status r) (sr_Metadata r)
    (sr_EndedAt r) (sr_EndReason r) (sr_Payer r) (sr_Receiver r) (sr_DataService r) (sr_Signer r)
    (sr_BlocksProcessed r) (sr_BytesTransferred r) (sr_Requests r) (sr_TotalCost r) (sr_BaselineBlocks r)
    (sr_BaselineBytes r) (sr_BaselineReqs r) (sr_BaselineCost r).

Record ravRow : Type := mkRavRow {
  rr_SessionID : string;
  rr_CollectionID : list byte;
  rr_Payer : list byte;
  rr_ServiceProvider : list byte;
  rr_DataService : list byte;
  rr_TimestampNs : Z;
  rr_ValueAggregate : option Z;
  rr_Metadata : list byte;
  rr_Signature : list byte;
  rr_CreatedAt : time
}.
#[global] Instance ravRow_eta : Eta ravRow := fun r =>
  mkRavRow (rr_SessionID r) (rr_CollectionID r) (rr_Payer r) (rr_ServiceProvider r) (rr_DataService r)
    (rr_TimestampNs r) (rr_ValueAggregate r) (rr_Metadata r) (rr_Signature r) (rr_CreatedAt r).

Record collectionRecordRow : Type := mkCollectionRow {
  cw_SessionID : string;
  cw_CollectionID : list byte;
  cw_Payer : list byte;
  cw_ServiceProvider : list byte;
  cw_DataService : list byte;
  cw_RAVTimestampNs : Z;
  cw_ValueAggregate : option Z;
  cw_RAVMetadata : list byte;
  cw_RAVSignature : list byte;
  cw_State : CollectionState;
  cw_AttemptCount : Z;
  cw_LastTxHash : option string;
  cw_LastError : option string;
  cw_CollectedAmount : option Z;
  cw_CreatedAt : time;
  cw_UpdatedAt : time
}.
#[global] Instance collectionRow_eta : Eta collectionRecordRow := fun r =>
  mkCollectionRow (cw_SessionID r) (cw_CollectionID r) (cw_Payer r) (cw_ServiceProvider r) (cw_DataService r)
    (cw_RAVTimestampNs r) (cw_ValueAggregate r) (cw_RAVMetadata r) (cw_RAVSignature r) (cw_State r)
    (cw_AttemptCount r) (cw_LastTxHash r) (cw_LastError r) (cw_CollectedAmount r) (cw_CreatedAt r)
    (cw_UpdatedAt r).

Record workerRow : Type := mkWorkerRow {
  wr_Key : string;
  wr_SessionID : string;
  wr_Payer : list byte;
  wr_CreatedAt : time;
  wr_TraceID : option string
}.

Record quotaUsageRow : Type := mkQuotaRow {
  qr_Payer : list byte;
  qr_ActiveSessions : Z;
  qr_ActiveWorkers : Z;
  qr_LastUpdated : time
}.

Record usageEventRow : Type := mkUsageRow {
  ur_ID : Z;
  ur_SessionID : string;
  ur_Timestamp : time;
  ur_Blocks : Z;
  ur_Bytes : Z;
  ur_Requests : Z
}.

Definition sessionRow_toRepository (row : sessionRow) (rav : option SignedRAV) (pricingConfig : PricingConfig) :
    Session :=
  mkSession (sr_ID row) (sr_CreatedAt row) (sr_UpdatedAt row) (sr_LastKeepAlive row) (sr_Status row)
    (sr_Metadata row) (sr_EndedAt row) (default END_REASON_UNSPECIFIED (sr_EndReason row))
    (sr_Payer row) (sr_Receiver row) (sr_DataService row) rav
    (wrap_u64 (sr_BlocksProcessed row)) (wrap_u64 (sr_BytesTransferred row)) (wrap_u64 (sr_Requests row))
    (sr_TotalCost row)
    (wrap_u64 (sr_BaselineBlocks row)) (wrap_u64 (sr_BaselineBytes row)) (wrap_u64 (sr_BaselineReqs row))
    (sr_BaselineCost row) pricingConfig.

(** [sql.NullInt32] of an end reason. *)
Definition end_reason_column (reason : EndReason) : option EndReason :=
  if bool_decide (reason = END_REASON_UNSPECIFIED) then None else Some reason.

Definition fromSession (session : Session) : sessionRow :=
  mkSessionRow (s_ID session) (s_CreatedAt session) (s_UpdatedAt session) (s_LastKeepAlive session)
    (s_Status session) (s_Metadata session) (s_EndedAt session) (end_reason_column (s_EndReason session))
    (newAddress (s_Payer session)) (newAddress (s_Receiver session)) (newAddress (s_DataService session))
    (newAddress [])
    (wrap_s64 (s_BlocksProcessed session)) (wrap_s64 (s_BytesTransferred session))
    (wrap_s64 (s_Requests session)) (newGRT (s_TotalCost session))
    (wrap_s64 (s_BaselineBlocks session)) (wrap_s64 (s_BaselineBytes session))
    (wrap_s64 (s_BaselineReqs session)) (newGRT (s_BaselineCost session)).

Definition ravRow_toRepository (row : ravRow) : SignedRAV :=
  mkSigned (Some (mkRAV (rr_CollectionID row) (rr_Payer row) (rr_ServiceProvider row) (rr_DataService row)
                    (wrap_u64 (rr_TimestampNs row)) (rr_ValueAggregate row) (rr_Metadata row)))
    (rr_Signature row).

Definition fromRAV (now : time) (sessionID : string) (rav : option SignedRAV) : option ravRow :=
  sm ← rav;
  m ← Message sm;
  Some (mkRavRow sessionID (newCollectionID (rav_CollectionID m)) (newAddress (rav_Payer m))
          (newAddress (rav_ServiceProvider m)) (newAddress (rav_DataService m))
          (wrap_s64 (rav_TimestampNs m)) (newGRT (rav_ValueAggregate m)) (rav_Metadata m)
          (newSignature (Signature sm)) now).

Definition collectionRow_toRepository (row : collectionRecordRow) : CollectionRecord :=
  mkCollectionRecord
    (mkCollectionKey (cw_SessionID row) (cw_CollectionID row) (cw_Payer row) (cw_ServiceProvider row)
       (cw_DataService row))
    (Some (mkSigned (Some (mkRAV (cw_CollectionID row) (cw_Payer row) (cw_ServiceProvider row)
                             (cw_DataService row) (wrap_u64 (cw_RAVTimestampNs row)) (cw_ValueAggregate row)
                             (cw_RAVMetadata row)))
             (cw_RAVSignature row)))
    (cw_ValueAggregate row) (cw_State row) (cw_AttemptCount row) (default ""%string (cw_LastTxHash row))
    (default ""%string (cw_LastError row)) (cw_CollectedAmount row) (cw_CreatedAt row) (cw_UpdatedAt row).

(** [sql.NullString], empty text being NULL. *)
Definition nullableString (value : string) : option string :=
  if String.eqb value "" then None else Some value.

Definition workerRow_toRepository (row : workerRow) : Worker :=
  mkWorker (wr_Key row) (wr_SessionID row) (wr_Payer row) (wr_CreatedAt row)
    (default ""%string (wr_TraceID row)).
Definition fromWorker (worker : Worker) : workerRow :=
  mkWorkerRow (wk_Key worker) (wk_SessionID worker) (newAddress (wk_Payer worker)) (wk_CreatedAt worker)
    (nullableString (wk_TraceID worker)).

Definition quotaRow_toRepository (row : quotaUsageRow) : QuotaUsage :=
  mkQuotaUsage (qr_Payer row) (qr_ActiveSessions row) (qr_ActiveWorkers row) (qr_LastUpdated row).
Definition usageRow_toRepository (row : usageEventRow) : UsageEvent :=
  mkUsageEvent (ur_Timestamp row) (ur_Blocks row) (ur_Bytes row) (ur_Requests row).
Definition fromUsageEvent (sessionID : string) (event : UsageEvent) : usageEventRow :=
  mkUsageRow 0 sessionID (ue_Timestamp event) (ue_Blocks event) (ue_Bytes event) (ue_Requests event).
End Rows.

(** ** Tables and statements *)

(** Primary key of [collection_records]. *)
Abbreviation coll_pk := (string * list byte * list byte * list byte * list byte)%type.

Section Database.
Context `{Uint256} `{Eth} `{PostgresTypes}.

Record Database : Type := mkDatabase {
  pg_sessions : gmap string sessionRow;
  pg_ravs : gmap string ravRow;
  pg_records : gmap coll_pk collectionRecordRow;
  pg_workers : gmap string workerRow;
  pg_quotas : gmap (list byte) quotaUsageRow;
  pg_usage : list usageEventRow;
  pg_clock : time
}.
#[global] Instance Database_eta : Eta Database := fun d =>
  mkDatabase (pg_sessions d) (pg_ravs d) (pg_records d) (pg_workers d) (pg_quotas d) (pg_usage d) (pg_clock d).

(** The database after the migrations. *)
Definition NewDatabase (clock : time) : Database := mkDatabase ∅ ∅ ∅ ∅ ∅ [] clock.

(** A statement, or several of one transaction. *)
Definition stmt (A : Type) : Type := Database -> result go_error (A * Database).

Definition stmt_bind {A B} (m : stmt A) (k : A -> stmt B) : stmt B := fun db =>
  match m db with Err e => Err e | Ok (a, db') => k a db' end.
Definition stmt_ret {A} (a : A) : stmt A := fun db => Ok (a, db).
Definition stmt_fail {A} (e : go_error) : stmt A := fun _ => Err e.
Notation "'run' x := m 'in' k" := (stmt_bind m (fun x => k))
  (at level 10, x pattern, m at level 100, k at level 200).

(** An error rolls everything back. *)
Definition commit {A} (m : stmt A) (db : Database) : result go_error A * Database :=
  match m db with Ok (a, db') => (Ok a, db') | Err e => (Err e, db) end.

Definition pq_error (what : string) : go_error := Wrapf "failed %s: %w" (ErrorsNew what).
Definition too_long := pq_error "value too long for type character varying".
Definition bad_text := pq_error "invalid byte sequence for encoding UTF8".
Definition duplicate_key := pq_error "duplicate key value violates unique constraint".
Definition foreign_key := pq_error "insert violates foreign key constraint".
Definition out_of_range := pq_error "integer out of range".

Definition column {A} (e : go_error) (v : option A) : stmt A :=
  match v with Some a => stmt_ret a | None => stmt_fail e end.
Definition sql_check (e : go_error) (b : bool) : stmt unit := if b then stmt_ret tt else stmt_fail e.
Definition null_text (v : option string) : stmt (option string) :=
  match v with
  | None => stmt_ret None
  | Some s => run t := column bad_text (pg_text s) in stmt_ret (Some t)
  end.

Definition null_varchar (v : option string) : stmt (option string) :=
  match v with
  | None => stmt_ret None
  | Some s => run t := column too_long (varchar 255 s) in stmt_ret (Some t)
  end.

Definition int4 (z : Z) : bool := (- 2 ^ 31 <=? z) && (z <? 2 ^ 31).
Definition int8 (z : Z) : bool := (- 2 ^ 63 <=? z) && (z <? 2 ^ 63).

(** The foreign key to [sessions]. *)
Definition references (sessionID : string) : stmt unit := fun db =>
  match pg_sessions db !! sessionID with Some _ => Ok (tt, db) | None => Err foreign_key end.

(** [execOne] and [getOne]: one row, or [ErrNotFound]. *)
Definition one_row {A} (rows : option A) : stmt A := column ErrNotFound rows.

(** ** Sessions *)

(** The row as the columns hold it. *)
Definition session_columns (row : sessionRow) : stmt sessionRow :=
  run id := column too_long (varchar 255 (sr_ID row)) in
  run md := column bad_text (jsonb (sr_Metadata row)) in
  stmt_ret (mkSessionRow id (timestamptz (sr_CreatedAt row)) (timestamptz (sr_UpdatedAt row))
              (timestamptz (sr_LastKeepAlive row)) (sr_Status row) md (timestamptz <$> sr_EndedAt row)
              (sr_EndReason row) (sr_Payer row) (sr_Receiver row) (sr_DataService row) (sr_Signer row)
              (sr_BlocksProcessed row) (sr_BytesTransferred row) (sr_Requests row) (sr_TotalCost row)
              (sr_BaselineBlocks row) (sr_BaselineBytes row) (sr_BaselineReqs row) (sr_BaselineCost row)).

Definition put_session_row (row : sessionRow) : stmt unit := fun db =>
  Ok (tt, db <| pg_sessions := <[sr_ID row := row]> (pg_sessions db) |>).

(** [BEFORE UPDATE ON sessions]. *)
Definition update_updated_at_column (row : sessionRow) : stmt sessionRow := fun db =>
  Ok (row <| sr_UpdatedAt := timestamptz (pg_clock db) |>, db).

Definition find_session (id : string) : stmt (option sessionRow) := fun db => Ok (pg_sessions db !! id, db).

(** [UPDATE sessions SET ... WHERE id = :id], the rows it returns. *)
Definition update_session (id : string) (set : sessionRow -> stmt sessionRow) : stmt (option sessionRow) :=
  run old := find_session id in
  match old with
  | None => stmt_ret None
  | Some old =>
      run row := set old in
      run row := update_updated_at_column row in
      run _ := put_session_row row in
      stmt_ret (Some row)
  end.

Definition session_create_sql (params : sessionRow) : stmt sessionRow :=
  run row := session_columns params in
  run old := find_session (sr_ID row) in
  run _ := sql_check duplicate_key (bool_decide (old = None)) in
  run _ := put_session_row row in
  stmt_ret row.

Definition session_update_sql (params : sessionRow) : stmt (option sessionRow) :=
  update_session (sr_ID params) (fun row =>
    run new := session_columns (params <| sr_ID := sr_ID row |>) in
    stmt_ret (mkSessionRow (sr_ID row) (sr_CreatedAt row) (sr_UpdatedAt new) (sr_LastKeepAlive new)
                (sr_Status new) (sr_Metadata new) (sr_EndedAt new) (sr_EndReason new)
                (sr_Payer row) (sr_Receiver row) (sr_DataService row) (sr_Signer row)
                (sr_BlocksProcessed new) (sr_BytesTransferred new) (sr_Requests new) (sr_TotalCost new)
                (sr_BaselineBlocks new) (sr_BaselineBytes new) (sr_BaselineReqs new) (sr_BaselineCost new))).

Definition session_touch_sql (id : string) (updated_at last_keep_alive : time) : stmt (option string) :=
  run old := find_session id in
  match old with
  | None => stmt_ret None
  | Some old =>
      if sr_LastKeepAlive old <? timestamptz last_keep_alive
      then run _ := update_session id (fun row =>
             stmt_ret (row <| sr_UpdatedAt := timestamptz updated_at |>
                           <| sr_LastKeepAlive := timestamptz last_keep_alive |>)) in
           stmt_ret (Some id)
      else stmt_ret (Some id)
  end.

Definition session_update_runtime_state_sql (id : string) (updated_at : time) (status : SessionStatus)
    (metadata : gmap string string) (ended_at : option time) (end_reason : option EndReason) :
    stmt (option string) :=
  run old := find_session id in
  match old with
  | None => stmt_ret None
  | Some old =>
      if bool_decide (sr_Status old = SessionStatusTerminated) then stmt_ret (Some id)
      else run _ := update_session id (fun row =>
             run md := column bad_text (jsonb metadata) in
             stmt_ret (row <| sr_UpdatedAt := timestamptz updated_at |> <| sr_Status := status |>
                         <| sr_Metadata := md |> <| sr_EndedAt := timestamptz <$> ended_at |>
                         <| sr_EndReason := end_reason |>)) in
           stmt_ret (Some id)
  end.

Definition session_update_rav_baseline_sql (id : string) (updated_at : time) (blocks bytes reqs : Z)
    (cost : option Z) : stmt (option string) :=
  run row := update_session id (fun row =>
    stmt_ret (row <| sr_UpdatedAt := timestamptz updated_at |> <| sr_BaselineBlocks := blocks |>
                  <| sr_BaselineBytes := bytes |> <| sr_BaselineReqs := reqs |>
                  <| sr_BaselineCost := cost |>)) in
  stmt_ret (sr_ID <$> row).

Definition session_apply_usage_sql (id : string) (blocks_delta bytes_delta requests_delta : Z)
    (cost_delta : option Z) : stmt (option sessionRow) :=
  update_session id (fun row =>
    run _ := sql_check out_of_range (int8 (sr_BlocksProcessed row + blocks_delta) &&
                                 int8 (sr_BytesTransferred row + bytes_delta) &&
                                 int8 (sr_Requests row + requests_delta)) in
    stmt_ret (row <| sr_BlocksProcessed := sr_BlocksProcessed row + blocks_delta |>
                  <| sr_BytesTransferred := sr_BytesTransferred row + bytes_delta |>
                  <| sr_Requests := sr_Requests row + requests_delta |>
                  <| sr_TotalCost := (c ← cost_delta; Some (default 0 (sr_TotalCost row) + c)) |>)).

Definition session_upsert_rav_sql (params : ravRow) : stmt ravRow :=
  run id := column too_long (varchar 255 (rr_SessionID params)) in
  run _ := references id in
  let row := params <| rr_SessionID := id |> <| rr_CreatedAt := timestamptz (rr_CreatedAt params) |> in
  fun db => Ok (row, db <| pg_ravs := <[id := row]> (pg_ravs db) |>).

Definition session_get_rav_sql (sessionID : string) : stmt (option ravRow) := fun db =>
  Ok (pg_ravs db !! sessionID, db).

(** [ORDER BY created_at DESC]; rows of one instant come in any order. *)
Definition newer_first (a b : sessionRow) : Prop := sr_CreatedAt b <= sr_CreatedAt a.
#[global] Instance newer_first_dec : RelDecision newer_first := fun a b => decide (sr_CreatedAt b <= sr_CreatedAt a).
Definition session_list_sql (db : Database) : list sessionRow :=
  merge_sort newer_first (map snd (map_to_list (pg_sessions db))).

(** ** Collections *)

Definition row_pk (row : collectionRecordRow) : coll_pk :=
  (cw_SessionID row, cw_CollectionID row, cw_Payer row, cw_ServiceProvider row, cw_DataService row).
Definition collectionKeyParams (key : CollectionKey) : coll_pk :=
  (ck_SessionID key, newCollectionID (ck_CollectionID key), newAddress (ck_Payer key),
   newAddress (ck_ServiceProvider key), newAddress (ck_DataService key)).

Definition put_record_row (row : collectionRecordRow) : stmt collectionRecordRow := fun db =>
  Ok (row, db <| pg_records := <[row_pk row := row]> (pg_records db) |>).
Definition collection_get_sql (key : coll_pk) : stmt (option collectionRecordRow) := fun db =>
  Ok (pg_records db !! key, db).

(** [a < b] on NUMERIC, false on NULL. *)
Definition numeric_lt (a b : option Z) : bool :=
  match a, b with Some a, Some b => a <? b | _, _ => false end.
Definition numeric_eq (a b : option Z) : bool :=
  match a, b with Some a, Some b => a =? b | _, _ => false end.

Definition collection_upsert_collectible_sql (params : collectionRecordRow) : stmt (option collectionRecordRow) :=
  run id := column too_long (varchar 255 (cw_SessionID params)) in
  let new := params <| cw_SessionID := id |> <| cw_CreatedAt := timestamptz (cw_CreatedAt params) |>
                    <| cw_UpdatedAt := timestamptz (cw_UpdatedAt params) |> in
  run old := collection_get_sql (row_pk new) in
  match old with
  | None =>
      run _ := references id in
      run row := put_record_row new in
      stmt_ret (Some row)
  | Some old =>
      if bool_decide (cw_State old = CollectionStateCollectible) ||
         bool_decide (cw_State old = CollectionStateCollectFailedRetryable) ||
         (bool_decide (cw_State old = CollectionStateCollected) &&
          numeric_lt (cw_ValueAggregate old) (cw_ValueAggregate new))
      then run row := put_record_row (new <| cw_CreatedAt := cw_CreatedAt old |>) in stmt_ret (Some row)
      else stmt_ret None
  end.

(** [UPDATE collection_records SET ... WHERE key AND value_aggregate = :expected_value AND state IN (...)]. *)
Definition update_collection (key : coll_pk) (expected : option Z) (states : CollectionState -> bool)
    (set : collectionRecordRow -> stmt collectionRecordRow) : stmt (option collectionRecordRow) :=
  run old := collection_get_sql key in
  match old with
  | None => stmt_ret None
  | Some old =>
      if numeric_eq (cw_ValueAggregate old) expected && states (cw_State old)
      then run row := set old in run row := put_record_row row in stmt_ret (Some row)
      else stmt_ret None
  end.

(** The columns a settlement step writes. *)
Definition settlement_columns (row : collectionRecordRow) (state : CollectionState) (attempt_count : Z)
    (last_tx_hash last_error : option string) (collected_amount : option Z) (updated_at : time) :
    collectionRecordRow :=
  mkCollectionRow (cw_SessionID row) (cw_CollectionID row) (cw_Payer row) (cw_ServiceProvider row)
    (cw_DataService row) (cw_RAVTimestampNs row) (cw_ValueAggregate row) (cw_RAVMetadata row)
    (cw_RAVSignature row) state attempt_count last_tx_hash last_error collected_amount (cw_CreatedAt row)
    (timestamptz updated_at).

Definition collection_mark_pending_sql (key : coll_pk) (expected : option Z) (last_tx_hash : option string)
    (updated_at : time) : stmt (option collectionRecordRow) :=
  update_collection key expected
    (fun st => bool_decide (st = CollectionStateCollectible) ||
               bool_decide (st = CollectionStateCollectFailedRetryable))
    (fun row =>
       run tx := null_text last_tx_hash in
       run _ := sql_check out_of_range (int4 (cw_AttemptCount row + 1)) in
       stmt_ret (settlement_columns row CollectionStateCollectPending (cw_AttemptCount row + 1) tx None
                   (cw_CollectedAmount row) updated_at)).

Definition collection_mark_collected_sql (key : coll_pk) (expected : option Z) (last_tx_hash : option string)
    (collected_amount : option Z) (updated_at : time) : stmt (option collectionRecordRow) :=
  update_collection key expected (fun st => bool_decide (st = CollectionStateCollectPending))
    (fun row =>
       run tx := null_text last_tx_hash in
       stmt_ret (settlement_columns row CollectionStateCollected (cw_AttemptCount row) tx None
                   collected_amount updated_at)).

Definition collection_mark_failed_retryable_sql (key : coll_pk) (expected : option Z)
    (last_tx_hash last_error : option string) (updated_at : time) : stmt (option collectionRecordRow) :=
  update_collection key expected (fun st => bool_decide (st = CollectionStateCollectPending))
    (fun row =>
       run tx := null_text last_tx_hash in
       run err := null_text last_error in
       stmt_ret (settlement_columns row CollectionStateCollectFailedRetryable (cw_AttemptCount row) tx err
                   (cw_CollectedAmount row) updated_at)).

(** ** Workers, quotas and usage events *)

Definition worker_create_sql (params : workerRow) : stmt workerRow :=
  run key := column too_long (varchar 255 (wr_Key params)) in
  run id := column too_long (varchar 255 (wr_SessionID params)) in
  run trace := null_varchar (wr_TraceID params) in
  run old := (fun db => Ok (pg_workers db !! key, db)) : stmt (option workerRow) in
  run _ := sql_check duplicate_key (bool_decide (old = None)) in
  run _ := references id in
  let row := mkWorkerRow key id (wr_Payer params) (timestamptz (wr_CreatedAt params)) trace in
  fun db => Ok (row, db <| pg_workers := <[key := row]> (pg_workers db) |>).

Definition worker_delete_sql (key : string) : stmt unit := fun db =>
  Ok (tt, db <| pg_workers := delete key (pg_workers db) |>).

Definition worker_count_by_session_sql (db : Database) (sessionID : string) : Z :=
  Z.of_nat (length (List.filter (fun w => String.eqb (wr_SessionID w) sessionID)
                      (map snd (map_to_list (pg_workers db))))).

Definition quota_get_sql (payer : list byte) : stmt (option quotaUsageRow) := fun db =>
  Ok (pg_quotas db !! payer, db).
Definition put_quota_row (row : quotaUsageRow) : stmt quotaUsageRow := fun db =>
  Ok (row, db <| pg_quotas := <[qr_Payer row := row]> (pg_quotas db) |>).

(** [CURRENT_TIMESTAMP]. *)
Definition current_timestamp : stmt time := fun db => Ok (timestamptz (pg_clock db), db).

(** [INSERT INTO quota_usage ... ON CONFLICT (payer) DO NOTHING]. *)
Definition quota_ensure_sql (payer : list byte) : stmt unit :=
  run old := quota_get_sql payer in
  run now := current_timestamp in
  match old with
  | Some _ => stmt_ret tt
  | None => run _ := put_quota_row (mkQuotaRow payer 0 0 now) in stmt_ret tt
  end.

Definition quota_increment_sql (payer : list byte) (sessions workers : Z) : stmt quotaUsageRow :=
  run _ := sql_check out_of_range (int4 sessions && int4 workers) in
  run old := quota_get_sql payer in
  run now := current_timestamp in
  let s := match old with Some q => qr_ActiveSessions q + sessions | None => sessions end in
  let w := match old with Some q => qr_ActiveWorkers q + workers | None => workers end in
  run _ := sql_check out_of_range (int4 s && int4 w) in
  put_quota_row (mkQuotaRow payer s w now).

Definition quota_decrement_sql (payer : list byte) (sessions workers : Z) : stmt (option quotaUsageRow) :=
  run _ := sql_check out_of_range (int4 sessions && int4 workers) in
  run old := quota_get_sql payer in
  run now := current_timestamp in
  match old with
  | None => stmt_ret None
  | Some q =>
      let s := qr_ActiveSessions q - sessions in
      let w := qr_ActiveWorkers q - workers in
      run _ := sql_check out_of_range (int4 s && int4 w) in
      run row := put_quota_row (mkQuotaRow payer (Z.max 0 s) (Z.max 0 w) now) in
      stmt_ret (Some row)
  end.

Definition usage_add_sql (params : usageEventRow) : stmt usageEventRow :=
  run id := column too_long (varchar 255 (ur_SessionID params)) in
  run _ := references id in
  fun db =>
    let row := mkUsageRow (Z.of_nat (length (pg_usage db)) + 1) id (timestamptz (ur_Timestamp params))
                 (ur_Blocks params) (ur_Bytes params) (ur_Requests params) in
    Ok (row, db <| pg_usage := pg_usage db ++ [row] |>).

(** ** Operations ([collection.go]) *)

Definition collectionCollectibleParams (now : time) (sessionID : string) (rav : option SignedRAV) :
    result go_error (collectionRecordRow * CollectionKey * Z) :=
  if String.eqb sessionID "" then Err (Errorf "session ID must not be empty") else
  match rav with
  | None => Err (Errorf "signed RAV must not be nil")
  | Some sm =>
    match Message sm with
    | None => Err (Errorf "signed RAV must not be nil")
    | Some m =>
      match rav_ValueAggregate m with
      | None => Err (Errorf "signed RAV value aggregate must not be nil")
      | Some v =>
          Ok (mkCollectionRow sessionID (newCollectionID (rav_CollectionID m)) (newAddress (rav_Payer m))
                (newAddress (rav_ServiceProvider m)) (newAddress (rav_DataService m))
                (wrap_s64 (rav_TimestampNs m)) (newGRT (Some v)) (rav_Metadata m) (newSignature (Signature sm))
                CollectionStateCollectible 0 None None None now now,
              mkCollectionKey sessionID (rav_CollectionID m) (rav_Payer m) (rav_ServiceProvider m)
                (rav_DataService m), v)
      end
    end
  end.

Definition collectionGetTx (key : CollectionKey) : stmt CollectionRecord :=
  run row := collection_get_sql (collectionKeyParams key) in
  run row := one_row row in
  stmt_ret (collectionRow_toRepository row).

Definition collectionCreateOrUpdateCollectibleTx (now : time) (sessionID : string) (rav : option SignedRAV) :
    stmt CollectionRecord :=
  match collectionCollectibleParams now sessionID rav with
  | Err e => stmt_fail e
  | Ok (params, key, v) =>
      run row := collection_upsert_collectible_sql params in
      match row with
      | Some row => stmt_ret (collectionRow_toRepository row)
      | None =>
          run existing := collectionGetTx key in
          run _ := sql_check ErrCollectionConflict
            (negb (bool_decide (cr_State existing = CollectionStateCollectPending) &&
                   negb (collectionValuesEqual (cr_ValueAggregate existing) (Some v)))) in
          run _ := sql_check ErrCollectionConflict
            (negb (bool_decide (cr_State existing = CollectionStateCollected) &&
                   numeric_lt (Some v) (cr_ValueAggregate existing))) in
          stmt_ret existing
      end
  end.

(** The same two statements, each committed on its own. *)
Definition pg_CollectionCreateOrUpdateCollectible (db : Database) (now : time) (sessionID : string)
    (rav : option SignedRAV) : result go_error CollectionRecord * Database :=
  commit (collectionCreateOrUpdateCollectibleTx now sessionID rav) db.

Definition pg_CollectionGet (db : Database) (key : CollectionKey) : result go_error CollectionRecord :=
  (commit (collectionGetTx key) db).1.

(** [ORDER BY updated_at DESC]. *)
Definition updated_first (a b : collectionRecordRow) : Prop := cw_UpdatedAt b <= cw_UpdatedAt a.
#[global] Instance updated_first_dec : RelDecision updated_first := fun a b => decide (cw_UpdatedAt b <= cw_UpdatedAt a).
Definition pg_CollectionList (db : Database) (filter : CollectionFilter) : list CollectionRecord :=
  List.filter (collection_matches filter)
    (map collectionRow_toRepository (merge_sort updated_first (map snd (map_to_list (pg_records db))))).

Definition classifyCollectionTransitionFailure (db : Database) (key : CollectionKey)
    (expectedValue : option Z) : go_error :=
  match pg_CollectionGet db key with
  | Err e => e
  | Ok current =>
      if negb (collectionValuesEqual (cr_ValueAggregate current) expectedValue) then ErrCollectionConflict
      else ErrInvalidCollectionTransition
  end.

Definition execCollectionTransition (db : Database) (statement : stmt (option collectionRecordRow))
    (key : CollectionKey) (expectedValue : option Z) : result go_error CollectionRecord * Database :=
  match commit statement db with
  | (Err e, db') => (Err e, db')
  | (Ok (Some row), db') => (Ok (collectionRow_toRepository row), db')
  | (Ok None, db') => (Err (classifyCollectionTransitionFailure db' key expectedValue), db')
  end.

Definition pg_CollectionMarkPending (db : Database) (now : time) (key : CollectionKey)
    (expectedValue : option Z) (txHash : string) (updatedAt : time) : result go_error CollectionRecord * Database :=
  execCollectionTransition db
    (collection_mark_pending_sql (collectionKeyParams key) (newGRT expectedValue) (nullableString txHash)
       (collectionUpdatedAt now updatedAt)) key expectedValue.

Definition pg_CollectionMarkCollected (db : Database) (now : time) (key : CollectionKey)
    (expectedValue : option Z) (txHash : string) (collectedAmount : option Z) (updatedAt : time) :
    result go_error CollectionRecord * Database :=
  execCollectionTransition db
    (collection_mark_collected_sql (collectionKeyParams key) (newGRT expectedValue) (nullableString txHash)
       collectedAmount (collectionUpdatedAt now updatedAt)) key expectedValue.

Definition pg_CollectionMarkFailedRetryable (db : Database) (now : time) (key : CollectionKey)
    (expectedValue : option Z) (txHash lastError : string) (updatedAt : time) :
    result go_error CollectionRecord * Database :=
  execCollectionTransition db
    (collection_mark_failed_retryable_sql (collectionKeyParams key) (newGRT expectedValue)
       (nullableString txHash) (nullableString lastError) (collectionUpdatedAt now updatedAt)) key expectedValue.

(** ** Operations ([session.go]) *)

Definition upsertRAVTx (now : time) (sessionID : string) (rav : option SignedRAV) : stmt unit :=
  match fromRAV now sessionID rav with
  | None => stmt_fail GoPanic
  | Some ravRw => run _ := session_upsert_rav_sql ravRw in stmt_ret tt
  end.

(** The RAV of a session and its collection record. *)
Definition store_rav (now : time) (sessionID : string) (rav : option SignedRAV) : stmt unit :=
  run _ := upsertRAVTx now sessionID rav in
  run _ := collectionCreateOrUpdateCollectibleTx now sessionID rav in
  stmt_ret tt.

Definition sessionCreateWithRAVTx (now : time) (session : Session) : stmt unit :=
  run _ := session_create_sql (fromSession session) in
  store_rav now (s_ID session) (s_CurrentRAV session).

Definition pg_SessionCreate (db : Database) (now : time) (session : option Session) :
    result go_error unit * Database :=
  match session with
  | None => (Err GoPanic, db)
  | Some s =>
      match s_CurrentRAV s with
      | Some _ => commit (sessionCreateWithRAVTx now s) db
      | None => commit (run _ := session_create_sql (fromSession s) in stmt_ret tt) db
      end
  end.

(** The RAV stored for a session. *)
Definition get_rav (db : Database) (sessionID : string) : option SignedRAV :=
  ravRow_toRepository <$> pg_ravs db !! sessionID.

Definition no_pricing : PricingConfig := mkPricingConfig ZeroGRT ZeroGRT.

Definition pg_SessionGet (db : Database) (sessionID : string) : result go_error Session :=
  match pg_sessions db !! sessionID with
  | None => Err ErrNotFound
  | Some row => Ok (sessionRow_toRepository row (get_rav db sessionID) no_pricing)
  end.

Definition sessionUpdateWithRAVTx (now : time) (session : Session) : stmt unit :=
  run row := session_update_sql (fromSession session) in
  run _ := one_row row in
  store_rav now (s_ID session) (s_CurrentRAV session).

Definition pg_SessionUpdate (db : Database) (now : time) (session : option Session) :
    result go_error unit * Database :=
  match session with
  | None => (Err GoPanic, db)
  | Some s =>
      match s_CurrentRAV s with
      | Some _ => commit (sessionUpdateWithRAVTx now s) db
      | None => commit (run row := session_update_sql (fromSession s) in
                        run _ := one_row row in stmt_ret tt) db
      end
  end.

Definition pg_SessionTouch (db : Database) (sessionID : string) (lastKeepAlive : time) :
    result go_error unit * Database :=
  commit (run row := session_touch_sql sessionID lastKeepAlive lastKeepAlive in
          run _ := one_row row in stmt_ret tt) db.

Definition pg_SessionUpdateRuntimeState (db : Database) (sessionID : string) (status : SessionStatus)
    (metadata : gmap string string) (endedAt : option time) (endReason : EndReason) (updatedAt : time) :
    result go_error unit * Database :=
  commit (run row := session_update_runtime_state_sql sessionID updatedAt status metadata endedAt
                       (end_reason_column endReason) in
          run _ := one_row row in stmt_ret tt) db.

Definition pg_SessionUpdateRAVAndBaseline (db : Database) (now : time) (sessionID : string)
    (currentRAV : option SignedRAV) (baselineBlocks baselineBytes baselineReqs : Z) (baselineCost : option Z) :
    result go_error unit * Database :=
  commit
    (run row := session_update_rav_baseline_sql sessionID now (wrap_s64 baselineBlocks)
                  (wrap_s64 baselineBytes) (wrap_s64 baselineReqs) (newGRT baselineCost) in
     run _ := one_row row in
     match currentRAV with
     | None => stmt_ret tt
     | Some _ => store_rav now sessionID currentRAV
     end) db.

(** The filters of the loop over the rows. *)
Definition row_matches (filter : SessionFilter) (row : sessionRow) : bool :=
  match sf_Payer filter with Some p => bool_decide (sr_Payer row = p) | None => true end &&
  match sf_Status filter with Some st => bool_decide (sr_Status row = st) | None => true end &&
  match sf_CreatedAfter filter with Some t => negb (sr_CreatedAt row <? t) | None => true end.

Definition pg_SessionList (db : Database) (filter : SessionFilter) : list Session :=
  map (fun row => sessionRow_toRepository row (get_rav db (sr_ID row)) no_pricing)
    (List.filter (row_matches filter) (session_list_sql db)).

Definition pg_SessionCount (db : Database) : Z := Z.of_nat (size (pg_sessions db)).

(** ** Operations ([usage.go], [worker.go], [quota.go]) *)

Definition pg_UsageAdd (db : Database) (sessionID : string) (usage : option UsageEvent) :
    result go_error unit * Database :=
  match usage with
  | None => (Err GoPanic, db)
  | Some u => commit (run _ := usage_add_sql (fromUsageEvent sessionID u) in stmt_ret tt) db
  end.

Definition pg_SessionApplyUsage (db : Database) (sessionID : string) (usage : option UsageEvent)
    (cost : option Z) : result go_error unit * Database :=
  match usage with
  | None => (Err (Errorf "usage event must not be nil"), db)
  | Some u =>
      let '(blocks, bytes, requests) := SanitizedTotals usage in
      commit
        (run row := session_apply_usage_sql sessionID (wrap_s64 blocks) (wrap_s64 bytes) (wrap_s64 requests)
                      (newGRT cost) in
         run _ := one_row row in
         run _ := usage_add_sql (mkUsageRow 0 sessionID (ue_Timestamp u) (wrap_s64 blocks) (wrap_s64 bytes)
                                   (wrap_s64 requests)) in
         stmt_ret tt) db
  end.

Definition pg_WorkerCreate (db : Database) (worker : option Worker) : result go_error unit * Database :=
  match worker with
  | None => (Err GoPanic, db)
  | Some w => commit (run _ := worker_create_sql (fromWorker w) in stmt_ret tt) db
  end.

(** The body of a reservation: a refusal carries the usage it saw, and the
    caller rolls back on it. *)
Definition reserve_tx (payer : list byte) (maxWorkers workers : Z) (create : stmt unit) :
    stmt (QuotaUsage + QuotaUsage) :=
  run _ := quota_ensure_sql payer in
  run current := quota_get_sql payer in
  run current := column (Errorf "quota row missing after ensure") current in
  if qr_ActiveWorkers current + workers >? maxWorkers
  then stmt_ret (inl (quotaRow_toRepository current))
  else
    run _ := create in
    run updated := quota_increment_sql payer 0 workers in
    stmt_ret (inr (quotaRow_toRepository updated)).

Definition reserve (db : Database) (m : stmt (QuotaUsage + QuotaUsage)) :
    result (go_error * option QuotaUsage) QuotaUsage * Database :=
  match m db with
  | Err e => (Err (e, None), db)
  | Ok (inl seen, _) => (Err (ErrQuotaExceeded, Some seen), db)
  | Ok (inr updated, db') => (Ok updated, db')
  end.

Definition pg_WorkerCreateAndReserveQuota (db : Database) (worker : option Worker) (maxWorkers : Z) :
    result (go_error * option QuotaUsage) QuotaUsage * Database :=
  match worker with
  | None => (Err (Errorf "worker must not be nil", None), db)
  | Some w =>
    if String.eqb (wk_Key w) "" then (Err (Errorf "worker key must not be empty", None), db) else
    if maxWorkers <? 0 then (Err (Errorf "max workers must not be negative", None), db) else
    reserve db (reserve_tx (newAddress (wk_Payer w)) maxWorkers 1
                  (run _ := worker_create_sql (fromWorker w) in stmt_ret tt))
  end.

Definition pg_WorkerGet (db : Database) (workerKey : string) : result go_error Worker :=
  match pg_workers db !! workerKey with
  | Some row => Ok (workerRow_toRepository row)
  | None => Err ErrNotFound
  end.

Definition pg_WorkerCountBySession (db : Database) (sessionID : string) : Z :=
  worker_count_by_session_sql db sessionID.

Definition pg_WorkerDelete (db : Database) (workerKey : string) : result go_error unit * Database :=
  commit (worker_delete_sql workerKey) db.

Definition pg_QuotaGet (db : Database) (payer : address) : QuotaUsage :=
  match pg_quotas db !! newAddress payer with
  | None => mkQuotaUsage payer 0 0 0
  | Some row => quotaRow_toRepository row
  end.

Definition pg_QuotaReserve (db : Database) (payer : address) (maxWorkers workers : Z) :
    result (go_error * option QuotaUsage) QuotaUsage * Database :=
  if workers <=? 0 then (Err (Errorf "workers must be positive", None), db) else
  if maxWorkers <? 0 then (Err (Errorf "max workers must not be negative", None), db) else
  reserve db (reserve_tx (newAddress payer) maxWorkers workers (stmt_ret tt)).

Definition pg_QuotaIncrement (db : Database) (payer : address) (sessions workers : Z) :
    result go_error unit * Database :=
  commit (run _ := quota_increment_sql (newAddress payer) sessions workers in stmt_ret tt) db.

Definition pg_QuotaDecrement (db : Database) (payer : address) (sessions workers : Z) :
    result go_error unit * Database :=
  commit (run _ := quota_decrement_sql (newAddress payer) sessions workers in stmt_ret tt) db.

#[export] Instance postgres_repository : GlobalRepository Database := {|
  SessionCreate := pg_SessionCreate;
  SessionGet := pg_SessionGet;
  SessionUpdate := pg_SessionUpdate;
  SessionTouch := pg_SessionTouch;
  SessionUpdateRuntimeState := pg_SessionUpdateRuntimeState;
  SessionUpdateRAVAndBaseline := pg_SessionUpdateRAVAndBaseline;
  SessionApplyUsage db _ id u c := pg_SessionApplyUsage db id u c;
  SessionList := pg_SessionList;
  WorkerCreateAndReserveQuota db _ w m := pg_WorkerCreateAndReserveQuota db w m;
  WorkerGet := pg_WorkerGet;
  WorkerCountBySession db id := Ok (pg_WorkerCountBySession db id);
  WorkerDelete := pg_WorkerDelete;
  QuotaGet db _ payer := Ok (pg_QuotaGet db payer);
  QuotaDecrement db _ p s w := pg_QuotaDecrement db p s w;
  CollectionGet := pg_CollectionGet;
  CollectionList db f := Ok (pg_CollectionList db f);
  CollectionMarkPending := pg_CollectionMarkPending;
  CollectionMarkCollected := pg_CollectionMarkCollected;
  CollectionMarkFailedRetryable := pg_CollectionMarkFailedRetryable
|}.
End Database.
