(* ===== verification/PostgresProps.v ===== *)
(** The Postgres backend is interchangeable with the in-memory one: related
    states give the same answers and stay related, for every mutation the
    program performs and every query it makes.  Values survive the way through
    the columns. *)
From S2P Require Import Prelude.
From S2P Require Import GoStd.
From S2P Require Import Utf8.
From S2P Require Import External.
From S2P Require Import GRT.
From S2P Require Import Horizon.
From S2P Require Import Proto.
From S2P Require Import Repository.
From S2P Require Import InMemory.
From S2P Require Import InMemoryProps.
From S2P Require Import OperatorSessions.
From S2P Require Import Postgres.
From stdpp Require Import sorting.
#[local] Open Scope Z_scope.

(** ** Round trips through the columns *)

Lemma wrap_u64_s64 z : u64 z -> wrap_u64 (wrap_s64 z) = z.
Proof.
  unfold u64, wrap_u64, wrap_s64, two64. intros Hz. rewrite Zminus_mod_idemp_l.
  replace (z + 2 ^ 63 - 2 ^ 63) with z by lia. by apply Z.mod_small.
Qed.

Lemma wrap_s64_u64 z : s64 z -> wrap_s64 (wrap_u64 z) = z.
Proof.
  unfold s64, wrap_u64, wrap_s64, two64. intros Hz. rewrite Zplus_mod_idemp_l.
  rewrite Z.mod_small; lia.
Qed.

Lemma newAddress_20 a : length a = 20%nat -> newAddress a = a.
Proof. intros E. unfold newAddress. by rewrite E. Qed.

Lemma copy_array_exact n l : length l = n -> copy_array n l = l.
Proof. intros <-. unfold copy_array. rewrite take_ge, Nat.sub_diag by lia. simpl. by rewrite app_nil_r. Qed.

Lemma default_end_reason r : default END_REASON_UNSPECIFIED (end_reason_column r) = r.
Proof. by destruct r. Qed.

Lemma default_nullableString s : default ""%string (nullableString s) = s.
Proof. unfold nullableString. destruct (String.eqb_spec s ""); by subst. Qed.

(** A signed RAV whose fields have their widths. *)
Definition wf_signed (rav : SignedRAV) : Prop :=
  exists m v, Message rav = Some m /\ rav_ValueAggregate m = Some v /\
    length (rav_CollectionID m) = 32%nat /\ length (rav_Payer m) = 20%nat /\
    length (rav_ServiceProvider m) = 20%nat /\ length (rav_DataService m) = 20%nat /\
    u64 (rav_TimestampNs m) /\ length (Signature rav) = 65%nat.

Lemma rav_row_roundtrip now id rav row :
  wf_signed rav -> fromRAV now id (Some rav) = Some row -> ravRow_toRepository row = rav.
Proof.
  intros (m & v & Em & Ev & Hc & Hp & Hs & Hd & Ht & Hg). unfold fromRAV. simpl. rewrite Em. simpl.
  intros [= <-]. unfold ravRow_toRepository, newSignature, newCollectionID. simpl.
  rewrite !newAddress_20, !copy_array_exact, wrap_u64_s64, Ev by done.
  destruct rav as [om sig], m; simpl in *; by subst.
Qed.

(** ** What a read returns *)

Section Relation.
Context `{Uint256} `{EthLaws} `{PostgresTypesLaws}.
Implicit Types (db : Database) (r : InMemoryRepository).

(** A session as Postgres keeps it: timestamps are rounded, the prices are not
    stored, and the time of the last update is the server's. *)
Definition forget_updated (s : Session) : Session := s <| s_UpdatedAt := 0 |>.
Definition stored_session (s : Session) : Session :=
  s <| s_UpdatedAt := 0 |> <| s_CreatedAt := timestamptz (s_CreatedAt s) |>
    <| s_LastKeepAlive := timestamptz (s_LastKeepAlive s) |>
    <| s_EndedAt := timestamptz <$> s_EndedAt s |> <| s_PricingConfig := no_pricing |>.
Definition stored_record (c : CollectionRecord) : CollectionRecord :=
  c <| cr_CreatedAt := timestamptz (cr_CreatedAt c) |> <| cr_UpdatedAt := timestamptz (cr_UpdatedAt c) |>.
Definition stored_worker (w : Worker) : Worker :=
  mkWorker (wk_Key w) (wk_SessionID w) (wk_Payer w) (timestamptz (wk_CreatedAt w)) (wk_TraceID w).
Definition stored_quota (q : QuotaUsage) : QuotaUsage := q <| q_LastUpdated := 0 |>.
Definition stored_event (u : UsageEvent) : UsageEvent :=
  mkUsageEvent (timestamptz (ue_Timestamp u)) (sanitizeUsageMetric (ue_Blocks u))
    (sanitizeUsageMetric (ue_Bytes u)) (sanitizeUsageMetric (ue_Requests u)).

Definition wf_key (k : CollectionKey) : Prop :=
  length (ck_CollectionID k) = 32%nat /\ length (ck_Payer k) = 20%nat /\
  length (ck_ServiceProvider k) = 20%nat /\ length (ck_DataService k) = 20%nat.

(** What the schema and the statements keep true of the tables. *)
Record session_row_ok (id : string) (row : sessionRow) : Prop := {
  sro_id : sr_ID row = id;
  sro_blocks : s64 (sr_BlocksProcessed row);
  sro_bytes : s64 (sr_BytesTransferred row);
  sro_requests : s64 (sr_Requests row);
  sro_cost : is_Some (sr_TotalCost row)
}.
Definition record_row_ok (k : coll_pk) (row : collectionRecordRow) : Prop :=
  row_pk row = k /\ is_Some (cw_ValueAggregate row) /\ 0 <= cw_AttemptCount row.
Definition quota_row_ok (payer : list byte) (q : quotaUsageRow) : Prop :=
  qr_Payer q = payer /\ 0 <= qr_ActiveSessions q < 2 ^ 31 /\ 0 <= qr_ActiveWorkers q < 2 ^ 31.

(** The two backends hold the same data. *)
Record backends_agree db r : Prop := {
  ba_sessions id : forget_updated <$> session_at db id = stored_session <$> im_sessions r !! id;
  ba_records k : wf_key k ->
    collectionRow_toRepository <$> pg_records db !! collectionKeyParams k =
    stored_record <$> im_records r !! collectionMapKey k;
  ba_workers : workerRow_toRepository <$> pg_workers db = stored_worker <$> im_workers r;
  ba_quotas payer : length payer = 20%nat ->
    stored_quota ∘ quotaRow_toRepository <$> pg_quotas db !! payer = stored_quota <$> im_quotas r !! Pretty payer;
  ba_usage id :
    map usageRow_toRepository (List.filter (fun u => String.eqb (ur_SessionID u) id) (pg_usage db)) =
    map stored_event (default [] (im_usage r !! id));
  ba_session_rows : map_Forall session_row_ok (pg_sessions db);
  ba_record_rows : map_Forall record_row_ok (pg_records db);
  ba_quota_rows : map_Forall quota_row_ok (pg_quotas db);
  ba_ravs id : pg_sessions db !! id = None -> pg_ravs db !! id = None;
  ba_im_keys : map_Forall (fun key c => wf_key (cr_Key c) /\ key = collectionMapKey (cr_Key c)) (im_records r);
  ba_pg_keys pk row : pg_records db !! pk = Some row -> exists k, wf_key k /\ pk = collectionKeyParams k;
  ba_record_sessions k row : pg_records db !! k = Some row -> is_Some (pg_sessions db !! k.1.1.1.1)
}.

Lemma session_at_row db id :
  session_at db id =
  (fun row => sessionRow_toRepository row (get_rav db id) no_pricing) <$> pg_sessions db !! id.
Proof. unfold session_at. simpl. unfold pg_SessionGet. by destruct (pg_sessions db !! id). Qed.

(** Both hold the session, or neither does. *)
Lemma agree_session db r id :
  backends_agree db r ->
  (exists row s, pg_sessions db !! id = Some row /\ im_sessions r !! id = Some s /\ session_row_ok id row /\
     forget_updated (sessionRow_toRepository row (get_rav db id) no_pricing) = stored_session s) \/
  (pg_sessions db !! id = None /\ im_sessions r !! id = None /\ pg_ravs db !! id = None).
Proof.
  intros A. pose proof (ba_sessions _ _ A id) as E. rewrite session_at_row in E.
  destruct (pg_sessions db !! id) as [row|] eqn:Er; destruct (im_sessions r !! id) as [s|] eqn:Es; try done.
  - left. apply (inj Some) in E. exists row, s. split_and!; try done. by apply (ba_session_rows _ _ A).
  - right. split_and!; try done. by apply (ba_ravs _ _ A).
Qed.

(** ** Mutations through the interface *)

Inductive answer : Type :=
  | AUnit (a : result go_error unit)
  | AQuota (a : result (go_error * option QuotaUsage) QuotaUsage)
  | ARecord (a : result go_error CollectionRecord).

Definition unit_answer {R} (x : result go_error unit * R) : answer * R := (AUnit x.1, x.2).
Definition quota_answer {R} (x : result (go_error * option QuotaUsage) QuotaUsage * R) : answer * R :=
  (AQuota x.1, x.2).
Definition record_answer {R} (x : result go_error CollectionRecord * R) : answer * R := (ARecord x.1, x.2).

Definition run_op `{GlobalRepository R} (now : time) (op : repo_op) (r : R) : answer * R :=
  match op with
  | OpSessionCreate s => unit_answer (SessionCreate r now s)
  | OpSessionUpdate s => unit_answer (SessionUpdate r now s)
  | OpSessionTouch id t => unit_answer (SessionTouch r id t)
  | OpUpdateRuntimeState id st md en re up => unit_answer (SessionUpdateRuntimeState r id st md en re up)
  | OpUpdateRAVAndBaseline id rav b y q c => unit_answer (SessionUpdateRAVAndBaseline r now id rav b y q c)
  | OpApplyUsage id u c => unit_answer (SessionApplyUsage r now id u c)
  | OpWorkerCreateAndReserve w m => quota_answer (WorkerCreateAndReserveQuota r now w m)
  | OpWorkerDelete k => unit_answer (WorkerDelete r k)
  | OpQuotaDecrement p s w => unit_answer (QuotaDecrement r now p s w)
  | OpMarkPending k v tx t => record_answer (CollectionMarkPending r now k v tx t)
  | OpMarkCollected k v tx a t => record_answer (CollectionMarkCollected r now k v tx a t)
  | OpMarkFailed k v tx e t => record_answer (CollectionMarkFailedRetryable r now k v tx e t)
  end.

(** The clients tell errors apart by the repository's sentinels. *)
Definition same_kind (e e' : go_error) : Prop :=
  forall sentinel,
    sentinel ∈ [ErrNotFound; ErrQuotaExceeded; ErrCollectionConflict; ErrInvalidCollectionTransition] ->
    errors_Is e sentinel = errors_Is e' sentinel.

Definition same_result {E A} (kind : E -> E -> Prop) (same : A -> A -> Prop) (x y : result E A) : Prop :=
  match x, y with
  | Ok a, Ok b => same a b
  | Err e, Err e' => kind e e'
  | _, _ => False
  end.

(** The answers of Postgres and of the in-memory backend to one operation.  The
    two name different causes when a session to be created exists already and
    its RAV conflicts too. *)
Definition same_answer (op : repo_op) (pg im : answer) : Prop :=
  match pg, im with
  | AUnit x, AUnit y =>
      same_result (fun e e' => match op with OpSessionCreate _ => True | _ => same_kind e e' end)
        (fun _ _ => True) x y
  | AQuota x, AQuota y =>
      same_result (fun e e' => same_kind e.1 e'.1 /\ (stored_quota <$> e.2) = (stored_quota <$> e'.2))
        (fun q q' => stored_quota q = stored_quota q') x y
  | ARecord x, ARecord y => same_result same_kind (fun c c' => c = stored_record c') x y
  | _, _ => False
  end.

(** ** Arguments both backends accept

    Texts fit their columns, addresses and vouchers have their widths, counters
    stay in the range of the columns, new keys are new, and what an operation
    refers to is there. *)

Definition column_text (s : string) : Prop := plain_text s = true /\ (String.length s <= 255)%nat.

Definition wf_stored_session (s : Session) : Prop :=
  column_text (s_ID s) /\ s_ID s <> ""%string /\ plain_map (s_Metadata s) = true /\
  length (s_Payer s) = 20%nat /\ length (s_Receiver s) = 20%nat /\ length (s_DataService s) = 20%nat /\
  u64 (s_BlocksProcessed s) /\ u64 (s_BytesTransferred s) /\ u64 (s_Requests s) /\
  u64 (s_BaselineBlocks s) /\ u64 (s_BaselineBytes s) /\ u64 (s_BaselineReqs s) /\
  is_Some (s_TotalCost s) /\ is_Some (s_BaselineCost s) /\
  (forall rav, s_CurrentRAV s = Some rav -> wf_signed rav).

(** What [update.sql] leaves alone. *)
Definition same_identity (old s : Session) : Prop :=
  s_CreatedAt s = s_CreatedAt old /\ s_Payer s = s_Payer old /\ s_Receiver s = s_Receiver old /\
  s_DataService s = s_DataService old /\ (s_CurrentRAV s = None -> s_CurrentRAV old = None).

Definition wf_op (r : InMemoryRepository) (op : repo_op) : Prop :=
  match op with
  | OpSessionCreate s => forall s', s = Some s' -> wf_stored_session s'
  | OpSessionUpdate s => forall s', s = Some s' ->
      wf_stored_session s' /\ exists old, im_sessions r !! s_ID s' = Some old /\ same_identity old s'
  | OpSessionTouch _ _ => True
  | OpUpdateRuntimeState _ _ md _ _ _ => plain_map md = true
  | OpUpdateRAVAndBaseline id rav b y q _ =>
      column_text id /\ id <> ""%string /\ u64 b /\ u64 y /\ u64 q /\
      exists rav', rav = Some rav' /\ wf_signed rav'
  | OpApplyUsage id u _ => column_text id /\ forall u', u = Some u' ->
      s64 (ue_Blocks u') /\ s64 (ue_Bytes u') /\ s64 (ue_Requests u') /\
      forall s, im_sessions r !! id = Some s ->
        s_BlocksProcessed s + sanitizeUsageMetric (ue_Blocks u') < 2 ^ 63 /\
        s_BytesTransferred s + sanitizeUsageMetric (ue_Bytes u') < 2 ^ 63 /\
        s_Requests s + sanitizeUsageMetric (ue_Requests u') < 2 ^ 63
  | OpWorkerCreateAndReserve w m => m < 2 ^ 31 /\ forall w', w = Some w' ->
      column_text (wk_Key w') /\ column_text (wk_SessionID w') /\ column_text (wk_TraceID w') /\
      length (wk_Payer w') = 20%nat /\ im_workers r !! wk_Key w' = None /\
      is_Some (im_sessions r !! wk_SessionID w')
  | OpWorkerDelete k => is_Some (im_workers r !! k)
  | OpQuotaDecrement p s w => length p = 20%nat /\ 0 <= s < 2 ^ 31 /\ 0 <= w < 2 ^ 31
  | OpMarkPending k v tx _ => wf_key k /\ is_Some v /\ plain_text tx = true /\
      forall c, im_records r !! collectionMapKey k = Some c -> cr_AttemptCount c + 1 < 2 ^ 31
  | OpMarkCollected k v tx _ _ => wf_key k /\ is_Some v /\ plain_text tx = true
  | OpMarkFailed k v tx e _ => wf_key k /\ is_Some v /\ plain_text tx = true /\ plain_text e = true
  end.

(** ** The relation is kept by the writes *)

Lemma collectionKeyParams_inj k k' :
  wf_key k -> wf_key k' -> collectionKeyParams k = collectionKeyParams k' -> k = k'.
Proof.
  intros (?&?&?&?) (?&?&?&?). unfold collectionKeyParams, newCollectionID.
  rewrite !newAddress_20, !copy_array_exact by done. destruct k, k'. simpl. congruence.
Qed.

Lemma agree_clock db r t : backends_agree db r -> backends_agree (db <| pg_clock := t |>) r.
Proof. intros []. by split. Qed.

Lemma agree_put_session db r id row rr s :
  backends_agree db r -> session_row_ok id row ->
  forget_updated (sessionRow_toRepository row (ravRow_toRepository <$> rr) no_pricing) = stored_session s ->
  (rr = None -> pg_ravs db !! id = None) ->
  backends_agree (db <| pg_sessions := <[id := row]> (pg_sessions db) |>
                     <| pg_ravs := partial_alter (fun _ => rr) id (pg_ravs db) |>) (put_session id s r).
Proof.
  intros A Hrow E Hrr. destruct A as [As Ar Aw Aq Au Bs Br Bq Bv Bk Bp Bf]. split; simpl; try done.
  - intros i. specialize (As i). rewrite session_at_row in *. unfold get_rav in *. simpl.
    destruct (decide (i = id)) as [->|].
    + rewrite !lookup_insert_eq, lookup_partial_alter_eq. simpl. by f_equal.
    + by rewrite !lookup_insert_ne, lookup_partial_alter_ne by done.
  - by apply map_Forall_insert_2.
  - intros i Hi. destruct (decide (i = id)) as [->|]; [by rewrite lookup_insert_eq in Hi |].
    rewrite lookup_partial_alter_ne by done. rewrite lookup_insert_ne in Hi by done. by apply Bv.
  - intros k rec Hk. destruct (decide (k.1.1.1.1 = id)) as [->|]; [rewrite lookup_insert_eq; eauto |].
    rewrite lookup_insert_ne by done. by eapply Bf.
Qed.

(** The same when the RAV stays. *)
Lemma agree_put_session_row db r id row s :
  backends_agree db r -> session_row_ok id row ->
  forget_updated (sessionRow_toRepository row (get_rav db id) no_pricing) = stored_session s ->
  backends_agree (db <| pg_sessions := <[id := row]> (pg_sessions db) |>) (put_session id s r).
Proof.
  intros A Hrow E. pose proof (agree_put_session db r id row (pg_ravs db !! id) s A Hrow E (fun e => e)) as A'.
  replace (partial_alter (fun _ => pg_ravs db !! id) id (pg_ravs db)) with (pg_ravs db) in A'.
  { by destruct db. }
  symmetry. apply map_eq. intros i. destruct (decide (i = id)) as [->|].
  - by rewrite lookup_partial_alter_eq.
  - by rewrite lookup_partial_alter_ne.
Qed.

Lemma record_row_key k row c :
  wf_key k -> record_row_ok (collectionKeyParams k) row -> collectionRow_toRepository row = stored_record c ->
  cr_Key c = k.
Proof.
  intros (?&?&?&?) (Hpk & _) E. apply (f_equal cr_Key) in E. simpl in E. rewrite <- E.
  unfold row_pk, collectionKeyParams, newCollectionID in Hpk.
  rewrite !newAddress_20, copy_array_exact in Hpk by done. destruct k; simpl in *; by simplify_eq.
Qed.

Lemma agree_put_record db r k row c :
  backends_agree db r -> wf_key k -> record_row_ok (collectionKeyParams k) row ->
  collectionRow_toRepository row = stored_record c -> is_Some (pg_sessions db !! ck_SessionID k) ->
  backends_agree (db <| pg_records := <[collectionKeyParams k := row]> (pg_records db) |>)
    (r <| im_records := <[collectionMapKey k := c]> (im_records r) |>).
Proof.
  intros [As Ar Aw Aq Au Bs Br Bq Bv Bk Bp Bf] Hk Hrow E Hs. split; simpl; try done.
  - intros k' Hk'. destruct (decide (k' = k)) as [->|].
    + rewrite !lookup_insert_eq. simpl. by f_equal.
    + rewrite !lookup_insert_ne; [by apply Ar | |].
      * intros ?%collectionMapKey_inj. congruence.
      * intros ?%collectionKeyParams_inj; [congruence | done | done].
  - by apply map_Forall_insert_2.
  - apply map_Forall_insert_2; [|done]. by rewrite (record_row_key k row c).
  - intros pk rec Hrec. destruct (decide (pk = collectionKeyParams k)) as [->|]; [by exists k |].
    rewrite lookup_insert_ne in Hrec by done. by eapply Bp.
  - intros k' rec Hrec. destruct (decide (k' = collectionKeyParams k)) as [->|]; [done |].
    rewrite lookup_insert_ne in Hrec by done. by eapply Bf.
Qed.

(** What both hold under a key. *)
Record record_pair db r (k : CollectionKey) (row : collectionRecordRow) (c : CollectionRecord) (v : Z) : Prop := {
  rp_pg : pg_records db !! collectionKeyParams k = Some row;
  rp_im : im_records r !! collectionMapKey k = Some c;
  rp_eq : collectionRow_toRepository row = stored_record c;
  rp_ok : record_row_ok (collectionKeyParams k) row;
  rp_state : cw_State row = cr_State c;
  rp_row_value : cw_ValueAggregate row = Some v;
  rp_value : cr_ValueAggregate c = Some v;
  rp_key : cr_Key c = k;
  rp_attempts : cw_AttemptCount row = cr_AttemptCount c;
  rp_amount : cw_CollectedAmount row = cr_CollectedAmount c;
  rp_created : cw_CreatedAt row = timestamptz (cr_CreatedAt c);
  rp_session : is_Some (pg_sessions db !! ck_SessionID k)
}.

Lemma agree_record db r k :
  backends_agree db r -> wf_key k ->
  (exists row c v, record_pair db r k row c v) \/
  (pg_records db !! collectionKeyParams k = None /\ im_records r !! collectionMapKey k = None).
Proof.
  intros A Hk. pose proof (ba_records _ _ A k Hk) as E.
  destruct (pg_records db !! _) as [row|] eqn:Er; destruct (im_records r !! _) as [c|] eqn:Ec; try done.
  2: by right. left. apply (inj Some) in E. pose proof (ba_record_rows _ _ A _ _ Er) as Hok.
  pose proof Hok as (Hpk & [v Hv] & _). exists row, c, v.
  pose proof (f_equal cr_ValueAggregate E) as Ev.
  split; try done; [by apply (f_equal cr_State) in E | simpl in Ev; congruence | by eapply record_row_key |
    by apply (f_equal cr_AttemptCount) in E | by apply (f_equal cr_CollectedAmount) in E | by apply (f_equal cr_CreatedAt) in E |
    apply (ba_record_sessions _ _ A _ _ Er)].
Qed.

Lemma put_record_same c r : im_records r !! collectionMapKey (cr_Key c) = Some c -> put_record c r = r.
Proof. intros E. destruct r. unfold put_record. simpl in *. by rewrite insert_id. Qed.

Ltac same_kinds :=
  let Hk := fresh in
  intros ? Hk; repeat (apply elem_of_cons in Hk as [->|Hk]; [reflexivity |]); by apply elem_of_nil in Hk.

Lemma varchar_column s : column_text s -> varchar 255 s = Some s.
Proof. intros []. by apply varchar_plain. Qed.

(** The row of a voucher becomes its record. *)
Lemma collectible_row_roundtrip now id rav m v :
  wf_signed rav -> Message rav = Some m -> rav_ValueAggregate m = Some v -> id <> ""%string ->
  exists row, collectionCollectibleParams now id (Some rav) = Ok (row, rav_key id m, v) /\
    row_pk row = collectionKeyParams (rav_key id m) /\ wf_key (rav_key id m) /\ cw_SessionID row = id /\
    cw_ValueAggregate row = Some v /\ cw_AttemptCount row = 0 /\ cw_CreatedAt row = now /\ cw_UpdatedAt row = now /\
    newCollectionRecordFromRAV now id (Some rav) = Ok (collectionRow_toRepository row) /\
    cr_Key (collectionRow_toRepository row) = rav_key id m.
Proof.
  intros (m' & v' & Em' & Ev' & Hc & Hp & Hs & Hd & Ht & Hg) Em Ev Hid.
  assert (m' = m) as -> by congruence. assert (v' = v) as -> by congruence.
  unfold collectionCollectibleParams, newCollectionRecordFromRAV.
  rewrite (proj2 (String.eqb_neq _ _) Hid), Em, Ev. eexists. split; [done |].
  unfold row_pk, collectionKeyParams, rav_key, collectionRow_toRepository, newCollectionID, newSignature. simpl.
  rewrite !newAddress_20, !copy_array_exact, wrap_u64_s64 by done.
  split_and!; try done.
  - f_equal. f_equal. f_equal. destruct rav as [om sig], m; simpl in *; by subst.
Qed.

Lemma agree_upsert db r now id rav :
  backends_agree db r -> column_text id -> id <> ""%string -> is_Some (pg_sessions db !! id) -> wf_signed rav ->
  match collectionCreateOrUpdateCollectibleTx now id (Some rav) db,
        collectionNextCollectibleLocked r now id (Some rav) with
  | Ok (c, db'), Ok next => c = stored_record next /\ backends_agree db' (put_record next r)
  | Err e, Err e' => same_kind e e'
  | _, _ => False
  end.
Proof.
  intros A Ht Hid [srow Hs] Hw. pose proof Hw as (m & v & Em & Ev & _).
  destruct (collectible_row_roundtrip now id rav m v Hw Em Ev Hid)
    as (row & Ep & Hpk & Hk & Eid & Erv & Eat & Ecr & Eup & En & Ekey).
  unfold collectionCreateOrUpdateCollectibleTx, collectionNextCollectibleLocked. rewrite Ep, En. cbn [rbind].
  unfold collection_upsert_collectible_sql, stmt_bind, column, stmt_ret. rewrite Eid, varchar_column by done.
  set (new := row <| cw_SessionID := id |> <| cw_CreatedAt := _ |> <| cw_UpdatedAt := _ |>).
  assert (row_pk new = collectionKeyParams (rav_key id m)) as Hnew.
  { rewrite <- Hpk. unfold row_pk. by rewrite Eid. }
  assert (collectionRow_toRepository new = stored_record (collectionRow_toRepository row)) as Hnewr.
  { unfold new, collectionRow_toRepository, stored_record. simpl. by rewrite Eid. }
  unfold collection_get_sql. rewrite Hnew, Ekey.
  assert (forall created, (* the row is replaced *)
    let next := (collectionRow_toRepository row) <| cr_CreatedAt := created |> in
    let row' := new <| cw_CreatedAt := timestamptz created |> in
    collectionRow_toRepository row' = stored_record next /\
    backends_agree (db <| pg_records := <[row_pk row' := row']> (pg_records db) |>) (put_record next r)) as Hput.
  { intros created. cbv zeta. split.
    { unfold new, collectionRow_toRepository, stored_record. simpl. by rewrite Eid. }
    set (row' := new <| cw_CreatedAt := _ |>). set (next := (collectionRow_toRepository row) <| cr_CreatedAt := _ |>).
    assert (row_pk row' = collectionKeyParams (rav_key id m)) as Hpk' by exact Hnew.
    assert (cr_Key next = rav_key id m) as Hkey' by exact Ekey.
    unfold put_record. rewrite Hpk', Hkey'.
    apply agree_put_record; [done | done | | | by eexists].
    - split; [exact Hpk' |]. simpl. rewrite Erv, Eat. split; [eauto | lia].
    - unfold row', next, new, collectionRow_toRepository, stored_record. simpl. by rewrite Eid. }
  destruct (agree_record db r (rav_key id m) A Hk) as [(old & c & ov & P)|[Eo Ec]].
  2: { rewrite Eo, Ec. unfold references. rewrite Hs. unfold put_record_row.
       specialize (Hput now). cbv zeta in Hput.
       assert (new <| cw_CreatedAt := timestamptz now |> = new) as En' by (unfold new; simpl; by rewrite Ecr).
       rewrite En' in Hput. replace (_ <| cr_CreatedAt := now |>) with (collectionRow_toRepository row) in Hput; [done |].
       unfold collectionRow_toRepository. simpl. by rewrite Ecr. }
  pose proof P as [Eo Ec Eoc Hok Est Eov Ecv Eck Eatt _ Ecre _]. rewrite Eo, Ec, Est.
  specialize (Hput (cr_CreatedAt c)). cbv zeta in Hput. rewrite <- Ecre in Hput.
  assert (collectionGetTx (rav_key id m) db = Ok (stored_record c, db)) as Eget.
  { unfold collectionGetTx, stmt_bind, collection_get_sql. rewrite Eo. simpl. by rewrite Eoc. }
  rewrite <- Eck in Ec. pose proof (put_record_same c r Ec) as Esame. cbn [cr_ValueAggregate collectionRow_toRepository].
  rewrite Ecv, Eov, Erv. change (cw_ValueAggregate new) with (cw_ValueAggregate row). rewrite Erv.
  unfold collectionValuesEqual. rewrite cmpZ_eqb, cmpZ_ltb.
  destruct (cr_State c) eqn:Es;
    repeat first [rewrite bool_decide_true by done | rewrite bool_decide_false by done]; cbn [orb andb numeric_lt].
  - exact Hput.
  - rewrite Eget. unfold sql_check, stored_record. simpl. rewrite Es, Ecv.
    repeat first [rewrite bool_decide_true by done | rewrite bool_decide_false by done]. rewrite cmpZ_eqb.
    destruct (ov =? v); simpl; [by rewrite Esame | same_kinds].
  - destruct (Z.ltb_spec ov v).
    + rewrite (proj2 (Z.eqb_neq ov v)), (proj2 (Z.ltb_ge v ov)) by lia. exact Hput.
    + rewrite Eget. unfold sql_check, stored_record. simpl. rewrite Es, Ecv.
      repeat first [rewrite bool_decide_true by done | rewrite bool_decide_false by done]. simpl.
      destruct (Z.eqb_spec ov v) as [->|]; [by rewrite Z.ltb_irrefl; simpl; rewrite Esame |].
      rewrite (proj2 (Z.ltb_lt v ov)) by lia. simpl. same_kinds.
  - exact Hput.
Qed.

(** ** Sessions *)

Lemma agree_store db r now id rav row s :
  backends_agree db r -> column_text id -> id <> ""%string -> wf_signed rav -> session_row_ok id row ->
  forget_updated (sessionRow_toRepository row (Some rav) no_pricing) = stored_session s ->
  match store_rav now id (Some rav) (db <| pg_sessions := <[id := row]> (pg_sessions db) |>),
        next_collection r now id (Some rav) with
  | Ok (_, db'), Ok next => backends_agree db' (put_optional next (put_session id s r))
  | Err e, Err e' => same_kind e e'
  | _, _ => False
  end.
Proof.
  intros A Ht Hid Hw Hrow E. unfold store_rav, upsertRAVTx, stmt_bind.
  destruct (fromRAV now id (Some rav)) as [rr|] eqn:Er.
  2: { destruct Hw as (m & v & Em & _). unfold fromRAV in Er. simpl in Er. by rewrite Em in Er. }
  assert (rr_SessionID rr = id) as Eid.
  { unfold fromRAV in Er. simpl in Er. destruct (Message rav); [|done]. by injection Er as <-. }
  unfold session_upsert_rav_sql, stmt_bind, column, stmt_ret, references. rewrite Eid, varchar_column by done.
  simpl. rewrite lookup_insert_eq.
  set (rr' := rr <| rr_SessionID := id |> <| rr_CreatedAt := _ |>).
  assert (ravRow_toRepository rr' = rav) as Err by (by rewrite <- (rav_row_roundtrip now id rav rr)).
  assert (backends_agree (db <| pg_sessions := <[id := row]> (pg_sessions db) |>
                             <| pg_ravs := <[id := rr']> (pg_ravs db) |>) (put_session id s r)) as A'.
  { apply (agree_put_session db r id row (Some rr')); try done. simpl. by rewrite Err. }
  pose proof (agree_upsert _ _ now id rav A' Ht Hid) as Hup. simpl in Hup. rewrite lookup_insert_eq in Hup.
  specialize (Hup (mk_is_Some _ _ eq_refl) Hw). unfold next_collection.
  change (collectionNextCollectibleLocked (put_session id s r)) with (collectionNextCollectibleLocked r) in Hup.
  destruct (collectionCreateOrUpdateCollectibleTx _ _ _ _) as [[c db']|e] in Hup |- *;
    destruct (collectionNextCollectibleLocked _ _ _ _) as [next|e'] in Hup |- *; try done.
  by destruct Hup.
Qed.

(** The row of a new session. *)
Definition session_columns_of (s : Session) : sessionRow :=
  mkSessionRow (s_ID s) (timestamptz (s_CreatedAt s)) (timestamptz (s_UpdatedAt s))
    (timestamptz (s_LastKeepAlive s)) (s_Status s) (s_Metadata s) (timestamptz <$> s_EndedAt s)
    (end_reason_column (s_EndReason s)) (newAddress (s_Payer s)) (newAddress (s_Receiver s))
    (newAddress (s_DataService s)) (newAddress [])
    (wrap_s64 (s_BlocksProcessed s)) (wrap_s64 (s_BytesTransferred s)) (wrap_s64 (s_Requests s))
    (newGRT (s_TotalCost s)) (wrap_s64 (s_BaselineBlocks s)) (wrap_s64 (s_BaselineBytes s))
    (wrap_s64 (s_BaselineReqs s)) (newGRT (s_BaselineCost s)).

Lemma session_columns_wf s id db :
  wf_stored_session s -> id = s_ID s ->
  session_columns ((fromSession s) <| sr_ID := id |>) db = Ok (session_columns_of s, db).
Proof.
  intros (Ht & _ & Hm & _) ->. unfold session_columns, stmt_bind, column. simpl.
  rewrite varchar_column, jsonb_plain by done. done.
Qed.

Lemma session_columns_ok s : wf_stored_session s -> session_row_ok (s_ID s) (session_columns_of s).
Proof. intros _. split; simpl; eauto with sds. Qed.

Lemma session_columns_read s rav :
  wf_stored_session s -> s_CurrentRAV s = rav ->
  forget_updated (sessionRow_toRepository (session_columns_of s) rav no_pricing) = stored_session s.
Proof.
  intros (_ & _ & _ & Hp & Hr & Hd & Hb & Hy & Hq & Hbb & Hby & Hbq & [t Et] & [b Eb] & _) <-.
  unfold forget_updated, sessionRow_toRepository, stored_session, newGRT. simpl.
  rewrite !newAddress_20, !wrap_u64_s64, default_end_reason, Et, Eb by done. destruct s; simpl in *; by subst.
Qed.

Lemma create_agrees db r now s :
  backends_agree db r -> wf_op r (OpSessionCreate s) ->
  same_answer (OpSessionCreate s) (AUnit (pg_SessionCreate db now s).1) (AUnit (im_SessionCreate r now s).1) /\
  backends_agree (pg_SessionCreate db now s).2 (im_SessionCreate r now s).2.
Proof.
  intros A Hw. destruct s as [s|]; [|by split]. specialize (Hw s eq_refl). pose proof Hw as (Ht & Hid & _).
  assert (Hrav : forall rav, s_CurrentRAV s = Some rav -> wf_signed rav) by apply Hw.
  unfold pg_SessionCreate, im_SessionCreate. rewrite (proj2 (String.eqb_neq _ _) Hid).
  pose proof (session_columns_wf s (s_ID s) db Hw eq_refl) as Ecol.
  change ((fromSession s) <| sr_ID := s_ID s |>) with (fromSession s) in Ecol.
  assert (session_create_sql (fromSession s) db =
    if pg_sessions db !! s_ID s is Some _ then Err duplicate_key
    else Ok (session_columns_of s, db <| pg_sessions := <[s_ID s := session_columns_of s]> (pg_sessions db) |>)) as Ecr.
  { unfold session_create_sql, stmt_bind. rewrite Ecol. unfold find_session, sql_check. simpl.
    destruct (pg_sessions db !! s_ID s); [rewrite bool_decide_false by done | rewrite bool_decide_true by done]; done. }
  pose proof (session_columns_ok s Hw) as Hrow.
  destruct (agree_session db r (s_ID s) A) as [(row & s0 & Er & Es & _)|(Er & Es & Ev)]; rewrite Er in Ecr; rewrite Es.
  - clear Hrav. destruct (next_collection r now (s_ID s) (s_CurrentRAV s)); destruct (s_CurrentRAV s);
      unfold commit, sessionCreateWithRAVTx, stmt_bind; rewrite Ecr; by split.
  - destruct (s_CurrentRAV s) as [rav|] eqn:Erav; unfold commit, sessionCreateWithRAVTx, stmt_bind; rewrite Ecr.
    + rewrite Erav. pose proof (agree_store db r now (s_ID s) rav _ s A Ht Hid (Hrav rav eq_refl) Hrow
        (session_columns_read s (Some rav) Hw Erav)) as Hst.
      destruct (store_rav _ _ _ _) as [[[] db']|e] in Hst |- *;
        destruct (next_collection _ _ _ _) as [next|e'] in Hst |- *; done.
    + simpl. split; [done |]. apply agree_put_session_row; try done.
      unfold get_rav. rewrite Ev. by apply session_columns_read.
Qed.

(** [UPDATE sessions] on a row that is there. *)
Definition clocked db (row : sessionRow) : sessionRow := row <| sr_UpdatedAt := timestamptz (pg_clock db) |>.

Lemma update_session_found db id old row (set : sessionRow -> stmt sessionRow) :
  pg_sessions db !! id = Some old -> set old db = Ok (row, db) -> sr_ID row = id ->
  update_session id set db =
  Ok (Some (clocked db row), db <| pg_sessions := <[id := clocked db row]> (pg_sessions db) |>).
Proof.
  intros E Hset Hid. unfold update_session, stmt_bind, find_session. rewrite E, Hset. simpl.
  unfold clocked. simpl. by rewrite Hid.
Qed.

Lemma clocked_ok db id row : session_row_ok id row -> session_row_ok id (clocked db row).
Proof. by intros []. Qed.

(** A field of a stored session, read off the row. *)
Ltac row_field E f := let F := fresh "F" in pose proof (f_equal f E) as F; simpl in F.

Lemma update_agrees db r now s :
  backends_agree db r -> wf_op r (OpSessionUpdate s) ->
  same_answer (OpSessionUpdate s) (AUnit (pg_SessionUpdate db now s).1) (AUnit (im_SessionUpdate r now s).1) /\
  backends_agree (pg_SessionUpdate db now s).2 (im_SessionUpdate r now s).2.
Proof.
  intros A Hw. destruct s as [s|]; [|by split; [same_kinds |]].
  destruct (Hw s eq_refl) as (Hs & old & Eold & Hc & Hp & Hr & Hd & Hnone). clear Hw.
  pose proof Hs as (Ht & Hid & _). assert (Hrav : forall rav, s_CurrentRAV s = Some rav -> wf_signed rav) by apply Hs.
  destruct (agree_session db r (s_ID s) A) as [(row & s0 & Er & Es & Hok & E)|(_ & Es & _)]; [|congruence].
  assert (s0 = old) as -> by congruence.
  pose proof (session_columns_wf s (sr_ID row) db Hs (sro_id _ _ Hok)) as Ecol.
  set (new := (session_columns_of s) <| sr_Signer := sr_Signer row |>).
  assert (session_update_sql (fromSession s) db =
    Ok (Some (clocked db new), db <| pg_sessions := <[s_ID s := clocked db new]> (pg_sessions db) |>)) as Eup.
  { unfold session_update_sql. apply (update_session_found _ _ row); [done | | done].
    unfold stmt_bind. rewrite Ecol.
    row_field E s_CreatedAt. row_field E s_Payer. row_field E s_Receiver. row_field E s_DataService.
    destruct Hs as (_ & _ & _ & Lp & Lr & Ld & _).
    rewrite (sro_id _ _ Hok), F, F0, F1, F2, <- Hc, <- Hp, <- Hr, <- Hd.
    unfold stmt_ret, new, session_columns_of. cbn. by rewrite !newAddress_20 by congruence. }
  assert (session_row_ok (s_ID s) (clocked db new)) as Hrow by by destruct (session_columns_ok s Hs).
  unfold pg_SessionUpdate, im_SessionUpdate. rewrite Es.
  destruct (s_CurrentRAV s) as [rav|] eqn:Erav; unfold commit, sessionUpdateWithRAVTx, stmt_bind; rewrite Eup; simpl.
  - rewrite Erav. pose proof (agree_store db r now (s_ID s) rav _ s A Ht Hid (Hrav rav eq_refl) Hrow
      (session_columns_read s (Some rav) Hs Erav)) as Hst. simpl in Hst.
    destruct (store_rav _ _ _ _) as [[[] db']|e] in Hst |- *;
      destruct (collectionNextCollectibleLocked _ _ _ _) as [next|e'] in Hst |- *; done.
  - split; [done |]. apply agree_put_session_row; try done. row_field E s_CurrentRAV.
    rewrite F, (Hnone eq_refl). by apply session_columns_read.
Qed.

Lemma touched_keeps t s : s_LastKeepAlive (touched t s) = Z.max (s_LastKeepAlive s) t.
Proof. unfold touched. repeat case_match; simpl in *; bool_props; lia. Qed.

(** Keeping alive changes two times. *)
Lemma touched_eq t s :
  stored_session (touched t s) = (stored_session s) <| s_LastKeepAlive := timestamptz (s_LastKeepAlive (touched t s)) |>.
Proof.
  unfold touched, stored_session. by repeat case_match.
Qed.

Lemma timestamptz_max a b : timestamptz (Z.max a b) = Z.max (timestamptz a) (timestamptz b).
Proof.
  destruct (Z.le_ge_cases a b) as [Hab|Hab]; pose proof (timestamptz_mono _ _ Hab);
    [rewrite !Z.max_r | rewrite !Z.max_l]; lia.
Qed.

Lemma touch_agrees db r id t :
  backends_agree db r ->
  same_answer (OpSessionTouch id t) (AUnit (pg_SessionTouch db id t).1) (AUnit (im_SessionTouch r id t).1) /\
  backends_agree (pg_SessionTouch db id t).2 (im_SessionTouch r id t).2.
Proof.
  intros A. unfold pg_SessionTouch, im_SessionTouch, commit, session_touch_sql, stmt_bind, find_session.
  destruct (agree_session db r id A) as [(row & s & Er & Es & Hok & E)|(Er & Es & _)]; rewrite Er, Es.
  2: { split; [same_kinds | done]. }
  row_field E s_LastKeepAlive.
  assert (forget_updated (sessionRow_toRepository
            (row <| sr_LastKeepAlive := Z.max (sr_LastKeepAlive row) (timestamptz t) |>) (get_rav db id) no_pricing) =
          stored_session (touched t s)) as Hread.
  { rewrite F, <- timestamptz_max, <- touched_keeps.
    transitivity ((stored_session s) <| s_LastKeepAlive := timestamptz (s_LastKeepAlive (touched t s)) |>).
    - by rewrite <- E.
    - rewrite touched_eq. done. }
  destruct (Z.ltb_spec (sr_LastKeepAlive row) (timestamptz t)) as [Hlt|Hge].
  - rewrite (update_session_found _ _ row (row <| sr_UpdatedAt := timestamptz t |> <| sr_LastKeepAlive := timestamptz t |>));
      [|done | done | apply Hok]. simpl. split; [done |]. apply agree_put_session_row; [done | by destruct Hok |].
    rewrite <- Hread, Z.max_r by lia. done.
  - simpl. split; [done |].
    pose proof (agree_put_session_row db r id row (touched t s) A Hok) as A'.
    destruct db; simpl in *. rewrite insert_id in A' by done. apply A'.
    rewrite <- Hread, Z.max_l by lia. by destruct row.
Qed.

Lemma runtime_state_agrees db r id st md en re up :
  backends_agree db r -> plain_map md = true ->
  same_answer (OpUpdateRuntimeState id st md en re up) (AUnit (pg_SessionUpdateRuntimeState db id st md en re up).1)
    (AUnit (im_SessionUpdateRuntimeState r id st md en re up).1) /\
  backends_agree (pg_SessionUpdateRuntimeState db id st md en re up).2
    (im_SessionUpdateRuntimeState r id st md en re up).2.
Proof.
  intros A Hmd. unfold pg_SessionUpdateRuntimeState, im_SessionUpdateRuntimeState, commit,
    session_update_runtime_state_sql, stmt_bind, find_session.
  destruct (agree_session db r id A) as [(row & s & Er & Es & Hok & E)|(Er & Es & _)]; rewrite Er, Es.
  2: { split; [same_kinds | done]. }
  row_field E s_Status. unfold with_runtime_state. rewrite F. case_bool_decide as Hterm.
  - simpl. split; [done |].
    pose proof (agree_put_session_row db r id row s A Hok E) as A'. destruct db; simpl in *. by rewrite insert_id in A'.
  - set (row' := row <| sr_UpdatedAt := timestamptz up |> <| sr_Status := st |> <| sr_Metadata := md |>
                   <| sr_EndedAt := timestamptz <$> en |> <| sr_EndReason := end_reason_column re |>).
    rewrite (update_session_found _ _ row row'); [|done | by rewrite jsonb_plain | apply Hok].
    simpl. split; [done |]. apply agree_put_session_row; [done | by destruct Hok |].
    transitivity ((stored_session s) <| s_Status := st |> <| s_Metadata := md |>
                    <| s_EndedAt := timestamptz <$> en |> <| s_EndReason := re |>).
    + rewrite <- E. unfold forget_updated, sessionRow_toRepository, row'. simpl. by rewrite default_end_reason.
    + by case_match.
Qed.

(** Without the session there is no record to conflict with. *)
Lemma agree_no_session_next db r now id rav :
  backends_agree db r -> pg_sessions db !! id = None -> id <> ""%string -> wf_signed rav ->
  exists next, next_collection r now id (Some rav) = Ok next.
Proof.
  intros A Es Hid Hw. pose proof Hw as (m & v & Em & Ev & _).
  destruct (collectible_row_roundtrip now id rav m v Hw Em Ev Hid) as (row & _ & _ & Hk & _ & _ & _ & _ & _ & En & Ekey).
  unfold next_collection, collectionNextCollectibleLocked. rewrite En. cbn [rbind]. rewrite Ekey.
  destruct (agree_record db r (rav_key id m) A Hk) as [(old & c & ov & P)|[_ Ec]]; [|rewrite Ec; eauto].
  destruct (rp_session _ _ _ _ _ _ P) as [? Hs]. simpl in Hs. congruence.
Qed.

Lemma rav_baseline_agrees db r now id rav b y q c :
  backends_agree db r -> wf_op r (OpUpdateRAVAndBaseline id rav b y q c) ->
  same_answer (OpUpdateRAVAndBaseline id rav b y q c) (AUnit (pg_SessionUpdateRAVAndBaseline db now id rav b y q c).1)
    (AUnit (im_SessionUpdateRAVAndBaseline r now id rav b y q c).1) /\
  backends_agree (pg_SessionUpdateRAVAndBaseline db now id rav b y q c).2
    (im_SessionUpdateRAVAndBaseline r now id rav b y q c).2.
Proof.
  intros A (Ht & Hid & Hb & Hy & Hq & rv & -> & Hw).
  unfold pg_SessionUpdateRAVAndBaseline, im_SessionUpdateRAVAndBaseline, commit, session_update_rav_baseline_sql, stmt_bind.
  destruct (agree_session db r id A) as [(row & s & Er & Es & Hok & E)|(Er & Es & _)]; rewrite Es.
  2: { destruct (agree_no_session_next db r now id rv A Er Hid Hw) as [next ->].
       unfold update_session, stmt_bind, find_session. rewrite Er. split; [same_kinds | done]. }
  set (row' := row <| sr_UpdatedAt := timestamptz now |> <| sr_BaselineBlocks := wrap_s64 b |>
                 <| sr_BaselineBytes := wrap_s64 y |> <| sr_BaselineReqs := wrap_s64 q |> <| sr_BaselineCost := newGRT c |>).
  rewrite (update_session_found _ _ row row'); [|done | done | apply Hok]. simpl.
  set (s' := s <| s_CurrentRAV := Some rv |> <| s_BaselineBlocks := b |> <| s_BaselineBytes := y |>
               <| s_BaselineReqs := q |> <| s_BaselineCost := _ |> <| s_UpdatedAt := now |>).
  assert (session_row_ok id (clocked db row')) as Hrow by by destruct Hok.
  assert (forget_updated (sessionRow_toRepository (clocked db row') (Some rv) no_pricing) = stored_session s') as E'.
  { transitivity ((stored_session s) <| s_CurrentRAV := Some rv |> <| s_BaselineBlocks := b |>
      <| s_BaselineBytes := y |> <| s_BaselineReqs := q |> <| s_BaselineCost := newGRT c |>).
    - rewrite <- E. unfold forget_updated, sessionRow_toRepository. simpl. by rewrite !wrap_u64_s64.
    - unfold s', newGRT. by destruct c. }
  pose proof (agree_store db r now id rv _ s' A Ht Hid Hw Hrow E') as Hst. simpl in Hst.
  destruct (store_rav _ _ _ _) as [[[] db']|e] in Hst |- *;
    destruct (collectionNextCollectibleLocked _ _ _ _) as [next|e'] in Hst |- *; done.
Qed.

Lemma sanitize_s64 v : s64 v -> s64 (sanitizeUsageMetric v) /\ 0 <= sanitizeUsageMetric v.
Proof.
  unfold s64, sanitizeUsageMetric. intros Hv. destruct (Z.leb_spec v 0); [lia |].
  rewrite wrap_u64_small; [lia | unfold u64, two64; lia].
Qed.

(** A counter that fits its column. *)
Lemma counter_row z x d : s64 z -> wrap_u64 z = x -> s64 d -> 0 <= d -> x + d < 2 ^ 63 ->
  z = x /\ int8 (z + d) = true /\ wrap_u64 (z + d) = wrap_u64 (x + d) /\ s64 (z + d).
Proof.
  intros Hz <- Hd Hd0 Hlt. pose proof (wrap_u64_range z) as Hr. unfold u64, two64 in Hr.
  assert (z = wrap_u64 z) as Ez.
  { rewrite <- (wrap_s64_u64 z Hz) at 1. apply wrap_s64_small. unfold s64. lia. }
  rewrite <- Ez in *. split_and!; try done; [|unfold s64 in *; lia].
  unfold int8. apply andb_true_iff. rewrite Z.leb_le, Z.ltb_lt. unfold s64 in *. lia.
Qed.

Lemma apply_usage_agrees db r now id u c :
  backends_agree db r -> wf_op r (OpApplyUsage id u c) ->
  same_answer (OpApplyUsage id u c) (AUnit (pg_SessionApplyUsage db id u c).1)
    (AUnit (im_SessionApplyUsage r now id u c).1) /\
  backends_agree (pg_SessionApplyUsage db id u c).2 (im_SessionApplyUsage r now id u c).2.
Proof.
  intros A (Ht & Hu). destruct u as [u|]; [|split; [same_kinds | done]].
  destruct (Hu u eq_refl) as (Lb & Ly & Lq & Hfit). clear Hu.
  destruct (sanitize_s64 _ Lb) as [Sb Nb], (sanitize_s64 _ Ly) as [Sy Ny], (sanitize_s64 _ Lq) as [Sq Nq].
  unfold pg_SessionApplyUsage, im_SessionApplyUsage, commit, session_apply_usage_sql, stmt_bind.
  cbn [SanitizedTotals]. rewrite !wrap_s64_small by done.
  destruct (agree_session db r id A) as [(row & s & Er & Es & Hok & E)|(Er & Es & _)]; rewrite Es.
  2: { unfold update_session, stmt_bind, find_session. rewrite Er. split; [same_kinds | done]. }
  destruct (Hfit s Es) as (Fb & Fy & Fq). destruct (sro_cost _ _ Hok) as [tc Etc].
  row_field E s_BlocksProcessed. row_field E s_BytesTransferred. row_field E s_Requests. row_field E s_TotalCost.
  destruct (counter_row _ _ _ (sro_blocks _ _ Hok) F Sb Nb Fb) as (_ & Ib & Eb & Rb).
  destruct (counter_row _ _ _ (sro_bytes _ _ Hok) F0 Sy Ny Fy) as (_ & Iy & Ey & Ry).
  destruct (counter_row _ _ _ (sro_requests _ _ Hok) F1 Sq Nq Fq) as (_ & Iq & Eq & Rq).
  set (row' := row <| sr_BlocksProcessed := sr_BlocksProcessed row + sanitizeUsageMetric (ue_Blocks u) |>
     <| sr_BytesTransferred := sr_BytesTransferred row + sanitizeUsageMetric (ue_Bytes u) |>
     <| sr_Requests := sr_Requests row + sanitizeUsageMetric (ue_Requests u) |>
     <| sr_TotalCost := Some (default 0 (sr_TotalCost row) + default 0 c) |>).
  rewrite (update_session_found _ _ row row'); [|done | by rewrite Ib, Iy, Iq | apply Hok]. simpl.
  unfold usage_add_sql, stmt_bind, column, stmt_ret, references. simpl. rewrite varchar_column by done.
  simpl. rewrite lookup_insert_eq. simpl. split; [done |].
  set (s' := AddUsage _ _ _ _ _ s).
  assert (backends_agree (db <| pg_sessions := <[id := clocked db row']> (pg_sessions db) |>) (put_session id s' r)) as A'.
  { apply agree_put_session_row; [done | by destruct Hok |].
    transitivity ((stored_session s) <| s_BlocksProcessed := s_BlocksProcessed s' |>
      <| s_BytesTransferred := s_BytesTransferred s' |> <| s_Requests := s_Requests s' |>
      <| s_TotalCost := s_TotalCost s' |>).
    - rewrite <- E. unfold forget_updated, sessionRow_toRepository, s'. simpl. rewrite Eb, Ey, Eq, Etc.
      rewrite Etc in F2. by destruct c; simpl; rewrite <- F2, ?Z.add_0_r.
    - unfold s'. by destruct c. }
  destruct A' as [? ? ? ? Au ? ? ? ? ? ? ?]. split; simpl in *; try done.
  intros i. rewrite List.filter_app, map_app. simpl. rewrite Au. destruct (decide (i = id)) as [->|Hi].
  - rewrite String.eqb_refl, lookup_insert_eq. simpl. by rewrite map_app.
  - rewrite (proj2 (String.eqb_neq id i)), lookup_insert_ne, app_nil_r by congruence. done.
Qed.

(** ** Workers and quotas *)

Lemma agree_put_quota db r payer row q :
  backends_agree db r -> length payer = 20%nat -> quota_row_ok payer row ->
  stored_quota (quotaRow_toRepository row) = stored_quota q ->
  backends_agree (db <| pg_quotas := <[payer := row]> (pg_quotas db) |>) (put_quota (Pretty payer) q r).
Proof.
  intros [As Ar Aw Aq Au Bs Br Bq Bv Bk Bp Bf] Hp Hrow E. split; simpl; try done; [|by apply map_Forall_insert_2].
  intros p Lp. destruct (decide (p = payer)) as [->|]; [rewrite !lookup_insert_eq; simpl; by f_equal |].
  rewrite !lookup_insert_ne; [by apply Aq | by intros ?%Pretty_inj | done].
Qed.

Lemma agree_put_worker db r key row w :
  backends_agree db r -> workerRow_toRepository row = stored_worker w ->
  backends_agree (db <| pg_workers := <[key := row]> (pg_workers db) |>)
    (r <| im_workers := <[key := w]> (im_workers r) |>).
Proof. intros [As Ar Aw Aq Au Bs Br Bq Bv Bk Bp Bf] E. split; simpl; try done. rewrite !fmap_insert, Aw. by f_equal. Qed.

Lemma agree_quota db r payer :
  backends_agree db r -> length payer = 20%nat ->
  (exists row q, pg_quotas db !! payer = Some row /\ im_quotas r !! Pretty payer = Some q /\
     quota_row_ok payer row /\ q_Payer q = payer /\ q_ActiveSessions q = qr_ActiveSessions row /\
     q_ActiveWorkers q = qr_ActiveWorkers row) \/
  (pg_quotas db !! payer = None /\ im_quotas r !! Pretty payer = None).
Proof.
  intros A Hp. pose proof (ba_quotas _ _ A payer Hp) as E.
  destruct (pg_quotas db !! payer) as [row|] eqn:Er; destruct (im_quotas r !! _) as [q|] eqn:Eq; try done.
  2: by right. left. apply (inj Some) in E. pose proof (ba_quota_rows _ _ A _ _ Er) as Hok. exists row, q.
  destruct Hok as (Ep & ?). row_field E q_Payer. row_field E q_ActiveSessions. row_field E q_ActiveWorkers.
  split_and!; try done. congruence.
Qed.

Lemma agree_worker db r key :
  backends_agree db r -> workerRow_toRepository <$> pg_workers db !! key = stored_worker <$> im_workers r !! key.
Proof. intros A. by rewrite <- !lookup_fmap, (ba_workers _ _ A). Qed.

Lemma null_varchar_wf s db : column_text s -> null_varchar (nullableString s) db = Ok (nullableString s, db).
Proof.
  intros Hs. unfold nullableString. destruct (String.eqb_spec s ""); [done |].
  simpl. unfold stmt_bind, column. by rewrite varchar_column.
Qed.

Lemma null_text_wf s db : plain_text s = true -> null_text (nullableString s) db = Ok (nullableString s, db).
Proof.
  intros Hs. unfold nullableString. destruct (String.eqb_spec s ""); [done |].
  simpl. unfold stmt_bind, column. by rewrite pg_text_plain.
Qed.

Lemma worker_row_wf db w :
  column_text (wk_Key w) -> column_text (wk_SessionID w) -> column_text (wk_TraceID w) ->
  length (wk_Payer w) = 20%nat -> pg_workers db !! wk_Key w = None -> is_Some (pg_sessions db !! wk_SessionID w) ->
  exists row, workerRow_toRepository row = stored_worker w /\
    worker_create_sql (fromWorker w) db = Ok (row, db <| pg_workers := <[wk_Key w := row]> (pg_workers db) |>).
Proof.
  intros Hk Hs Ht Hp En [srow Es]. eexists. split; cycle 1.
  - unfold worker_create_sql, stmt_bind, column, stmt_ret, sql_check, references. simpl.
    rewrite !varchar_column by done.
    rewrite null_varchar_wf by done. simpl. rewrite En, bool_decide_true by done. simpl. rewrite Es. done.
  - unfold workerRow_toRepository, stored_worker. simpl. by rewrite newAddress_20, default_nullableString.
Qed.

Lemma int4_small z : 0 <= z < 2 ^ 31 -> int4 z = true.
Proof. intros. unfold int4. apply andb_true_iff. rewrite Z.leb_le, Z.ltb_lt. lia. Qed.

(** The quota row after [ON CONFLICT DO NOTHING]. *)
Definition quota_seen db (payer : list byte) : quotaUsageRow :=
  default (mkQuotaRow payer 0 0 (timestamptz (pg_clock db))) (pg_quotas db !! payer).
Definition ensured db (payer : list byte) : Database :=
  db <| pg_quotas := <[payer := quota_seen db payer]> (pg_quotas db) |>.

Lemma reserve_tx_eval db payer m n create db1 :
  quota_row_ok payer (quota_seen db payer) -> m < 2 ^ 31 -> 0 <= n < 2 ^ 31 ->
  create (ensured db payer) = Ok (tt, db1) ->
  pg_quotas db1 = pg_quotas (ensured db payer) -> pg_clock db1 = pg_clock db ->
  let seen := quota_seen db payer in
  let new := mkQuotaRow payer (qr_ActiveSessions seen) (qr_ActiveWorkers seen + n) (timestamptz (pg_clock db)) in
  reserve db (reserve_tx payer m n create) =
  if qr_ActiveWorkers seen + n >? m then (Err (ErrQuotaExceeded, Some (quotaRow_toRepository seen)), db)
  else (Ok (quotaRow_toRepository new), db1 <| pg_quotas := <[payer := new]> (pg_quotas db) |>).
Proof.
  intros (Hp & Hs & Hw) Hm Hn Hc Eq Ecl seen new. unfold reserve, reserve_tx, stmt_bind.
  assert (quota_ensure_sql payer db = Ok (tt, ensured db payer)) as ->.
  { unfold quota_ensure_sql, ensured, quota_seen, stmt_bind, quota_get_sql, current_timestamp.
    destruct (pg_quotas db !! payer) eqn:E; [|done]. simpl. destruct db; simpl in *. by rewrite insert_id. }
  unfold quota_get_sql at 1. simpl. rewrite lookup_insert_eq. unfold column, stmt_ret. fold seen.
  rewrite Z.gtb_ltb. destruct (Z.ltb_spec m (qr_ActiveWorkers seen + n)); [done |].
  rewrite Hc. unfold quota_increment_sql, stmt_bind, sql_check, quota_get_sql, current_timestamp.
  rewrite (int4_small 0), (int4_small n) by lia. simpl. rewrite Eq, Ecl. simpl. rewrite lookup_insert_eq. fold seen in Hs, Hw |- *.
  rewrite Z.add_0_r, !int4_small by lia. simpl. unfold put_quota_row. simpl. rewrite Eq. simpl.
  by rewrite insert_insert_eq.
Qed.

Lemma worker_reserve_agrees db r now w m :
  backends_agree db r -> wf_op r (OpWorkerCreateAndReserve w m) ->
  same_answer (OpWorkerCreateAndReserve w m) (AQuota (pg_WorkerCreateAndReserveQuota db w m).1)
    (AQuota (im_WorkerCreateAndReserveQuota r now w m).1) /\
  backends_agree (pg_WorkerCreateAndReserveQuota db w m).2 (im_WorkerCreateAndReserveQuota r now w m).2.
Proof.
  intros A (Hm & Hw). destruct w as [w|]; [|split; [split; [same_kinds | done] | done]].
  destruct (Hw w eq_refl) as (Hk & Hs & Ht & Hp & En & [s Es]). clear Hw.
  assert (pg_workers db !! wk_Key w = None) as En'.
  { pose proof (agree_worker db r (wk_Key w) A) as E. rewrite En in E. by destruct (pg_workers db !! wk_Key w). }
  destruct (agree_session db r (wk_SessionID w) A) as [(srow & ? & Er & _)|(_ & ? & _)]; [|congruence].
  unfold pg_WorkerCreateAndReserveQuota, im_WorkerCreateAndReserveQuota. rewrite En.
  destruct (String.eqb (wk_Key w) ""); [split; [split; [same_kinds | done] | done] |].
  destruct (Z.ltb_spec m 0); [split; [split; [same_kinds | done] | done] |].
  rewrite newAddress_20 by done.
  destruct (worker_row_wf (ensured db (wk_Payer w)) w) as (row & Ew & Ec);
    [done .. | by eexists |].
  set (db1 := (ensured db (wk_Payer w)) <| pg_workers := <[wk_Key w := row]> (pg_workers db) |>).
  assert (quota_row_ok (wk_Payer w) (quota_seen db (wk_Payer w)) /\
    match im_quotas r !! Pretty (wk_Payer w) with
    | Some q => stored_quota q
    | None => mkQuotaUsage (wk_Payer w) 0 0 0 end = stored_quota (quotaRow_toRepository (quota_seen db (wk_Payer w))))
    as (Hseen & Eseen).
  { unfold quota_seen. destruct (agree_quota db r (wk_Payer w) A Hp) as [(qr & q & -> & -> & Hq & E1 & E2 & E3)|(-> & ->)].
    - split; [done |]. destruct Hq as (Hq & _). destruct q, qr; simpl in *; by subst.
    - split; [done | done]. }
  rewrite (reserve_tx_eval db (wk_Payer w) m 1 _ db1); [|done | lia | lia | | done | done].
  2: { unfold stmt_bind. by rewrite Ec. }
  set (seen := quota_seen db (wk_Payer w)) in *.
  set (new := mkQuotaRow (wk_Payer w) (qr_ActiveSessions seen) (qr_ActiveWorkers seen + 1) _).
  assert (forall q, stored_quota q = stored_quota (quotaRow_toRepository new) -> qr_ActiveWorkers seen + 1 <= m ->
    backends_agree (db1 <| pg_quotas := <[wk_Payer w := new]> (pg_quotas db) |>)
      (r <| im_workers := <[wk_Key w := w]> (im_workers r) |> <| im_quotas := <[Pretty (wk_Payer w) := q]> (im_quotas r) |>))
    as Hput.
  { intros q Eq Hle.
    assert (backends_agree (db <| pg_quotas := <[wk_Payer w := new]> (pg_quotas db) |>)
              (put_quota (Pretty (wk_Payer w)) q r)) as A1.
    { apply agree_put_quota; try done. destruct Hseen as (? & ? & ?). split; [done |]. simpl. lia. }
    exact (agree_put_worker _ _ (wk_Key w) row w A1 Ew). }
  destruct (im_quotas r !! Pretty (wk_Payer w)) as [q|].
  - row_field Eseen q_ActiveWorkers. row_field Eseen q_ActiveSessions. row_field Eseen q_Payer. rewrite F.
    destruct Hseen as (Hsp & _). rewrite Z.gtb_ltb. destruct (Z.ltb_spec m (qr_ActiveWorkers seen + 1)); simpl.
    + split; [|done]. split; [same_kinds |]. by rewrite Eseen.
    + assert (stored_quota (quotaRow_toRepository new) =
        stored_quota (q <| q_ActiveWorkers := q_ActiveWorkers q + 1 |> <| q_LastUpdated := now |>)) as Enew.
      { unfold stored_quota, quotaRow_toRepository, new. simpl. destruct q; simpl in *. by rewrite F, F0, F1, Hsp. }
      rewrite F in Enew. split; [exact Enew |]. apply Hput; [done | lia].
  - row_field Eseen q_ActiveWorkers. row_field Eseen q_ActiveSessions. rewrite <- F. change (0 + 1) with 1.
    rewrite !Z.gtb_ltb. destruct (Z.ltb_spec m 1); cbn [fst snd same_answer same_result].
    + split; [|done]. split; [same_kinds |]. simpl. by rewrite <- Eseen.
    + assert (stored_quota (quotaRow_toRepository new) = stored_quota (mkQuotaUsage (wk_Payer w) 0 1 now)) as Enew.
      { unfold stored_quota, quotaRow_toRepository, new. simpl. by rewrite <- F, <- F0. }
      split; [exact Enew |]. apply Hput; [done | lia].
Qed.

Lemma worker_delete_agrees db r k :
  backends_agree db r -> is_Some (im_workers r !! k) ->
  same_answer (OpWorkerDelete k) (AUnit (pg_WorkerDelete db k).1) (AUnit (im_WorkerDelete r k).1) /\
  backends_agree (pg_WorkerDelete db k).2 (im_WorkerDelete r k).2.
Proof.
  intros [As Ar Aw Aq Au Bs Br Bq Bv Bk Bp Bf] [w Ew]. unfold im_WorkerDelete. rewrite Ew. simpl. split; [done |].
  split; simpl; try done. by rewrite !fmap_delete, Aw.
Qed.

Lemma quota_decrement_agrees db r now p s w :
  backends_agree db r -> wf_op r (OpQuotaDecrement p s w) ->
  same_answer (OpQuotaDecrement p s w) (AUnit (pg_QuotaDecrement db p s w).1) (AUnit (im_QuotaDecrement r now p s w).1) /\
  backends_agree (pg_QuotaDecrement db p s w).2 (im_QuotaDecrement r now p s w).2.
Proof.
  intros A (Hp & Hs & Hw). unfold pg_QuotaDecrement, im_QuotaDecrement, commit, quota_decrement_sql, stmt_bind, sql_check,
    quota_get_sql, current_timestamp. rewrite newAddress_20, !int4_small by done. simpl.
  destruct (agree_quota db r p A Hp) as [(row & q & Eq & Eiq & (Hq1 & Hq2 & Hq3) & Hq4 & Hq5 & Hq6)|(Eq & Eiq)];
    rewrite Eq, Eiq; [|by split].
  assert (forall a b, 0 <= a < 2 ^ 31 -> 0 <= b < 2 ^ 31 -> int4 (a - b) = true) as Hint.
  { intros. unfold int4. apply andb_true_iff. rewrite Z.leb_le, Z.ltb_lt. lia. }
  rewrite !Hint by done. simpl. split; [done |].
  apply (agree_put_quota _ _ p (mkQuotaRow p (Z.max 0 (qr_ActiveSessions row - s)) (Z.max 0 (qr_ActiveWorkers row - w)) _)); try done.
  - split; [done |]. simpl. lia.
  - assert (forall z, Z.max 0 z = if z <? 0 then 0 else z) as Hmax.
    { intros z. destruct (Z.ltb_spec z 0); lia. }
    destruct q; simpl in *. unfold stored_quota, quotaRow_toRepository. simpl. rewrite !Hmax. by subst.
Qed.

(** ** Settlement *)

Lemma transition_agrees db r k v states set apply :
  backends_agree db r -> wf_key k ->
  (forall row c ov, record_pair db r k row c ov ->
     match apply c with
     | Ok c' => states (cr_State c) = true /\ exists row', set row db = Ok (row', db) /\
         collectionRow_toRepository row' = stored_record c' /\ row_pk row' = row_pk row /\
         is_Some (cw_ValueAggregate row') /\ 0 <= cw_AttemptCount row'
     | Err e => states (cr_State c) = false /\ e = ErrInvalidCollectionTransition
     end) ->
  let pg := execCollectionTransition db (update_collection (collectionKeyParams k) (Some v) states set) k (Some v) in
  let im := updateCollection r k (Some v) apply in
  same_result same_kind (fun c c' => c = stored_record c') pg.1 im.1 /\ backends_agree pg.2 im.2.
Proof.
  intros A Hk Hset. cbv zeta.
  unfold execCollectionTransition, classifyCollectionTransitionFailure, pg_CollectionGet, collectionGetTx,
    update_collection, updateCollection, commit, stmt_bind, collection_get_sql.
  destruct (agree_record db r k A Hk) as [(row & c & ov & P)|[Eo Ec]].
  2: { rewrite Eo, Ec. simpl. rewrite Eo. simpl. split; [same_kinds | done]. }
  specialize (Hset row c ov P). destruct P as [Eo Ec Eoc Hok Est Eov Ecv Eck Eatt _ Ecre Hs].
  rewrite Eo, Ec, Eov, Ecv, Est. unfold numeric_eq, collectionValuesEqual. rewrite cmpZ_eqb.
  destruct (Z.eqb_spec ov v) as [->|Hne]; cbn [negb andb].
  - destruct (apply c) as [c'|e].
    + destruct Hset as (-> & row' & -> & Er & Epk & Hv & Ha). simpl. split; [done |].
      destruct Hok as (Hpk & _). rewrite Epk, Hpk. by apply agree_put_record; [| | split; [congruence |] | |].
    + destruct Hset as (-> & ->). simpl. rewrite Eo. simpl. rewrite Eov, cmpZ_eqb, Z.eqb_refl. split; [same_kinds | done].
  - simpl. rewrite Eo. simpl. rewrite Eov, cmpZ_eqb, (proj2 (Z.eqb_neq _ _) Hne). split; [same_kinds | done].
Qed.

(** The row of a record with its settlement fields replaced. *)
Lemma settled_row row c st n tx e amount t :
  collectionRow_toRepository row = stored_record c ->
  collectionRow_toRepository (settlement_columns row st n (nullableString tx) e amount t) =
  mkCollectionRecord (cr_Key c) (cr_SignedRAV c) (cr_ValueAggregate c) st n tx (default ""%string e) amount
    (timestamptz (cr_CreatedAt c)) (timestamptz t).
Proof.
  intros E. row_field E cr_Key. row_field E cr_SignedRAV. row_field E cr_ValueAggregate. row_field E cr_CreatedAt.
  rewrite <- F, <- F0, <- F1, <- F2. unfold collectionRow_toRepository. simpl. by rewrite default_nullableString.
Qed.

Lemma mark_agrees db r now op :
  backends_agree db r -> wf_op r op ->
  match op with OpMarkPending _ _ _ _ | OpMarkCollected _ _ _ _ _ | OpMarkFailed _ _ _ _ _ => True | _ => False end ->
  same_answer op (run_op now op db).1 (run_op now op r).1 /\
  backends_agree (run_op now op db).2 (run_op now op r).2.
Proof.
  intros A Hw Hop. destruct op as [| | | | | | | | |k v tx t|k v tx a t|k v tx e t]; try done; cbn [run_op record_answer fst snd].
  - destruct Hw as (Hk & [x ->] & Htx & Hat). apply (transition_agrees db r k x); [done | done |].
    intros row c ov P. specialize (Hat c (rp_im _ _ _ _ _ _ P)). pose proof (rp_ok _ _ _ _ _ _ P) as (_ & Hv & Ha).
    unfold mark_pending. pose proof (rp_attempts _ _ _ _ _ _ P) as Eat.
    destruct (negb _ && negb _) eqn:Eb.
    + apply andb_true_iff in Eb as [E1 E2]. bool_props. by rewrite !bool_decide_false.
    + split. { apply andb_false_iff in Eb as [E1|E1]; bool_props; rewrite E1; done. }
      eexists. unfold stmt_bind. rewrite null_text_wf by done. unfold sql_check. rewrite int4_small by lia.
      split; [done |]. split; [|split; [done |]; split; [done | simpl; lia]].
      rewrite (settled_row _ c) by apply P. by rewrite Eat, (rp_amount _ _ _ _ _ _ P).
  - destruct Hw as (Hk & [x ->] & Htx). apply (transition_agrees db r k x); [done | done |].
    intros row c ov P. pose proof (rp_ok _ _ _ _ _ _ P) as (_ & Hv & Ha). unfold mark_collected.
    case_bool_decide as Eb; cbn [negb]; [|done]. split; [done |].
    eexists. unfold stmt_bind. rewrite null_text_wf by done.
    split; [done |]. split; [|done]. rewrite (settled_row _ c), (rp_attempts _ _ _ _ _ _ P), ?(rp_amount _ _ _ _ _ _ P), ?default_nullableString by apply P. done.
  - destruct Hw as (Hk & [x ->] & Htx & He). apply (transition_agrees db r k x); [done | done |].
    intros row c ov P. pose proof (rp_ok _ _ _ _ _ _ P) as (_ & Hv & Ha). unfold mark_failed.
    case_bool_decide as Eb; cbn [negb]; [|done]. split; [done |].
    eexists. unfold stmt_bind. rewrite !null_text_wf by done.
    split; [done |]. split; [|done]. rewrite (settled_row _ c), (rp_attempts _ _ _ _ _ _ P), ?(rp_amount _ _ _ _ _ _ P), ?default_nullableString by apply P. done.
Qed.

(** ** Runs *)

Lemma op_agrees db r now op :
  backends_agree db r -> wf_op r op ->
  same_answer op (run_op now op db).1 (run_op now op r).1 /\
  backends_agree (run_op now op db).2 (run_op now op r).2.
Proof.
  intros A Hw. destruct op.
  - exact (create_agrees db r now s A Hw).
  - exact (update_agrees db r now s A Hw).
  - exact (touch_agrees db r id t A).
  - exact (runtime_state_agrees db r id status md ended reason updated A Hw).
  - exact (rav_baseline_agrees db r now id rav blocks bytes reqs cost A Hw).
  - exact (apply_usage_agrees db r now id u cost A Hw).
  - exact (worker_reserve_agrees db r now w maxWorkers A Hw).
  - exact (worker_delete_agrees db r key A Hw).
  - exact (quota_decrement_agrees db r now payer sessions workers A Hw).
  - by apply mark_agrees.
  - by apply mark_agrees.
  - by apply mark_agrees.
Qed.

(** An operation with the times at the server and at the client. *)
Definition timed_op : Type := time * time * repo_op.

Fixpoint run_pg (ops : list timed_op) (db : Database) : list answer * Database :=
  match ops with
  | [] => ([], db)
  | (clock, now, op) :: rest =>
      let '(a, db) := run_op now op (db <| pg_clock := clock |>) in
      let '(answers, db) := run_pg rest db in (a :: answers, db)
  end.
Fixpoint run_im (ops : list timed_op) (r : InMemoryRepository) : list answer * InMemoryRepository :=
  match ops with
  | [] => ([], r)
  | (_, now, op) :: rest =>
      let '(a, r) := run_op now op r in
      let '(answers, r) := run_im rest r in (a :: answers, r)
  end.
Fixpoint wf_run (r : InMemoryRepository) (ops : list timed_op) : Prop :=
  match ops with
  | [] => True
  | (_, now, op) :: rest => wf_op r op /\ wf_run (run_op now op r).2 rest
  end.

Lemma agree_new clock : backends_agree (NewDatabase clock) NewInMemoryRepository.
Proof. split; try done; intros; simpl; rewrite ?lookup_empty, ?fmap_empty in *; done. Qed.

Lemma run_agrees ops db r :
  backends_agree db r -> wf_run r ops ->
  Forall3 (fun '(_, _, op) => same_answer op) ops (run_pg ops db).1 (run_im ops r).1 /\
  backends_agree (run_pg ops db).2 (run_im ops r).2.
Proof.
  revert db r. induction ops as [|[[clock now] op] ops IH]; intros db r A Hw; [by split; [constructor |] |].
  destruct Hw as [Hop Hw]. simpl. destruct (op_agrees _ _ now op (agree_clock _ _ clock A) Hop) as [Ha A'].
  destruct (run_op now op (db <| pg_clock := clock |>)) as [a db'], (run_op now op r) as [a' r']. simpl in *.
  destruct (IH _ _ A' Hw) as [Hs A'']. destruct (run_pg ops db') as [l db''], (run_im ops r') as [l' r'']. simpl in *.
  split; [by constructor | done].
Qed.

(** ** Queries *)

(** The queries of the two backends answer the same, lists in any order.  A
    filter on the creation time is left out: Postgres includes the bound. *)
Record same_reads db r : Prop := {
  read_session id :
    same_result same_kind (fun s s' => forget_updated s = stored_session s') (SessionGet db id) (SessionGet r id);
  read_sessions f : sf_CreatedAfter f = None ->
    map forget_updated (SessionList db f) ≡ₚ map stored_session (SessionList r f);
  read_count : pg_SessionCount db = SessionCount r;
  read_worker k :
    same_result same_kind (fun w w' => w = stored_worker w') (WorkerGet db k) (WorkerGet r k);
  read_worker_count id : WorkerCountBySession db id = WorkerCountBySession r id;
  read_quota now p : length p = 20%nat ->
    same_result same_kind (fun q q' => stored_quota q = stored_quota q') (QuotaGet db now p) (QuotaGet r now p);
  read_record k : wf_key k ->
    same_result same_kind (fun c c' => c = stored_record c') (CollectionGet db k) (CollectionGet r k);
  read_records f c :
    (exists l, CollectionList db f = Ok l /\ c ∈ l) <->
    (exists l c', CollectionList r f = Ok l /\ c' ∈ l /\ c = stored_record c')
}.

Lemma filter_map_comm {A B} (f : A -> B) (p : B -> bool) l :
  List.filter p (map f l) = map f (List.filter (fun a => p (f a)) l).
Proof. induction l as [|a l IH]; [done |]. simpl. rewrite IH. by destruct (p (f a)). Qed.

Lemma filter_Permutation {A} (p : A -> bool) (l l' : list A) :
  l ≡ₚ l' -> List.filter p l ≡ₚ List.filter p l'.
Proof.
  induction 1; simpl; repeat case_match; eauto using Permutation.
Qed.

Lemma values_fmap {K A B} `{FinMap K M} (f : A -> B) (m : M A) :
  map snd (map_to_list (f <$> m)) ≡ₚ map f (map snd (map_to_list m)).
Proof.
  rewrite map_to_list_fmap. change (prod_map id f <$> map_to_list m) with (map (prod_map id f) (map_to_list m)).
  rewrite !map_map. done.
Qed.

(** The table of sessions as its readers see it. *)
Definition session_view db (row : sessionRow) : Session :=
  sessionRow_toRepository row (get_rav db (sr_ID row)) no_pricing.

Lemma agree_views db r :
  backends_agree db r -> (fun row => forget_updated (session_view db row)) <$> pg_sessions db = stored_session <$> im_sessions r.
Proof.
  intros A. apply map_eq. intros id. rewrite !lookup_fmap, <- (ba_sessions _ _ A id), session_at_row.
  destruct (pg_sessions db !! id) as [row|] eqn:E; [|done]. simpl. unfold session_view.
  by rewrite (sro_id _ _ (ba_session_rows _ _ A _ _ E)).
Qed.

(** A filter without a bound in time, on what both sides store. *)
Definition view_matches (f : SessionFilter) (s : Session) : bool :=
  match sf_Payer f with Some p => bool_decide (s_Payer s = p) | None => true end &&
  match sf_Status f with Some st => bool_decide (s_Status s = st) | None => true end.

Lemma Pretty_eqb a b : String.eqb (Pretty a) (Pretty b) = bool_decide (a = b).
Proof. case_bool_decide as E; [by subst; apply String.eqb_refl |]. apply String.eqb_neq. by intros ?%Pretty_inj. Qed.

Lemma agree_list db r f :
  backends_agree db r -> sf_CreatedAfter f = None ->
  map forget_updated (pg_SessionList db f) ≡ₚ map stored_session (im_SessionList r f).
Proof.
  intros A Hf. unfold pg_SessionList, im_SessionList.
  assert (forall row, row_matches f row = view_matches f (forget_updated (session_view db row))) as Hrow.
  { intros row. unfold row_matches, view_matches. rewrite Hf. simpl. by rewrite andb_true_r. }
  assert (forall s, session_matches f s = view_matches f (stored_session s)) as Hs.
  { intros s. unfold session_matches, view_matches. rewrite Hf. simpl. rewrite andb_true_r.
    destruct (sf_Payer f) as [p|]; [|done]. by rewrite Pretty_eqb. }
  rewrite (List.filter_ext _ _ Hrow), (List.filter_ext _ _ Hs), map_map.
  change (fun x => forget_updated _) with (fun row => forget_updated (session_view db row)).
  rewrite <- (filter_map_comm (fun row => forget_updated (session_view db row)) (view_matches f)),
    <- (filter_map_comm stored_session (view_matches f)).
  apply filter_Permutation. unfold session_list_sql.
  rewrite <- values_fmap, <- (agree_views db r A), values_fmap. apply Permutation_map, merge_sort_Permutation.
Qed.

Lemma elem_of_values {K A} `{FinMap K M} (m : M A) x : x ∈ map snd (map_to_list m) <-> exists k, m !! k = Some x.
Proof.
  change (map snd) with (fmap (M := list) (A := K * A) snd). rewrite list_elem_of_fmap. split.
  - intros ([k y] & -> & E%elem_of_map_to_list). by exists k.
  - intros [k E]. exists (k, x). by rewrite elem_of_map_to_list.
Qed.

Lemma elem_of_bool_filter {A} (p : A -> bool) l x : x ∈ List.filter p l <-> p x = true /\ x ∈ l.
Proof. rewrite !list_elem_of_In, List.filter_In. tauto. Qed.

Lemma agree_records_list db r f c :
  backends_agree db r ->
  c ∈ pg_CollectionList db f <-> exists c', c' ∈ im_CollectionList r f /\ c = stored_record c'.
Proof.
  intros A. unfold pg_CollectionList, im_CollectionList. rewrite elem_of_bool_filter.
  change (map collectionRow_toRepository) with (fmap (M := list) collectionRow_toRepository).
  rewrite list_elem_of_fmap. setoid_rewrite elem_of_bool_filter. setoid_rewrite elem_of_values.
  setoid_rewrite merge_sort_Permutation. setoid_rewrite elem_of_values. split.
  - intros (Hm & row & -> & pk & E). destruct (ba_pg_keys _ _ A _ _ E) as (k & Hk & ->).
    pose proof (ba_records _ _ A k Hk) as Er. rewrite E in Er.
    destruct (im_records r !! collectionMapKey k) as [c'|] eqn:Ec; [|done]. apply (inj Some) in Er.
    exists c'. rewrite Er in *. by eauto.
  - intros (c' & (Hm & key & E) & ->). destruct (ba_im_keys _ _ A _ _ E) as (Hk & ->).
    pose proof (ba_records _ _ A _ Hk) as Er. rewrite E in Er.
    destruct (pg_records db !! _) as [row|] eqn:Ep; [|done]. apply (inj Some) in Er. split; [exact Hm |]. eauto.
Qed.

Lemma agree_reads db r : backends_agree db r -> same_reads db r.
Proof.
  intros A. split.
  - intros id. simpl. unfold pg_SessionGet, im_SessionGet.
    destruct (agree_session db r id A) as [(row & s & -> & -> & _ & E)|(-> & -> & _)]; [exact E | same_kinds].
  - intros f Hf. by apply agree_list.
  - unfold pg_SessionCount, SessionCount. f_equal.
    rewrite <- (map_size_fmap (fun row => forget_updated (session_view db row)) (pg_sessions db)), (agree_views db r A).
    by rewrite map_size_fmap.
  - intros k. simpl. unfold pg_WorkerGet, im_WorkerGet. pose proof (agree_worker db r k A) as E.
    destruct (pg_workers db !! k), (im_workers r !! k); try done; [by apply (inj Some) in E | same_kinds].
  - intros id. simpl. f_equal. unfold pg_WorkerCountBySession, worker_count_by_session_sql, im_WorkerCountBySession. f_equal.
    set (of_session := fun w => String.eqb (wk_SessionID w) id).
    assert (forall A (f : A -> Worker) (m : gmap string A),
      length (List.filter of_session (map snd (map_to_list (f <$> m)))) =
      length (List.filter (fun a => of_session (f a)) (map snd (map_to_list m)))) as Hlen.
    { intros A' f m. rewrite (Permutation_length (filter_Permutation _ _ _ (values_fmap f m))).
      by rewrite filter_map_comm, length_map. }
    etransitivity; [symmetry; apply (Hlen _ workerRow_toRepository) |]. rewrite (ba_workers _ _ A). exact (Hlen _ stored_worker _).
  - intros now p Hp. simpl. unfold pg_QuotaGet, im_QuotaGet. rewrite newAddress_20 by done.
    pose proof (ba_quotas _ _ A p Hp) as E.
    destruct (pg_quotas db !! p), (im_quotas r !! Pretty p); try done. by apply (inj Some) in E.
  - intros k Hk. simpl. unfold pg_CollectionGet, im_CollectionGet, collectionGetTx, commit, stmt_bind, collection_get_sql.
    destruct (agree_record db r k A Hk) as [(row & c & v & P)|[-> ->]]; [|same_kinds].
    rewrite (rp_pg _ _ _ _ _ _ P), (rp_im _ _ _ _ _ _ P). apply (rp_eq _ _ _ _ _ _ P).
  - intros f c. simpl. pose proof (agree_records_list db r f c A) as E. split.
    + intros (l & [= <-] & Hc). apply E in Hc as (c' & Hc' & ->). eauto.
    + intros (l & c' & [= <-] & Hc' & ->). eexists. split; [done |]. apply E. eauto.
Qed.

End Relation.

(** ** Prices and the operator's view *)

Section Prices.
Context `{Uint256} `{EthLaws} `{PostgresTypes} `{!Uint256Laws}.

(** With Postgres the operator's view never estimates the blocks that are left:
    the estimate divides by the session's price, which a session read from the
    database does not have. *)
Lemma postgres_hides_estimates (db : Database) (id : string) (s : Session) (owed : Z) (escrow : option Z) :
  SessionGet db id = Ok s -> estimatedBlocksRemaining s owed escrow = 0.
Proof.
  simpl. unfold pg_SessionGet. destruct (pg_sessions db !! id); [|done]. intros [= <-].
  unfold estimatedBlocksRemaining. simpl. destruct escrow; [|done].
  change (GRT_BigInt ZeroGRT) with (uint256_ToBig uint256_zero). by rewrite ToBig_zero.
Qed.
End Prices.

(** ** Column values *)

Lemma grt_roundtrip g : grt_Scan (grt_Value g) = Ok g.
Proof. destruct g as [v|]; [|done]. simpl. by rewrite SetString_big_String. Qed.

(** The server sends NUMERIC values back as text in bytes. *)
Lemma grt_bytes_roundtrip v b : byte_chars b = big_String v -> grt_Scan (DriverBytes b) = Ok (Some v).
Proof. intros E. simpl. by rewrite E, SetString_big_String. Qed.

(** What the columns hold scans back: amounts of any size and sign, and the
    three kinds of arrays, whose widths the scan enforces. *)
Theorem columns_roundtrip (g : option Z) (a : address) (sig : signature) (id : CollectionID) (b : list byte) :
  grt_Scan (grt_Value g) = Ok g /\
  (length a = 20%nat -> address_Scan (address_Value (newAddress a)) = Ok a) /\
  (length sig = 65%nat -> signature_Scan (signature_Value (newSignature sig)) = Ok sig) /\
  (length id = 32%nat -> collectionID_Scan (collectionID_Value (newCollectionID id)) = Ok id) /\
  (is_ok (address_Scan (DriverBytes b)) = true <-> length b = 20%nat).
Proof.
  unfold address_Scan, signature_Scan, collectionID_Scan, array_Scan, address_Value, signature_Value, collectionID_Value.
  split_and!; [apply grt_roundtrip | | | |].
  - intros E. by rewrite newAddress_20, E.
  - intros E. unfold newSignature. by rewrite copy_array_exact, E.
  - intros E. unfold newCollectionID. by rewrite copy_array_exact, E.
  - destruct (Nat.eqb_spec (length b) 20); done.
Qed.

(** ** A concrete run *)

Module PostgresWitness.
Import Reference.
(** Column types that keep what they are documented to keep. *)
#[export] Instance types : PostgresTypes := {|
  timestamptz t := (t + 500) / 1000 * 1000;
  varchar n s := if plain_text s && (String.length s <=? n)%nat then Some s else None;
  pg_text s := if plain_text s then Some s else None;
  jsonb m := if plain_map m then Some m else None
|}.
#[export] Instance types_laws : PostgresTypesLaws.
Proof.
  split; simpl.
  - intros a b Hab. apply Z.mul_le_mono_nonneg_r; [lia |]. apply Z.div_le_mono; lia.
  - intros t. split; [apply Z.mod_mul; lia |]. pose proof (Z.div_mod (t + 500) 1000 ltac:(lia)).
    pose proof (Z.mod_pos_bound (t + 500) 1000 ltac:(lia)). lia.
  - intros n s -> Hn. by rewrite (proj2 (Nat.leb_le _ _) Hn).
  - by intros s ->.
  - by intros m ->.
Qed.

Definition worker : Worker := mkWorker "w1" "s1" (fixed_bytes 20 2) 1700 "".
Definition event : UsageEvent := mkUsageEvent 1800 5 (-3) 1.
Definition key : CollectionKey := rav_key "s1" RepoWitness.m1.
(** A session with a RAV is metered, borrows a worker and gets settled, while
    one more RAV comes too late. *)
Definition ops : list timed_op :=
  [(1500, 1600, OpSessionCreate (Some RepoWitness.session));
   (1700, 1800, OpApplyUsage "s1" (Some event) (Some 7));
   (1800, 1900, OpWorkerCreateAndReserve (Some worker) 1);
   (1900, 2000, OpMarkPending key (Some 150) "0xabc" 2100);
   (2000, 2100, OpUpdateRAVAndBaseline "s1" (Some (RepoWitness.rav 160)) 5 0 1 (Some 7));
   (2100, 2200, OpMarkCollected key (Some 150) "0xabc" (Some 150) 2300)].

Definition answered (a : answer) : bool :=
  match a with AUnit x => is_ok x | AQuota x => is_ok x | ARecord x => is_ok x end.

Lemma witness_rav_wf v : wf_signed (RepoWitness.rav v).
Proof. do 2 eexists. split; [done |]. split; [done |]. split_and!; done || apply fixed_bytes_length. Qed.

Lemma text_ok s : (plain_text s && (String.length s <=? 255)%nat) = true -> column_text s.
Proof. intros [? ?%Nat.leb_le]%andb_true_iff. by split. Qed.

Lemma key_wf : wf_key key.
Proof. split_and!; apply fixed_bytes_length. Qed.

Lemma session_wf : wf_stored_session RepoWitness.session.
Proof.
  assert (u64 0) by (unfold u64, two64; lia).
  split_and!; try done; try apply fixed_bytes_length; try (by eexists); [by apply text_ok |].
  intros rav [= <-]. apply witness_rav_wf.
Qed.

(** Checks of the states in between, as computations. *)
Definition fits (r : InMemoryRepository) : bool :=
  match im_sessions r !! "s1"%string with
  | Some s => (s_BlocksProcessed s =? 0) && (s_BytesTransferred s =? 0) && (s_Requests s =? 0)
  | None => true
  end.
Definition attempts_fit (r : InMemoryRepository) : bool :=
  match im_records r !! collectionMapKey key with Some c => cr_AttemptCount c =? 0 | None => true end.

Lemma fits_sound r s : fits r = true -> im_sessions r !! "s1"%string = Some s ->
  s_BlocksProcessed s = 0 /\ s_BytesTransferred s = 0 /\ s_Requests s = 0.
Proof. unfold fits. intros Hf E. rewrite E in Hf. bool_props. done. Qed.
Lemma attempts_sound r c : attempts_fit r = true -> im_records r !! collectionMapKey key = Some c -> cr_AttemptCount c = 0.
Proof. unfold attempts_fit. intros Hf E. rewrite E in Hf. by bool_props. Qed.
Lemma present_sound {A} (o : option A) : bool_decide (is_Some o) = true -> is_Some o.
Proof. apply bool_decide_eq_true. Qed.
Lemma absent_sound {A} (o : option A) : bool_decide (o = None) = true -> o = None.
Proof. apply bool_decide_eq_true. Qed.

Lemma ops_wf : wf_run NewInMemoryRepository ops.
Proof.
  assert (forall z, 0 <= z < 100 -> u64 z) as Hu by (unfold u64, two64; lia).
  assert (forall z, -100 <= z < 100 -> s64 z) as Hs by (unfold s64; lia).
  cbn [wf_run ops]. split_and!; cbn [wf_op].
  - intros s [= <-]. apply session_wf.
  - split; [by apply text_ok |]. intros u [= <-]. split_and!; [apply Hs; simpl; lia .. |]. intros s E.
    apply fits_sound in E as (-> & -> & ->); [|vm_compute; reflexivity]. by split_and!.
  - split; [done |]. intros w [= <-]. split_and!; try (by apply text_ok); [apply fixed_bytes_length | |].
    + apply absent_sound. vm_compute. reflexivity.
    + apply present_sound. vm_compute. reflexivity.
  - split_and!; [apply key_wf .. | by eexists | done |]. intros c E.
    apply attempts_sound in E as ->; [|vm_compute; reflexivity]. done.
  - split_and!; [by apply text_ok | done | apply Hu; lia .. |]. eexists. split; [done | apply witness_rav_wf].
  - split_and!; [apply key_wf .. | by eexists | done].
  - done.
Qed.
End PostgresWitness.

Import Reference PostgresWitness.
