(* ===== verification/Contracts.v ===== *)
(** The contract bindings ([contracts/horizon], [contracts/erc20]) and the two
    read-only queriers of the gateway ([sidecar/escrow_querier.go],
    [sidecar/collector_querier.go]): what is put into the calldata of a call, how
    an answer is read, the collect calldata of a signed RAV, and the proof with
    which a signer consents to be authorized.

    The ABI codec of go-ethereum is the interface [ContractABI]; keys, signing and
    address conversion are [Geth]; the contracts themselves are not in the
    repository and appear only through those. *)
From S2P Require Import Prelude.
From S2P Require Import GoStd.
From S2P Require Import External.
From S2P Require Import Horizon.

(** ** Interfaces *)

(** The contracts whose ABI the program loads. *)
Inductive contract : Type := ERC20 | PaymentsEscrow | GraphTallyCollector | SubstreamsDataService.

(** A Go value the codec packs or unpacks: [common.Address], [*big.Int],
    [uint8], [bool], [[]byte]. *)
Inductive AbiValue : Type :=
  | AbiAddress (a : address)
  | AbiBig (z : Z)
  | AbiUint8 (z : Z)
  | AbiBool (b : bool)
  | AbiBytes (l : list byte).

#[global] Instance contract_eq_dec : EqDecision contract.
Proof. solve_decision. Defined.
#[global] Instance AbiValue_eq_dec : EqDecision AbiValue.
Proof. solve_decision. Defined.

Record dataServiceCollectRAV : Type := mkCollectRAV {
  dc_CollectionID : CollectionID;
  dc_Payer : address;
  dc_ServiceProvider : address;
  dc_DataService : address;
  dc_TimestampNs : Z;
  dc_ValueAggregate : Z;
  dc_Metadata : list byte
}.

Record dataServiceCollectSignedRAV : Type := mkCollectSignedRAV {
  dc_RAV : dataServiceCollectRAV;
  dc_Signature : list byte
}.

#[global] Instance dataServiceCollectRAV_eq_dec : EqDecision dataServiceCollectRAV.
Proof. solve_decision. Defined.
#[global] Instance dataServiceCollectSignedRAV_eq_dec : EqDecision dataServiceCollectSignedRAV.
Proof. solve_decision. Defined.

(** [abi.ABI.Pack], [abi.ABI.Unpack], and [Arguments.Pack] of the collect data. *)
Class ContractABI : Type := {
  abi_Pack : contract -> string -> list AbiValue -> result go_error (list byte);
  abi_Unpack : contract -> string -> list byte -> result go_error (list AbiValue);
  abi_PackCollectData : dataServiceCollectSignedRAV -> Z -> result go_error (list byte)
}.

(** The 32-byte big-endian word of the ABI encoding. *)
Definition word (z : Z) : list byte := padLeft (Bytes z) 32.

Definition abi_value_wf (v : AbiValue) : Prop :=
  match v with
  | AbiAddress a => length a = 20%nat
  | AbiBig z => 0 <= z < two256
  | AbiUint8 z => 0 <= z < 256
  | AbiBool _ | AbiBytes _ => True
  end.

Record collect_data_wf (d : dataServiceCollectSignedRAV) : Prop := {
  dcw_id : length (dc_CollectionID (dc_RAV d)) = 32%nat;
  dcw_payer : length (dc_Payer (dc_RAV d)) = 20%nat;
  dcw_provider : length (dc_ServiceProvider (dc_RAV d)) = 20%nat;
  dcw_service : length (dc_DataService (dc_RAV d)) = 20%nat;
  dcw_time : u64 (dc_TimestampNs (dc_RAV d));
  dcw_value : 0 <= dc_ValueAggregate (dc_RAV d) <= MaxUint128
}.

(** The methods of the program that return one [uint256], and those that return
    one [bool]. *)
Definition returns_uint256 (c : contract) (m : string) : bool :=
  match c with
  | ERC20 => String.eqb m "balanceOf" || String.eqb m "allowance"
  | PaymentsEscrow => String.eqb m "getBalance"
  | GraphTallyCollector => String.eqb m "getThawEnd"
  | SubstreamsDataService => false
  end.
Definition returns_bool (c : contract) (m : string) : bool :=
  match c with GraphTallyCollector => String.eqb m "isAuthorized" | _ => false end.

(** Encodings are injective on values in the range of their types, and answers
    of the chain are words. *)
Class ContractABILaws `{ContractABI} : Prop := {
  abi_Pack_inj c m1 m2 l1 l2 data :
    Forall abi_value_wf l1 -> Forall abi_value_wf l2 ->
    abi_Pack c m1 l1 = Ok data -> abi_Pack c m2 l2 = Ok data -> m1 = m2 /\ l1 = l2;
  abi_PackCollectData_inj d1 d2 c1 c2 data :
    collect_data_wf d1 -> collect_data_wf d2 -> u64 c1 -> u64 c2 ->
    abi_PackCollectData d1 c1 = Ok data -> abi_PackCollectData d2 c2 = Ok data -> d1 = d2 /\ c1 = c2;
  abi_Unpack_uint256 c m z :
    returns_uint256 c m = true -> 0 <= z < two256 -> abi_Unpack c m (word z) = Ok [AbiBig z];
  abi_Unpack_bool c m (b : bool) :
    returns_bool c m = true -> abi_Unpack c m (word (if b then 1 else 0)) = Ok [AbiBool b]
}.

(** Keys and addresses of go-ethereum: [common.BytesToAddress], [crypto.ToECDSA],
    [crypto.PubkeyToAddress], [crypto.Sign] ([r || s || v] with [v] 0 or 1), and
    the chain's [ecrecover]; [key_Bytes] is [eth.PrivateKey.Bytes]. *)
Class Geth `{Eth} : Type := {
  ECDSAKey : Type;
  common_BytesToAddress : list byte -> address;
  key_Bytes : PrivateKey -> list byte;
  crypto_ToECDSA : list byte -> result go_error ECDSAKey;
  crypto_PubkeyToAddress : ECDSAKey -> address;
  crypto_Sign : hash -> ECDSAKey -> result go_error (list byte);
  ecrecover : hash -> list byte -> option address
}.

Class GethLaws `{Geth} : Prop := {
  BytesToAddress_length l : length (common_BytesToAddress l) = 20%nat;
  BytesToAddress_id l : length l = 20%nat -> common_BytesToAddress l = l;
  ToECDSA_address k e : crypto_ToECDSA (key_Bytes k) = Ok e -> crypto_PubkeyToAddress e = key_address k;
  Sign_recovers d e sig :
    crypto_Sign d e = Ok sig ->
    exists rs v, sig = rs ++ [v] /\ length rs = 64%nat /\ 0 <= byte_to_Z v < 2 /\
      ecrecover d (rs ++ [byte_of_Z (byte_to_Z v + 27)]) = Some (crypto_PubkeyToAddress e)
}.

(** ** Bindings *)
Section Bindings.
Context `{ContractABI}.

(** The body the single-result readers share: one value of the expected type. *)
Definition unpack_one {A} (c : contract) (m : string) (type_of : AbiValue -> option A) (data : list byte) :
    result go_error A :=
  match abi_Unpack c m data with
  | Err e => Err (Wrapf "unpacking %s: %w" e)
  | Ok [v] => match type_of v with
              | Some x => Ok x
              | None => Err (Errorf "unpacking %s: unexpected type")
              end
  | Ok _ => Err (Errorf "unpacking %s: expected 1 value, got %d")
  end.
Definition as_big (v : AbiValue) : option Z := match v with AbiBig z => Some z | _ => None end.
Definition as_bool (v : AbiValue) : option bool := match v with AbiBool b => Some b | _ => None end.
Definition as_uint8 (v : AbiValue) : option Z := match v with AbiUint8 z => Some z | _ => None end.

Definition unpackUint256 (m : string) (data : list byte) : result go_error Z := unpack_one ERC20 m as_big data.
Definition PackBalanceOf (account : address) := abi_Pack ERC20 "balanceOf" [AbiAddress account].
Definition UnpackBalanceOf (data : list byte) := unpackUint256 "balanceOf" data.
Definition PackAllowance (owner spender : address) :=
  abi_Pack ERC20 "allowance" [AbiAddress owner; AbiAddress spender].
Definition UnpackAllowance (data : list byte) := unpackUint256 "allowance" data.
Definition PackApprove (spender : address) (value : Z) :=
  abi_Pack ERC20 "approve" [AbiAddress spender; AbiBig value].
Definition PackDecimals := abi_Pack ERC20 "decimals" [].
Definition UnpackDecimals (data : list byte) : result go_error Z := unpack_one ERC20 "decimals" as_uint8 data.

Definition PackGetBalance (payer collector receiver : address) :=
  abi_Pack PaymentsEscrow "getBalance" [AbiAddress payer; AbiAddress collector; AbiAddress receiver].
Definition UnpackGetBalance (data : list byte) : result go_error Z :=
  unpack_one PaymentsEscrow "getBalance" as_big data.
Definition PackDeposit (collector receiver : address) (amount : Z) :=
  abi_Pack PaymentsEscrow "deposit" [AbiAddress collector; AbiAddress receiver; AbiBig amount].

Definition PackIsAuthorized (authorizer signer : address) :=
  abi_Pack GraphTallyCollector "isAuthorized" [AbiAddress authorizer; AbiAddress signer].
Definition UnpackIsAuthorized (data : list byte) : result go_error bool :=
  unpack_one GraphTallyCollector "isAuthorized" as_bool data.
Definition PackGetThawEnd (signer : address) := abi_Pack GraphTallyCollector "getThawEnd" [AbiAddress signer].
Definition UnpackGetThawEnd (data : list byte) : result go_error Z :=
  unpack_one GraphTallyCollector "getThawEnd" as_big data.
Definition PackAuthorizeSigner (signer : address) (proofDeadline : Z) (proof : list byte) :=
  abi_Pack GraphTallyCollector "authorizeSigner" [AbiAddress signer; AbiBig proofDeadline; AbiBytes proof].
Definition PackThawSigner (signer : address) := abi_Pack GraphTallyCollector "thawSigner" [AbiAddress signer].
Definition PackRevokeAuthorizedSigner (signer : address) :=
  abi_Pack GraphTallyCollector "revokeAuthorizedSigner" [AbiAddress signer].
Definition PackCancelThawSigner (signer : address) :=
  abi_Pack GraphTallyCollector "cancelThawSigner" [AbiAddress signer].
End Bindings.

Definition PaymentTypeQueryFee : Z := 0.

(** [sig[1:33]], [sig[33:65]], [sig[0]]: a signature is an array of 65 bytes. *)
Definition ravSignatureRSV (sig : signature) : list byte :=
  take 32 (drop 1 sig) ++ take 32 (drop 33 sig) ++ take 1 sig.

Section Collect.
Context `{ContractABI} `{Geth}.

Definition PackCollect (indexer : address) (paymentType : Z) (data : list byte) :=
  abi_Pack SubstreamsDataService "collect" [AbiAddress indexer; AbiUint8 paymentType; AbiBytes data].

Definition collect_data (rav : RAV) (value : Z) (sig : signature) : dataServiceCollectSignedRAV :=
  mkCollectSignedRAV
    (mkCollectRAV (rav_CollectionID rav) (common_BytesToAddress (rav_Payer rav))
       (common_BytesToAddress (rav_ServiceProvider rav)) (common_BytesToAddress (rav_DataService rav))
       (rav_TimestampNs rav) value (rav_Metadata rav))
    (ravSignatureRSV sig).

Definition EncodeDataServiceCollectData (signedRAV : option SignedRAV) (dataServiceCutPPM : Z) :
    result go_error (list byte) :=
  match signedRAV with
  | None => Err (ErrorsNew "signed RAV is required")
  | Some signedRAV =>
    match Message signedRAV with
    | None => Err (ErrorsNew "signed RAV message is required")
    | Some rav =>
      match rav_ValueAggregate rav with
      | None => Err (ErrorsNew "signed RAV value aggregate is required")
      | Some v => abi_PackCollectData (collect_data rav v (Signature signedRAV)) dataServiceCutPPM
      end
    end
  end.

Definition DataService_PackQueryFeeCollect (signedRAV : option SignedRAV) (dataServiceCutPPM : Z) :
    result go_error (list byte) :=
  let? data := EncodeDataServiceCollectData signedRAV dataServiceCutPPM in
  match signedRAV ≫= Message with
  | None => Err GoPanic
  | Some rav => PackCollect (common_BytesToAddress (rav_ServiceProvider rav)) PaymentTypeQueryFee data
  end.
End Collect.

(** ** Signer proofs *)

Definition signerProofMessage : string := "authorizeSignerProof".
(** [Ethereum Signed Message] with its control characters. *)
Definition signed_message_prefix : list byte :=
  Byte.x19 :: string_bytes "Ethereum Signed Message:" ++ [Byte.x0a] ++ string_bytes "32".

Section Proof.
Context `{Geth}.

Definition proof_message (chainID : Z) (collectorAddress : address) (proofDeadline : Z) (authorizer : address) :
    list byte :=
  word chainID ++ collectorAddress ++ string_bytes signerProofMessage ++ word proofDeadline ++ authorizer.

Definition proof_digest (chainID : Z) (collectorAddress : address) (proofDeadline : Z) (authorizer : address) : hash :=
  Keccak256 (signed_message_prefix ++ Keccak256 (proof_message chainID collectorAddress proofDeadline authorizer)).

Definition signerECDSAKey (signerKey : PrivateKey) : result go_error ECDSAKey :=
  match crypto_ToECDSA (key_Bytes signerKey) with
  | Err e => Err (Wrapf "converting signer key: %w" e)
  | Ok key => Ok key
  end.

Definition GenerateSignerProof (chainID : Z) (collectorAddress : address) (proofDeadline : Z) (authorizer : address)
    (signerKey : PrivateKey) : result go_error (list byte) :=
  let digest := proof_digest chainID collectorAddress proofDeadline authorizer in
  let? ecdsaKey := signerECDSAKey signerKey in
  match crypto_Sign digest ecdsaKey with
  | Err e => Err (Wrapf "signing proof: %w" e)
  | Ok sig =>
      if negb (length sig =? 65)%nat then Err (Errorf "signing proof: expected 65-byte signature, got %d bytes")
      else Ok (take 64 sig ++ map (fun v => byte_of_Z (byte_to_Z v + 27)) (drop 64 sig))
  end.
End Proof.

(** ** Queriers of the gateway *)

Definition hex_digit_value (c : ascii) : option Z :=
  let n := Z.of_N (N_of_ascii c) in
  if (48 <=? n) && (n <=? 57) then Some (n - 48)
  else if (97 <=? n) && (n <=? 102) then Some (n - 87)
  else if (65 <=? n) && (n <=? 70) then Some (n - 55) else None.

Fixpoint decode_hex (l : chars) : option (list byte) :=
  match l with
  | [] => Some []
  | a :: b :: l' =>
      x ← hex_digit_value a; y ← hex_digit_value b; r ← decode_hex l';
      Some (byte_of_Z (16 * x + y) :: r)
  | [_] => None
  end.

(** [hex.DecodeString]. *)
Definition DecodeString (s : string) : result go_error (list byte) :=
  match decode_hex (to_chars s) with
  | Some l => Ok l
  | None => Err (Errorf "encoding/hex: invalid byte or odd length")
  end.

(** A leading [0x] is dropped, once. *)
Definition trim_0x (s : string) : string :=
  match s with
  | String "0" (String "x" rest) => rest
  | _ => s
  end.

(** The 32 bytes of an answer in hexadecimal. *)
Definition answer_word (resultHex : string) : result go_error (list byte) :=
  match DecodeString (trim_0x resultHex) with
  | Err e => Err (Wrapf "decoding result: %w" e)
  | Ok resultBytes =>
      if negb (length resultBytes =? 32)%nat then Err (Errorf "unexpected result length: %d") else Ok resultBytes
  end.

Section Queriers.
(** [rpc.Client.Call] at one moment, and the encoder of eth-go for [getBalance]. *)
Context (rpc_Call : address -> list byte -> result go_error string).
Context (getBalance_Encode : address -> address -> address -> result go_error (list byte)).

Definition EscrowQuerier_GetBalance (escrowAddr payer collector receiver : address) : result go_error Z :=
  match getBalance_Encode payer collector receiver with
  | Err e => Err (Wrapf "encoding getBalance call: %w" e)
  | Ok data =>
    match rpc_Call escrowAddr data with
    | Err e => Err (Wrapf "calling getBalance: %w" e)
    | Ok resultHex => let? l := answer_word resultHex in Ok (SetBytes l)
    end
  end.

(** [copy(dst, src)] into a window of [n] zeros. *)
Definition copy_into (n : nat) (src : list byte) : list byte := take n src ++ zeros (n - length src).

Definition isAuthorized_data (authorizer signer : address) : list byte :=
  [Byte.x65; Byte.xe4; Byte.xad; Byte.x9e] ++ zeros 12 ++ copy_into 20 authorizer ++ zeros 12 ++ copy_into 20 signer.

Definition CollectorQuerier_IsAuthorized (collectorAddr authorizer signer : address) : result go_error bool :=
  match rpc_Call collectorAddr (isAuthorized_data authorizer signer) with
  | Err e => Err (Wrapf "calling isAuthorized: %w" e)
  | Ok resultHex =>
      let? l := answer_word resultHex in
      match l !! 31%nat with
      | Some last => Ok (bool_decide (last = Byte.x01))
      | None => Err GoPanic
      end
  end.
End Queriers.

(** ** Words and hexadecimal answers *)

Lemma word_length z : length (word z) = 32%nat.
Proof. apply padLeft_length. Qed.

Lemma SetBytes_word z : 0 <= z < two256 -> SetBytes (word z) = z.
Proof.
  intros Hz. unfold word, padLeft.
  pose proof (Bytes_length z 32 ltac:(unfold two256 in Hz; change (256 ^ Z.of_nat 32) with (2 ^ 256); lia)).
  destruct (Nat.leb_spec 32 (length (Bytes z))) as [Hl|Hl].
  - replace (length (Bytes z) - 32)%nat with 0%nat by lia. rewrite drop_0, SetBytes_Bytes. lia.
  - rewrite SetBytes_zeros, SetBytes_Bytes. lia.
Qed.

Lemma word_inj x y : 0 <= x < two256 -> 0 <= y < two256 -> word x = word y -> x = y.
Proof. intros Hx Hy E. rewrite <- (SetBytes_word x Hx), E. by apply SetBytes_word. Qed.

Lemma u64_fits_word z : u64 z -> 0 <= z < two256.
Proof. unfold u64, two64, two256. lia. Qed.
#[export] Hint Resolve word_length u64_fits_word : sds.

Lemma hex_digit_value_digit d : 0 <= d < 16 -> hex_digit_value (hex_digit d) = Some d.
Proof.
  intros H. pose proof (Reference.hex_value_digit d H) as E. unfold Reference.hex_value in E.
  unfold hex_digit_value. repeat case_match; try done.
Qed.

Lemma decode_hex_encode l : decode_hex (hex_chars l) = Some l.
Proof.
  unfold hex_chars. induction l as [|x l IH]; [done |].
  cbn [map concat hex_byte app decode_hex].
  pose proof (byte_to_Z_range x). pose proof (Z.mod_pos_bound (byte_to_Z x) 16 eq_refl).
  assert (0 <= byte_to_Z x / 16 < 16) by (split; [apply Z.div_pos | apply Z.div_lt_upper_bound]; lia).
  rewrite !hex_digit_value_digit by lia. simpl. rewrite IH. simpl. by rewrite <- Z_div_mod_eq_full, byte_of_to_Z.
Qed.

(** How a node prints an answer. *)
Definition hex_answer (l : list byte) : string := String "0" (String "x" (EncodeToString l)).

Lemma answer_word_hex l : length l = 32%nat -> answer_word (hex_answer l) = Ok l.
Proof.
  intros Hl. unfold answer_word, hex_answer. cbn [trim_0x]. unfold DecodeString, EncodeToString.
  rewrite String.list_ascii_of_string_of_list_ascii, decode_hex_encode, Hl. done.
Qed.

Lemma isAuthorized_data_inj a1 s1 a2 s2 :
  length a1 = 20%nat -> length s1 = 20%nat -> length a2 = 20%nat -> length s2 = 20%nat ->
  isAuthorized_data a1 s1 = isAuthorized_data a2 s2 -> a1 = a2 /\ s1 = s2.
Proof.
  intros Ha1 Hs1 Ha2 Hs2. unfold isAuthorized_data, copy_into. rewrite Ha1, Hs1, Ha2, Hs2.
  rewrite !take_ge by lia. cbn [Nat.sub zeros replicate]. rewrite !app_nil_r. simpl.
  intros [= E]. apply app_inj_1 in E as [-> E]; [|congruence]. by simplify_eq.
Qed.

(** The gateway reads the chain as it is: when the node answers a call with the
    ABI word of a balance or of an authorization, printed in hexadecimal, the
    queriers return that balance and that authorization; an answer of another
    length is an error. *)
Theorem queriers_read_answers rpc_Call encode escrow collector payer receiver signer data balance (authorized : bool) :
  encode payer collector receiver = Ok data -> 0 <= balance < two256 ->
  rpc_Call escrow data = Ok (hex_answer (word balance)) ->
  rpc_Call collector (isAuthorized_data payer signer) = Ok (hex_answer (word (if authorized then 1 else 0))) ->
  EscrowQuerier_GetBalance rpc_Call encode escrow payer collector receiver = Ok balance /\
  CollectorQuerier_IsAuthorized rpc_Call collector payer signer = Ok authorized.
Proof.
  intros Ee Hb E1 E2. unfold EscrowQuerier_GetBalance, CollectorQuerier_IsAuthorized. rewrite Ee, E1, E2.
  rewrite !answer_word_hex by apply word_length. cbn [rbind]. rewrite SetBytes_word by done.
  split; [done |]. by destruct authorized.
Qed.

(** ** Collect calldata *)

Lemma ravSignatureRSV_inj s1 s2 :
  length s1 = 65%nat -> length s2 = 65%nat -> ravSignatureRSV s1 = ravSignatureRSV s2 -> s1 = s2.
Proof.
  intros H1 H2 E. unfold ravSignatureRSV in E.
  apply app_inj_1 in E as [Er E]; [|rewrite !length_take, !length_drop; lia].
  apply app_inj_1 in E as [Es Ev]; [|rewrite !length_take, !length_drop; lia].
  assert (Hs : forall s : signature, length s = 65%nat -> s = take 1 s ++ take 32 (drop 1 s) ++ take 32 (drop 33 s)).
  { intros s Hs. rewrite <- (take_drop 1 s) at 1. f_equal. rewrite <- (take_drop 32 (drop 1 s)) at 1. f_equal.
    rewrite drop_drop. symmetry. apply take_ge. rewrite length_drop. simpl. lia. }
  rewrite (Hs s1 H1), (Hs s2 H2). congruence.
Qed.

(** A voucher as the gateway accepts it: full addresses, an array for the
    signature, and a value in the range of the contract's type. *)
Record collectable_voucher (s : SignedRAV) (m : RAV) (v : Z) : Prop := {
  cv_message : Message s = Some m;
  cv_value : rav_ValueAggregate m = Some v;
  cv_range : 0 <= v <= MaxUint128;
  cv_time : u64 (rav_TimestampNs m);
  cv_id : length (rav_CollectionID m) = 32%nat;
  cv_payer : length (rav_Payer m) = 20%nat;
  cv_provider : length (rav_ServiceProvider m) = 20%nat;
  cv_service : length (rav_DataService m) = 20%nat;
  cv_sig : length (Signature s) = 65%nat
}.

Section ContractProofs.
Context `{ContractABILaws} `{GethLaws}.

Lemma collect_data_well_formed s m v :
  collectable_voucher s m v -> collect_data_wf (collect_data m v (Signature s)).
Proof. intros []. split; simpl; auto using BytesToAddress_length. Qed.

Lemma collect_calldata_eq s m v cut :
  collectable_voucher s m v ->
  DataService_PackQueryFeeCollect (Some s) cut =
  (let? data := abi_PackCollectData (collect_data m v (Signature s)) cut in
   PackCollect (rav_ServiceProvider m) PaymentTypeQueryFee data).
Proof.
  intros []. unfold DataService_PackQueryFeeCollect, EncodeDataServiceCollectData. simpl.
  rewrite cv_message0, cv_value0, BytesToAddress_id by done. done.
Qed.

Lemma collect_data_inj s1 m1 v1 s2 m2 v2 :
  collectable_voucher s1 m1 v1 -> collectable_voucher s2 m2 v2 ->
  collect_data m1 v1 (Signature s1) = collect_data m2 v2 (Signature s2) -> s1 = s2.
Proof.
  intros [] [] E. unfold collect_data in E. rewrite !BytesToAddress_id in E by done.
  injection E as E1 E2 E3 E4 E5 E6 E7 E8. apply ravSignatureRSV_inj in E8; [|done ..].
  destruct s1 as [M1 S1], s2 as [M2 S2], m1, m2. simpl in *. by subst.
Qed.

(** The collect calldata binds the voucher.  Two vouchers in the form the
    gateway accepts (and two data-service cuts) that give the same calldata are
    the same voucher with the same cut: no field, not even the signature, is lost
    or moved when a RAV is turned into a transaction. *)
Theorem collect_calldata_binds s1 m1 v1 cut1 s2 m2 v2 cut2 calldata :
  collectable_voucher s1 m1 v1 -> collectable_voucher s2 m2 v2 -> u64 cut1 -> u64 cut2 ->
  DataService_PackQueryFeeCollect (Some s1) cut1 = Ok calldata ->
  DataService_PackQueryFeeCollect (Some s2) cut2 = Ok calldata ->
  s1 = s2 /\ cut1 = cut2.
Proof.
  intros V1 V2 Hc1 Hc2. rewrite (collect_calldata_eq _ _ _ _ V1), (collect_calldata_eq _ _ _ _ V2).
  intros (d1 & Ed1 & Ep1)%rbind_Ok (d2 & Ed2 & Ep2)%rbind_Ok. unfold PackCollect in *.
  assert (W : forall m d, length (rav_ServiceProvider m) = 20%nat ->
    Forall abi_value_wf [AbiAddress (rav_ServiceProvider m); AbiUint8 PaymentTypeQueryFee; AbiBytes d]).
  { intros m d Hm. repeat constructor; simpl; [done | unfold PaymentTypeQueryFee; lia ..]. }
  destruct (abi_Pack_inj _ _ _ _ _ _ (W _ d1 (cv_provider _ _ _ V1)) (W _ d2 (cv_provider _ _ _ V2)) Ep1 Ep2)
    as [_ El].
  injection El as _ ->.
  destruct (abi_PackCollectData_inj _ _ cut1 cut2 d2 (collect_data_well_formed _ _ _ V1)
              (collect_data_well_formed _ _ _ V2)) as [Ed ->]; [done.. |].
  split; [|done]. by eapply collect_data_inj.
Qed.

(** ** Signer proofs *)

Lemma proof_message_inj c1 a1 d1 p1 c2 a2 d2 p2 :
  u64 c1 -> u64 c2 -> u64 d1 -> u64 d2 -> length a1 = 20%nat -> length a2 = 20%nat ->
  proof_message c1 a1 d1 p1 = proof_message c2 a2 d2 p2 -> c1 = c2 /\ a1 = a2 /\ d1 = d2 /\ p1 = p2.
Proof.
  intros. unfold proof_message in *.
  match goal with E : _ ++ _ = _ ++ _ |- _ =>
    apply app_inj_1 in E as [Ec E]; [|by rewrite !word_length]; apply app_inj_1 in E as [Ea E]; [|congruence];
    apply app_inj_1 in E as [_ E]; [|done]; apply app_inj_1 in E as [Ed Ep]; [|by rewrite !word_length]
  end.
  split_and!; [apply word_inj | | apply word_inj |]; auto with sds.
Qed.

Lemma proof_recovers chainID collector deadline payer k proof :
  GenerateSignerProof chainID collector deadline payer k = Ok proof ->
  length proof = 65%nat /\ ecrecover (proof_digest chainID collector deadline payer) proof = Some (key_address k).
Proof.
  unfold GenerateSignerProof, signerECDSAKey. intros E. destruct (crypto_ToECDSA _) as [e|] eqn:Ee; [|done].
  cbn [rbind] in E. destruct (crypto_Sign _ _) as [sig|] eqn:Es; [|done].
  pose proof (Sign_recovers _ _ _ Es) as (rs & v & -> & Hl & Hv & Hr).
  destruct (Nat.eqb_spec (length (rs ++ [v])) 65); simpl in E; [|done]. apply Ok_inj in E as <-.
  rewrite (take_app_length' rs), (drop_app_length' rs) by done. simpl. split.
  - rewrite length_app in *. simpl in *. lia.
  - rewrite Hr. f_equal. by apply ToECDSA_address.
Qed.

(** A signer proof is what the collector contract checks.  A proof has 65
    bytes, the chain recovers from it the address of the signer's key on the
    digest of exactly this chain, collector, deadline and payer, and the signed
    message is different for any other of the four. *)
Theorem GenerateSignerProof_verifies chainID collector deadline payer k proof :
  length collector = 20%nat -> u64 chainID -> u64 deadline ->
  GenerateSignerProof chainID collector deadline payer k = Ok proof ->
  length proof = 65%nat /\
  ecrecover (proof_digest chainID collector deadline payer) proof = Some (key_address k) /\
  (forall chainID' collector' deadline' payer', length collector' = 20%nat -> u64 chainID' -> u64 deadline' ->
     proof_message chainID collector deadline payer = proof_message chainID' collector' deadline' payer' ->
     chainID' = chainID /\ collector' = collector /\ deadline' = deadline /\ payer' = payer).
Proof.
  intros Hc Hi Hd E. destruct (proof_recovers _ _ _ _ _ _ E) as [Hl Hr]. split_and!; [done | done |].
  intros c a d p Ha Hc' Hd' Em. by destruct (proof_message_inj _ _ _ _ _ _ _ _ Hi Hc' Hd Hd' Hc Ha Em) as (-> & -> & -> & ->).
Qed.
End ContractProofs.

(** ** Reference instances *)
Module ContractsReference.
Import Reference.

(** A positive number spelled bit by bit. *)
Fixpoint pos_bytes (p : positive) : list byte :=
  match p with
  | xH => []
  | xO p => Byte.x00 :: pos_bytes p
  | xI p => Byte.x01 :: pos_bytes p
  end.
Fixpoint bytes_pos (l : list byte) : positive :=
  match l with
  | [] => xH
  | Byte.x00 :: l => xO (bytes_pos l)
  | _ :: l => xI (bytes_pos l)
  end.
Lemma bytes_pos_bytes p : bytes_pos (pos_bytes p) = p.
Proof. by induction p as [p IH|p IH|]; simpl; rewrite ?IH. Qed.

Definition serialize {A} `{Countable A} (x : A) : list byte := pos_bytes (encode x).
Definition deserialize {A} `{Countable A} (l : list byte) : option A := decode (bytes_pos l).
Lemma deserialize_serialize {A} `{Countable A} (x : A) : deserialize (serialize x) = Some x.
Proof. unfold deserialize, serialize. by rewrite bytes_pos_bytes, decode_encode. Qed.
Lemma serialize_inj {A} `{Countable A} (x y : A) : serialize x = serialize y -> x = y.
Proof. intros E. apply (f_equal (deserialize (A := A))) in E. rewrite !deserialize_serialize in E. by simplify_eq. Qed.

#[export] Instance AbiValue_countable : Countable AbiValue.
Proof.
  refine (inj_countable'
    (fun v => match v with
              | AbiAddress a => inl (inl a) | AbiBig z => inl (inr (inl z)) | AbiUint8 z => inl (inr (inr z))
              | AbiBool b => inr (inl b) | AbiBytes l => inr (inr l)
              end)
    (fun x => match x with
              | inl (inl a) => AbiAddress a | inl (inr (inl z)) => AbiBig z | inl (inr (inr z)) => AbiUint8 z
              | inr (inl b) => AbiBool b | inr (inr l) => AbiBytes l
              end) _).
  by intros [].
Defined.

Definition collect_tuple (d : dataServiceCollectSignedRAV) :=
  let r := dc_RAV d in
  (dc_CollectionID r, dc_Payer r, dc_ServiceProvider r, dc_DataService r, dc_TimestampNs r, dc_ValueAggregate r,
   dc_Metadata r, dc_Signature d).
Lemma collect_tuple_inj d1 d2 : collect_tuple d1 = collect_tuple d2 -> d1 = d2.
Proof. destruct d1 as [[]], d2 as [[]]. unfold collect_tuple. simpl. intros E. by simplify_eq. Qed.

Definition ref_unpack (c : contract) (m : string) (data : list byte) : result go_error (list AbiValue) :=
  if negb (length data =? 32)%nat then Err (Errorf "abi: length")
  else if returns_bool c m then Ok [AbiBool (negb (SetBytes data =? 0))]
  else if String.eqb m "decimals" then Ok [AbiUint8 (SetBytes data)] else Ok [AbiBig (SetBytes data)].

#[export] Instance abi_ref : ContractABI := {|
  abi_Pack _ m l := Ok (serialize (m, l));
  abi_Unpack := ref_unpack;
  abi_PackCollectData d cut := Ok (serialize (collect_tuple d, cut))
|}.

#[export] Instance abi_ref_laws : ContractABILaws.
Proof.
  split; simpl.
  - intros c m1 m2 l1 l2 data _ _ E1%Ok_inj E2%Ok_inj. subst. apply serialize_inj in E2. by simplify_eq.
  - intros d1 d2 c1 c2 data _ _ _ _ E1%Ok_inj E2%Ok_inj. subst. apply serialize_inj in E2.
    apply pair_equal_spec in E2 as [Et ->]. split; [symmetry; by apply collect_tuple_inj | done].
  - intros c m z Hm Hz. unfold ref_unpack. rewrite word_length, SetBytes_word by done. simpl.
    destruct c; simpl in *; try done;
      repeat match goal with |- context [String.eqb m ?s] => destruct (String.eqb_spec m s) as [->|]; try done end.
  - intros c m b Hm. unfold ref_unpack. rewrite word_length, Hm. simpl. by destruct b.
Qed.

Definition ref_sign (d : hash) (e : Z) : list byte := fixed_bytes 20 e ++ fixed_bytes 44 (SetBytes d) ++ [Byte.x00].
Definition ref_recover (d : hash) (l : list byte) : option address :=
  if decide (take 44 (drop 20 l) = fixed_bytes 44 (SetBytes d)) then Some (take 20 l) else None.

#[export] Instance geth_ref : Geth := {|
  ECDSAKey := Z;
  common_BytesToAddress l := padLeft l 20;
  key_Bytes k := fixed_bytes 32 k;
  crypto_ToECDSA l := Ok (SetBytes l);
  crypto_PubkeyToAddress := fixed_bytes 20;
  crypto_Sign d e := Ok (ref_sign d e);
  ecrecover := ref_recover
|}.

Lemma SetBytes_fixed n z : SetBytes (fixed_bytes n z) = z mod 256 ^ Z.of_nat n.
Proof.
  unfold fixed_bytes. rewrite SetBytes_zeros, SetBytes_Bytes. apply Z.abs_eq, Z.mod_pos_bound.
  apply Z.pow_pos_nonneg; lia.
Qed.

#[export] Instance geth_ref_laws : GethLaws.
Proof.
  split; cbn -[fixed_bytes SetBytes Z.pow].
  - intros l. apply padLeft_length.
  - intros l Hl. unfold padLeft. rewrite Hl. simpl. by rewrite drop_0.
  - intros k e E%Ok_inj. subst. rewrite SetBytes_fixed.
    assert (E : forall n z z', z mod 256 ^ Z.of_nat n = z' mod 256 ^ Z.of_nat n -> fixed_bytes n z = fixed_bytes n z')
      by (intros n z z' E; unfold fixed_bytes; by rewrite E).
    apply E, Z.mod_mod_divide. by exists (256 ^ 12).
  - intros d e sig E%Ok_inj. subst sig. exists (fixed_bytes 20 e ++ fixed_bytes 44 (SetBytes d)), Byte.x00.
    split_and!; [unfold ref_sign; by rewrite <- app_assoc | by rewrite length_app, !fixed_bytes_length | done | done |].
    unfold ref_recover. rewrite <- app_assoc, (drop_app_length' (fixed_bytes 20 e)), (take_app_length' (fixed_bytes 44 _)),
      (take_app_length' (fixed_bytes 20 e)) by (by rewrite fixed_bytes_length). by rewrite decide_True.
Qed.
End ContractsReference.

Module ContractsWitness.
Import Reference ContractsReference.

Definition payer := fixed_bytes 20 1.
Definition provider := fixed_bytes 20 2.
Definition service := fixed_bytes 20 3.
Definition collector := fixed_bytes 20 4.
Definition message : RAV := mkRAV (fixed_bytes 32 7) payer provider service 1000 (Some 2500) [].
Definition voucher : SignedRAV := mkSigned (Some message) (fixed_bytes 65 99).
Definition calldata : list byte :=
  match DataService_PackQueryFeeCollect (Some voucher) 100000 with Ok l => l | Err _ => [] end.
End ContractsWitness.

Import Reference ContractsReference ContractsWitness.

Lemma queriers_read_answers_witness :
  EscrowQuerier_GetBalance (fun a data => Ok (hex_answer (word (if (length data =? 0)%nat then 2500 else 1))))
    (fun _ _ _ => Ok []) [] [] [] [] = Ok 2500.
Proof.
  apply (queriers_read_answers (fun a data => Ok (hex_answer (word (if (length data =? 0)%nat then 2500 else 1))))
    (fun _ _ _ => Ok []) [] [] [] [] [] [] 2500 true); try reflexivity. unfold two256. lia.
Defined.

Lemma collect_calldata_binds_witness :
  voucher = voucher /\ 100000 = 100000.
Proof.
  assert (V : collectable_voucher voucher message 2500)
    by (split; try reflexivity; vm_compute; split; congruence).
  apply (collect_calldata_binds voucher message 2500 100000
    voucher message 2500 100000 calldata V V);
    first [reflexivity | split; vm_compute; congruence].
Defined.

Lemma GenerateSignerProof_verifies_witness :
  length (fixed_bytes 20 4) = 20%nat /\
  exists proof, @GenerateSignerProof eth_ref geth_ref 42161
    (fixed_bytes 20 4) 1700000000 (fixed_bytes 20 1) 5 = Ok proof /\ length proof = 65%nat.
Proof.
  split; [reflexivity |]. eexists. split; [vm_compute; reflexivity |].
  apply (@GenerateSignerProof_verifies eth_ref geth_ref geth_ref_laws 42161 (fixed_bytes 20 4) 1700000000
    (fixed_bytes 20 1) 5); try reflexivity; split; vm_compute; congruence.
Defined.
