(* ===== verification/ChainClient.v ===== *)
(** The chain client ([contracts/chain/client.go]): reading contracts, sending a
    legacy or a dynamic-fee transaction, and waiting for its receipt.

    The node is the interface [EthClient]: every RPC is a function of an abstract
    world and returns the world it leaves, so that anything may happen on the
    chain between two calls.  The transactions handed to the node are recorded in
    the state of the model ([ch_sent]).  Contexts appear as the deadline a call is
    given and as what the wait of [WaitReceipt] selects. *)
From S2P Require Import Prelude.
From S2P Require Import GoStd.
From S2P Require Import External.
From S2P Require Import Horizon.
From S2P Require Import Repository.
From S2P Require Import Contracts.

(** [types.DynamicFeeTx] and [types.LegacyTx]. *)
Inductive Transaction : Type :=
  | DynamicFeeTx (chainID nonce gasTipCap gasFeeCap gas : Z) (to : address) (value : Z) (data : list byte)
  | LegacyTx (nonce gasPrice gas : Z) (to : address) (value : Z) (data : list byte).

Definition tx_to (t : Transaction) : address :=
  match t with DynamicFeeTx _ _ _ _ _ to _ _ | LegacyTx _ _ _ to _ _ => to end.
Definition tx_value (t : Transaction) : Z :=
  match t with DynamicFeeTx _ _ _ _ _ _ v _ | LegacyTx _ _ _ _ v _ => v end.
Definition tx_data (t : Transaction) : list byte :=
  match t with DynamicFeeTx _ _ _ _ _ _ _ d | LegacyTx _ _ _ _ _ d => d end.
Definition tx_gas (t : Transaction) : Z :=
  match t with DynamicFeeTx _ _ _ _ g _ _ _ | LegacyTx _ _ g _ _ _ => g end.

Record TxReceipt : Type := mkTxReceipt { rc_Status : Z; rc_BlockNumber : Z }.
Definition ReceiptStatusFailed : Z := 0.
Definition ReceiptStatusSuccessful : Z := 1.

(** [ethereum.NotFound]. *)
Definition NotFound : go_error := ErrorsNew "not found".

(** What a sending function reports. *)
Record TxResult : Type := mkTxResult {
  res_Hash : hash;
  res_Receipt : option TxReceipt;
  res_DryRun : bool;
  res_GasLimit : Z;
  res_MaxFeePerGas : option Z;
  res_MaxPriorityFeePerGas : option Z;
  res_GasPrice : option Z
}.

#[global] Instance TxResult_eta : Eta TxResult := fun r =>
  mkTxResult (res_Hash r) (res_Receipt r) (res_DryRun r) (res_GasLimit r) (res_MaxFeePerGas r)
    (res_MaxPriorityFeePerGas r) (res_GasPrice r).

(** What the select of the receipt loop takes. *)
Inductive wait_event : Type := Tick | Done (e : go_error).

Class EthClient `{Geth} (W : Type) : Type := {
  (** a signed transaction, its hash and its sender ([types.Sender]) *)
  SignedTx : Type;
  types_SignTx : Transaction -> Z -> ECDSAKey -> result go_error SignedTx;
  signed_body : SignedTx -> Transaction;
  signed_Hash : SignedTx -> hash;
  signed_sender : SignedTx -> address;
  (** the node *)
  rpc_CallContract : address -> list byte -> W -> result go_error (list byte) * W;
  rpc_EstimateGas : address -> address -> Z -> list byte -> W -> result go_error Z * W;
  rpc_SuggestGasTipCap : W -> result go_error Z * W;
  rpc_BaseFee : W -> result go_error (option Z) * W;
  rpc_SuggestGasPrice : W -> result go_error Z * W;
  rpc_PendingNonceAt : address -> W -> result go_error Z * W;
  rpc_SendTransaction : SignedTx -> W -> result go_error unit * W;
  (** with the deadline of its context *)
  rpc_TransactionReceipt : hash -> time -> W -> result go_error TxReceipt * W;
  (** the [n]-th wait on a ticker started at [start] and a context with a deadline *)
  wait_select : time -> Z -> time -> nat -> W -> wait_event * W;
  clock : W -> time
}.

(** A signed transaction is the transaction, by its key; the [n]-th tick of a
    ticker comes no earlier than [n] intervals after its start; a call whose
    deadline has passed does not answer that the receipt is missing. *)
Class EthClientLaws `{EthClient W} : Prop := {
  SignTx_body t id k s : types_SignTx t id k = Ok s -> signed_body s = t;
  SignTx_sender t id k s : types_SignTx t id k = Ok s -> signed_sender s = crypto_PubkeyToAddress k;
  wait_select_tick start interval deadline n w w' :
    wait_select start interval deadline n w = (Tick, w') -> start + (Z.of_nat n + 1) * interval <= clock w';
  receipt_deadline h d w e w' :
    rpc_TransactionReceipt h d w = (Err e, w') -> d <= clock w -> errors_Is e NotFound = false
}.

Section Client.
Context `{EthClient W}.

Record TxOptions : Type := mkTxOptions {
  o_ChainID : option Z;
  o_From : address;
  o_PrivateKey : option ECDSAKey;
  o_TxType : string;
  o_GasLimit : Z;
  o_MaxFeePerGas : option Z;
  o_MaxPriorityFeePerGas : option Z;
  o_GasPrice : option Z;
  o_ReceiptTimeout : Z;
  o_ReceiptPollInterval : Z;
  o_NoWait : bool;
  o_DryRun : bool
}.

Record Chain : Type := mkChain { ch_world : W; ch_sent : list SignedTx }.

(** The pair a sending function returns, and the chain it leaves. *)
Definition SendOutcome : Type := (option TxResult * option go_error) * Chain.

Definition call {A} (f : W -> result go_error A * W) (ch : Chain) : result go_error A * Chain :=
  let '(r, w) := f (ch_world ch) in (r, mkChain w (ch_sent ch)).

(** A call whose error is wrapped and returned without a result. *)
Definition or_fail {A} (msg : string) (r : result go_error A * Chain) (k : A -> Chain -> SendOutcome) : SendOutcome :=
  match r with
  | (Err e, ch) => ((None, Some (Wrapf msg e)), ch)
  | (Ok a, ch) => k a ch
  end.

Definition CallContract (to : address) (data : list byte) (ch : Chain) : result go_error (list byte) * Chain :=
  match call (rpc_CallContract to data) ch with
  | (Err e, ch) => (Err (Wrapf "calling contract %s: %w" e), ch)
  | (Ok r, ch) => (Ok r, ch)
  end.

(** ** Waiting for a receipt *)

Fixpoint wait_loop (fuel : nat) (txHash : hash) (start interval deadline : Z) (n : nat) (w : W) :
    option (result go_error TxReceipt) * W :=
  match fuel with
  | O => (None, w)
  | S fuel =>
    match rpc_TransactionReceipt txHash deadline w with
    | (Ok receipt, w) => (Some (Ok receipt), w)
    | (Err e, w) =>
        if negb (errors_Is e NotFound) then (Some (Err (Wrapf "fetching transaction receipt %s: %w" e)), w) else
        match wait_select start interval deadline n w with
        | (Done e, w) => (Some (Err (Wrapf "waiting for transaction receipt %s: %w" e)), w)
        | (Tick, w) => wait_loop fuel txHash start interval deadline (S n) w
        end
    end
  end.

(** Polls that fit before the deadline, and the one after it. *)
Definition wait_fuel (timeout interval : Z) : nat := (Z.to_nat (timeout / interval) + 2)%nat.

Definition WaitReceipt (txHash : hash) (timeout pollInterval : Z) (ch : Chain) :
    result go_error TxReceipt * Chain :=
  let timeout := if timeout <=? 0 then 120 * 10 ^ 9 else timeout in
  let interval := if pollInterval <=? 0 then 10 ^ 9 else pollInterval in
  let start := clock (ch_world ch) in
  match wait_loop (wait_fuel timeout interval) txHash start interval (start + timeout) 0 (ch_world ch) with
  | (Some r, w) => (r, mkChain w (ch_sent ch))
  | (None, w) => (Err (Errorf "out of fuel"), mkChain w (ch_sent ch))
  end.

(** ** Sending *)

Definition SendTransaction (s : SignedTx) (ch : Chain) : result go_error unit * Chain :=
  let '(r, w) := rpc_SendTransaction s (ch_world ch) in (r, mkChain w (ch_sent ch ++ [s])).

(** The gas limit given, or the node's estimate. *)
Definition resolve_gas_limit (to : address) (value : Z) (data : list byte) (opts : TxOptions) (ch : Chain) :
    result go_error Z * Chain :=
  if o_GasLimit opts =? 0 then call (rpc_EstimateGas (o_From opts) to value data) ch else (Ok (o_GasLimit opts), ch).

(** The value given, or the node's suggestion. *)
Definition or_suggested (given : option Z) (suggest : W -> result go_error Z * W) (ch : Chain) :
    result go_error Z * Chain :=
  match given with Some v => (Ok v, ch) | None => call suggest ch end.

(** Nonce, signature, submission and receipt of a transaction whose fees are
    settled: the end both sending functions share. *)
Definition submit_and_wait (mk : Z -> Transaction) (chainID : Z) (key : ECDSAKey) (result : TxResult)
    (opts : TxOptions) (ch : Chain) : SendOutcome :=
  or_fail "getting pending nonce for %s: %w" (call (rpc_PendingNonceAt (o_From opts)) ch) (fun nonce ch =>
  or_fail "signing transaction: %w" (types_SignTx (mk nonce) chainID key, ch) (fun signedTx ch =>
  or_fail "sending transaction: %w" (SendTransaction signedTx ch) (fun _ ch =>
  let result := result <| res_Hash := signed_Hash signedTx |> in
  if o_NoWait opts then ((Some result, None), ch) else
  match WaitReceipt (res_Hash result) (o_ReceiptTimeout opts) (o_ReceiptPollInterval opts) ch with
  | (Err e, ch) => ((Some result, Some e), ch)
  | (Ok receipt, ch) =>
      if rc_Status receipt =? ReceiptStatusFailed
      then ((Some result, Some (Errorf "transaction %s failed with receipt status 0")), ch)
      else ((Some (result <| res_Receipt := Some receipt |>), None), ch)
  end))).

Definition SendLegacyTransaction (to : address) (value : option Z) (data : list byte) (opts : TxOptions) (ch : Chain) :
    SendOutcome :=
  match o_ChainID opts with
  | None => ((None, Some (ErrorsNew "chain ID is required")), ch)
  | Some chainID =>
    if chainID <=? 0 then ((None, Some (ErrorsNew "chain ID is required")), ch) else
    match o_PrivateKey opts with
    | None => ((None, Some (ErrorsNew "private key is required")), ch)
    | Some key =>
      let value := default 0 value in
      or_fail "estimating gas: %w" (resolve_gas_limit to value data opts ch) (fun gasLimit ch =>
      or_fail "suggesting gas price: %w" (or_suggested (o_GasPrice opts) rpc_SuggestGasPrice ch) (fun gasPrice ch =>
      let result := mkTxResult (zeros 32) None (o_DryRun opts) gasLimit None None (Some gasPrice) in
      if o_DryRun opts then ((Some result, None), ch) else
      submit_and_wait (fun nonce => LegacyTx nonce gasPrice gasLimit to value data) chainID key result opts ch))
    end
  end.

(** The fee cap given, or twice the base fee plus the tip. *)
Definition resolve_max_fee (tip : Z) (opts : TxOptions) (ch : Chain) : result go_error Z * Chain :=
  match o_MaxFeePerGas opts with
  | Some v => (Ok v, ch)
  | None =>
    match call rpc_BaseFee ch with
    | (Err e, ch) => (Err (Wrapf "fetching latest header: %w" e), ch)
    | (Ok None, ch) =>
        (Err (ErrorsNew "latest block has no base fee; EIP-1559 dynamic fee transactions are not supported by this chain"), ch)
    | (Ok (Some baseFee), ch) => (Ok (baseFee * 2 + tip), ch)
    end
  end.

Definition SendDynamicFeeTransaction (to : address) (value : option Z) (data : list byte) (opts : TxOptions)
    (ch : Chain) : SendOutcome :=
  if String.eqb (o_TxType opts) "legacy" then SendLegacyTransaction to value data opts ch else
  match o_ChainID opts with
  | None => ((None, Some (ErrorsNew "chain ID is required")), ch)
  | Some chainID =>
    if chainID <=? 0 then ((None, Some (ErrorsNew "chain ID is required")), ch) else
    match o_PrivateKey opts with
    | None => ((None, Some (ErrorsNew "private key is required")), ch)
    | Some key =>
      let value := default 0 value in
      or_fail "estimating gas: %w" (resolve_gas_limit to value data opts ch) (fun gasLimit ch =>
      or_fail "suggesting gas tip cap: %w"
        (or_suggested (o_MaxPriorityFeePerGas opts) rpc_SuggestGasTipCap ch) (fun maxPriorityFeePerGas ch =>
      match resolve_max_fee maxPriorityFeePerGas opts ch with
      | (Err e, ch) => ((None, Some e), ch)
      | (Ok maxFeePerGas, ch) =>
        if cmpZ maxFeePerGas maxPriorityFeePerGas <? 0
        then ((None, Some (Errorf "max fee per gas %s is below max priority fee per gas %s")), ch) else
        let result := mkTxResult (zeros 32) None (o_DryRun opts) gasLimit (Some maxFeePerGas)
                        (Some maxPriorityFeePerGas) None in
        if o_DryRun opts then ((Some result, None), ch) else
        submit_and_wait
          (fun nonce => DynamicFeeTx chainID nonce maxPriorityFeePerGas maxFeePerGas gasLimit to value data)
          chainID key result opts ch
      end))
    end
  end.

Definition AddressFromPrivateKey (privateKey : ECDSAKey) : address := crypto_PubkeyToAddress privateKey.
End Client.
Arguments TxOptions {_ _}.
Arguments Chain {_ _} W {_}.
Arguments SendOutcome {_ _} W {_}.

Section ClientProofs.
Context `{EthClientLaws W}.
Implicit Types (ch : Chain W) (opts : TxOptions).

(** ** The wait ends *)

Lemma wait_loop_ends fuel h start interval timeout n w :
  0 < interval -> 0 < timeout ->
  (n = 0%nat \/ start + Z.of_nat n * interval <= clock w) ->
  Z.of_nat fuel + Z.of_nat n >= timeout / interval + 2 -> (0 < fuel)%nat ->
  exists r w', wait_loop fuel h start interval (start + timeout) n w = (Some r, w').
Proof.
  intros Hi Ht. revert n w. induction fuel as [|fuel IH]; intros n w Hn Hf Hpos; [lia |]. simpl.
  destruct (rpc_TransactionReceipt h (start + timeout) w) as [[r|e] w1] eqn:Er; [by eauto |].
  destruct (errors_Is e NotFound) eqn:Ee; simpl; [|by eauto].
  destruct (wait_select _ _ _ _ _) as [[|e'] w2] eqn:Es; [|by eauto].
  apply wait_select_tick in Es. apply IH; [right; lia | lia |].
  destruct fuel; [|lia]. exfalso.
  assert (Hd : start + timeout <= clock w).
  { destruct Hn as [->|Hn]; [pose proof (Z.div_pos timeout interval); lia |].
    pose proof (Z.mul_succ_div_gt timeout interval Hi). nia. }
  rewrite (receipt_deadline _ _ _ _ _ Er Hd) in Ee. done.
Qed.

(** C21: waiting for a receipt always ends.  Whatever the node answers, the loop
    of [WaitReceipt] stops within the polls that fit before its deadline and one
    more (with the defaults for a timeout or an interval that is not positive);
    it sends nothing; and it returns a receipt only when the node gave it. *)
Theorem WaitReceipt_terminates h timeout pollInterval ch :
  let timeout' := if timeout <=? 0 then 120 * 10 ^ 9 else timeout in
  let interval' := if pollInterval <=? 0 then 10 ^ 9 else pollInterval in
  let start := clock (ch_world ch) in
  exists r w, wait_loop (wait_fuel timeout' interval') h start interval' (start + timeout') 0 (ch_world ch) = (Some r, w) /\
    WaitReceipt h timeout pollInterval ch = (r, mkChain w (ch_sent ch)) /\
    forall receipt, r = Ok receipt -> exists w0, rpc_TransactionReceipt h (start + timeout') w0 = (Ok receipt, w).
Proof.
  intros timeout' interval' start.
  assert (Hi : 0 < interval') by (unfold interval'; destruct (Z.leb_spec pollInterval 0); lia).
  assert (Ht : 0 < timeout') by (unfold timeout'; destruct (Z.leb_spec timeout 0); lia).
  pose proof (Z.div_pos timeout' interval').
  destruct (wait_loop_ends (wait_fuel timeout' interval') h start interval' timeout' 0 (ch_world ch))
    as (r & w & Er); [done | done | by left | unfold wait_fuel; lia | unfold wait_fuel; lia |].
  exists r, w. split_and!; [done | unfold WaitReceipt; fold timeout' interval' start; by rewrite Er |].
  intros receipt ->. revert Er. generalize (wait_fuel timeout' interval'), 0%nat, (ch_world ch).
  intros fuel. induction fuel as [|fuel IH]; intros n w0; simpl; [done |].
  destruct (rpc_TransactionReceipt _ _ w0) as [[r|e] w1] eqn:Er; [intros [= -> ->]; eauto |].
  destruct (errors_Is e NotFound); [|done]. simpl.
  destruct (wait_select _ _ _ _ _) as [[|e'] w2]; [apply IH | done].
Qed.

Lemma WaitReceipt_sent h timeout interval ch : ch_sent (WaitReceipt h timeout interval ch).2 = ch_sent ch.
Proof. unfold WaitReceipt. by destruct (wait_loop _ _ _ _ _ _ _) as [[r|] w]. Qed.

(** ** What is sent *)

(** The transaction asked for: addressee, value, data and signer as given, and
    the fees and the gas limit that were given. *)
Record as_asked (to : address) (value : option Z) (data : list byte) opts (s : SignedTx) : Prop := {
  aa_to : tx_to (signed_body s) = to;
  aa_value : tx_value (signed_body s) = default 0 value;
  aa_data : tx_data (signed_body s) = data;
  aa_sender : exists key, o_PrivateKey opts = Some key /\ signed_sender s = AddressFromPrivateKey key;
  aa_gas : o_GasLimit opts <> 0 -> tx_gas (signed_body s) = o_GasLimit opts;
  aa_fees :
    match signed_body s with
    | DynamicFeeTx chainID _ tip cap _ _ _ _ =>
        o_ChainID opts = Some chainID /\ tip <= cap /\
        tip = default tip (o_MaxPriorityFeePerGas opts) /\ cap = default cap (o_MaxFeePerGas opts)
    | LegacyTx _ price _ _ _ _ => o_TxType opts = "legacy"%string /\ price = default price (o_GasPrice opts)
    end
}.

(** How a sending function ends, from the transactions sent before it. *)
Inductive send_ends (to : address) (value : option Z) (data : list byte) opts ch : SendOutcome W -> Prop :=
  | ends_unsent e ch' :
      ch_sent ch' = ch_sent ch -> send_ends to value data opts ch ((None, Some e), ch')
  | ends_dry res ch' :
      o_DryRun opts = true -> ch_sent ch' = ch_sent ch -> res_DryRun res = true -> res_Hash res = zeros 32 ->
      send_ends to value data opts ch ((Some res, None), ch')
  | ends_rejected s e ch' :
      o_DryRun opts = false -> ch_sent ch' = ch_sent ch ++ [s] -> as_asked to value data opts s ->
      send_ends to value data opts ch ((None, Some e), ch')
  | ends_submitted s res ch' :
      o_DryRun opts = false -> o_NoWait opts = true ->
      ch_sent ch' = ch_sent ch ++ [s] -> as_asked to value data opts s -> res_Hash res = signed_Hash s ->
      send_ends to value data opts ch ((Some res, None), ch')
  | ends_unconfirmed s res e ch' :
      o_DryRun opts = false -> o_NoWait opts = false ->
      ch_sent ch' = ch_sent ch ++ [s] -> as_asked to value data opts s -> res_Hash res = signed_Hash s ->
      send_ends to value data opts ch ((Some res, Some e), ch')
  | ends_confirmed s res receipt ch' :
      o_DryRun opts = false -> o_NoWait opts = false ->
      ch_sent ch' = ch_sent ch ++ [s] -> as_asked to value data opts s -> res_Hash res = signed_Hash s ->
      res_Receipt res = Some receipt -> rc_Status receipt <> ReceiptStatusFailed ->
      send_ends to value data opts ch ((Some res, None), ch').

Lemma call_sent {A} (f : W -> result go_error A * W) ch r ch' :
  call f ch = (r, ch') -> ch_sent ch' = ch_sent ch.
Proof. unfold call. destruct (f _). by intros [= <- <-]. Qed.

(** A wrapped error ends the call unsent; otherwise its continuation decides. *)
Lemma send_ends_fail {A} to value data opts ch msg (r : result go_error A * Chain W) k :
  ch_sent r.2 = ch_sent ch ->
  (forall a ch1, r = (Ok a, ch1) -> ch_sent ch1 = ch_sent ch -> send_ends to value data opts ch (k a ch1)) ->
  send_ends to value data opts ch (or_fail msg r k).
Proof. destruct r as [[a|e] ch1]; simpl; [auto | by constructor]. Qed.

Lemma resolve_gas_limit_sent to value data opts ch :
  ch_sent (resolve_gas_limit to value data opts ch).2 = ch_sent ch.
Proof. unfold resolve_gas_limit, call. case_match; [|done]. by destruct (rpc_EstimateGas _ _ _ _ _). Qed.

Lemma or_suggested_sent given suggest ch : ch_sent (or_suggested given suggest ch).2 = ch_sent ch.
Proof. unfold or_suggested, call. destruct given; [done |]. by destruct (suggest _). Qed.

Lemma or_suggested_given given suggest ch v ch' : or_suggested given suggest ch = (Ok v, ch') -> v = default v given.
Proof. unfold or_suggested. destruct given; [by intros [= -> ->] | done]. Qed.

Lemma resolve_gas_limit_given to value data opts ch g ch' :
  resolve_gas_limit to value data opts ch = (Ok g, ch') -> o_GasLimit opts <> 0 -> g = o_GasLimit opts.
Proof. unfold resolve_gas_limit. intros E Hg. rewrite (proj2 (Z.eqb_neq _ _) Hg) in E. by simplify_eq. Qed.

Lemma submit_ends to value data opts ch ch0 mk chainID key result :
  o_DryRun opts = false -> ch_sent ch = ch_sent ch0 ->
  (forall nonce s, types_SignTx (mk nonce) chainID key = Ok s -> as_asked to value data opts s) ->
  send_ends to value data opts ch0 (submit_and_wait mk chainID key result opts ch).
Proof.
  intros Hd Hs Ha. unfold submit_and_wait. apply send_ends_fail.
  { unfold call. by destruct (rpc_PendingNonceAt _ _). }
  intros nonce ch1 _ H1'. apply send_ends_fail; [by rewrite <- H1' | intros s ch2 [= Es <-] _].
  unfold SendTransaction. destruct (rpc_SendTransaction s _) as [[[]|e] w]; simpl; [|by econstructor; eauto; rewrite <- H1'].
  destruct (o_NoWait opts) eqn:En; [by eapply (ends_submitted _ _ _ _ _ s); eauto; simpl; rewrite <- H1' |].
  match goal with |- context [WaitReceipt ?h ?t ?i ?c] =>
    pose proof (WaitReceipt_sent h t i c) as Hw; destruct (WaitReceipt h t i c) as [[receipt|e] ch3]
  end; simpl in Hw; rewrite H1' in Hw.
  - destruct (Z.eqb_spec (rc_Status receipt) ReceiptStatusFailed);
      [eapply (ends_unconfirmed _ _ _ _ _ s) | eapply (ends_confirmed _ _ _ _ _ s)]; eauto.
  - eapply (ends_unconfirmed _ _ _ _ _ s); eauto.
Qed.

Lemma legacy_ends to value data opts ch :
  o_TxType opts = "legacy"%string ->
  send_ends to value data opts ch (SendLegacyTransaction to value data opts ch).
Proof.
  intros Hl. unfold SendLegacyTransaction. destruct (o_ChainID opts) as [chainID|]; [|by constructor].
  destruct (chainID <=? 0); [by constructor |]. destruct (o_PrivateKey opts) as [key|] eqn:Ek; [|by constructor].
  apply send_ends_fail; [apply resolve_gas_limit_sent |]. intros gas ch1 Eg H1'.
  apply send_ends_fail; [by rewrite or_suggested_sent |]. intros price ch2 Ep H2'.
  destruct (o_DryRun opts) eqn:Ed; [by apply ends_dry |].
  apply submit_ends; [done | done |]. intros nonce s Es.
  pose proof (SignTx_sender _ _ _ _ Es). apply SignTx_body in Es.
  split; rewrite ?Es; simpl; eauto using resolve_gas_limit_given, or_suggested_given.
Qed.

Lemma dynamic_ends to value data opts ch :
  send_ends to value data opts ch (SendDynamicFeeTransaction to value data opts ch).
Proof.
  unfold SendDynamicFeeTransaction. destruct (String.eqb_spec (o_TxType opts) "legacy"); [by apply legacy_ends |].
  destruct (o_ChainID opts) as [chainID|] eqn:Ec; [|by constructor].
  destruct (chainID <=? 0); [by constructor |]. destruct (o_PrivateKey opts) as [key|] eqn:Ek; [|by constructor].
  apply send_ends_fail; [apply resolve_gas_limit_sent |]. intros gas ch1 Eg H1'.
  apply send_ends_fail; [by rewrite or_suggested_sent |]. intros tip ch2 Et H2'.
  destruct (resolve_max_fee tip opts ch2) as [[cap|e] ch3] eqn:Em.
  all: assert (H3' : ch_sent ch3 = ch_sent ch).
  1, 3: unfold resolve_max_fee in Em; destruct (o_MaxFeePerGas opts); [by simplify_eq |];
    destruct (call rpc_BaseFee ch2) as [[[b|]|e'] ch4] eqn:Eb; simplify_eq; by rewrite (call_sent _ _ _ _ Eb).
  2: by constructor.
  rewrite cmpZ_ltb. destruct (Z.ltb_spec cap tip) as [|Hle]; [by constructor |].
  destruct (o_DryRun opts) eqn:Ed; [by apply ends_dry |].
  apply submit_ends; [done | done |]. intros nonce s Es.
  pose proof (SignTx_sender _ _ _ _ Es). apply SignTx_body in Es.
  split; rewrite ?Es; simpl; eauto using resolve_gas_limit_given.
  split_and!; [done | done | by eapply or_suggested_given |].
  unfold resolve_max_fee in Em. destruct (o_MaxFeePerGas opts); [by simplify_eq/= | done].
Qed.
Lemma sent_longer {A} (l : list A) x : l ++ [x] <> l.
Proof. intros E%(f_equal length). rewrite length_app in E. simpl in E. lia. Qed.

Lemma sent_as_asked to value data opts ch out s :
  send_ends to value data opts ch out -> ch_sent out.2 = ch_sent ch ++ [s] -> as_asked to value data opts s.
Proof.
  destruct 1 as [? ? E|? ? ? E|? ? ? ? E|? ? ? ? ? E|? ? ? ? ? ? E|? ? ? ? ? ? E]; simpl; rewrite E; intros Es;
    first [by apply symmetry, sent_longer in Es | by apply app_inj_2 in Es as [_ [= ->]]].
Qed.

(** What sending a transaction does.  Whatever the node answers, at most one
    transaction is handed to it, and that one has the addressee, value, data, gas
    limit and fees asked for, with a tip not above the cap, signed by the given
    key; a dry run sends nothing; success without a dry run means it was sent
    and, unless the caller did not want to wait, that its receipt is there and
    not a failure; an error after submission still reports the hash. *)
Theorem SendDynamicFeeTransaction_sound to value data opts ch :
  send_ends to value data opts ch (SendDynamicFeeTransaction to value data opts ch).
Proof. apply dynamic_ends. Qed.
End ClientProofs.
