(* ===== verification/Commands.v ===== *)
(** What the commands of [cmd/sds] share ([consumer_common.go],
    [provider_operator.go], and the flags of [provider_operator_collect*.go] and
    [provider_operator_collections.go]): reading and checking flags, keys, amounts
    and deadlines, the options of a transaction, and the operator client.

    [Flags] is what the flag library and the environment give; [cli.Ensure] and
    [cli.NoError], which end the process, are error results.  Hexadecimal
    addresses and keys are read by third-party code ([CommandDeps]). *)
From S2P Require Import Prelude.
From S2P Require Import GoStd.
From S2P Require Import External.
From S2P Require Import GRT.
From S2P Require Import Horizon.
From S2P Require Import Proto.
From S2P Require Import Repository.
From S2P Require Import Endpoint.
From S2P Require Import OperatorAuth.
From S2P Require Import Operator.
From S2P Require Import Contracts.
From S2P Require Import ChainClient.

Record Flags : Type := mkFlags {
  MustGetString : string -> string;
  MustGetBool : string -> bool;
  MustGetUint64 : string -> Z;
  MustGetDuration : string -> Z;
  flag_Changed : string -> bool;
  LookupEnv : string -> option string
}.

(** [common.IsHexAddress], [common.HexToAddress] and [eth.NewPrivateKey]; the
    formats of [time.ParseDuration] and of RFC 3339 times (as seconds since 1970). *)
Class CommandDeps `{Geth} : Type := {
  common_IsHexAddress : string -> bool;
  common_HexToAddress : string -> address;
  eth_NewPrivateKey : string -> result go_error PrivateKey;
  time_ParseDuration : string -> result go_error Z;
  time_Parse_RFC3339 : string -> result go_error Z
}.

(** An address read has 20 bytes; a key is read from its bytes in hexadecimal. *)
Class CommandDepsLaws `{CommandDeps} : Prop := {
  HexToAddress_length s : length (common_HexToAddress s) = 20%nat;
  NewPrivateKey_bytes s k l :
    eth_NewPrivateKey s = Ok k -> DecodeString (trim_0x (TrimSpace s)) = Ok l -> key_Bytes k = l
}.

(** [cli.Ensure] and [cli.NoError]. *)
Definition ensure (b : bool) (msg : string) : result go_error unit := if b then Ok tt else Err (Errorf msg).
Definition no_error {A} (r : result go_error A) (msg : string) : result go_error A :=
  match r with Ok a => Ok a | Err e => Err (Wrapf msg e) end.

Definition os_Getenv (f : Flags) (name : string) : string := default ""%string (LookupEnv f name).

(** [strings.ContainsAny(s, " \t\r\n")]. *)
Definition contains_blank (s : string) : bool :=
  existsb (fun c => bool_decide (c ∈ [" "%char; "009"%char; "013"%char; "010"%char])) (to_chars s).

(** [strconv.ParseUint(s, 10, 64)]. *)
Definition ParseUint (s : string) : option Z :=
  match to_chars s with
  | [] => None
  | l => match read_digits 0 l with
         | Some v => if v <? two64 then Some v else None
         | None => None
         end
  end.

Definition defaultRPCTimeout : Z := 30 * 10 ^ 9.
Definition defaultReceiptTimeout : Z := 120 * 10 ^ 9.
Definition defaultReceiptPollInterval : Z := 10 ^ 9.

Section Commands.
Context `{Uint256} `{CommandDeps} (f : Flags).

(** ** Flags *)

Definition optionalStringFlag (name : string) : string := TrimSpace (MustGetString f name).

Definition requiredStringFlag (name : string) : result go_error string :=
  let value := TrimSpace (MustGetString f name) in
  let? _ := ensure (negb (String.eqb value "")) "--%s is required" in
  Ok value.

Definition parseAddressValue (raw : string) : result go_error address :=
  let? _ := ensure (common_IsHexAddress raw) "invalid %s address %q" in
  Ok (common_HexToAddress raw).

Definition parseAddressFlag (name : string) : result go_error address :=
  let? raw := requiredStringFlag name in parseAddressValue raw.

Definition parseOptionalAddressFlag (name : string) : result go_error (option address) :=
  let raw := optionalStringFlag name in
  if String.eqb raw "" then Ok None else let? a := parseAddressValue raw in Ok (Some a).

Definition parseGRTFlag (name : string) : result go_error GRT :=
  let? raw := requiredStringFlag name in
  no_error (ParseGRT raw) "invalid --%s %q, expected GRT amount like %q".

Definition parseOptionalGRTFlag (name : string) : result go_error (option GRT) :=
  let raw := optionalStringFlag name in
  if String.eqb raw "" then Ok None else
  let? value := no_error (ParseGRT raw) "invalid --%s %q, expected GRT amount like %q" in
  Ok (Some value).

Definition parseBigIntFlag (name : string) : result go_error (option Z) :=
  let raw := optionalStringFlag name in
  if String.eqb raw "" then Ok None else
  match SetString (to_chars raw) with
  | Some value =>
      let? _ := ensure (value >=? 0) "invalid --%s %q, expected non-negative decimal wei" in
      Ok (Some value)
  | None => Err (Errorf "invalid --%s %q, expected non-negative decimal wei")
  end.

Definition parseHexBytes (raw : string) : result go_error (list byte) :=
  let raw := trim_0x (TrimSpace raw) in
  let raw := if Nat.odd (String.length raw) then String "0" raw else raw in
  DecodeString raw.

Definition parseHexBytesFlag (name : string) : result go_error (list byte) :=
  let? raw := requiredStringFlag name in
  no_error (parseHexBytes raw) "invalid --%s %q".

(** ** Keys *)

Record payerKey : Type := mkPayerKey {
  pk_PrivateKey : ECDSAKey;
  pk_Address : address;
  pk_EthKey : PrivateKey;
  pk_EthAddress : address
}.

Definition parseECDSAPrivateKey (raw : string) : result go_error ECDSAKey :=
  let raw := trim_0x (TrimSpace raw) in
  if String.eqb raw "" then Err (Errorf "empty private key") else
  let? keyBytes := DecodeString raw in
  crypto_ToECDSA keyBytes.

Definition parseKeyPair (role : string) : result go_error payerKey :=
  let direct := optionalStringFlag (role +:+ "-private-key") in
  let envName := optionalStringFlag (role +:+ "-private-key-env") in
  let? _ := ensure (xorb (String.eqb direct "") (String.eqb envName "")) "exactly one of --%s or --%s is required" in
  let? keyHex :=
    (if String.eqb envName "" then Ok direct
     else let keyHex := TrimSpace (os_Getenv f envName) in
          let? _ := ensure (negb (String.eqb keyHex "")) "environment variable %s from --%s is empty or unset" in
          Ok keyHex) in
  let? privateKey := no_error (parseECDSAPrivateKey keyHex) "invalid --%s private key" in
  let? ethKey := no_error (eth_NewPrivateKey keyHex) "invalid --%s private key for proof generation" in
  Ok (mkPayerKey privateKey (AddressFromPrivateKey privateKey) ethKey (key_address ethKey)).

Definition parsePayerKey : result go_error payerKey := parseKeyPair "payer".
Definition parseSignerKey : result go_error payerKey := parseKeyPair "signer".

Definition validateOptionalPayerAddress (key : payerKey) : result go_error unit :=
  let? given := parseOptionalAddressFlag "payer-address" in
  match given with
  | None => Ok tt
  | Some payerAddress =>
      ensure (bool_decide (payerAddress = pk_Address key)) "--payer-address %s does not match payer private key address %s"
  end.

Definition txOptionsFromFlags (key : payerKey) : result go_error TxOptions :=
  let chainID := MustGetUint64 f "chain-id" in
  let? _ := ensure (negb (chainID =? 0)) "--chain-id is required" in
  let txType := optionalStringFlag "tx-type" in
  let? _ := ensure (String.eqb txType "dynamic" || String.eqb txType "legacy") "--tx-type must be either %q or %q" in
  let? maxFee := parseBigIntFlag "max-fee-per-gas-wei" in
  let? maxPriorityFee := parseBigIntFlag "max-priority-fee-per-gas-wei" in
  let? gasPrice := parseBigIntFlag "gas-price-wei" in
  Ok (mkTxOptions (Some chainID) (pk_Address key) (Some (pk_PrivateKey key)) txType (MustGetUint64 f "gas-limit")
        maxFee maxPriorityFee gasPrice (MustGetDuration f "receipt-timeout") (MustGetDuration f "receipt-poll-interval")
        (MustGetBool f "no-wait") (MustGetBool f "dry-run")).

(** [dialed] is the outcome of connecting to the endpoint.  The deadline the
    context gets is part of the world the calls observe. *)
Definition withRPCClientReceiptWaits {S A} (dialed : result go_error unit) (fn : S -> result go_error A * S) (s : S) :
    result go_error A * S :=
  match requiredStringFlag "rpc-endpoint" with
  | Err e => (Err e, s)
  | Ok _ => match dialed with
            | Err e => (Err (Wrapf "dialing RPC endpoint: %w" e), s)
            | Ok _ => fn s
            end
  end.
Definition withRPCClient {S A} (dialed : result go_error unit) (fn : S -> result go_error A * S) (s : S) :
    result go_error A * S :=
  withRPCClientReceiptWaits dialed fn s.

Definition commonToEthAddress (a : address) : address := take 20 a ++ zeros (20 - length a).
Definition grtFromBigInt (value : Z) : GRT := NewGRTFromBigInt (Some value).

(** ** Deadlines *)

(** [t.Unix()]. *)
Definition time_Unix (t : time) : Z := t / 10 ^ 9 - 62135596800.

Definition parseDeadline (raw : string) (now : time) : result go_error Z :=
  let raw := TrimSpace raw in
  if String.eqb raw "" then Err (Errorf "empty deadline") else
  match time_ParseDuration raw with
  | Ok duration =>
      if duration <=? 0 then Err (Errorf "duration must be positive")
      else Ok (wrap_u64 (time_Unix (now + duration)))
  | Err _ =>
      match ParseUint raw with
      | Some unix => Ok unix
      | None => let? timestamp := time_Parse_RFC3339 raw in Ok (wrap_u64 timestamp)
      end
  end.

Definition parseDeadlineFlag (now : time) (name : string) : result go_error Z :=
  let? raw := requiredStringFlag name in
  no_error (parseDeadline raw now) "invalid --%s %q, expected duration like 1h, unix timestamp, or RFC3339 time".

(** ** The operator client *)

Definition resolveProviderOperatorToken (token tokenEnv : string) (lookupEnv : string -> option string) :
    result go_error string :=
  if Bool.eqb (String.eqb token "") (String.eqb tokenEnv "")
  then Err (Errorf "exactly one of --operator-token or --operator-token-env is required") else
  if String.eqb tokenEnv "" then
    if contains_blank token then Err (Errorf "--operator-token contains whitespace and cannot be used as a bearer token")
    else Ok token
  else
    match lookupEnv tokenEnv with
    | None => Err (Errorf "environment variable %s from --operator-token-env is empty or unset")
    | Some value =>
        if String.eqb (TrimSpace value) ""
        then Err (Errorf "environment variable %s from --operator-token-env is empty or unset")
        else if contains_blank value
        then Err (Errorf "environment variable %s from --operator-token-env contains whitespace and cannot be used as a bearer token")
        else Ok value
    end.

Definition providerOperatorTokenFromFlags : result go_error string :=
  no_error (resolveProviderOperatorToken (optionalStringFlag "operator-token") (optionalStringFlag "operator-token-env")
              (LookupEnv f))
    "invalid provider operator token configuration".

(** The header of a request of the client. *)
Definition providerOperatorRequest (token : string) : header :=
  {[authorizationHeader := [bearer token]]}.

Definition parseProviderOperatorEndpoint `{NetURL} (endpoint : string) (plaintext : bool) :
    result go_error ParsedEndpoint :=
  let endpoint := TrimSpace endpoint in
  if String.eqb endpoint "" then Err (Errorf "empty endpoint") else
  let hasScheme := contains (to_chars "://") (to_chars endpoint) in
  let endpoint := if plaintext && negb hasScheme then ("http://" +:+ endpoint)%string else endpoint in
  let parsed := ParseEndpoint endpoint in
  if String.eqb (pe_URL parsed) "" then Err (Errorf "empty endpoint") else
  match url_Parse (pe_URL parsed) with
  | Err e => Err e
  | Ok u =>
      if String.eqb (url_Scheme u) "http" && negb plaintext
      then Err (Errorf "http endpoint requires explicit --plaintext")
      else if plaintext && negb (String.eqb (url_Scheme u) "http")
      then Err (Errorf "--plaintext requires an http endpoint")
      else if negb (String.eqb (url_Scheme u) "http") && negb (String.eqb (url_Scheme u) "https")
      then Err (Errorf "unsupported endpoint scheme %q")
      else Ok parsed
  end.

Definition providerOperatorFormat : result go_error string :=
  let format := optionalStringFlag "format" in
  let? _ := ensure (String.eqb format "text" || String.eqb format "json") "--format must be either %q or %q" in
  Ok format.

Definition optionalAddressProtoFlag (name : string) : result go_error (option PAddress) :=
  let? addr := parseOptionalAddressFlag name in Ok (mkPAddress <$> addr).
Definition requiredAddressProtoFlag (name : string) : result go_error (option PAddress) :=
  let? addr := parseAddressFlag name in Ok (Some (mkPAddress addr)).

Definition optionalCollectionIDFlag (name : string) : result go_error (list byte) :=
  let raw := optionalStringFlag name in
  if String.eqb raw "" then Ok [] else
  let? value := no_error (parseHexBytes raw) "invalid --%s %q" in
  let? _ := ensure (length value =? 32)%nat "invalid --%s %q, expected 32 bytes" in
  Ok value.
Definition requiredCollectionIDFlag (name : string) : result go_error (list byte) :=
  let? value := optionalCollectionIDFlag name in
  let? _ := ensure (negb (length value =? 0)%nat) "--%s is required" in
  Ok value.

Definition maxDataServiceCutPPM : Z := 1000000.
Definition parseDataServiceCutPPM : result go_error Z :=
  let? _ := ensure (flag_Changed f "data-service-cut-ppm") "--data-service-cut-ppm is required" in
  let value := MustGetUint64 f "data-service-cut-ppm" in
  let? _ := ensure (value <=? maxDataServiceCutPPM) "--data-service-cut-ppm must be between 0 and %d" in
  Ok value.

Definition parseMinCollectValueWei : result go_error Z :=
  let raw := optionalStringFlag "min-collect-value-wei" in
  if String.eqb raw "" then Ok 0 else
  match SetString (to_chars raw) with
  | None => Err (Errorf "invalid --min-collect-value-wei %q, expected a base-10 integer in wei")
  | Some value => let? _ := ensure (value >=? 0) "--min-collect-value-wei must not be negative" in Ok value
  end.

Definition providerOperatorCollectionKeyFromFlags : result go_error PCollectionKey :=
  let? id := requiredCollectionIDFlag "collection-id" in
  let? payer := requiredAddressProtoFlag "payer-address" in
  let? receiver := requiredAddressProtoFlag "receiver-address" in
  let? dataService := requiredAddressProtoFlag "data-service-address" in
  Ok (mkPCollectionKey (optionalStringFlag "session-id") id payer receiver dataService).

Definition parseCollectionStateFlag (name : string) : result go_error PCollectionState :=
  let raw := optionalStringFlag name in
  if String.eqb raw "" then Ok COLLECTION_STATE_UNSPECIFIED
  else if String.eqb raw "collectible" then Ok COLLECTION_STATE_COLLECTIBLE
  else if String.eqb raw "collect_pending" then Ok COLLECTION_STATE_COLLECT_PENDING
  else if String.eqb raw "collected" then Ok COLLECTION_STATE_COLLECTED
  else if String.eqb raw "collect_failed_retryable" then Ok COLLECTION_STATE_COLLECT_FAILED_RETRYABLE
  else Err (Errorf "--%s must be one of: collectible, collect_pending, collected, collect_failed_retryable").
End Commands.

(** ** Text forms *)

Definition formatCollectionState (state : PCollectionState) : string :=
  match state with
  | COLLECTION_STATE_COLLECTIBLE => "collectible"
  | COLLECTION_STATE_COLLECT_PENDING => "collect_pending"
  | COLLECTION_STATE_COLLECTED => "collected"
  | COLLECTION_STATE_COLLECT_FAILED_RETRYABLE => "collect_failed_retryable"
  | _ => "unspecified"
  end.

Definition formatCollectionID (raw : list byte) : string :=
  match raw with [] => ""%string | _ => ("0x" +:+ EncodeToString raw)%string end.

Definition formatProtoAddress `{Eth} (addr : option PAddress) : string :=
  match addr with
  | None => ""%string
  | Some _ => match Address_ToEth addr with Ok a => Pretty a | Err _ => ""%string end
  end.

(** [hash.Hex()] of a transaction, empty when there is none. *)
Definition resultTxHash (result : option TxResult) : string :=
  match result with
  | None => ""%string
  | Some r => if bool_decide (res_Hash r = zeros 32) then ""%string else ("0x" +:+ EncodeToString (res_Hash r))%string
  end.

(** ** What the parsed values satisfy *)
Section CommandProofs.
Context `{Uint256} `{GethLaws} `{!CommandDeps} `{!CommandDepsLaws}.
Implicit Types (f : Flags).

Lemma ensure_Ok b msg : ensure b msg = Ok tt <-> b = true.
Proof. unfold ensure. by destruct b. Qed.

Lemma no_error_Ok {A} (r : result go_error A) msg a : no_error r msg = Ok a -> r = Ok a.
Proof. destruct r; [done | done]. Qed.

Lemma parseAddressFlag_length f name a : parseAddressFlag f name = Ok a -> length a = 20%nat.
Proof.
  unfold parseAddressFlag, parseAddressValue. intros (raw & _ & E)%rbind_Ok. apply rbind_Ok in E as (_ & _ & E).
  apply Ok_inj in E as <-. apply HexToAddress_length.
Qed.

Lemma parseECDSA_address s e k :
  parseECDSAPrivateKey s = Ok e -> eth_NewPrivateKey s = Ok k -> crypto_PubkeyToAddress e = key_address k.
Proof.
  unfold parseECDSAPrivateKey. destruct (String.eqb _ _); [done |]. intros (l & El & Ee)%rbind_Ok Ek.
  apply ToECDSA_address. by rewrite (NewPrivateKey_bytes _ _ _ Ek El).
Qed.

(** The two libraries that read a private key agree on its address. *)
Lemma parseKeyPair_sound f role key :
  parseKeyPair f role = Ok key ->
  pk_Address key = AddressFromPrivateKey (pk_PrivateKey key) /\ pk_EthAddress key = pk_Address key /\
  pk_EthAddress key = key_address (pk_EthKey key).
Proof.
  unfold parseKeyPair. intros (_ & _ & E)%rbind_Ok. apply rbind_Ok in E as (keyHex & _ & E).
  apply rbind_Ok in E as (e & Ee%no_error_Ok & E). apply rbind_Ok in E as (k & Ek%no_error_Ok & E).
  apply Ok_inj in E as <-. simpl. split_and!; [done | | done]. symmetry. by eapply parseECDSA_address.
Qed.

Lemma txOptions_sound f key opts :
  txOptionsFromFlags f key = Ok opts ->
  o_ChainID opts = Some (MustGetUint64 f "chain-id") /\ o_PrivateKey opts = Some (pk_PrivateKey key) /\
  o_From opts = pk_Address key /\ o_NoWait opts = MustGetBool f "no-wait" /\ o_DryRun opts = MustGetBool f "dry-run".
Proof.
  unfold txOptionsFromFlags. intros E. repeat (apply rbind_Ok in E as (? & _ & E)). by apply Ok_inj in E as <-.
Qed.

(** ** The operator client *)

Lemma resolved_token_nonempty token tokenEnv lookupEnv t :
  resolveProviderOperatorToken token tokenEnv lookupEnv = Ok t -> t <> ""%string.
Proof.
  unfold resolveProviderOperatorToken. intros E ->.
  destruct (String.eqb_spec token ""), (String.eqb_spec tokenEnv ""); simpl in E; try done.
  - destruct (lookupEnv tokenEnv) as [v|]; [|done]. destruct (String.eqb_spec (TrimSpace v) ""); [done |].
    destruct (contains_blank v); [done |]. by apply Ok_inj in E as ->.
  - destruct (contains_blank token); [done |]. by apply Ok_inj in E as ->.
Qed.

Lemma endpoint_scheme `{NetURL} endpoint plaintext p :
  parseProviderOperatorEndpoint endpoint plaintext = Ok p ->
  exists u, url_Parse (pe_URL p) = Ok u /\ url_Scheme u = (if plaintext then "http" else "https")%string.
Proof.
  unfold parseProviderOperatorEndpoint. destruct (String.eqb _ ""); [done |].
  destruct (String.eqb (pe_URL _) ""); [done |].
  destruct (url_Parse (pe_URL _)) as [u|] eqn:Eu; [|done]. intros E. exists u.
  destruct plaintext, (String.eqb_spec (url_Scheme u) "http"), (String.eqb_spec (url_Scheme u) "https");
    simpl in E; try done; apply Ok_inj in E as <-; auto.
Qed.

(** The operator client and the provider agree on the token, and the
    token is not exposed.  For a token of visible characters taken from the
    flags or the environment, the header of every request is read by the provider
    as exactly that token, and the endpoint the request goes to is [https] unless
    plain text was asked for explicitly, when it is [http]. *)
Theorem operator_client_authenticates `{NetURL} f config required endpoint p token :
  providerOperatorTokenFromFlags f = Ok token -> Forall (fun c => visible c = true) (to_chars token) ->
  parseProviderOperatorEndpoint endpoint (MustGetBool f "plaintext") = Ok p ->
  (forall role, AuthorizeHeader (providerOperatorRequest token) config required = (role, None) <->
                roleForToken config token = Some role /\ Allows role required = true) /\
  exists u, url_Parse (pe_URL p) = Ok u /\
    url_Scheme u = (if MustGetBool f "plaintext" then "http" else "https")%string.
Proof.
  intros Et%no_error_Ok Hv Ep. split; [|by eapply endpoint_scheme].
  apply resolved_token_nonempty in Et. intros role.
  unfold AuthorizeHeader, providerOperatorRequest, Header_Get. rewrite lookup_singleton_eq.
  rewrite TrimSpace_bearer by done.
  destruct (String.eqb_spec (bearer token) ""); [done |]. rewrite parse_bearer by done.
  destruct (roleForToken config token) as [role'|]; [|by split; [intros [=] | intros [[=] _]]].
  destruct (Allows role' required) eqn:Ea; cbn [negb]; split.
  - by intros [= <-].
  - by intros [[= ->] _].
  - by intros [=].
  - intros [[= ->] E]. congruence.
Qed.
End CommandProofs.
