(* ===== verification/Funding.v ===== *)
(** Payer commands: escrow funding ([cmd/sds/consumer_funding.go]) and signer
    authorization ([cmd/sds/consumer_signer.go]).  Each command reads its flags,
    queries contracts, sends its transactions through the chain client and
    queries again; it is a function from the flags and the chain to what it
    reports and the chain it leaves.  Printed lines are dropped except for the
    values they report. *)
From S2P Require Import Prelude.
From S2P Require Import GoStd.
From S2P Require Import External.
From S2P Require Import GRT.
From S2P Require Import Horizon.
From S2P Require Import Repository.
From S2P Require Import Contracts.
From S2P Require Import ChainClient.
From S2P Require Import Commands.

Section Funding.
Context `{Uint256} `{ContractABI} `{Geth} `{!CommandDeps} `{!EthClient W}.
Implicit Types (f : Flags) (ch : Chain W) (opts : TxOptions).

(** ** Reading and sending *)

Definition Answer (A : Type) : Type := result go_error A * Chain W.

Definition cbind {A B} (r : Answer A) (k : A -> Chain W -> Answer B) : Answer B :=
  match r with
  | (Err e, ch) => (Err e, ch)
  | (Ok a, ch) => k a ch
  end.

(** A value read before the chain is reached. *)
Definition with_args {A B} (r : result go_error A) ch (k : A -> Answer B) : Answer B :=
  match r with
  | Err e => (Err e, ch)
  | Ok a => k a
  end.

Definition query {A} (to : address) (packed : result go_error (list byte)) (unpack : list byte -> result go_error A)
    ch : Answer A :=
  with_args packed ch (fun data => cbind (CallContract to data ch) (fun result ch => (unpack result, ch))).

Definition as_grt (r : result go_error Z) : result go_error GRT := let? v := r in Ok (grtFromBigInt v).

Definition queryERC20Balance (tokenAddress account : address) ch : Answer GRT :=
  query tokenAddress (PackBalanceOf account) (fun l => as_grt (UnpackBalanceOf l)) ch.
Definition queryERC20Allowance (tokenAddress owner spender : address) ch : Answer GRT :=
  query tokenAddress (PackAllowance owner spender) (fun l => as_grt (UnpackAllowance l)) ch.
Definition queryEscrowBalance (escrowAddress payer collector receiver : address) ch : Answer GRT :=
  query escrowAddress (PackGetBalance payer collector receiver) (fun l => as_grt (UnpackGetBalance l)) ch.
Definition querySignerAuthorized (collectorAddress payer signer : address) ch : Answer bool :=
  query collectorAddress (PackIsAuthorized payer signer) UnpackIsAuthorized ch.
Definition querySignerThawEnd (collectorAddress signer : address) ch : Answer Z :=
  query collectorAddress (PackGetThawEnd signer) UnpackGetThawEnd ch.

Definition ensureAllowance (tokenAddress owner spender : address) (needed : GRT) ch : Answer unit :=
  cbind (queryERC20Allowance tokenAddress owner spender ch) (fun allowance ch =>
  if GRT_Cmp allowance needed <? 0
  then (Err (Errorf "escrow allowance %s is below required amount %s; run consumer funding approve first"), ch)
  else (Ok tt, ch)).

(** A packed call sent with no value; a nil result without an error would be
    dereferenced when it is printed. *)
Definition submit (to : address) (packed : result go_error (list byte)) opts ch : Answer TxResult :=
  with_args packed ch (fun data =>
  match SendDynamicFeeTransaction to (Some 0) data opts ch with
  | ((_, Some e), ch) => (Err e, ch)
  | ((Some result, None), ch) => (Ok result, ch)
  | ((None, None), ch) => (Err GoPanic, ch)
  end).

Definition submitApproval (tokenAddress spender : address) (amount : GRT) opts ch : Answer TxResult :=
  submit tokenAddress (PackApprove spender (GRT_BigInt amount)) opts ch.

(** The value read back after the receipt, none when there is no receipt. *)
Definition submitDepositAndPrint (escrowAddress collector receiver : address) (amount : GRT) (payer : address) opts ch :
    Answer (option GRT) :=
  cbind (submit escrowAddress (PackDeposit collector receiver (GRT_BigInt amount)) opts ch) (fun _ ch =>
  if o_NoWait opts || o_DryRun opts then (Ok None, ch) else
  cbind (queryEscrowBalance escrowAddress payer collector receiver ch) (fun finalBalance ch => (Ok (Some finalBalance), ch))).

(** ** Funding commands *)

Definition rejectAllowanceReplacement (currentAllowance requestedAmount : GRT) (force resetFirst : bool) : bool :=
  negb (GRT_IsZero currentAllowance) && negb (GRT_IsZero requestedAmount) && negb force && negb resetFirst.

Definition rejectNoWaitResetFirst (resetFirst noWait : bool) : bool := resetFirst && noWait.

Definition topUpDepositAmount (currentBalance targetBalance : GRT) : GRT * bool :=
  if GRT_Cmp currentBalance targetBalance >=? 0 then (ZeroGRT, false) else (GRT_Sub targetBalance currentBalance, true).

Record FundingStatus : Type := mkFundingStatus {
  fs_walletBalance : GRT;
  fs_allowance : GRT;
  fs_escrowBalance : GRT;
  fs_needed : option GRT
}.

Definition status_args f : result go_error (address * address * address * address * address * option GRT) :=
  let? grt := parseAddressFlag f "grt-token-address" in
  let? escrow := parseAddressFlag f "escrow-address" in
  let? collector := parseAddressFlag f "collector-address" in
  let? payer := parseAddressFlag f "payer-address" in
  let? receiver := parseAddressFlag f "receiver-address" in
  let? minimum := parseOptionalGRTFlag f "min-escrow-balance" in
  Ok (grt, escrow, collector, payer, receiver, minimum).

Definition runConsumerFundingStatus f (dialed : result go_error unit) ch : Answer FundingStatus :=
  with_args (status_args f) ch (fun '(grt, escrow, collector, payer, receiver, minimum) =>
  withRPCClient f dialed (fun ch =>
    cbind (queryERC20Balance grt payer ch) (fun walletBalance ch =>
    cbind (queryERC20Allowance grt payer escrow ch) (fun allowance ch =>
    cbind (queryEscrowBalance escrow payer collector receiver ch) (fun escrowBalance ch =>
    (Ok (mkFundingStatus walletBalance allowance escrowBalance ((fun m => GRT_Sub m escrowBalance) <$> minimum)), ch)))))
    ch).

Record ApproveArgs : Type := mkApproveArgs {
  ap_grt : address;
  ap_escrow : address;
  ap_amount : GRT;
  ap_key : payerKey;
  ap_opts : TxOptions;
  ap_force : bool;
  ap_resetFirst : bool
}.

Definition approve_args f : result go_error ApproveArgs :=
  let? grt := parseAddressFlag f "grt-token-address" in
  let? escrow := parseAddressFlag f "escrow-address" in
  let? amount := parseGRTFlag f "amount" in
  let? key := parsePayerKey f in
  let? _ := validateOptionalPayerAddress f key in
  let? opts := txOptionsFromFlags f key in
  let force := MustGetBool f "force" in
  let resetFirst := MustGetBool f "reset-first" in
  let? _ := ensure (negb (force && resetFirst)) "--force and --reset-first are mutually exclusive" in
  let? _ := ensure (negb (rejectNoWaitResetFirst resetFirst (o_NoWait opts)))
              "--reset-first cannot be used with --no-wait because the second approval must wait for the reset receipt" in
  Ok (mkApproveArgs grt escrow amount key opts force resetFirst).

(** With the client connected. *)
Definition approve (a : ApproveArgs) ch : Answer (option GRT) :=
  let payer := pk_Address (ap_key a) in
  cbind (queryERC20Allowance (ap_grt a) payer (ap_escrow a) ch) (fun currentAllowance ch =>
  if rejectAllowanceReplacement currentAllowance (ap_amount a) (ap_force a) (ap_resetFirst a)
  then (Err (Errorf "current allowance is %s; refusing non-zero to non-zero approve replacement without --force or --reset-first"), ch)
  else
  cbind (if ap_resetFirst a && negb (GRT_IsZero currentAllowance)
         then cbind (submitApproval (ap_grt a) (ap_escrow a) ZeroGRT (ap_opts a) ch) (fun _ ch => (Ok tt, ch))
         else (Ok tt, ch)) (fun _ ch =>
  cbind (submitApproval (ap_grt a) (ap_escrow a) (ap_amount a) (ap_opts a) ch) (fun _ ch =>
  if o_NoWait (ap_opts a) || o_DryRun (ap_opts a) then (Ok None, ch) else
  cbind (queryERC20Allowance (ap_grt a) payer (ap_escrow a) ch) (fun finalAllowance ch => (Ok (Some finalAllowance), ch))))).

Definition runConsumerFundingApprove f (dialed : result go_error unit) ch : Answer (option GRT) :=
  with_args (approve_args f) ch (fun a => withRPCClientReceiptWaits f dialed (approve a) ch).

Record DepositArgs : Type := mkDepositArgs {
  dp_escrow : address;
  dp_collector : address;
  dp_receiver : address;
  dp_grt : option address;
  dp_amount : GRT;
  dp_key : payerKey;
  dp_opts : TxOptions
}.

Definition deposit_args f : result go_error DepositArgs :=
  let? escrow := parseAddressFlag f "escrow-address" in
  let? collector := parseAddressFlag f "collector-address" in
  let? receiver := parseAddressFlag f "receiver-address" in
  let? grt := parseOptionalAddressFlag f "grt-token-address" in
  let? amount := parseGRTFlag f "amount" in
  let? key := parsePayerKey f in
  let? _ := validateOptionalPayerAddress f key in
  let? opts := txOptionsFromFlags f key in
  Ok (mkDepositArgs escrow collector receiver grt amount key opts).

Definition deposit (a : DepositArgs) ch : Answer (option GRT) :=
  let payer := pk_Address (dp_key a) in
  cbind (match dp_grt a with
         | Some grt => ensureAllowance grt payer (dp_escrow a) (dp_amount a) ch
         | None => (Ok tt, ch)
         end) (fun _ ch =>
  submitDepositAndPrint (dp_escrow a) (dp_collector a) (dp_receiver a) (dp_amount a) payer (dp_opts a) ch).

Definition runConsumerFundingDeposit f (dialed : result go_error unit) ch : Answer (option GRT) :=
  with_args (deposit_args f) ch (fun a => withRPCClient f dialed (deposit a) ch).

Record TopUpArgs : Type := mkTopUpArgs {
  tu_grt : address;
  tu_escrow : address;
  tu_collector : address;
  tu_receiver : address;
  tu_target : GRT;
  tu_key : payerKey;
  tu_opts : TxOptions
}.

Definition topup_args f : result go_error TopUpArgs :=
  let? grt := parseAddressFlag f "grt-token-address" in
  let? escrow := parseAddressFlag f "escrow-address" in
  let? collector := parseAddressFlag f "collector-address" in
  let? receiver := parseAddressFlag f "receiver-address" in
  let? target := parseGRTFlag f "target-balance" in
  let? key := parsePayerKey f in
  let? _ := validateOptionalPayerAddress f key in
  let? opts := txOptionsFromFlags f key in
  Ok (mkTopUpArgs grt escrow collector receiver target key opts).

Definition topup (a : TopUpArgs) ch : Answer (option GRT) :=
  let payer := pk_Address (tu_key a) in
  cbind (queryEscrowBalance (tu_escrow a) payer (tu_collector a) (tu_receiver a) ch) (fun currentBalance ch =>
  let '(depositAmount, needed) := topUpDepositAmount currentBalance (tu_target a) in
  if negb needed then (Ok None, ch) else
  cbind (ensureAllowance (tu_grt a) payer (tu_escrow a) depositAmount ch) (fun _ ch =>
  submitDepositAndPrint (tu_escrow a) (tu_collector a) (tu_receiver a) depositAmount payer (tu_opts a) ch)).

Definition runConsumerFundingTopUp f (dialed : result go_error unit) ch : Answer (option GRT) :=
  with_args (topup_args f) ch (fun a => withRPCClient f dialed (topup a) ch).

(** ** Signer commands *)

Definition runConsumerSignerProof f (now : time) : result go_error (address * Z * list byte) :=
  let chainID := MustGetUint64 f "chain-id" in
  let? _ := ensure (negb (chainID =? 0)) "--chain-id is required" in
  let? collector := parseAddressFlag f "collector-address" in
  let? payer := parseAddressFlag f "payer-address" in
  let? signerKey := parseSignerKey f in
  let? deadline := parseDeadlineFlag f now "deadline" in
  let? proof := GenerateSignerProof chainID (commonToEthAddress collector) deadline (commonToEthAddress payer)
                  (pk_EthKey signerKey) in
  Ok (pk_Address signerKey, deadline, proof).

Definition runConsumerSignerStatus f (dialed : result go_error unit) ch : Answer (bool * Z) :=
  with_args (parseAddressFlag f "collector-address") ch (fun collector =>
  with_args (parseAddressFlag f "payer-address") ch (fun payer =>
  with_args (parseAddressFlag f "signer-address") ch (fun signer =>
  withRPCClient f dialed (fun ch =>
    cbind (querySignerAuthorized collector payer signer ch) (fun authorized ch =>
    cbind (querySignerThawEnd collector signer ch) (fun thawEnd ch => (Ok (authorized, thawEnd), ch)))) ch))).

Record AuthorizeArgs : Type := mkAuthorizeArgs {
  au_collector : address;
  au_key : payerKey;
  au_opts : TxOptions;
  au_signer : address;
  au_deadline : Z;
  au_proof : list byte
}.

(** The signer, the deadline and the proof, given or generated. *)
Definition signer_proof f (now : time) (collector : address) (key : payerKey) (chainID : Z) :
    result go_error (address * Z * list byte) :=
  let signerAddressRaw := optionalStringFlag f "signer-address" in
  let proofRaw := optionalStringFlag f "proof" in
  let proofDeadlineFlag := MustGetUint64 f "proof-deadline" in
  let deadlineRaw := optionalStringFlag f "deadline" in
  let given s := negb (String.eqb s "") in
  let externalMode := given signerAddressRaw || given proofRaw || negb (proofDeadlineFlag =? 0) in
  let localMode := given (optionalStringFlag f "signer-private-key") ||
                   given (optionalStringFlag f "signer-private-key-env") || given deadlineRaw in
  let? _ := ensure (xorb externalMode localMode) "use either external proof mode or local proof mode" in
  if externalMode then
    let? _ := ensure (given signerAddressRaw) "--signer-address is required in external proof mode" in
    let? _ := ensure (given proofRaw) "--proof is required in external proof mode" in
    let? _ := ensure (negb (proofDeadlineFlag =? 0)) "--proof-deadline is required in external proof mode" in
    let? signer := parseAddressValue signerAddressRaw in
    let? proof := parseHexBytesFlag f "proof" in
    Ok (signer, proofDeadlineFlag, proof)
  else
    let? _ := ensure (given deadlineRaw) "--deadline is required in local proof mode" in
    let? signerKey := parseSignerKey f in
    let? deadline := parseDeadlineFlag f now "deadline" in
    let? proof := GenerateSignerProof chainID (commonToEthAddress collector) deadline (pk_EthAddress key)
                    (pk_EthKey signerKey) in
    Ok (pk_Address signerKey, deadline, proof).

Definition authorize_args f (now : time) : result go_error AuthorizeArgs :=
  let? collector := parseAddressFlag f "collector-address" in
  let? key := parsePayerKey f in
  let? _ := validateOptionalPayerAddress f key in
  let? opts := txOptionsFromFlags f key in
  let? (signer, deadline, proof) := signer_proof f now collector key (wrap_u64 (default 0 (o_ChainID opts))) in
  Ok (mkAuthorizeArgs collector key opts signer deadline proof).

Definition authorize (a : AuthorizeArgs) ch : Answer (option bool) :=
  cbind (submit (au_collector a) (PackAuthorizeSigner (au_signer a) (au_deadline a) (au_proof a)) (au_opts a) ch)
    (fun _ ch =>
  if o_NoWait (au_opts a) || o_DryRun (au_opts a) then (Ok None, ch) else
  cbind (querySignerAuthorized (au_collector a) (pk_Address (au_key a)) (au_signer a) ch)
    (fun authorized ch => (Ok (Some authorized), ch))).

Definition runConsumerSignerAuthorize f (now : time) (dialed : result go_error unit) ch : Answer (option bool) :=
  with_args (authorize_args f now) ch (fun a => withRPCClient f dialed (authorize a) ch).

Definition signer_tx_args f : result go_error (address * address * payerKey * TxOptions) :=
  let? collector := parseAddressFlag f "collector-address" in
  let? signer := parseAddressFlag f "signer-address" in
  let? key := parsePayerKey f in
  let? _ := validateOptionalPayerAddress f key in
  let? opts := txOptionsFromFlags f key in
  Ok (collector, signer, key, opts).

Definition runSignerTx {A} f (dialed : result go_error unit) (pack : address -> result go_error (list byte))
    (afterWait : address -> address -> address -> Chain W -> Answer A) ch : Answer (option A) :=
  with_args (signer_tx_args f) ch (fun '(collector, signer, key, opts) =>
  withRPCClient f dialed (fun ch =>
    cbind (submit collector (pack signer) opts ch) (fun _ ch =>
    if o_NoWait opts || o_DryRun opts then (Ok None, ch) else
    cbind (afterWait collector (pk_Address key) signer ch) (fun a ch => (Ok (Some a), ch)))) ch).

Definition runConsumerSignerThaw f (dialed : result go_error unit) ch : Answer (option Z) :=
  runSignerTx f dialed PackThawSigner (fun collector _ signer ch => querySignerThawEnd collector signer ch) ch.
Definition runConsumerSignerRevoke f (dialed : result go_error unit) ch : Answer (option bool) :=
  runSignerTx f dialed PackRevokeAuthorizedSigner
    (fun collector payer signer ch => querySignerAuthorized collector payer signer ch) ch.
Definition runConsumerSignerCancelThaw f (dialed : result go_error unit) ch : Answer (option Z) :=
  runSignerTx f dialed PackCancelThawSigner (fun collector _ signer ch => querySignerThawEnd collector signer ch) ch.
End Funding.
