(* ===== verification/FundingProps.v ===== *)
(** What the payer commands do to the chain.  The token and the escrow contract
    are seen through an abstract ledger ([FundingChain]): the answers of the node
    are the entries of the ledger, a mined transaction executes on it, and nothing
    else changes the entries of this payer while a command runs.  Against that
    interface: an approval sets the allowance it was asked for and never replaces
    a non-zero allowance by another unless told to, a top-up brings the escrow
    balance to the target and takes exactly the difference, and an authorization
    carries a proof that the collector accepts for this payer. *)
From S2P Require Import Prelude.
From S2P Require Import GoStd.
From S2P Require Import External.
From S2P Require Import GRT.
From S2P Require Import Horizon.
From S2P Require Import Repository.
From S2P Require Import Endpoint.
From S2P Require Import OperatorAuth.
From S2P Require Import Contracts.
From S2P Require Import ChainClient.
From S2P Require Import Commands.
From S2P Require Import Funding.

(** ** The ledger *)

Record Ledger : Type := mkLedger {
  l_wallet : address -> Z;
  l_allowance : address -> address -> Z;
  l_escrow : address -> address -> address -> Z
}.

Section Ledger.
Context `{EthClient W}.

(** The last submitted transaction. *)
Inductive TxState : Type :=
  | Idle
  | Pending (s : SignedTx)
  | Mined (s : SignedTx) (succeeded : bool).
Definition state_tx (st : TxState) : option SignedTx :=
  match st with Idle => None | Pending s | Mined s _ => Some s end.
End Ledger.
Arguments TxState {_ _} W {_}.

Class FundingChain `{EthClient W} : Type := {
  view : W -> Ledger * TxState W;
  (** the effect of a successful transaction, none when it reverts *)
  execute : SignedTx -> Ledger -> option Ledger
}.

Section Progress.
Context `{FundingChain W}.

(** While waiting, the pending transaction may be mined. *)
Inductive progress : Ledger * TxState W -> Ledger * TxState W -> Prop :=
  | progress_none v : progress v v
  | progress_success l s l' : execute s l = Some l' -> progress (l, Pending s) (l', Mined s true)
  | progress_revert l s : progress (l, Pending s) (l, Mined s false).
End Progress.

(** An entry as the node reports it. *)
Definition reported (answer : list byte) (entry : Z) : Prop := 0 <= entry < two256 /\ answer = word entry.

(** Changing one entry. *)
Definition upd1 (g : address -> Z) (a : address) (v : Z) : address -> Z := fun x => if decide (x = a) then v else g x.
Definition upd2 (g : address -> address -> Z) (a b : address) (v : Z) : address -> address -> Z :=
  fun x y => if decide (x = a /\ y = b) then v else g x y.
Definition upd3 (g : address -> address -> address -> Z) (a b c : address) (v : Z) : address -> address -> address -> Z :=
  fun x y z => if decide (x = a /\ y = b /\ z = c) then v else g x y z.

Class FundingLaws `{ContractABI} `{FundingChain W} (token escrow : address) : Prop := {
  fl_allowance o s data w answer w' :
    PackAllowance o s = Ok data -> rpc_CallContract token data w = (Ok answer, w') ->
    reported answer (l_allowance (view w).1 o s);
  fl_escrow p c r data w answer w' :
    PackGetBalance p c r = Ok data -> rpc_CallContract escrow data w = (Ok answer, w') ->
    reported answer (l_escrow (view w).1 p c r);
  fl_quiet_call a data w : view (rpc_CallContract a data w).2 = view w;
  fl_quiet_estimate from to v data w : view (rpc_EstimateGas from to v data w).2 = view w;
  fl_quiet_tip w : view (rpc_SuggestGasTipCap w).2 = view w;
  fl_quiet_base w : view (rpc_BaseFee w).2 = view w;
  fl_quiet_price w : view (rpc_SuggestGasPrice w).2 = view w;
  fl_quiet_nonce a w : view (rpc_PendingNonceAt a w).2 = view w;
  fl_send s w w' : rpc_SendTransaction s w = (Ok tt, w') -> view w' = ((view w).1, Pending s);
  fl_receipt_step h d w : progress (view w) (view (rpc_TransactionReceipt h d w).2);
  fl_select_step start interval d n w : progress (view w) (view (wait_select start interval d n w).2);
  fl_receipt h d w receipt w' s :
    rpc_TransactionReceipt h d w = (Ok receipt, w') -> state_tx (view w').2 = Some s -> signed_Hash s = h ->
    exists ok, (view w').2 = Mined s ok /\ (rc_Status receipt <> ReceiptStatusFailed -> ok = true);
  fl_approve s l l' spender v :
    execute s l = Some l' -> tx_to (signed_body s) = token -> 0 <= v < two256 ->
    PackApprove spender v = Ok (tx_data (signed_body s)) ->
    l' = mkLedger (l_wallet l) (upd2 (l_allowance l) (signed_sender s) spender v) (l_escrow l);
  fl_deposit s l l' collector receiver v :
    execute s l = Some l' -> tx_to (signed_body s) = escrow -> 0 <= v < two256 ->
    PackDeposit collector receiver v = Ok (tx_data (signed_body s)) ->
    let p := signed_sender s in
    v <= l_wallet l p /\ v <= l_allowance l p escrow /\
    l' = mkLedger (upd1 (l_wallet l) p (l_wallet l p - v))
           (upd2 (l_allowance l) p escrow (l_allowance l p escrow - v))
           (upd3 (l_escrow l) p collector receiver (l_escrow l p collector receiver + v))
}.

Section LedgerProofs.
Context `{Uint256Laws} `{ContractABILaws} `{GethLaws} `{!CommandDeps} `{!CommandDepsLaws} `{!EthClient W}
  `{!EthClientLaws} `{!FundingChain} (token escrow : address) `{!FundingLaws token escrow}.
Implicit Types (ch : Chain W) (opts : TxOptions).

Definition chview ch : Ledger * TxState W := view (ch_world ch).
Definition ledger ch : Ledger := (chview ch).1.

(** Nothing sent and nothing changed. *)
Definition quiet ch ch' : Prop := ch_sent ch' = ch_sent ch /\ chview ch' = chview ch.

#[local] Instance quiet_preorder : PreOrder quiet.
Proof. unfold quiet. split; [done |]. intros ??? [] []. split; congruence. Qed.

Lemma call_quiet {A} (g : W -> result go_error A * W) ch :
  (forall w, view (g w).2 = view w) -> quiet ch (call g ch).2.
Proof. intros Hg. unfold call, quiet, chview. specialize (Hg (ch_world ch)). by destruct (g _). Qed.

Lemma resolve_gas_quiet to v data opts ch : quiet ch (resolve_gas_limit to v data opts ch).2.
Proof. unfold resolve_gas_limit. case_match; [apply call_quiet; intros; apply fl_quiet_estimate | done]. Qed.

Lemma suggested_quiet given suggest ch :
  (forall w, view (suggest w).2 = view w) -> quiet ch (or_suggested given suggest ch).2.
Proof. intros Hg. unfold or_suggested. destruct given; [done | by apply call_quiet]. Qed.

Lemma max_fee_quiet tip opts ch : quiet ch (resolve_max_fee tip opts ch).2.
Proof.
  unfold resolve_max_fee. destruct (o_MaxFeePerGas opts); [done |].
  pose proof (call_quiet rpc_BaseFee ch fl_quiet_base) as Hq.
  by destruct (call rpc_BaseFee ch) as [[[b|]|e] ch1].
Qed.

(** ** A confirmed transaction has executed *)

Lemma progress_from_mined l s ok v : progress (l, Mined s ok) v -> v = (l, Mined s ok).
Proof. by inversion 1. Qed.

(** What the chain can look like while [s], submitted on ledger [l], is awaited. *)
Definition awaiting (l : Ledger) (s : SignedTx) (v : Ledger * TxState W) : Prop :=
  v = (l, Pending s) \/ v = (l, Mined s false) \/ exists l', execute s l = Some l' /\ v = (l', Mined s true).

Lemma awaiting_progress l s v v' : awaiting l s v -> progress v v' -> awaiting l s v'.
Proof.
  intros [->|[->|(l' & El & ->)]] Hp; inversion Hp; subst; unfold awaiting; eauto 6.
Qed.

Lemma wait_confirms fuel s l start interval deadline n w receipt w' :
  awaiting l s (view w) ->
  wait_loop fuel (signed_Hash s) start interval deadline n w = (Some (Ok receipt), w') ->
  rc_Status receipt <> ReceiptStatusFailed ->
  exists l', execute s l = Some l' /\ view w' = (l', Mined s true).
Proof.
  intros Hw E Hs. revert n w Hw E. induction fuel as [|fuel IH]; intros n w Hw; simpl; [done |].
  pose proof (awaiting_progress _ _ _ _ Hw (fl_receipt_step (signed_Hash s) deadline w)) as Hw1.
  destruct (rpc_TransactionReceipt _ _ w) as [[r|e] w1] eqn:Er; simpl in Hw1.
  - intros [= -> ->]. destruct (fl_receipt _ _ _ _ _ s Er) as (ok & Eo & Hok); [|done |].
    { destruct Hw1 as [->|[->|(? & _ & ->)]]; done. }
    rewrite (Hok Hs) in Eo. destruct Hw1 as [E|[E|(l' & El & E)]]; rewrite E in Eo; simpl in Eo; try done. eauto.
  - destruct (errors_Is e NotFound); simpl; [|done].
    pose proof (awaiting_progress _ _ _ _ Hw1 (fl_select_step start interval deadline n w1)) as Hw2.
    destruct (wait_select _ _ _ _ w1) as [[|e'] w2]; simpl in Hw2; [by apply IH | done].
Qed.

(** How the chain looks when a sending function has ended. *)
Definition send_leaves opts ch (out : SendOutcome W) : Prop :=
  match out with
  | ((res, err), ch') =>
      (ch_sent ch' = ch_sent ch -> chview ch' = chview ch) /\
      (err = None -> o_DryRun opts = false -> o_NoWait opts = false ->
       exists s l', ch_sent ch' = ch_sent ch ++ [s] /\ execute s (ledger ch) = Some l' /\ chview ch' = (l', Mined s true))
  end.

Lemma leaves_quiet opts ch e ch' : quiet ch ch' -> send_leaves opts ch ((None, Some e), ch').
Proof. intros [_ Hv]. by split. Qed.

Lemma leaves_fail {A} opts ch msg (r : result go_error A * Chain W) k :
  quiet ch r.2 -> (forall a ch1, r = (Ok a, ch1) -> quiet ch ch1 -> send_leaves opts ch (k a ch1)) ->
  send_leaves opts ch (or_fail msg r k).
Proof. intros Hq Hk. destruct r as [[a|e] ch1]; cbn [or_fail]; [by apply Hk | by apply leaves_quiet]. Qed.

Lemma submit_leaves mk chainID key result opts ch ch0 :
  o_DryRun opts = false -> quiet ch0 ch ->
  send_leaves opts ch0 (submit_and_wait mk chainID key result opts ch).
Proof.
  intros Hd Hq. unfold submit_and_wait. apply leaves_fail.
  { etrans; [exact Hq | apply call_quiet; intros; apply fl_quiet_nonce]. }
  intros nonce ch1 _ Hq1. apply leaves_fail; [done | intros s ch2 [= _ <-] _].
  unfold SendTransaction. destruct (rpc_SendTransaction s (ch_world ch1)) as [[[]|e] w] eqn:Es.
  2: { simpl. split; [|done]. destruct Hq1 as [-> _]. simpl. by intros ?%sent_longer. }
  cbn [or_fail]. destruct (o_NoWait opts) eqn:En.
  { split; [|congruence]. destruct Hq1 as [-> _]. simpl. by intros ?%sent_longer. }
  unfold WaitReceipt. cbn [res_Hash setter ch_world ch_sent].
  apply fl_send in Es. destruct Hq1 as [Hs1 Hv1]. unfold chview in Hv1. rewrite Hv1 in Es.
  match goal with |- context [wait_loop ?fu ?h ?a ?b ?c ?d ?e] =>
    pose proof (wait_confirms fu s (ledger ch0) a b c d e) as Hc; destruct (wait_loop fu h a b c d e) as [[[receipt|er]|] w1] eqn:Ew
  end; simpl.
  2, 3: split; [rewrite Hs1; by intros ?%sent_longer | done].
  destruct (Z.eqb_spec (rc_Status receipt) ReceiptStatusFailed); simpl;
    (split; [rewrite Hs1; by intros ?%sent_longer |]); [done |].
  intros _ _ _. destruct (Hc receipt w1) as (l' & El & Ev); [by left | done | done |].
  exists s, l'. by rewrite Hs1.
Qed.

Lemma send_leaves_chain to value data opts ch :
  send_leaves opts ch (SendDynamicFeeTransaction to value data opts ch).
Proof.
  assert (Hdry : forall res ch', o_DryRun opts = true -> quiet ch ch' -> send_leaves opts ch ((Some res, None), ch')).
  { intros res ch' Hd [_ Hv]. split; [done | congruence]. }
  unfold SendDynamicFeeTransaction, SendLegacyTransaction. destruct (String.eqb _ "legacy").
  all: destruct (o_ChainID opts) as [chainID|]; [|by apply leaves_quiet].
  all: destruct (chainID <=? 0); [by apply leaves_quiet |].
  all: destruct (o_PrivateKey opts) as [key|]; [|by apply leaves_quiet].
  all: apply leaves_fail; [apply resolve_gas_quiet |]; intros gas ch1 _ Hq1.
  - apply leaves_fail; [etrans; [exact Hq1 | apply suggested_quiet, fl_quiet_price] |]. intros price ch2 _ Hq2.
    destruct (o_DryRun opts) eqn:Hd; [by apply Hdry | by apply submit_leaves].
  - apply leaves_fail; [etrans; [exact Hq1 | apply suggested_quiet, fl_quiet_tip] |]. intros tip ch2 _ Hq2.
    pose proof (max_fee_quiet tip opts ch2) as Hq3.
    destruct (resolve_max_fee tip opts ch2) as [[cap|e] ch3]; simpl in Hq3; [|apply leaves_quiet; by etrans].
    destruct (cmpZ cap tip <? 0); [apply leaves_quiet; by etrans |].
    destruct (o_DryRun opts) eqn:Hd; [apply Hdry | apply submit_leaves]; try done; by etrans.
Qed.

(** ** Reading *)

Lemma query_quiet {A} to packed (unpack : list byte -> result go_error A) ch : quiet ch (query to packed unpack ch).2.
Proof.
  unfold query, with_args. destruct packed as [data|]; [|done]. unfold CallContract.
  pose proof (call_quiet (rpc_CallContract to data) ch (fl_quiet_call to data)) as Hq.
  by destruct (call _ ch) as [[answer|e] ch1].
Qed.

Lemma query_reads to packed c m entry ch g ch' :
  returns_uint256 c m = true ->
  query to packed (fun l => as_grt (unpack_one c m as_big l)) ch = (Ok g, ch') ->
  (forall data answer w, packed = Ok data -> rpc_CallContract to data (ch_world ch) = (Ok answer, w) ->
     reported answer entry) ->
  quiet ch ch' /\ GRT_BigInt g = entry.
Proof.
  intros Hm E Hr. pose proof (query_quiet to packed (fun l => as_grt (unpack_one c m as_big l)) ch) as Hq.
  rewrite E in Hq. split; [exact Hq |]. unfold query, with_args in E. destruct packed as [data|]; [|done].
  unfold CallContract, call in E. destruct (rpc_CallContract to data (ch_world ch)) as [[answer|e] w] eqn:Ec; [|done].
  destruct (Hr data answer w eq_refl Ec) as [Hrange ->]. simpl in E.
  unfold as_grt, unpack_one in E. rewrite (abi_Unpack_uint256 _ _ _ Hm Hrange) in E. simpl in E. simplify_eq.
  unfold grtFromBigInt. rewrite NewGRTFromBigInt_value; lia.
Qed.

Lemma allowance_read o s ch g ch' :
  queryERC20Allowance token o s ch = (Ok g, ch') -> quiet ch ch' /\ GRT_BigInt g = l_allowance (ledger ch) o s.
Proof.
  intros E. eapply (query_reads token _ ERC20 "allowance"); [done | exact E |].
  intros data answer w Ep Ec. by eapply fl_allowance.
Qed.

Lemma escrow_read p c r ch g ch' :
  queryEscrowBalance escrow p c r ch = (Ok g, ch') -> quiet ch ch' /\ GRT_BigInt g = l_escrow (ledger ch) p c r.
Proof.
  intros E. eapply (query_reads escrow _ PaymentsEscrow "getBalance"); [done | exact E |].
  intros data answer w Ep Ec. by eapply fl_escrow.
Qed.

Lemma quiet_ledger ch ch' : quiet ch ch' -> ledger ch' = ledger ch.
Proof. intros [_ Hv]. unfold ledger. by rewrite Hv. Qed.

(** ** Sending *)

Lemma cbind_Ok {A B} (r : Answer A) (k : A -> Chain W -> Answer B) b ch' :
  cbind r k = (Ok b, ch') -> exists a ch1, r = (Ok a, ch1) /\ k a ch1 = (Ok b, ch').
Proof. destruct r as [[a|e] ch1]; simpl; [by eauto | done]. Qed.

Lemma submit_confirmed to packed opts ch res ch' :
  submit to packed opts ch = (Ok res, ch') -> o_DryRun opts = false -> o_NoWait opts = false ->
  exists data s l', packed = Ok data /\ as_asked to (Some 0) data opts s /\ ch_sent ch' = ch_sent ch ++ [s] /\
    execute s (ledger ch) = Some l' /\ ledger ch' = l'.
Proof.
  intros E Hd Hn. unfold submit, with_args in E. destruct packed as [data|]; [|done].
  pose proof (dynamic_ends to (Some 0) data opts ch) as He.
  pose proof (send_leaves_chain to (Some 0) data opts ch) as Hl.
  destruct (SendDynamicFeeTransaction _ _ _ _ _) as [[[r|] [err|]] ch1]; try done.
  simplify_eq. destruct Hl as [_ Hl]. destruct (Hl eq_refl Hd Hn) as (s & l' & Hs & El & Ev).
  exists data, s, l'. split_and!; [done | by eapply sent_as_asked | done | done |]. unfold ledger. by rewrite Ev.
Qed.

Lemma approval_confirmed amount (key : payerKey) opts ch res ch' :
  pk_Address key = AddressFromPrivateKey (pk_PrivateKey key) -> o_PrivateKey opts = Some (pk_PrivateKey key) ->
  submitApproval token escrow amount opts ch = (Ok res, ch') -> o_DryRun opts = false -> o_NoWait opts = false ->
  exists s, ch_sent ch' = ch_sent ch ++ [s] /\
    ledger ch' = mkLedger (l_wallet (ledger ch))
                   (upd2 (l_allowance (ledger ch)) (pk_Address key) escrow (GRT_BigInt amount)) (l_escrow (ledger ch)).
Proof.
  intros Ha Hk E Hd Hn. destruct (submit_confirmed _ _ _ _ _ _ E Hd Hn) as (data & s & l' & Ep & As & Hs & El & Hl).
  exists s. split; [done |]. rewrite Hl. destruct As as [Ato _ Adata (key' & Ek & Esnd) _ _].
  rewrite Hk in Ek. injection Ek as <-. rewrite Ha, <- Esnd.
  eapply fl_approve; [done | done | apply GRT_BigInt_range | by rewrite Adata].
Qed.

Lemma deposit_confirmed collector receiver amount (key : payerKey) opts ch out ch' :
  pk_Address key = AddressFromPrivateKey (pk_PrivateKey key) -> o_PrivateKey opts = Some (pk_PrivateKey key) ->
  let p := pk_Address key in let v := GRT_BigInt amount in
  submitDepositAndPrint escrow collector receiver amount p opts ch = (Ok out, ch') ->
  o_DryRun opts = false -> o_NoWait opts = false ->
  exists s g, ch_sent ch' = ch_sent ch ++ [s] /\ out = Some g /\
    GRT_BigInt g = l_escrow (ledger ch) p collector receiver + v /\
    ledger ch' = mkLedger (upd1 (l_wallet (ledger ch)) p (l_wallet (ledger ch) p - v))
      (upd2 (l_allowance (ledger ch)) p escrow (l_allowance (ledger ch) p escrow - v))
      (upd3 (l_escrow (ledger ch)) p collector receiver (l_escrow (ledger ch) p collector receiver + v)).
Proof.
  intros Ha Hk p v E Hd Hn. unfold submitDepositAndPrint in E. rewrite Hd, Hn in E. simpl in E.
  apply cbind_Ok in E as (res & ch1 & Es & E). apply cbind_Ok in E as (g & ch2 & Eq & E). simplify_eq.
  destruct (submit_confirmed _ _ _ _ _ _ Es Hd Hn) as (data & s & l' & Ep & As & Hs & El & Hl).
  destruct (escrow_read _ _ _ _ _ _ Eq) as [Hq Eg]. rewrite (quiet_ledger _ _ Hq).
  destruct As as [Ato _ Adata (key' & Ek & Esnd) _ _]. rewrite Hk in Ek. injection Ek as <-.
  assert (Hp : signed_sender s = p) by (by rewrite Esnd, <- Ha).
  rewrite <- Adata in Ep.
  destruct (fl_deposit s _ _ collector receiver v El Ato (GRT_BigInt_range _) Ep) as (_ & _ & El').
  rewrite Hp in El'. exists s, g. rewrite Hl in *. destruct Hq as [Hs2 _].
  split_and!; [congruence | done | | done]. rewrite Eg, El'. simpl. unfold upd3. by rewrite decide_True.
Qed.

(** ** Funding *)

Lemma key_of_options f key opts :
  parsePayerKey f = Ok key -> txOptionsFromFlags f key = Ok opts ->
  pk_Address key = AddressFromPrivateKey (pk_PrivateKey key) /\ o_PrivateKey opts = Some (pk_PrivateKey key).
Proof. intros Hk%parseKeyPair_sound Ho%txOptions_sound. naive_solver. Qed.

Lemma approve_args_sound f a :
  approve_args f = Ok a ->
  pk_Address (ap_key a) = AddressFromPrivateKey (pk_PrivateKey (ap_key a)) /\
  o_PrivateKey (ap_opts a) = Some (pk_PrivateKey (ap_key a)) /\ (ap_force a && ap_resetFirst a = false).
Proof.
  unfold approve_args. intros E. repeat (apply rbind_Ok in E as (? & ? & E)). apply Ok_inj in E as <-. simpl.
  destruct (key_of_options f x2 x4) as [? ?]; [done | done |]. split_and!; [done | done |].
  match goal with Hn : ensure (negb (_ && _)) _ = Ok _ |- _ => destruct x5; apply ensure_Ok, negb_true_iff in Hn; done end.
Qed.

Lemma topup_args_sound f a :
  topup_args f = Ok a ->
  pk_Address (tu_key a) = AddressFromPrivateKey (pk_PrivateKey (tu_key a)) /\
  o_PrivateKey (tu_opts a) = Some (pk_PrivateKey (tu_key a)).
Proof.
  unfold topup_args. intros E. repeat (apply rbind_Ok in E as (? & ? & E)). apply Ok_inj in E as <-. simpl.
  by eapply key_of_options.
Qed.

Lemma with_client_Ok {A S} f dialed (fn : S -> result go_error A * S) st a st' :
  withRPCClient f dialed fn st = (Ok a, st') -> fn st = (Ok a, st').
Proof.
  unfold withRPCClient, withRPCClientReceiptWaits. destruct (requiredStringFlag _ _); [|done]. by destruct dialed.
Qed.

(** C13: a top-up reaches its target and takes exactly what is missing.  When the
    command succeeds (and waits for its receipt), the escrow balance of the pair
    is the larger of its old balance and the target, the payer's wallet has paid
    the difference and nothing more, no other escrow balance has changed, and at
    most one transaction was sent: none when the balance was already there. *)
Theorem topup_reaches_target f dialed ch a out ch' :
  topup_args f = Ok a -> tu_grt a = token -> tu_escrow a = escrow ->
  o_DryRun (tu_opts a) = false -> o_NoWait (tu_opts a) = false ->
  runConsumerFundingTopUp f dialed ch = (Ok out, ch') ->
  let p := pk_Address (tu_key a) in
  let before := l_escrow (ledger ch) p (tu_collector a) (tu_receiver a) in
  let after := Z.max before (GRT_BigInt (tu_target a)) in
  l_escrow (ledger ch') p (tu_collector a) (tu_receiver a) = after /\
  l_wallet (ledger ch') p = l_wallet (ledger ch) p - (after - before) /\
  (forall p' c' r', (p', c', r') <> (p, tu_collector a, tu_receiver a) ->
     l_escrow (ledger ch') p' c' r' = l_escrow (ledger ch) p' c' r') /\
  (if GRT_BigInt (tu_target a) <=? before then quiet ch ch'
   else exists s, ch_sent ch' = ch_sent ch ++ [s]).
Proof.
  intros Hargs Ht He Hd Hn E p before after. destruct (topup_args_sound _ _ Hargs) as [Ha Hk].
  unfold runConsumerFundingTopUp, with_args in E. rewrite Hargs in E. apply with_client_Ok in E.
  unfold topup in E. apply cbind_Ok in E as (g & ch1 & Eq & E). fold p in E, Eq. rewrite He in Eq.
  destruct (escrow_read _ _ _ _ _ _ Eq) as [Hq1 Eg]. fold before in Eg.
  unfold topUpDepositAmount, GRT_Cmp in E. rewrite Cmp_spec in E. fold (GRT_BigInt g) (GRT_BigInt (tu_target a)) in E.
  rewrite Z.geb_leb in E. destruct (Z.leb_spec 0 (cmpZ (GRT_BigInt g) (GRT_BigInt (tu_target a)))) as [Hc|Hc].
  - simpl in E. injection E as _ <-. assert (Hle : GRT_BigInt (tu_target a) <= before).
    { rewrite <- Eg. apply Z.nlt_ge. intros Hlt%cmpZ_lt. lia. }
    unfold after. rewrite Z.max_l, (quiet_ledger _ _ Hq1) by done. rewrite (proj2 (Z.leb_le _ _) Hle).
    split_and!; [done | lia | done | done].
  - simpl in E. apply (proj1 (cmpZ_lt _ _)) in Hc. rewrite Eg in Hc. apply cbind_Ok in E as ([] & ch2 & Ea & E).
    assert (Hq2 : quiet ch ch2).
    { unfold ensureAllowance in Ea. apply cbind_Ok in Ea as (al & ch3 & Ea & E2).
      rewrite Ht, He in Ea. destruct (allowance_read _ _ _ _ _ Ea) as [Hq3 _].
      destruct (_ <? 0); [done |]. injection E2 as <-. by etrans. }
    rewrite He in E. destruct (deposit_confirmed _ _ _ (tu_key a) _ _ _ _ Ha Hk E Hd Hn) as (s & gf & Hs & -> & Egf & El).
    rewrite (quiet_ledger _ _ Hq2) in *. fold p before in Egf, El.
    assert (Ev : GRT_BigInt (GRT_Sub (tu_target a) g) = GRT_BigInt (tu_target a) - before).
    { rewrite (proj1 (GRT_Sub_saturates _ _)), Eg. unfold before in *. lia. }
    rewrite Ev in El. unfold after. rewrite Z.max_r by lia. rewrite El. simpl. unfold upd1, upd3.
    rewrite !decide_True by done. rewrite (proj2 (Z.leb_gt _ _)) by lia. split_and!; [lia | lia | |].
    + intros p' c' r' Hne. rewrite decide_False; [done |]. intros (-> & -> & ->). done.
    + exists s. destruct Hq2 as [<- _]. done.
Qed.

Lemma with_client_state {A S} f dialed (fn : S -> result go_error A * S) st :
  withRPCClientReceiptWaits f dialed fn st = fn st \/ exists e, withRPCClientReceiptWaits f dialed fn st = (Err e, st).
Proof. unfold withRPCClientReceiptWaits. destruct (requiredStringFlag _ _); [|by eauto]. destruct dialed; eauto. Qed.

Lemma IsZero_BigInt g : GRT_IsZero g = (GRT_BigInt g =? 0).
Proof. apply IsZero_spec. Qed.

(** The last approval of a confirmed run, on the chain it was submitted on. *)
Lemma approval_step a chm out ch' :
  pk_Address (ap_key a) = AddressFromPrivateKey (pk_PrivateKey (ap_key a)) ->
  o_PrivateKey (ap_opts a) = Some (pk_PrivateKey (ap_key a)) ->
  o_DryRun (ap_opts a) = false -> o_NoWait (ap_opts a) = false ->
  cbind (submitApproval token escrow (ap_amount a) (ap_opts a) chm) (fun _ ch =>
    cbind (queryERC20Allowance token (pk_Address (ap_key a)) escrow ch)
      (fun finalAllowance ch => (Ok (Some finalAllowance), ch))) = (Ok out, ch') ->
  out = Some (ap_amount a) /\ (exists s, ch_sent ch' = ch_sent chm ++ [s]) /\
  ledger ch' = mkLedger (l_wallet (ledger chm))
    (upd2 (l_allowance (ledger chm)) (pk_Address (ap_key a)) escrow (GRT_BigInt (ap_amount a))) (l_escrow (ledger chm)).
Proof.
  intros Ha Hk Hd Hn E. apply cbind_Ok in E as (res & ch1 & Es & E). apply cbind_Ok in E as (g & ch2 & Eq & E).
  injection E as <- <-. destruct (approval_confirmed _ _ _ _ _ _ Ha Hk Es Hd Hn) as (s & Hs & El).
  destruct (allowance_read _ _ _ _ _ Eq) as [Hq Eg]. rewrite (quiet_ledger _ _ Hq), El.
  split_and!; [|by exists s; destruct Hq as [-> _] | done]. f_equal. apply GRT_BigInt_inj.
  rewrite Eg, El. simpl. unfold upd2. by rewrite decide_True.
Qed.

(** An approval sets exactly the allowance asked for and replaces safely.
    Without [--force] and [--reset-first] a non-zero allowance is not replaced by
    another: the command fails with nothing sent.  When the command succeeds (and
    waits for its receipts) the escrow's allowance is the amount, no other entry
    of the ledger changed, and a non-zero approval was submitted without
    [--force] only while the allowance was zero, if need be after a confirmed
    reset. *)
Theorem approval_replaces_safely f dialed ch a r ch' :
  approve_args f = Ok a -> ap_grt a = token -> ap_escrow a = escrow ->
  o_DryRun (ap_opts a) = false -> o_NoWait (ap_opts a) = false ->
  runConsumerFundingApprove f dialed ch = (r, ch') ->
  let p := pk_Address (ap_key a) in
  let amount := GRT_BigInt (ap_amount a) in
  (l_allowance (ledger ch) p escrow <> 0 -> amount <> 0 -> ap_force a = false -> ap_resetFirst a = false ->
   is_ok r = false /\ quiet ch ch') /\
  (forall out, r = Ok out ->
     out = Some (ap_amount a) /\
     l_wallet (ledger ch') = l_wallet (ledger ch) /\ l_escrow (ledger ch') = l_escrow (ledger ch) /\
     (forall o s, l_allowance (ledger ch') o s = upd2 (l_allowance (ledger ch)) p escrow amount o s) /\
     exists chm s, ch_sent ch' = ch_sent chm ++ [s] /\
       (ap_force a = true \/ amount = 0 \/ l_allowance (ledger chm) p escrow = 0) /\
       (quiet ch chm \/ exists s0, ap_resetFirst a = true /\ ch_sent chm = ch_sent ch ++ [s0])).
Proof.
  intros Hargs Ht He Hd Hn E p amount. destruct (approve_args_sound _ _ Hargs) as (Ha & Hk & Hfr).
  unfold runConsumerFundingApprove, with_args in E. rewrite Hargs in E.
  destruct (with_client_state f dialed (approve a) ch) as [Ew|[e Ew]]; rewrite Ew in E; clear Ew;
    [|injection E as <- <-; by split].
  unfold approve in E. rewrite Ht, He, Hd, Hn in E. fold p in E. cbn [orb] in E.
  pose proof (query_quiet token (PackAllowance p escrow) (fun l => as_grt (UnpackAllowance l)) ch) as Hq.
  fold (queryERC20Allowance token p escrow ch) in Hq.
  destruct (queryERC20Allowance token p escrow ch) as [[g|e] ch1] eqn:Eq; [|injection E as <- <-; by split].
  destruct (allowance_read _ _ _ _ _ Eq) as [_ Eg]. cbn [cbind] in E. simpl in Hq.
  unfold rejectAllowanceReplacement in E. rewrite !IsZero_BigInt, Eg in E.
  set (before := l_allowance (ledger ch) p escrow) in *. fold amount in E.
  destruct (Z.eqb_spec before 0) as [Hb|Hb], (Z.eqb_spec amount 0) as [Hm|Hm]; destruct (ap_force a) eqn:Ef,
    (ap_resetFirst a) eqn:Er; cbn [negb andb] in E, Hfr; try done;
    (split; [intros ? ? ? ?; first [done | congruence | injection E as <- <-; by split] |]); intros out ->; try done.
  all: try (
    destruct (approval_step a ch1 out ch' Ha Hk Hd Hn E) as (-> & [s Hs] & El); rewrite El; simpl;
    rewrite (quiet_ledger _ _ Hq); split_and!; [done .. |]; exists ch1, s; rewrite (quiet_ledger _ _ Hq);
    split_and!; [done | unfold before in *; tauto | by left]).
  all: apply cbind_Ok in E as ([] & chm & Ez & E); apply cbind_Ok in Ez as (res & ch2 & Ez & Ez'); injection Ez' as <-;
    destruct (approval_confirmed _ _ _ _ _ _ Ha Hk Ez Hd Hn) as (s0 & Hs0 & El0);
    destruct (approval_step a ch2 out ch' Ha Hk Hd Hn E) as (-> & [s Hs] & El); rewrite El, El0; simpl;
    rewrite (quiet_ledger _ _ Hq); split_and!; [done .. | intros o s'; unfold upd2; by repeat case_decide |];
    exists ch2, s; split_and!; [done | right; right; rewrite El0; simpl; unfold upd2; rewrite decide_True by done;
      change (GRT_BigInt ZeroGRT) with (uint256_ToBig uint256_zero); apply ToBig_zero
    | right; exists s0; destruct Hq as [<- _]; done].
Qed.
End LedgerProofs.

(** ** Signer authorization *)
Section SignerProofs.
Context `{Uint256} `{ContractABI} `{GethLaws} `{!CommandDeps} `{!CommandDepsLaws} `{!EthClient W} `{!EthClientLaws}.
Implicit Types (ch : Chain W).

Lemma submit_sends to packed opts ch r ch' :
  submit to packed opts ch = (r, ch') ->
  ch_sent ch' = ch_sent ch \/
  exists data s, packed = Ok data /\ ch_sent ch' = ch_sent ch ++ [s] /\ as_asked to (Some 0) data opts s.
Proof.
  unfold submit, with_args. destruct packed as [data|]; [|intros [= _ <-]; by left].
  pose proof (dynamic_ends to (Some 0) data opts ch) as He. intros E.
  assert (ch' = (SendDynamicFeeTransaction to (Some 0) data opts ch).2) as ->.
  { by destruct (SendDynamicFeeTransaction _ _ _ _ _) as [[[?|] [?|]] ?]; injection E as _ <-. }
  destruct He; simpl in *; eauto 8.
Qed.

Lemma query_sent {A} to packed (unpack : list byte -> result go_error A) ch :
  ch_sent (query to packed unpack ch).2 = ch_sent ch.
Proof.
  unfold query, with_args, CallContract, call. destruct packed as [data|]; [|done].
  by destruct (rpc_CallContract to data _) as [[answer|e] w].
Qed.

Lemma commonToEthAddress_id a : length a = 20%nat -> commonToEthAddress a = a.
Proof. intros Ha. unfold commonToEthAddress. rewrite Ha, take_ge by lia. apply app_nil_r. Qed.

(** In local mode the proof is the one of the signer's key, for these values. *)
Lemma signer_proof_local f now collector key chainID signer deadline proof :
  optionalStringFlag f "deadline" <> ""%string ->
  signer_proof f now collector key chainID = Ok (signer, deadline, proof) ->
  exists signerKey : payerKey, pk_Address signerKey = key_address (pk_EthKey signerKey) /\ signer = pk_Address signerKey /\
    GenerateSignerProof chainID (commonToEthAddress collector) deadline (pk_EthAddress key) (pk_EthKey signerKey) = Ok proof.
Proof.
  intros Hd. unfold signer_proof. rewrite (proj2 (String.eqb_neq _ _) Hd). cbn [negb]. rewrite !orb_true_r.
  intros (u & Hx & E)%rbind_Ok.
  match type of E with (if ?b then _ else _) = _ => destruct b; [discriminate Hx |] end.
  cbn [ensure rbind] in E. apply rbind_Ok in E as (sk & Ek & E). apply rbind_Ok in E as (d & _ & E).
  apply rbind_Ok in E as (pr & Ep & E). apply Ok_inj in E. injection E as <- <- <-.
  apply parseKeyPair_sound in Ek as (_ & E1 & E2). exists sk. split_and!; [congruence | done | done].
Qed.

End SignerProofs.

(** ** A reference node with one token and one escrow contract *)
Module FundingReference.
Import Reference ContractsReference.

Definition token : address := fixed_bytes 20 101.
Definition escrow : address := fixed_bytes 20 102.

Definition SignedRef : Type := Transaction * Z.
Inductive RefState : Type := RIdle | RPending (s : SignedRef) | RMined (s : SignedRef) (succeeded : bool).
Record RefWorld : Type := mkRefWorld { rw_ledger : Ledger; rw_state : RefState; rw_clock : Z }.

Definition ref_execute (s : SignedRef) (l : Ledger) : option Ledger :=
  let p := fixed_bytes 20 s.2 in
  match deserialize (A := string * list AbiValue) (tx_data s.1) with
  | Some (m, [AbiAddress spender; AbiBig v]) =>
      if decide (tx_to s.1 = token /\ m = "approve"%string)
      then Some (mkLedger (l_wallet l) (upd2 (l_allowance l) p spender v) (l_escrow l)) else Some l
  | Some (m, [AbiAddress c; AbiAddress r; AbiBig v]) =>
      if decide (tx_to s.1 = escrow /\ m = "deposit"%string) then
        if decide (v <= l_wallet l p /\ v <= l_allowance l p escrow) then
          Some (mkLedger (upd1 (l_wallet l) p (l_wallet l p - v))
                  (upd2 (l_allowance l) p escrow (l_allowance l p escrow - v))
                  (upd3 (l_escrow l) p c r (l_escrow l p c r + v)))
        else None
      else Some l
  | _ => Some l
  end.

Definition answer (z : Z) : result go_error (list byte) :=
  if decide (0 <= z < two256) then Ok (word z) else Err (Errorf "execution reverted").

Definition ref_call (to : address) (data : list byte) (w : RefWorld) : result go_error (list byte) :=
  match deserialize (A := string * list AbiValue) data with
  | Some (m, [AbiAddress a]) => answer (l_wallet (rw_ledger w) a)
  | Some (m, [AbiAddress o; AbiAddress s]) => answer (l_allowance (rw_ledger w) o s)
  | Some (m, [AbiAddress p; AbiAddress c; AbiAddress r]) => answer (l_escrow (rw_ledger w) p c r)
  | _ => Err (Errorf "execution reverted")
  end.

Definition ref_receipt (h : hash) (d : Z) (w : RefWorld) : result go_error TxReceipt :=
  match rw_state w with
  | RMined _ ok => Ok (mkTxReceipt (if ok then 1 else 0) 1)
  | _ => if d <=? rw_clock w then Err (ErrorsNew "context deadline exceeded") else Err NotFound
  end.

(** A tick mines the pending transaction. *)
Definition ref_tick (t : Z) (w : RefWorld) : RefWorld :=
  match rw_state w with
  | RPending s => match ref_execute s (rw_ledger w) with
                  | Some l => mkRefWorld l (RMined s true) t
                  | None => mkRefWorld (rw_ledger w) (RMined s false) t
                  end
  | st => mkRefWorld (rw_ledger w) st t
  end.

#[export] Instance client_ref : EthClient RefWorld := {|
  SignedTx := SignedRef;
  types_SignTx t _ k := Ok (t, k);
  signed_body := fst;
  signed_Hash s := fixed_bytes 32 7;
  signed_sender s := fixed_bytes 20 s.2;
  rpc_CallContract a data w := (ref_call a data w, w);
  rpc_EstimateGas _ _ _ _ w := (Ok 21000, w);
  rpc_SuggestGasTipCap w := (Ok 2, w);
  rpc_BaseFee w := (Ok (Some 10), w);
  rpc_SuggestGasPrice w := (Ok 12, w);
  rpc_PendingNonceAt _ w := (Ok 0, w);
  rpc_SendTransaction s w := (Ok tt, mkRefWorld (rw_ledger w) (RPending s) (rw_clock w));
  rpc_TransactionReceipt h d w := (ref_receipt h d w, w);
  wait_select start interval d n w := (Tick, ref_tick (start + (Z.of_nat n + 1) * interval) w);
  clock := rw_clock
|}.

#[export] Instance client_ref_laws : EthClientLaws.
Proof.
  split; simpl.
  - by intros t id k s [= <-].
  - by intros t id k s [= <-].
  - intros start interval d n w w' [= <-]. unfold ref_tick. destruct (rw_state w); [done | | done].
    destruct (ref_execute _ _); done.
  - intros h d w e w' [= E <-] Hd. unfold ref_receipt in E. rewrite (proj2 (Z.leb_le _ _) Hd) in E.
    destruct (rw_state w); by simplify_eq.
Qed.

#[export] Instance chain_ref : FundingChain := {|
  view w := (rw_ledger w, match rw_state w with RIdle => Idle | RPending s => Pending s | RMined s ok => Mined s ok end);
  execute := ref_execute : @SignedTx _ _ _ client_ref -> Ledger -> option Ledger
|}.

Lemma answer_reported z l : answer z = Ok l -> reported l z.
Proof. unfold answer. case_decide; [|done]. by intros [= <-]. Qed.

#[export] Instance funding_ref_laws : FundingLaws token escrow.
Proof.
  split; cbn -[serialize deserialize fixed_bytes word]; try done.
  - intros o s data w l w' E1%Ok_inj [= E2 _]. subst. unfold ref_call in E2. rewrite deserialize_serialize in E2.
    by apply answer_reported.
  - intros p c r data w l w' E1%Ok_inj [= E2 _]. subst. unfold ref_call in E2. rewrite deserialize_serialize in E2.
    by apply answer_reported.
  - by intros s w w' [= <-].
  - intros. constructor.
  - intros start interval d n w. unfold ref_tick. destruct w as [l st t]. simpl. destruct st as [|s|s ok]; simpl.
    + constructor.
    + destruct (ref_execute s l) eqn:E; simpl; by constructor.
    + constructor.
  - intros h d w receipt w' s [= E <-] Es _. unfold ref_receipt in E. destruct (rw_state w) as [|s'|s' ok].
    1, 2: by destruct (d <=? rw_clock w).
    apply Ok_inj in E as <-. simpl in Es. injection Es as ->. exists ok. split; [done |]. by destruct ok.
  - intros [t k] l l' spender v E Ht Hv Ed%Ok_inj. unfold ref_execute in E. cbn [fst snd] in *. rewrite <- Ed in E.
    rewrite deserialize_serialize in E. rewrite decide_True in E by done. by simplify_eq.
  - intros [t k] l l' c r v E Ht Hv Ed%Ok_inj. unfold ref_execute in E. cbn [fst snd] in *. rewrite <- Ed in E.
    rewrite deserialize_serialize in E. rewrite decide_True in E by done. case_decide as Hc; [|done]. simplify_eq.
    by destruct Hc.
Qed.

Lemma fixed_bytes_SetBytes n l : length l = n -> fixed_bytes n (SetBytes l) = l.
Proof.
  intros Hl. apply SetBytes_inj; [by rewrite fixed_bytes_length |]. rewrite SetBytes_fixed. apply Z.mod_small.
  rewrite <- Hl. apply SetBytes_bound.
Qed.

Definition ref_address (s : string) : address := match new_address s with Ok a => a | Err _ => zeros 20 end.
Definition ref_key (s : string) : result go_error Z :=
  let? l := DecodeString (trim_0x (TrimSpace s)) in
  if (length l =? 32)%nat then Ok (SetBytes l) else Err (Errorf "invalid length").

#[export] Instance command_ref : CommandDeps := {|
  common_IsHexAddress s := is_ok (new_address s);
  common_HexToAddress := ref_address;
  eth_NewPrivateKey := ref_key;
  time_ParseDuration s := if String.eqb s "1h" then Ok (3600 * 10 ^ 9) else Err (Errorf "invalid duration");
  time_Parse_RFC3339 s := Err (Errorf "cannot parse")
|}.

#[export] Instance command_ref_laws : CommandDepsLaws.
Proof.
  split; cbn -[fixed_bytes].
  - intros s. unfold ref_address. destruct (new_address s) as [a|] eqn:E; [|done].
    exact (NewAddress_length (H := eth_ref) s a E).
  - intros s k l. unfold ref_key. intros (l' & El & E)%rbind_Ok El'. rewrite El in El'. apply Ok_inj in El' as ->.
    destruct (Nat.eqb_spec (length l) 32); [|done]. apply Ok_inj in E as <-. by apply fixed_bytes_SetBytes.
Qed.
End FundingReference.

Module FundingWitness.
Import Reference ContractsReference FundingReference.

Definition hex_key (k : Z) : string := ("0x" +:+ EncodeToString (fixed_bytes 32 k))%string.
Definition grt (n : Z) : Z := n * 10 ^ 18.
Definition payer : address := fixed_bytes 20 5.
Definition collector : address := fixed_bytes 20 103.
Definition receiver : address := fixed_bytes 20 104.

Definition strings : gmap string string := list_to_map [
  ("rpc-endpoint", "http://node"); ("grt-token-address", pretty token); ("escrow-address", pretty escrow);
  ("collector-address", pretty collector); ("receiver-address", pretty receiver); ("tx-type", "dynamic");
  ("payer-private-key", hex_key 5); ("target-balance", "500 GRT"); ("amount", "700 GRT");
  ("signer-private-key", hex_key 6); ("deadline", "1h")]%string.
Definition flags (resetFirst : bool) : Flags :=
  mkFlags (fun n => default ""%string (strings !! n)) (fun n => String.eqb n "reset-first" && resetFirst)
    (fun n => if String.eqb n "chain-id" then 42161 else 0) (fun _ => 0) (fun _ => true) (fun _ => None).

Definition start : Chain RefWorld :=
  mkChain (mkRefWorld (mkLedger (fun _ => grt 1000) (fun _ _ => grt 600) (fun _ _ _ => grt 100)) RIdle 0) [].

Definition from_ok {A} (d : A) (r : result go_error A) : A := match r with Ok a => a | Err _ => d end.
Lemma from_ok_eq {A} (d : A) r : is_ok r = true -> r = Ok (from_ok d r).
Proof. by destruct r. Qed.
Lemma run_ok {A S} (d : A) (x : result go_error A * S) : is_ok x.1 = true -> x = (Ok (from_ok d x.1), x.2).
Proof. by destruct x as [[]]. Qed.

Definition no_key : payerKey := mkPayerKey (0 : ECDSAKey) [] (0 : PrivateKey) [].
Definition no_options : TxOptions := mkTxOptions None [] None "" 0 None None None 0 0 false false.
Definition topup_a : TopUpArgs := from_ok (mkTopUpArgs [] [] [] [] ZeroGRT no_key no_options) (topup_args (flags false)).
Definition approve_a : ApproveArgs :=
  from_ok (mkApproveArgs [] [] ZeroGRT no_key no_options false false) (approve_args (flags true)).
Definition authorize_a : AuthorizeArgs :=
  from_ok (mkAuthorizeArgs [] no_key no_options [] 0 []) (authorize_args (flags false) 0).
Definition topup_run := runConsumerFundingTopUp (W := RefWorld) (flags false) (Ok tt) start.
Definition approve_run := runConsumerFundingApprove (W := RefWorld) (flags true) (Ok tt) start.
Definition authorize_run := runConsumerSignerAuthorize (W := RefWorld) (flags false) 0 (Ok tt) start.
End FundingWitness.
Import Reference ContractsReference FundingReference FundingWitness.

(** From 100 GRT in escrow to the target of 500 GRT. *)
Lemma topup_reaches_target_witness :
  l_escrow (ledger topup_run.2) payer collector receiver = grt 500 /\
  l_wallet (ledger topup_run.2) payer = grt 600.
Proof.
  destruct (topup_reaches_target token escrow (flags false) (Ok tt) start topup_a (from_ok None topup_run.1) topup_run.2)
    as (E1 & E2 & _).
  - apply from_ok_eq. vm_compute. reflexivity.
  - vm_compute. reflexivity.
  - vm_compute. reflexivity.
  - vm_compute. reflexivity.
  - vm_compute. reflexivity.
  - apply run_ok. vm_compute. reflexivity.
  - split; [etransitivity; [exact E1 |] | etransitivity; [exact E2 |]]; vm_compute; reflexivity.
Defined.

(** From an allowance of 600 GRT over a reset to 700 GRT. *)
Lemma approval_replaces_safely_witness :
  l_allowance (ledger approve_run.2) payer escrow = grt 700.
Proof.
  destruct (approval_replaces_safely token escrow (flags true) (Ok tt) start approve_a approve_run.1 approve_run.2)
    as [_ E].
  - apply from_ok_eq. vm_compute. reflexivity.
  - vm_compute. reflexivity.
  - vm_compute. reflexivity.
  - vm_compute. reflexivity.
  - vm_compute. reflexivity.
  - apply surjective_pairing.
  - destruct (E (from_ok None approve_run.1)) as (_ & _ & _ & Ea & _).
    + apply from_ok_eq. vm_compute. reflexivity.
    + etransitivity; [apply Ea |]. vm_compute. reflexivity.
Defined.


(** The reference node confirms a transaction. *)
Lemma SendDynamicFeeTransaction_sound_witness :
  exists res err ch, SendDynamicFeeTransaction token (Some 0) [] (tu_opts topup_a) start = ((res, err), ch) /\
    err = None /\ send_ends token (Some 0) [] (tu_opts topup_a) start ((res, err), ch).
Proof.
  pose proof (SendDynamicFeeTransaction_sound token (Some 0) [] (tu_opts topup_a) start) as H.
  destruct (SendDynamicFeeTransaction token (Some 0) [] (tu_opts topup_a) start) as [[res err] ch] eqn:E.
  exists res, err, ch. split; [reflexivity |]. split; [|exact H].
  apply (f_equal (fun x : SendOutcome RefWorld => x.1.2)) in E. etransitivity; [symmetry; exact E |].
  vm_compute. reflexivity.
Defined.

Lemma WaitReceipt_terminates_witness :
  exists r w, WaitReceipt (fixed_bytes 32 7) (30 * 10 ^ 9) (10 ^ 9) topup_run.2 = (r, mkChain w (ch_sent topup_run.2)).
Proof.
  destruct (WaitReceipt_terminates (fixed_bytes 32 7) (30 * 10 ^ 9) (10 ^ 9) topup_run.2) as (r & w & _ & E & _).
  exists r, w. exact E.
Defined.

Import SimpleURL.
Lemma operator_client_authenticates_witness :
  exists u : URL, url_Parse "https://provider.example:9004" = Ok u /\ url_Scheme u = "https"%string.
Proof.
  destruct (operator_client_authenticates
    (mkFlags (fun n => if String.eqb n "operator-token" then "admin-token" else "")%string (fun _ => false) (fun _ => 0)
       (fun _ => 0) (fun _ => false) (fun _ => None))
    OperatorWitness.config RoleAdminWrite "provider.example:9004"
    (mkParsedEndpoint "https://provider.example:9004" false false) "admin-token") as [_ E].
  - vm_compute. reflexivity.
  - apply (bool_decide_eq_true_1 (Forall (fun c => visible c = true) (to_chars "admin-token"))). vm_compute. reflexivity.
  - vm_compute. reflexivity.
  - exact E.
Defined.
