(* ===== verification/Collect.v ===== *)
(** Collection on the chain: the daemon's [collectOne] with its transaction sent
    through the chain client, and the manual command [collect]
    ([cmd/sds/provider_operator_collect.go]), which does the same for one record
    named by its flags, with a dry run and a mode that does not wait.

    The contract bindings and the chain client give the parameters that
    [CollectDaemon] leaves open: the calldata encoder and the outcome of a
    transaction. *)
From S2P Require Import Prelude.
From S2P Require Import GoStd.
From S2P Require Import External.
From S2P Require Import GRT.
From S2P Require Import Horizon.
From S2P Require Import Proto.
From S2P Require Import Repository.
From S2P Require Import Gateway.
From S2P Require Import InMemory.
From S2P Require Import InMemoryProps.
From S2P Require Import OperatorAuth.
From S2P Require Import Operator.
From S2P Require Import CollectDaemon.
From S2P Require Import Endpoint.
From S2P Require Import Contracts.
From S2P Require Import ChainClient.
From S2P Require Import Commands.
From S2P Require Import FundingProps.

(** The bindings as the collector's dependencies. *)
#[global] Instance contract_deps `{ContractABI} `{Geth} : ChainDeps := {|
  BytesToAddress := common_BytesToAddress;
  PackQueryFeeCollect signedRAV cut := DataService_PackQueryFeeCollect (Some signedRAV) cut
|}.
#[global] Instance contract_deps_laws `{ContractABI} `{GethLaws} : ChainDepsLaws.
Proof. split. apply BytesToAddress_id. Qed.

Record providerCollectOutput : Type := mkCollectOutput {
  out_SessionID : string;
  out_CollectionID : string;
  out_PayerAddress : string;
  out_ReceiverAddress : string;
  out_DataServiceAddress : string;
  out_ValueAggregate : string;
  out_ValueAggregateRaw : string;
  out_StateBefore : string;
  out_PendingState : string;
  out_FinalState : string;
  out_DataServiceCutPPM : Z;
  out_Calldata : string;
  out_DryRun : bool;
  out_NoWait : bool;
  out_TxHash : string;
  out_GasLimit : Z;
  out_GasPriceWei : string;
  out_MaxFeePerGasWei : string;
  out_PriorityFeeWei : string;
  out_ReceiptStatus : Z;
  out_BlockNumber : string;
  out_LastError : string;
  out_FollowUp : string
}.

Section Collect.
Context `{Uint256} `{ContractABI} `{Geth} `{!CommandDeps} `{!NetURL} `{!EthClient W} `{!GlobalRepository R}.
Implicit Types (c : autoCollector) (opts : TxOptions) (ch : Chain W) (r : R).

(** ** The daemon's attempt on the chain *)

(** An outcome as the bookkeeping sees it. *)
Definition outcome_of (out : SendOutcome W) : TxOutcome := mkTx out.1.2 (resultTxHash out.1.1).

(** The clock and the fate of the two calls of one attempt. *)
Record Calls : Type := mkCalls { ca_now : time; ca_pending : delivery; ca_mark : delivery }.

Definition collect_on_chain (config : OperatorConfig) c opts (a : Calls) (record : PCollectionRecord) (st : R * Chain W) :
    R * Chain W :=
  let '(r, ch) := st in
  match validateProviderCollectRecord record (ac_providerAddress c) (ac_dataServiceAddress c) with
  | Err _ => (r, ch)
  | Ok signedRAV =>
    match DataService_PackQueryFeeCollect (Some signedRAV) (ac_cutPPM c) with
    | Err _ => (r, ch)
    | Ok calldata =>
      match markCollectionPending config c (ca_now a) (ca_pending a) record r with
      | (Err _, r) => (r, ch)
      | (Ok _, r) =>
        match SendDynamicFeeTransaction (ac_dataServiceAddress c) (Some 0) calldata opts ch with
        | ((result, Some txErr), ch) =>
            ((markCollectionRetryable config c (ca_now a) (ca_mark a) record (resultTxHash result) txErr r).2, ch)
        | ((result, None), ch) =>
            ((markCollectionCollected config c (ca_now a) (ca_mark a) record (resultTxHash result) r).2, ch)
        end
      end
    end
  end.

(** ** The manual command *)

Record ManualArgs : Type := mkManualArgs {
  ma_key : PCollectionKey;
  ma_dataService : address;
  ma_cut : Z;
  ma_dryRun : bool;
  ma_noWait : bool;
  ma_header : header
}.

Definition collect_args (f : Flags) : result go_error ManualArgs :=
  let? _ := providerOperatorFormat f in
  let? key := providerOperatorCollectionKeyFromFlags f in
  let? dataService := parseAddressFlag f "data-service-address" in
  let? cut := parseDataServiceCutPPM f in
  let dryRun := MustGetBool f "dry-run" in
  let noWait := MustGetBool f "no-wait" in
  let? _ := ensure (negb (dryRun && noWait)) "--dry-run and --no-wait cannot be used together" in
  let? endpoint := requiredStringFlag f "provider-endpoint" in
  let? token := providerOperatorTokenFromFlags f in
  let? _ := no_error (parseProviderOperatorEndpoint endpoint (MustGetBool f "plaintext")) "invalid --provider-endpoint %q" in
  Ok (mkManualArgs key dataService cut dryRun noWait (providerOperatorRequest token)).

(** By its key when a session is named, otherwise the only match of a listing. *)
Definition fetchProviderOperatorCollection (config : OperatorConfig) (h : header) (up : bool) (key : PCollectionKey) r :
    result go_error PCollectionRecord :=
  if negb up then Err (Errorf "operator endpoint unavailable") else
  if negb (String.eqb (pk_SessionId key) "") then
    match GetCollection config h (Some key) r with
    | Err e => Err e.2
    | Ok record => Ok record
    end
  else
    match ListCollections config h (mkListRequest 2 "" (pk_Payer key) (pk_ServiceProvider key) (pk_DataService key)
                                      (pk_CollectionId key) COLLECTION_STATE_UNSPECIFIED) r with
    | Err e => Err e.2
    | Ok [record] => Ok record
    | Ok [] => Err (Errorf "collection not found")
    | Ok _ => Err (Errorf "collection lookup matched %d records; rerun with --session-id")
    end.

Definition newProviderCollectOutput (record : PCollectionRecord) (dataServiceCutPPM : Z) (calldata : list byte) :
    providerCollectOutput :=
  let key := default (mkPCollectionKey "" [] None None None) (pc_Key record) in
  let state := formatCollectionState (pc_State record) in
  let value := match pc_ValueAggregate record with
               | None => (""%string, ""%string)
               | Some _ => let grt := GRT_ToNative (pc_ValueAggregate record) in
                           (GRT_String grt, of_chars (big_String (GRT_BigInt grt)))
               end in
  mkCollectOutput (pk_SessionId key) (formatCollectionID (pk_CollectionId key)) (formatProtoAddress (pk_Payer key))
    (formatProtoAddress (pk_ServiceProvider key)) (formatProtoAddress (pk_DataService key)) value.1 value.2
    state "" state dataServiceCutPPM
    (match calldata with [] => ""%string | _ => ("0x" +:+ EncodeToString calldata)%string end)
    false false "" 0 "" "" "" 0 "" "" "".

(** What the transaction adds to the output, and the states reported with it. *)
Definition setTxResult (result : option TxResult) (o : providerCollectOutput) (pending final : string) (noWait : bool)
    (followUp : string) : providerCollectOutput :=
  let dec (v : option Z) := match v with Some v => of_chars (big_String v) | None => ""%string end in
  mkCollectOutput (out_SessionID o) (out_CollectionID o) (out_PayerAddress o) (out_ReceiverAddress o)
    (out_DataServiceAddress o) (out_ValueAggregate o) (out_ValueAggregateRaw o) (out_StateBefore o) pending final
    (out_DataServiceCutPPM o) (out_Calldata o)
    (match result with Some t => res_DryRun t | None => out_DryRun o end) noWait
    (match result with Some t => resultTxHash result | None => out_TxHash o end)
    (match result with Some t => res_GasLimit t | None => out_GasLimit o end)
    (match result with Some t => dec (res_GasPrice t) | None => out_GasPriceWei o end)
    (match result with Some t => dec (res_MaxFeePerGas t) | None => out_MaxFeePerGasWei o end)
    (match result with Some t => dec (res_MaxPriorityFeePerGas t) | None => out_PriorityFeeWei o end)
    (match result ≫= res_Receipt with Some rc => rc_Status rc | None => out_ReceiptStatus o end)
    (match result ≫= res_Receipt with Some rc => of_chars (big_String (rc_BlockNumber rc)) | None => out_BlockNumber o end)
    (out_LastError o) followUp.

(** The collector the command acts as. *)
Definition manual_collector (m : ManualArgs) (key : payerKey) : autoCollector :=
  mkCollector (ma_header m) (pk_Address key) (ma_dataService m) (ma_cut m) 0 0 0 0.

Definition Manual : Type := result go_error providerCollectOutput * (R * Chain W).

(** The state the claim reports, none in a dry run. *)
Definition claim (config : OperatorConfig) (m : ManualArgs) c (a : Calls) (record : PCollectionRecord) r :
    result go_error string * R :=
  if ma_dryRun m then (Ok ""%string, r) else
  match markCollectionPending config c (ca_now a) (ca_pending a) record r with
  | (Err e, r) => (Err e.2, r)
  | (Ok pending, r) => (Ok (formatCollectionState (pc_State pending)), r)
  end.

(** With the client connected: claim, send, record the outcome. *)
Definition collect_and_mark (config : OperatorConfig) (m : ManualArgs) c opts (a : Calls) (record : PCollectionRecord)
    (calldata : list byte) (st : R * Chain W) : Manual :=
  let '(r, ch) := st in
  match claim config m c a record r with
  | (Err e, r) => (Err e, (r, ch))
  | (Ok pendingState, r) =>
    let out := newProviderCollectOutput record (ma_cut m) calldata in
    match SendDynamicFeeTransaction (ma_dataService m) (Some 0) calldata opts ch with
    | ((result, Some err), ch) =>
        if ma_dryRun m then (Err err, (r, ch)) else
        match markCollectionRetryable config c (ca_now a) (ca_mark a) record (resultTxHash result) err r with
        | (Err _, r) => (Err (Wrapf "%w; additionally failed to mark collection retryable: %v" err), (r, ch))
        | (Ok _, r) => (Err err, (r, ch))
        end
    | ((result, None), ch) =>
        let report := setTxResult result out pendingState in
        if ma_dryRun m then (Ok (report (formatCollectionState (pc_State record)) false ""%string), (r, ch))
        else if ma_noWait m then
          (Ok (report (formatCollectionState COLLECTION_STATE_COLLECT_PENDING) true
                 "transaction submitted; wait for the receipt and mark the collection collected or retryable"%string),
           (r, ch))
        else
          match markCollectionCollected config c (ca_now a) (ca_mark a) record (resultTxHash result) r with
          | (Err e, r) => (Err e.2, (r, ch))
          | (Ok collected, r) => (Ok (report (formatCollectionState (pc_State collected)) false ""%string), (r, ch))
          end
    end
  end.

(** The record in hand: keys, options, validation and calldata, then the chain. *)
Definition collect_record (f : Flags) (config : OperatorConfig) (m : ManualArgs) (dialed : result go_error unit) (a : Calls)
    (record : PCollectionRecord) (st : R * Chain W) : Manual :=
  if bool_decide (pc_State record = COLLECTION_STATE_COLLECTED) then
    (Ok (setTxResult None (newProviderCollectOutput record (ma_cut m) []) ""
           (formatCollectionState COLLECTION_STATE_COLLECTED) false
           "collection is already collected; no transaction submitted"), st)
  else
    match parseKeyPair f "provider" with
    | Err e => (Err e, st)
    | Ok key =>
      match txOptionsFromFlags f key with
      | Err e => (Err e, st)
      | Ok opts =>
        match validateProviderCollectRecord record (pk_Address key) (ma_dataService m) with
        | Err e => (Err (Wrapf "invalid provider collection record" e), st)
        | Ok signedRAV =>
          match DataService_PackQueryFeeCollect (Some signedRAV) (ma_cut m) with
          | Err e => (Err (Wrapf "encoding SubstreamsDataService.collect calldata: %w" e), st)
          | Ok calldata =>
              withRPCClientReceiptWaits f dialed
                (collect_and_mark config m (manual_collector m key) opts a record calldata) st
          end
        end
      end
    end.

Definition runProviderOperatorCollect (f : Flags) (config : OperatorConfig) (up : bool) (dialed : result go_error unit)
    (a : Calls) (st : R * Chain W) : Manual :=
  match collect_args f with
  | Err e => (Err e, st)
  | Ok m =>
    match fetchProviderOperatorCollection config (ma_header m) up (ma_key m) st.1 with
    | Err e => (Err e, st)
    | Ok record => collect_record f config m dialed a record st
    end
  end.
End Collect.
Arguments Calls : clear implicits.

(** ** The attempt on the chain is the attempt of the model *)
Section OnChain.
Context `{Uint256} `{ContractABI} `{Geth} `{!CommandDeps} `{!NetURL} `{!EthClient W} `{!GlobalRepository R}.
Implicit Types (c : autoCollector) (opts : TxOptions) (ch : Chain W) (r : R).

Definition calldata_of c (record : PCollectionRecord) : result go_error (list byte) :=
  let? signedRAV := validateProviderCollectRecord record (ac_providerAddress c) (ac_dataServiceAddress c) in
  PackQueryFeeCollect signedRAV (ac_cutPPM c).

(** The transaction of a record, and its outcome. *)
Definition sending c opts (record : PCollectionRecord) ch : SendOutcome W :=
  match calldata_of c record with
  | Ok calldata => SendDynamicFeeTransaction (ac_dataServiceAddress c) (Some 0) calldata opts ch
  | Err e => ((None, Some e), ch)
  end.
Definition attempt_of c opts (a : Calls) (record : PCollectionRecord) ch : Attempt :=
  mkAttempt (ca_now a) (ca_pending a) (outcome_of (sending c opts record ch)) (ca_mark a).

Lemma on_chain_is_collectOne config c opts a record r ch :
  collect_on_chain config c opts a record (r, ch) =
  match collectOne config c (attempt_of c opts a record ch) record r with
  | (None, r') => (r', ch)
  | (Some _, r') => (r', (sending c opts record ch).2)
  end.
Proof.
  unfold collect_on_chain, collectOne, attempt_of, sending, calldata_of. cbn [at_now at_pending at_mark at_tx].
  destruct (validateProviderCollectRecord _ _ _) as [sm|]; [|done]. cbn [rbind PackQueryFeeCollect contract_deps].
  destruct (DataService_PackQueryFeeCollect _ _) as [calldata|]; [|done].
  destruct (markCollectionPending _ _ _ _ _ _) as [[p|e] r1]; [|done].
  by destruct (SendDynamicFeeTransaction _ _ _ _ _) as [[result [err|]] ch1].
Qed.

Lemma sent_calldata config c att record r calldata r' :
  collectOne config c att record r = (Some calldata, r') -> calldata_of c record = Ok calldata.
Proof.
  unfold collectOne, calldata_of. destruct (validateProviderCollectRecord _ _ _) as [sm|]; [|done]. cbn [rbind].
  destruct (PackQueryFeeCollect _ _) as [cd|]; [|done].
  destruct (markCollectionPending _ _ _ _ _ _) as [[p|e] r1]; [|done].
  by destruct (tx_err (at_tx att)); intros [= -> _].
Qed.

(** A run that is not a dry run and waits leaves what the daemon leaves. *)
Lemma collect_and_mark_state config m c opts a record sm calldata r ch :
  ma_dryRun m = false -> ma_noWait m = false -> ma_dataService m = ac_dataServiceAddress c ->
  validateProviderCollectRecord record (ac_providerAddress c) (ac_dataServiceAddress c) = Ok sm ->
  DataService_PackQueryFeeCollect (Some sm) (ac_cutPPM c) = Ok calldata ->
  (collect_and_mark config m c opts a record calldata (r, ch)).2 = collect_on_chain config c opts a record (r, ch).
Proof.
  intros Hd Hn Hs Hv Hp. unfold collect_and_mark, claim, collect_on_chain. rewrite Hd, Hn, Hs, Hv, Hp.
  destruct (markCollectionPending _ _ _ _ _ _) as [[p|e] r1]; [|done].
  destruct (SendDynamicFeeTransaction _ _ _ _ _) as [[result [err|]] ch1].
  - by destruct (markCollectionRetryable _ _ _ _ _ _ _ _) as [[]].
  - by destruct (markCollectionCollected _ _ _ _ _ _ _) as [[]].
Qed.

Lemma collected_is_not_valid record pa da :
  pc_State record = COLLECTION_STATE_COLLECTED -> is_ok (validateProviderCollectRecord record pa da) = false.
Proof. intros Hs. unfold validateProviderCollectRecord. by rewrite Hs. Qed.

Lemma collect_args_modes f m :
  collect_args f = Ok m -> ma_dryRun m = MustGetBool f "dry-run" /\ ma_noWait m = MustGetBool f "no-wait".
Proof.
  unfold collect_args. intros E. repeat (apply rbind_Ok in E as (? & _ & E)). by apply Ok_inj in E as <-.
Qed.

(** C19: the manual command and the daemon settle alike.  With the operator
    endpoint and the node reachable, the command run on a record leaves the
    repository and the chain exactly as the daemon's attempt for that record with
    the same key, data service, cut and transaction options would; when the
    record is invalid or already collected both leave everything as it is. *)
Theorem manual_collect_matches_daemon f config a st m record key opts endpoint :
  collect_args f = Ok m -> fetchProviderOperatorCollection config (ma_header m) true (ma_key m) st.1 = Ok record ->
  parseKeyPair f "provider" = Ok key -> txOptionsFromFlags f key = Ok opts ->
  requiredStringFlag f "rpc-endpoint" = Ok endpoint -> ma_dryRun m = false -> ma_noWait m = false ->
  (runProviderOperatorCollect f config true (Ok tt) a st).2 =
  collect_on_chain config (manual_collector m key) opts a record st.
Proof.
  intros Hm Hf Hk Ho He Hd Hn. destruct st as [r ch]. unfold runProviderOperatorCollect. rewrite Hm, Hf.
  unfold collect_record. case_bool_decide as Hs.
  { pose proof (collected_is_not_valid record (pk_Address key) (ma_dataService m) Hs) as Hv.
    simpl. by destruct (validateProviderCollectRecord _ _ _). }
  rewrite Hk, Ho. destruct (validateProviderCollectRecord record (pk_Address key) (ma_dataService m)) as [sm|] eqn:Hv.
  2: by unfold collect_on_chain; simpl; rewrite Hv.
  destruct (DataService_PackQueryFeeCollect (Some sm) (ma_cut m)) as [calldata|] eqn:Hp.
  2: by unfold collect_on_chain; simpl; rewrite Hv, Hp.
  unfold withRPCClientReceiptWaits. rewrite He. by eapply collect_and_mark_state.
Qed.

(** A dry run changes no record and sends nothing. *)
Theorem manual_dry_run_is_harmless `{!GethLaws} `{!EthClientLaws} f config up dialed a st :
  MustGetBool f "dry-run" = true ->
  (runProviderOperatorCollect f config up dialed a st).2.1 = st.1 /\
  ch_sent (runProviderOperatorCollect f config up dialed a st).2.2 = ch_sent st.2.
Proof.
  intros Hdry. destruct st as [r ch]. unfold runProviderOperatorCollect.
  destruct (collect_args f) as [m|] eqn:Hm; [|done]. destruct (collect_args_modes f m Hm) as [Hd _]. rewrite Hdry in Hd.
  destruct (fetchProviderOperatorCollection _ _ _ _ _) as [record|]; [|done].
  unfold collect_record. case_bool_decide; [done |]. destruct (parseKeyPair _ _) as [key|]; [|done].
  destruct (txOptionsFromFlags f key) as [opts|] eqn:Ho; [|done].
  destruct (validateProviderCollectRecord _ _ _) as [sm|]; [|done].
  destruct (DataService_PackQueryFeeCollect _ _) as [calldata|]; [|done].
  unfold withRPCClientReceiptWaits. destruct (requiredStringFlag _ _); [|done]. destruct dialed; [|done].
  unfold collect_and_mark, claim. rewrite Hd.
  pose proof (dynamic_ends (ma_dataService m) (Some 0) calldata opts ch) as He.
  assert (Hdo : o_DryRun opts = true) by (apply txOptions_sound in Ho; naive_solver).
  destruct (SendDynamicFeeTransaction _ _ _ _ _) as [[result [err|]] ch1]; simpl; (split; [done |]);
    inversion He; subst; congruence.
Qed.
End OnChain.

(** ** What the repository records is what the chain did *)
Section Settlement.
Context `{Uint256Laws} `{ContractABI} `{GethLaws} `{!NetURL} `{!EthClient W} `{!EthClientLaws}.
Implicit Types (c : autoCollector) (opts : TxOptions) (ch : Chain W) (r : InMemoryRepository).

Lemma put_at_lookup k cr r k' cr' :
  im_records (put_at k cr r) !! k' = Some cr' -> im_records r !! k' = Some cr' \/ (k' = collectionMapKey k /\ cr' = cr).
Proof. unfold put_at. simpl. intros [[<- <-]|[_ ?]]%lookup_insert_Some; auto. Qed.

Lemma settled_collected a cr :
  claimable cr -> cr_State (settled a cr) = CollectionStateCollected ->
  tx_err (at_tx a) = None /\ cr_LastTxHash (settled a cr) = tx_hash (at_tx a).
Proof.
  intros Hc. unfold settled. destruct (reached (at_mark a)); simpl; [|done].
  destruct (tx_err (at_tx a)); [by destruct (String.eqb _ _) |]. by destruct (String.eqb _ _).
Qed.

End Settlement.

(** ** One record collected by hand on the reference node *)
Module CollectWitness.
Import Reference ContractsReference FundingReference FundingWitness.

Definition strings : gmap string string := list_to_map [
  ("format", "text"); ("session-id", "s1"); ("collection-id", "0x" +:+ EncodeToString (fixed_bytes 32 1));
  ("payer-address", pretty (fixed_bytes 20 2)); ("receiver-address", pretty DaemonWitness.provider);
  ("data-service-address", pretty DaemonWitness.dataService); ("provider-endpoint", "provider.example:9004");
  ("operator-token", "admin-token"); ("provider-private-key", hex_key 4); ("tx-type", "dynamic");
  ("rpc-endpoint", "http://node")]%string.
Definition flags : Flags :=
  mkFlags (fun n => default ""%string (strings !! n)) (fun _ => false)
    (fun n => if String.eqb n "chain-id" then 42161 else 0) (fun _ => 0) (fun _ => true) (fun _ => None).
#[export] Existing Instance SimpleURL.simple_url.

Definition args : ManualArgs :=
  from_ok (mkManualArgs (mkPCollectionKey "" [] None None None) [] 0 true true ∅) (collect_args flags).
Definition key : payerKey := from_ok no_key (parseKeyPair flags "provider").
Definition opts : TxOptions := from_ok no_options (txOptionsFromFlags flags key).
Definition record : PCollectionRecord := collectionRecordToProto DaemonWitness.cr.
Definition calls : Calls := mkCalls 200 Delivered Delivered.
Definition before : InMemoryRepository * Chain RefWorld := (DaemonWitness.repo, start).
Definition after := collect_on_chain (W := RefWorld) DaemonWitness.config (manual_collector args key) opts calls record before.

Lemma record_collected :
  cr_State <$> (im_records after.1 !! collectionMapKey (cr_Key DaemonWitness.cr)) = Some CollectionStateCollected.
Proof. vm_compute. reflexivity. Qed.
End CollectWitness.
Import Reference ContractsReference FundingReference FundingWitness CollectWitness.

Lemma manual_collect_matches_daemon_witness :
  (runProviderOperatorCollect (W := RefWorld) flags DaemonWitness.config true (Ok tt) calls before).2 = after.
Proof.
  apply (manual_collect_matches_daemon flags DaemonWitness.config calls before args record key opts
    (from_ok ""%string (requiredStringFlag flags "rpc-endpoint"))).
  - apply from_ok_eq. vm_compute. reflexivity.
  - vm_compute. reflexivity.
  - apply from_ok_eq. vm_compute. reflexivity.
  - apply from_ok_eq. vm_compute. reflexivity.
  - apply from_ok_eq. vm_compute. reflexivity.
  - vm_compute. reflexivity.
  - vm_compute. reflexivity.
Defined.


Lemma manual_dry_run_is_harmless_witness :
  (runProviderOperatorCollect (W := RefWorld) (mkFlags (MustGetString flags) (fun n => String.eqb n "dry-run")
     (MustGetUint64 flags) (MustGetDuration flags) (flag_Changed flags) (LookupEnv flags))
     DaemonWitness.config true (Ok tt) calls before).2.1 = DaemonWitness.repo.
Proof.
  apply (manual_dry_run_is_harmless (mkFlags (MustGetString flags) (fun n => String.eqb n "dry-run")
     (MustGetUint64 flags) (MustGetDuration flags) (flag_Changed flags) (LookupEnv flags))
     DaemonWitness.config true (Ok tt) calls before). reflexivity.
Defined.
