(* ===== verification/UsageTracker.v ===== *)
(** The usage tracker of a sink ([usage.go]): counters since the last report and
    cumulative totals, updated by concurrent calls.  Every atomic operation of a
    call is a step of its own, so that calls of [AddBlock] and of
    [SwapAndGetUsage] interleave in every way the code allows; what the reports
    have returned so far is kept in the state of the model. *)
From S2P Require Import Prelude.

Inductive counter : Type := BlocksReceived | BlocksProcessed | BytesTransferred | Requests.
#[global] Instance counter_eq_dec : EqDecision counter.
Proof. solve_decision. Defined.

(** [t.current.Add], [t.total.Add] and [t.current.Swap(0)]. *)
Inductive atomic_op : Type :=
  | AddCurrent (c : counter) (n : Z)
  | AddTotal (c : counter) (n : Z)
  | SwapCurrent (c : counter).

Record UsageTracker : Type := mkTracker {
  ut_current : counter -> Z;
  ut_total : counter -> Z;
  (** the sum of what the reports returned *)
  ut_reported : counter -> Z
}.

Definition NewUsageTracker : UsageTracker := mkTracker (fun _ => 0) (fun _ => 0) (fun _ => 0).

Definition set_counter (g : counter -> Z) (c : counter) (v : Z) : counter -> Z :=
  fun c' => if decide (c' = c) then v else g c'.

Definition exec_op (o : atomic_op) (t : UsageTracker) : UsageTracker :=
  match o with
  | AddCurrent c n =>
      mkTracker (set_counter (ut_current t) c (wrap_u64 (ut_current t c + n))) (ut_total t) (ut_reported t)
  | AddTotal c n =>
      mkTracker (ut_current t) (set_counter (ut_total t) c (wrap_u64 (ut_total t c + n))) (ut_reported t)
  | SwapCurrent c =>
      mkTracker (set_counter (ut_current t) c 0) (ut_total t)
        (set_counter (ut_reported t) c (ut_reported t c + ut_current t c))
  end.

(** The calls, as the operations they perform in order. *)
Definition AddBlock (dataBytes : Z) : list atomic_op :=
  [AddCurrent BlocksReceived 1; AddTotal BlocksReceived 1] ++
  (if dataBytes >? 0
   then [AddCurrent BlocksProcessed 1; AddCurrent BytesTransferred dataBytes;
         AddTotal BlocksProcessed 1; AddTotal BytesTransferred dataBytes]
   else []) ++
  [AddCurrent Requests 1; AddTotal Requests 1].

Definition SwapAndGetUsage : list atomic_op :=
  [SwapCurrent BlocksReceived; SwapCurrent BlocksProcessed; SwapCurrent BytesTransferred; SwapCurrent Requests].

Definition GetTotalUsage (t : UsageTracker) : Z * Z * Z * Z :=
  (ut_total t BlocksReceived, ut_total t BlocksProcessed, ut_total t BytesTransferred, ut_total t Requests).

Inductive usage_call : Type := CallAddBlock (dataBytes : Z) | CallSwap.
Definition call_ops (c : usage_call) : list atomic_op :=
  match c with CallAddBlock n => AddBlock n | CallSwap => SwapAndGetUsage end.

(** A running system: the tracker and what is left of each call in flight.  A
    call starts, or one of the calls performs its next operation. *)
Record Running : Type := mkRunning { rn_tracker : UsageTracker; rn_calls : list (list atomic_op) }.

Inductive tracker_step : Running -> option usage_call -> Running -> Prop :=
  | step_start c t calls : tracker_step (mkRunning t calls) (Some c) (mkRunning t (call_ops c :: calls))
  | step_op o ops t before after :
      tracker_step (mkRunning t (before ++ (o :: ops) :: after)) None
        (mkRunning (exec_op o t) (before ++ ops :: after)).

(** The calls started along a run, the latest first. *)
Inductive tracker_run : list usage_call -> Running -> Prop :=
  | run_new : tracker_run [] (mkRunning NewUsageTracker [])
  | run_start s c started s' : tracker_run started s -> tracker_step s (Some c) s' -> tracker_run (c :: started) s'
  | run_op s started s' : tracker_run started s -> tracker_step s None s' -> tracker_run started s'.

(** ** What a list of operations adds *)

Definition adds_current (c : counter) (o : atomic_op) : Z :=
  match o with AddCurrent c' n => if decide (c' = c) then n else 0 | _ => 0 end.
Definition adds_total (c : counter) (o : atomic_op) : Z :=
  match o with AddTotal c' n => if decide (c' = c) then n else 0 | _ => 0 end.

Definition sum_ops (g : atomic_op -> Z) (ops : list atomic_op) : Z := foldr (fun o acc => g o + acc) 0 ops.
Definition sum_calls (g : atomic_op -> Z) (calls : list (list atomic_op)) : Z :=
  foldr (fun ops acc => sum_ops g ops + acc) 0 calls.

(** What a call is to be counted as. *)
Definition usage_of (c : counter) (call : usage_call) : Z :=
  match call with
  | CallSwap => 0
  | CallAddBlock n =>
      match c with
      | BlocksReceived | Requests => 1
      | BlocksProcessed => if n >? 0 then 1 else 0
      | BytesTransferred => if n >? 0 then n else 0
      end
  end.
Definition usage_total (c : counter) (calls : list usage_call) : Z := foldr (fun k acc => usage_of c k + acc) 0 calls.

Lemma sum_calls_app g l1 l2 : sum_calls g (l1 ++ l2) = sum_calls g l1 + sum_calls g l2.
Proof. unfold sum_calls. induction l1 as [|ops l1 IH]; simpl; lia. Qed.

Lemma sum_calls_cons g ops l : sum_calls g (ops :: l) = sum_ops g ops + sum_calls g l.
Proof. done. Qed.

Lemma usage_total_cons c k l : usage_total c (k :: l) = usage_of c k + usage_total c l.
Proof. done. Qed.

Lemma sum_calls_done g calls : Forall (fun ops => ops = []) calls -> sum_calls g calls = 0.
Proof. induction 1 as [|ops calls -> _ IH]; [done |]. rewrite sum_calls_cons. simpl. lia. Qed.

Lemma sum_calls_split g o ops l1 l2 :
  sum_calls g (l1 ++ (o :: ops) :: l2) = g o + sum_calls g (l1 ++ ops :: l2).
Proof. rewrite !sum_calls_app. simpl. lia. Qed.

Lemma call_amounts c k :
  sum_ops (adds_current c) (call_ops k) = usage_of c k /\ sum_ops (adds_total c) (call_ops k) = usage_of c k.
Proof.
  destruct k as [n|]; [|by destruct c]. unfold call_ops, AddBlock. destruct (Z.gtb_spec n 0) as [Hn|Hn];
    destruct c; simpl; rewrite ?(proj2 (Z.gtb_lt _ _) Hn); try lia.
  all: destruct (Z.gtb_spec n 0); lia.
Qed.

(** What has been counted and what the calls in flight still will add up to
    the calls that were started. *)
Record tracker_inv (started : list usage_call) (s : Running) : Prop := {
  ti_reported c : exists k, ut_reported (rn_tracker s) c + ut_current (rn_tracker s) c +
    sum_calls (adds_current c) (rn_calls s) = usage_total c started + k * two64;
  ti_total c : exists k, ut_total (rn_tracker s) c + sum_calls (adds_total c) (rn_calls s) = usage_total c started + k * two64
}.

Lemma wrap_off z : exists k, wrap_u64 z = z + k * two64.
Proof. exists (- (z / two64)). unfold wrap_u64. pose proof (Z_div_mod_eq_full z two64). lia. Qed.

Lemma inv_run started s : tracker_run started s -> tracker_inv started s.
Proof.
  induction 1 as [|s c started s' _ IH Hs|s started s' _ IH Hs].
  - split; intros c; exists 0; simpl; lia.
  - inversion Hs; subst. destruct IH as [I1 I2]. simpl in *.
    split; intros c'; destruct (call_amounts c' c) as [A1 A2]; [destruct (I1 c') as [k Hk] | destruct (I2 c') as [k Hk]];
      exists k; cbn [rn_calls rn_tracker]; rewrite sum_calls_cons, usage_total_cons; lia.
  - inversion Hs; subst. destruct IH as [I1 I2]. simpl in *.
    split; intros c; [destruct (I1 c) as [k Hk] | destruct (I2 c) as [k Hk]]; rewrite sum_calls_split in Hk;
      destruct o as [c' n|c' n|c']; simpl in *; unfold set_counter; repeat case_decide; subst; try done; eauto.
    + destruct (wrap_off (ut_current t c + n)) as [k' ->]. exists (k + k'). lia.
    + exists k. lia.
    + destruct (wrap_off (ut_total t c + n)) as [k' ->]. exists (k + k'). lia.
Qed.

(** C23: the tracker loses and invents nothing under concurrency.  However calls of
    [AddBlock] and [SwapAndGetUsage] interleave, once all calls have returned the
    totals are the usage of all blocks added, and what the reports returned
    together with what is still to be reported is the same amount, for every
    counter, modulo the width of the counters. *)
Theorem tracker_conserves_usage started t calls :
  tracker_run started (mkRunning t calls) -> Forall (fun ops => ops = []) calls ->
  forall c, ut_total t c mod two64 = usage_total c started mod two64 /\
    (ut_reported t c + ut_current t c) mod two64 = usage_total c started mod two64.
Proof.
  intros Hr Hd c. destruct (inv_run _ _ Hr) as [I1 I2]. destruct (I1 c) as [k1 H1], (I2 c) as [k2 H2]. simpl in *.
  rewrite sum_calls_done, Z.add_0_r in H1, H2 by done. rewrite H1, H2. by rewrite !Z_mod_plus_full.
Qed.

(** A report is not a snapshot: a block can be in one report and its bytes in
    the next. *)
Lemma torn_report :
  exists started s, tracker_run started s /\ rn_calls s = [[AddCurrent BytesTransferred 7; AddTotal BlocksProcessed 1;
      AddTotal BytesTransferred 7; AddCurrent Requests 1; AddTotal Requests 1]; []] /\
    ut_reported (rn_tracker s) BlocksProcessed = 1 /\ ut_reported (rn_tracker s) BytesTransferred = 0.
Proof.
  set (t0 := NewUsageTracker).
  set (t1 := exec_op (AddCurrent BlocksProcessed 1) (exec_op (AddTotal BlocksReceived 1)
               (exec_op (AddCurrent BlocksReceived 1) t0))).
  set (t2 := exec_op (SwapCurrent Requests) (exec_op (SwapCurrent BytesTransferred)
               (exec_op (SwapCurrent BlocksProcessed) (exec_op (SwapCurrent BlocksReceived) t1)))).
  set (rest := [AddCurrent BytesTransferred 7; AddTotal BlocksProcessed 1; AddTotal BytesTransferred 7;
                AddCurrent Requests 1; AddTotal Requests 1]).
  exists [CallAddBlock 7; CallSwap], (mkRunning t2 [rest; []]).
  assert (Hs : tracker_run [CallSwap] (mkRunning t0 [SwapAndGetUsage])) by (eapply run_start; [constructor | constructor]).
  assert (Ha : tracker_run [CallAddBlock 7; CallSwap] (mkRunning t0 [AddBlock 7; SwapAndGetUsage]))
    by (eapply run_start; [exact Hs | constructor]).
  split_and!; [|done | done | done].
  do 4 (eapply run_op; [|apply (step_op _ _ _ [rest] [])]). do 3 (eapply run_op; [|apply (step_op _ _ _ [] [SwapAndGetUsage])]).
  exact Ha.
Qed.

(** One block added and reported. *)
Lemma tracker_conserves_usage_witness :
  exists t, tracker_run [CallSwap; CallAddBlock 7] (mkRunning t [[]; []]) /\
    ut_total t BytesTransferred mod two64 = 7 /\
    (ut_reported t BytesTransferred + ut_current t BytesTransferred) mod two64 = 7.
Proof.
  set (t := foldl (fun t o => exec_op o t) NewUsageTracker (AddBlock 7 ++ SwapAndGetUsage)).
  assert (Hr : tracker_run [CallSwap; CallAddBlock 7] (mkRunning t [[]; []])).
  { do 4 (eapply run_op; [|apply (step_op _ _ _ [] [[]])]).
    eapply run_start; [|constructor]. do 8 (eapply run_op; [|apply (step_op _ _ _ [] [])]).
    eapply run_start; constructor. }
  exists t. split; [exact Hr |].
  exact (tracker_conserves_usage _ t [[]; []] Hr ltac:(repeat constructor) BytesTransferred).
Defined.
