(* ===== verification/Tools.v ===== *)
(** The RAV tools of the command line ([cmd/sds/tools_rav.go]): creating a signed
    RAV as the value of the RAV header, and inspecting RAVs from the command line,
    a file or the standard input.

    Printed lines are the fields of [RAVDetails] and [RAVReport].  The clock, the
    random source and the file system are given by [ToolsEnv]; [eth.NewHash] and
    [eth.NewPrivateKey] are third-party code. *)
From S2P Require Import Prelude.
From S2P Require Import GoStd.
From S2P Require Import Base64.
From S2P Require Import External.
From S2P Require Import GRT.
From S2P Require Import Horizon.
From S2P Require Import Proto.
From S2P Require Import Repository.
From S2P Require Import Runtime.
From S2P Require Import Gateway.
From S2P Require Import InMemory.
From S2P Require Import AuthService.
From S2P Require Import Contracts.
From S2P Require Import Commands.
From S2P Require Import FundingProps.

(** [os.Stat] tells whether a path exists; [/dev/stdin] is read as a file. *)
Record ToolsEnv : Type := mkToolsEnv {
  te_UnixNano : Z;
  te_rand_Read : result go_error (list byte);
  te_Stat : string -> bool;
  te_ReadFile : string -> result go_error (list byte);
  eth_NewHash : string -> result go_error (list byte)
}.

(** What [create] prints: the RAV, its amount, the signer, the domain and the
    header value. *)
Record RAVDetails : Type := mkDetails {
  rd_RAV : RAV;
  rd_Signer : address;
  rd_Domain : Domain;
  rd_Base64 : string
}.

Inductive SignerLine : Type :=
  | SignerVerified (a : address)
  | SignerFailed (e : go_error)
  | SignerSkipped.

(** What [inspect] prints for one input. *)
Record RAVReport `{Uint256} : Type := mkReport {
  rr_CollectionID : CollectionID;
  rr_Payer : address;
  rr_ServiceProvider : address;
  rr_DataService : address;
  rr_Value : GRT;
  rr_ValueAggregate : option Z;
  (** nanoseconds, as the signed number [time.Unix] takes *)
  rr_Timestamp : Z;
  rr_Metadata : option (list byte);
  rr_Signature : signature;
  rr_Signer : SignerLine;
  rr_Domain : option Domain
}.

(** [copy(collectionID[:], h)] into 32 zero bytes. *)
Definition copy32 (h : list byte) : CollectionID := take 32 h ++ zeros (32 - length h).




Section Tools.
Context `{Uint256} `{CommandDeps} `{AuthDeps}.

Definition runToolsRAVCreate (e : ToolsEnv) (f : Flags) : result go_error RAVDetails :=
  let payerHex := MustGetString f "payer" in
  let serviceProviderHex := MustGetString f "service-provider" in
  let dataServiceHex := MustGetString f "data-service" in
  let collectorHex := MustGetString f "collector-address" in
  let chainID := MustGetUint64 f "chain-id" in
  let signerKeyHex := MustGetString f "signer-key" in
  let valueStr := MustGetString f "value" in
  let collectionIDHex := MustGetString f "collection-id" in
  let? _ := ensure (negb (String.eqb payerHex "")) "--payer is required" in
  let? _ := ensure (negb (String.eqb serviceProviderHex "")) "--service-provider is required" in
  let? _ := ensure (negb (String.eqb dataServiceHex "")) "--data-service is required" in
  let? _ := ensure (negb (String.eqb collectorHex "")) "--collector-address is required" in
  let? _ := ensure (negb (String.eqb signerKeyHex "")) "--signer-key is required" in
  let? payer := no_error (NewAddress payerHex) "invalid --payer address %q" in
  let? serviceProvider := no_error (NewAddress serviceProviderHex) "invalid --service-provider address %q" in
  let? dataService := no_error (NewAddress dataServiceHex) "invalid --data-service address %q" in
  let? collector := no_error (NewAddress collectorHex) "invalid --collector-address address %q" in
  let? signerKey := no_error (eth_NewPrivateKey signerKeyHex) "invalid --signer-key %q" in
  let? value := no_error (ParseGRT valueStr) "invalid --value %q" in
  let? collectionID :=
    (if negb (String.eqb collectionIDHex "")
     then let? h := no_error (eth_NewHash e collectionIDHex) "invalid --collection-id %q" in Ok (copy32 h)
     else wrap_err "generating random collection ID: %w" (te_rand_Read e)) in
  let rav := mkRAV collectionID payer serviceProvider dataService (wrap_u64 (te_UnixNano e))
               (Some (GRT_BigInt value)) [] in
  let domain := NewDomain chainID collector in
  let? signedRAV := wrap_err "signing RAV: %w" (horizon_Sign domain rav signerKey) in
  let protoSignedRAV := HorizonSignedRAVToProto (Some signedRAV) in
  let? protoBytes := wrap_err "marshaling proto: %w" (proto_Marshal protoSignedRAV) in
  let base64Encoded := StdEncodeToString protoBytes in
  Ok (mkDetails rav (key_address signerKey) domain base64Encoded).

(** Base64 in either alphabet, or the raw bytes; [readRAVFromStdin] reads
    [/dev/stdin] the same way. *)
Definition readRAVFromFile (e : ToolsEnv) (path : string) : result go_error (list byte) :=
  let? data := te_ReadFile e path in
  match StdDecodeString (String.string_of_list_byte data) with
  | Ok decoded => Ok decoded
  | Err _ => match RawURLDecodeString (String.string_of_list_byte data) with
             | Ok decoded => Ok decoded
             | Err _ => Ok data
             end
  end.

Definition readRAVFromStdin (e : ToolsEnv) : result go_error (list byte) :=
  let? data := te_ReadFile e "/dev/stdin" in
  match StdDecodeString (String.string_of_list_byte data) with
  | Ok decoded => Ok decoded
  | Err _ => match RawURLDecodeString (String.string_of_list_byte data) with
             | Ok decoded => Ok decoded
             | Err _ => Ok data
             end
  end.

Definition inspectRAV (e : ToolsEnv) (input : string) (domain : option Domain) : result go_error RAVReport :=
  let read :=
    if String.eqb input "-" then readRAVFromStdin e
    else if te_Stat e input then readRAVFromFile e input
    else match StdDecodeString input with
         | Ok ravData => Ok ravData
         | Err _ => RawURLDecodeString input
         end in
  let? ravData := wrap_err "failed to read RAV data: %w" read in
  let? protoRAV := wrap_err "failed to unmarshal protobuf: %w" (proto_Unmarshal ravData) in
  let? signedRAV := wrap_err "failed to convert RAV: %w" (ProtoSignedRAVToHorizon (Some protoRAV)) in
  match signedRAV, signedRAV ≫= Message with
  | Some signedRAV, Some m =>
      Ok {| rr_CollectionID := rav_CollectionID m;
            rr_Payer := rav_Payer m;
            rr_ServiceProvider := rav_ServiceProvider m;
            rr_DataService := rav_DataService m;
            rr_Value := NewGRTFromBigInt (rav_ValueAggregate m);
            rr_ValueAggregate := rav_ValueAggregate m;
            rr_Timestamp := wrap_s64 (rav_TimestampNs m);
            rr_Metadata := if (0 <? length (rav_Metadata m))%nat then Some (rav_Metadata m) else None;
            rr_Signature := Signature signedRAV;
            rr_Signer := match domain with
                         | Some d => match RecoverSigner signedRAV d with
                                     | Ok signerAddr => SignerVerified signerAddr
                                     | Err signerErr => SignerFailed signerErr
                                     end
                         | None => SignerSkipped
                         end;
            rr_Domain := domain |}
  | _, _ => Err GoPanic
  end.

Fixpoint inspect_each (e : ToolsEnv) (domain : option Domain) (args : list string) :
    list RAVReport * result go_error unit :=
  match args with
  | [] => ([], Ok tt)
  | input :: args =>
      match inspectRAV e input domain with
      | Err err => ([], Err (Wrapf "failed to inspect RAV %d (%s): %w" err))
      | Ok report => let '(reports, res) := inspect_each e domain args in (report :: reports, res)
      end
  end.

(** The reports printed before the command ended, and how it ended. *)
Definition runToolsRAVInspect (e : ToolsEnv) (f : Flags) (args : list string) :
    list RAVReport * result go_error unit :=
  let chainID := MustGetUint64 f "chain-id" in
  let collectorHex := MustGetString f "collector-address" in
  if negb (chainID =? 0) && negb (String.eqb collectorHex "") then
    match no_error (NewAddress collectorHex) "invalid --collector-address %q" with
    | Ok collector => inspect_each e (Some (NewDomain chainID collector)) args
    | Err err => ([], Err err)
    end
  else inspect_each e None args.
End Tools.

(** ** Proofs *)
Section Proofs.
Context `{Uint256Laws} `{EthLaws} `{!Geth} `{!CommandDeps} `{AuthDepsLaws}.
Abbreviation service := (AuthService InMemoryRepository).

Lemma copy32_length h : length (copy32 h) = 32%nat.
Proof. unfold copy32, zeros. rewrite length_app, length_take, length_replicate. lia. Qed.

(** What a successful [create] made of its flags. *)
Record created (e : ToolsEnv) (f : Flags) (d : RAVDetails) : Prop := {
  cr_value : exists g, ParseGRT (MustGetString f "value") = Ok g /\ rav_ValueAggregate (rd_RAV d) = Some (GRT_BigInt g);
  cr_wf : wf_rav (rd_RAV d);
  cr_metadata : rav_Metadata (rd_RAV d) = [];
  cr_signed : exists key sm data, key_address key = rd_Signer d /\ horizon_Sign (rd_Domain d) (rd_RAV d) key = Ok sm /\
    proto_Marshal (HorizonSignedRAVToProto (Some sm)) = Ok data /\ rd_Base64 d = StdEncodeToString data
}.

Lemma create_spec e f d :
  runToolsRAVCreate e f = Ok d -> (forall l, te_rand_Read e = Ok l -> length l = 32%nat) -> created e f d.
Proof.
  intros Hc Hrand. unfold runToolsRAVCreate in Hc.
  do 5 (apply rbind_Ok in Hc as (? & _ & Hc)).
  apply rbind_Ok in Hc as (payer & Hp%no_error_Ok%NewAddress_length & Hc).
  apply rbind_Ok in Hc as (sp & Hsp%no_error_Ok%NewAddress_length & Hc).
  apply rbind_Ok in Hc as (ds & Hds%no_error_Ok%NewAddress_length & Hc).
  apply rbind_Ok in Hc as (coll & _ & Hc). apply rbind_Ok in Hc as (key & _ & Hc).
  apply rbind_Ok in Hc as (g & Hg%no_error_Ok & Hc). apply rbind_Ok in Hc as (id & Hid & Hc).
  apply rbind_Ok in Hc as (sm & Hsm%wrap_err_Ok & Hc). apply rbind_Ok in Hc as (data & Hdata%wrap_err_Ok & Hc).
  apply Ok_inj in Hc as <-.
  assert (Hlen : length id = 32%nat).
  { case_match; [|by apply wrap_err_Ok, Hrand in Hid].
    apply rbind_Ok in Hid as (h & _ & [= <-]). apply copy32_length. }
  split; simpl; [by exists g | | done | by exists key, sm, data].
  unfold wf_rav; simpl. split_and!; [done.. | apply wrap_u64_range |].
  eexists; split; [done |]. apply GRT_BigInt_range.
Qed.

Lemma create_wire e f d :
  created e f d -> exists psr sm, decodeRAVFromHeader (rd_Base64 d) = Ok psr /\
    (exists data, rd_Base64 d = StdEncodeToString data /\ proto_Unmarshal data = Ok psr) /\
    ProtoSignedRAVToHorizon (Some psr) = Ok (Some sm) /\ Message sm = Some (rd_RAV d) /\
    RecoverSigner sm (rd_Domain d) = Ok (rd_Signer d).
Proof.
  intros [_ Hwf _ (key & sm & data & Hk & Hs & Hm & Hb)].
  destruct (RecoverSigner_Sign _ _ _ _ Hs) as (Em & Hlen & Erec). rewrite Hk in Erec.
  destruct sm as [m sig]. simpl in *. subst m.
  pose proof (SignedRAV_wire _ _ Hwf Hlen) as Ew. simpl in Ew, Hm.
  pose proof (proto_roundtrip _ _ Hm) as Hu.
  eexists _, _. split_and!; [|by exists data | exact Ew | done..].
  unfold decodeRAVFromHeader. by rewrite Hb, StdDecode_Encode.
Qed.
Lemma decode_newline s :
  StdDecodeString (String.string_of_list_byte (string_bytes s ++ [Byte.x0a])) = StdDecodeString s.
Proof.
  unfold Base64.DecodeString, string_bytes.
  assert (E : to_chars (String.string_of_list_byte (String.list_byte_of_string s ++ [Byte.x0a])) =
              to_chars s ++ ["010"%char]).
  { unfold String.string_of_list_byte, String.list_byte_of_string.
    rewrite String.list_ascii_of_string_of_list_ascii, List.map_app, map_map. f_equal.
    rewrite <- (map_id (to_chars s)) at 2. apply map_ext. apply ascii_of_byte_of_ascii. }
  by rewrite E, List.filter_app, app_nil_r.
Qed.

(** The report on a created RAV. *)
Definition report_of (d : RAVDetails) (value : GRT) (r : RAVReport) : Prop :=
  let m := rd_RAV d in
  rr_CollectionID r = rav_CollectionID m /\ rr_Payer r = rav_Payer m /\
  rr_ServiceProvider r = rav_ServiceProvider m /\ rr_DataService r = rav_DataService m /\
  rr_Value r = value /\ rr_ValueAggregate r = Some (GRT_BigInt value) /\
  rr_Timestamp r = wrap_s64 (rav_TimestampNs m) /\ rr_Metadata r = None /\
  rr_Signer r = SignerVerified (rd_Signer d) /\ rr_Domain r = Some (rd_Domain d).

Lemma inspect_created e f d e' input g :
  created e f d -> ParseGRT (MustGetString f "value") = Ok g ->
  (forall data, rd_Base64 d = StdEncodeToString data ->
     (if String.eqb input "-" then readRAVFromStdin e'
      else if te_Stat e' input then readRAVFromFile e' input
      else match StdDecodeString input with Ok x => Ok x | Err _ => RawURLDecodeString input end) = Ok data) ->
  exists r, inspectRAV e' input (Some (rd_Domain d)) = Ok r /\ report_of d g r.
Proof.
  intros Hc Hg Hread. destruct (create_wire _ _ _ Hc) as (psr & sm & _ & (data & Hb & Hu) & Ew & Em & Erec).
  destruct Hc as [(g' & Hg' & Hv) _ Hmd _]. rewrite Hg in Hg'. apply Ok_inj in Hg' as <-.
  unfold inspectRAV. rewrite (Hread _ Hb). cbn [wrap_err rbind]. rewrite Hu. cbn [wrap_err rbind].
  rewrite Ew. cbn [wrap_err rbind mbind option_bind]. rewrite Em, Erec. eexists. split; [reflexivity |].
  unfold report_of. simpl. rewrite Hv, Hmd, ToBig_NewGRTFromBigInt_id. done.
Qed.

End Proofs.

(** A plain number is an amount of GRT, not of base units. *)
Example raw_value_is_grt :
  match ParseGRT (H := Reference.uint256_ref) "1000000000000000000" with Ok g => GRT_BigInt g | Err _ => 0 end =
  10 ^ 18 * 10 ^ 18.
Proof. vm_compute. reflexivity. Qed.

(** ** A created RAV *)
Module ToolsWitness.
Import Reference ContractsReference FundingReference AuthWitness.

Definition strings : gmap string string := list_to_map [
  ("payer", pretty AuthWitness.payer); ("service-provider", pretty provider);
  ("data-service", pretty (fixed_bytes 20 3)); ("collector-address", pretty (fixed_bytes 20 9));
  ("signer-key", FundingWitness.hex_key 2); ("value", "0.00000000000000015 GRT")]%string.
Definition flags : Flags :=
  mkFlags (fun n => default ""%string (strings !! n)) (fun _ => false) (fun _ => 42161) (fun _ => 0) (fun _ => true)
    (fun _ => None).
Definition tools : ToolsEnv :=
  mkToolsEnv 12 (Ok (fixed_bytes 32 1)) (fun _ => false) (fun _ => Err (Errorf "no such file"))
    (fun _ => Err (Errorf "invalid hash")).
Definition details : RAVDetails :=
  mkDetails rav (key_address key) AuthWitness.domain (StdEncodeToString [Byte.x01; Byte.x02]).

Lemma tool_created : runToolsRAVCreate tools flags = Ok details.
Proof. vm_compute. reflexivity. Qed.
End ToolsWitness.

Import Reference ContractsReference FundingReference AuthWitness ToolsWitness.

