(* ===== verification/Startup.v ===== *)
(** Starting the servers: the provider's gateways ([cmd/sds/impl/provider_gateway.go]
    with [provider/gateway/gateway.go], [pricing_config.go], [repository.go] and
    [operator_gateway.go], [provider/plugin/gateway.go]), the consumer sidecar
    ([cmd/sds/consumer_sidecar.go], [consumer_sidecar_config.go] and [New] of
    [consumer/sidecar/sidecar.go]), the oracle ([cmd/sds/impl/oracle.go]), and the
    transports they are given ([sidecar/server_transport.go]).

    A command is modelled up to the servers it starts: which configuration each of
    them holds, or the error the command ends with.  Reading files, decoding YAML,
    opening a database and loading a key pair are third-party code. *)
From S2P Require Import Prelude.
From S2P Require Import GoStd.
From S2P Require Import External.
From S2P Require Import GRT.
From S2P Require Import Horizon.
From S2P Require Import Proto.
From S2P Require Import Repository.
From S2P Require Import InMemory.
From S2P Require Import Runtime.
From S2P Require Import Gateway.
From S2P Require Import SessionService.
From S2P Require Import AuthService.
From S2P Require Import Endpoint.
From S2P Require Import OperatorAuth.
From S2P Require Import Consumer.
From S2P Require Import PaymentClient.
From S2P Require Import Oracle.
From S2P Require Import Bootstrap.
From S2P Require Import Ingress.
From S2P Require Import Contracts.
From S2P Require Import Commands.
From S2P Require Import Discovery.
From S2P Require Import FundingProps.

(** ** Transports ([sidecar/server_transport.go]) *)

Record ServerTransportConfig : Type := mkTransport {
  tc_Plaintext : bool;
  tc_TLSCertFile : string;
  tc_TLSKeyFile : string
}.

Definition is_set (s : string) : bool := negb (String.eqb s "").

Definition Transport_Validate (c : ServerTransportConfig) : result go_error unit :=
  if tc_Plaintext c then
    if is_set (tc_TLSCertFile c) || is_set (tc_TLSKeyFile c)
    then Err (Errorf "%s plaintext transport cannot be combined with TLS cert/key files")
    else Ok tt
  else if negb (is_set (tc_TLSCertFile c)) || negb (is_set (tc_TLSKeyFile c))
  then Err (Errorf "%s secure transport requires both <tls-cert-file> and <tls-key-file>, or explicit --plaintext")
  else Ok tt.

Inductive ServerOption (TLS : Type) : Type := PlainTextServer | SecureServer (c : TLS).
Arguments PlainTextServer {TLS}.
Arguments SecureServer {TLS}.

Definition DGRPCOption {TLS} (SecuredByX509KeyPair : string -> string -> result go_error TLS)
    (c : ServerTransportConfig) : result go_error (ServerOption TLS) :=
  let? _ := Transport_Validate c in
  if tc_Plaintext c then Ok PlainTextServer else
  let? tlsConfig := wrap_err "%s TLS config: %w" (SecuredByX509KeyPair (tc_TLSCertFile c) (tc_TLSKeyFile c)) in
  Ok (SecureServer tlsConfig).

Record pluginTransportFlags : Type := mkPluginFlags {
  pf_Plaintext : bool;
  pf_TLSCertFile : string;
  pf_TLSKeyFile : string
}.

Definition hasOverrides (f : pluginTransportFlags) : bool :=
  pf_Plaintext f || is_set (pf_TLSCertFile f) || is_set (pf_TLSKeyFile f).

Definition resolvePluginTransportConfig (payment : ServerTransportConfig) (f : pluginTransportFlags) :
    result go_error ServerTransportConfig :=
  if negb (hasOverrides f) then
    if tc_Plaintext payment
    then Err (Errorf "plugin gateway plaintext transport requires explicit <plugin-plaintext> when provider gateway uses <plaintext>")
    else Ok payment
  else
    let config := mkTransport (pf_Plaintext f) (pf_TLSCertFile f) (pf_TLSKeyFile f) in
    let? _ := Transport_Validate config in
    Ok config.

(** ** Operator tokens *)

Record operatorAuthFlags : Type := mkOperatorFlags {
  of_ListenAddr : string;
  of_ReadTokenEnvName : string;
  of_AdminTokenEnvName : string
}.

Definition resolveBearerTokenEnv (lookupEnv : string -> option string) (envName : string) : result go_error string :=
  match lookupEnv envName with
  | None => Err (Errorf "%s bearer token environment variable %q is not set")
  | Some value =>
      if String.eqb (TrimSpace value) "" then Err (Errorf "%s bearer token environment variable %q is empty")
      else if contains_blank value
      then Err (Errorf "%s bearer token environment variable %q contains whitespace and cannot be used as a bearer token")
      else Ok value
  end.

(** The configuration, and whether the operator gateway is enabled. *)
Definition resolveOperatorAuthConfig (f : operatorAuthFlags) (lookupEnv : string -> option string) :
    result go_error (OperatorConfig * bool) :=
  if String.eqb (of_ListenAddr f) "" then Ok (mkOperatorConfig "" "", false) else
  if String.eqb (TrimSpace (of_ReadTokenEnvName f)) ""
  then Err (Errorf "<operator-read-token-env> is required when <operator-listen-addr> is set") else
  if String.eqb (TrimSpace (of_AdminTokenEnvName f)) ""
  then Err (Errorf "<admin-write-token-env> is required when <operator-listen-addr> is set") else
  let? readToken := resolveBearerTokenEnv lookupEnv (of_ReadTokenEnvName f) in
  let? adminToken := resolveBearerTokenEnv lookupEnv (of_AdminTokenEnvName f) in
  Ok (mkOperatorConfig readToken adminToken, true).

(** ** Repository DSN ([provider/gateway/repository.go]) *)

(** [strings.Cut]: the text before and after the first occurrence; the length of
    the first part is what [strings.Index] returns. *)
Fixpoint cut_on (sep l : chars) : option (chars * chars) :=
  match strip_prefix sep l with
  | Some rest => Some ([], rest)
  | None => match l with
            | [] => None
            | c :: l' => match cut_on sep l' with Some (a, b) => Some (c :: a, b) | None => None end
            end
  end.

(** [l[i:j]], which panics out of range. *)
Definition slice (l : chars) (i j : nat) : result go_error chars :=
  if ((i <=? j)%nat && (j <=? length l)%nat)%bool then Ok (take (j - i) (drop i l)) else Err GoPanic.

Definition sanitizeDSN (dsn : chars) : result go_error chars :=
  match cut_on ["@"%char] dsn, cut_on (to_chars "://") dsn with
  | Some (before, after), Some (scheme, _) =>
      let idx := length before in
      let userIdx := length scheme in
      if (idx =? 0)%nat then Ok dsn else
      let? userInfo := slice dsn (userIdx + 3) idx in
      match cut_on [":"%char] userInfo with
      | Some (user, _) => Ok (take (userIdx + 3) dsn ++ user ++ to_chars ":***@" ++ after)
      | None => Ok dsn
      end
  | _, _ => Ok dsn
  end.

(** What the process reads and opens.  [psql] opens and sets up the database at a
    DSN, retrying as the retry library does. *)
Record StartupDeps (R : Type) : Type := mkStartupDeps {
  su_inmemory : R;
  su_psql : string -> result go_error R;
  su_ReadFile : string -> result go_error (list byte)
}.
Arguments su_inmemory {R}.
Arguments su_psql {R}.
Arguments su_ReadFile {R}.

(** The repository, and the DSN that is logged. *)
Definition NewRepositoryFromDSN {R} (d : StartupDeps R) (dsn : string) : result go_error (R * option string) :=
  if String.eqb dsn "" then Err (Errorf "DSN must not be empty") else
  match cut_on (to_chars "://") (to_chars dsn) with
  | None => Err (Errorf "invalid DSN format: missing '://' separator")
  | Some (scheme, rest) =>
      if String.eqb (of_chars scheme) "inmemory" then Ok (su_inmemory d, None)
      else if String.eqb (of_chars scheme) "psql" then
        let postgresDSN := to_chars "postgres://" ++ rest in
        let? logged := sanitizeDSN postgresDSN in
        let? repo := su_psql d (of_chars postgresDSN) in
        Ok (repo, Some (of_chars logged))
      else Err (Errorf "unsupported DSN scheme %q (supported: inmemory, psql)")
  end.

(** ** Pricing ([provider/gateway/pricing_config.go], [sidecar/pricing.go]) *)

Record consumerSidecarRuntimeFileConfig : Type := mkFileConfig {
  fc_PayerAddress : string;
  fc_ReceiverAddress : string;
  fc_DataServiceAddress : string;
  fc_OracleEndpoint : string;
  fc_ProviderControlPlaneEndpoint : string
}.

Section Startup.
Context `{Uint256} `{CommandDeps}.

Record providerPricingConfigYAML : Type := mkPricingYAML {
  py_PricePerBlock : GRT;
  py_PricePerByte : GRT;
  py_RAVRequestThreshold : option GRT
}.

(** [yaml.Unmarshal] at the types the commands read. *)
Class YAML : Type := {
  yaml_pricing : list byte -> result go_error providerPricingConfigYAML;
  yaml_sidecar : list byte -> result go_error consumerSidecarRuntimeFileConfig;
  yaml_catalog : list byte -> result go_error rawCatalog
}.
Context `{YAML} `{NetURL}.

Record ProviderPricingConfig : Type := mkProviderPricing {
  ppc_PricePerBlock : GRT;
  ppc_PricePerByte : GRT;
  ppc_RAVRequestThreshold : GRT
}.

Definition DefaultRAVRequestThreshold : GRT := grt_or_zero (ParseGRT "10 GRT").

Definition DefaultProviderPricingConfig : ProviderPricingConfig :=
  mkProviderPricing (PricePerBlock DefaultPricingConfig) (PricePerByte DefaultPricingConfig) DefaultRAVRequestThreshold.

Definition ParseProviderPricingConfig (data : list byte) : result go_error ProviderPricingConfig :=
  let? raw := wrap_err "parsing pricing config: %w" (yaml_pricing data) in
  let? threshold :=
    match py_RAVRequestThreshold raw with
    | None => Ok DefaultRAVRequestThreshold
    | Some t => if GRT_IsZero t then Err (Errorf "invalid rav_request_threshold: must be greater than zero") else Ok t
    end in
  Ok (mkProviderPricing (py_PricePerBlock raw) (py_PricePerByte raw) threshold).

Definition LoadProviderPricingConfig {R} (d : StartupDeps R) (path : string) : result go_error ProviderPricingConfig :=
  let? data := wrap_err "reading pricing config: %w" (su_ReadFile d path) in
  ParseProviderPricingConfig data.

Definition ToPricingConfig (c : option ProviderPricingConfig) : option PricingConfig :=
  match c with
  | None => None
  | Some c => Some (mkPricingConfig (ppc_PricePerBlock c) (ppc_PricePerByte c))
  end.

Definition toRepositoryPricingConfig (pc : option PricingConfig) : PricingConfig :=
  let pc := default DefaultPricingConfig pc in
  mkPricingConfig (PricePerBlock pc) (PricePerByte pc).

(** ** The gateways *)

(** [Config] of the payment gateway; an address that is not given is nil. *)
Record Config (R : Type) : Type := mkConfig {
  cf_ListenAddr : string;
  cf_ServiceProvider : address;
  cf_Domain : Domain;
  cf_CollectorAddr : option address;
  cf_EscrowAddr : option address;
  cf_RPCEndpoint : string;
  cf_PricingConfig : option PricingConfig;
  cf_RAVRequestThreshold : GRT;
  cf_DataPlaneEndpoint : string;
  cf_TransportConfig : ServerTransportConfig;
  cf_OperatorAuthConfig : OperatorConfig;
  cf_Repository : option R
}.
#[global] Arguments mkConfig {R}.
#[global] Arguments cf_ListenAddr {R}.
#[global] Arguments cf_ServiceProvider {R}.
#[global] Arguments cf_Domain {R}.
#[global] Arguments cf_CollectorAddr {R}.
#[global] Arguments cf_EscrowAddr {R}.
#[global] Arguments cf_RPCEndpoint {R}.
#[global] Arguments cf_PricingConfig {R}.
#[global] Arguments cf_RAVRequestThreshold {R}.
#[global] Arguments cf_DataPlaneEndpoint {R}.
#[global] Arguments cf_TransportConfig {R}.
#[global] Arguments cf_OperatorAuthConfig {R}.
#[global] Arguments cf_Repository {R}.

(** A payment gateway: what its handlers read, what they change, and how it is
    served. *)
Record PaymentServer (R : Type) : Type := mkPaymentServer {
  sv_ListenAddr : string;
  sv_Config : GatewayConfig;
  sv_Gateway : Gateway R;
  sv_Transport : ServerTransportConfig;
  sv_OperatorAuth : OperatorConfig
}.
#[global] Arguments mkPaymentServer {R}.
#[global] Arguments sv_ListenAddr {R}.
#[global] Arguments sv_Config {R}.
#[global] Arguments sv_Gateway {R}.
#[global] Arguments sv_Transport {R}.
#[global] Arguments sv_OperatorAuth {R}.

Definition configured (rpcEndpoint : string) (a : option address) : bool :=
  is_set rpcEndpoint && match a with Some _ => true | None => false end.

Definition gateway_New {R} (config : option (Config R)) : result go_error (PaymentServer R) :=
  match config with
  | None => Err (Errorf "gateway config must not be nil")
  | Some c =>
    match cf_Repository c with
    | None => Err (Errorf "gateway repository must be provided explicitly")
    | Some repo =>
      let pricingConfig := default DefaultPricingConfig (cf_PricingConfig c) in
      let ravRequestThreshold :=
        if GRT_IsZero (cf_RAVRequestThreshold c) then DefaultRAVRequestThreshold else cf_RAVRequestThreshold c in
      Ok (mkPaymentServer (cf_ListenAddr c)
            (mkGatewayConfig (cf_ServiceProvider c) (cf_Domain c) (default [] (cf_CollectorAddr c))
               (configured (cf_RPCEndpoint c) (cf_EscrowAddr c)) (configured (cf_RPCEndpoint c) (cf_CollectorAddr c))
               (Some pricingConfig) (Some (GRT_BigInt ravRequestThreshold)) (cf_DataPlaneEndpoint c))
            (mkGateway repo ∅ ∅ ∅) (cf_TransportConfig c) (cf_OperatorAuthConfig c))
    end
  end.

(** [usage.NewUsageService]: the prices, and whether a runtime is told. *)
Record UsageServiceConfig : Type := mkUsageService { us_Pricing : PricingConfig; us_Runtime : bool }.

Record PluginGateway (R : Type) : Type := mkPluginGateway {
  pg_ListenAddr : string;
  pg_Auth : AuthService R;
  pg_Usage : UsageServiceConfig;
  pg_Sessions : QuotaConfig;
  pg_Transport : ServerTransportConfig
}.
#[global] Arguments mkPluginGateway {R}.
#[global] Arguments pg_ListenAddr {R}.
#[global] Arguments pg_Auth {R}.
#[global] Arguments pg_Usage {R}.
#[global] Arguments pg_Sessions {R}.
#[global] Arguments pg_Transport {R}.

Record OperatorGateway : Type := mkOperatorGateway {
  og_ListenAddr : string;
  og_Transport : ServerTransportConfig
}.

Definition NewOperatorGateway {R} (listenAddr : string) (paymentGateway : option (PaymentServer R))
    (transport : ServerTransportConfig) : result go_error OperatorGateway :=
  if String.eqb listenAddr "" then Err (Errorf "operator gateway listen address must be provided") else
  match paymentGateway with
  | None => Err (Errorf "operator gateway payment gateway must be provided")
  | Some _ => Ok (mkOperatorGateway listenAddr transport)
  end.

Record ProviderGateways (R : Type) : Type := mkProviderGateways {
  pv_Payment : PaymentServer R;
  pv_Plugin : PluginGateway R;
  pv_Operator : option OperatorGateway
}.
#[global] Arguments mkProviderGateways {R}.
#[global] Arguments pv_Payment {R}.
#[global] Arguments pv_Plugin {R}.
#[global] Arguments pv_Operator {R}.

(** The plugin services over the repository of the payment gateway. *)
Definition plugin_services {R} `{!GlobalRepository R} (listenAddr : string) (serviceProvider : address) (domain : Domain)
    (rpcEndpoint : string) (collector : option address) (repo : R) (pricing : option PricingConfig)
    (transport : ServerTransportConfig) : PluginGateway R :=
  mkPluginGateway listenAddr
    (NewAuthService serviceProvider domain (configured rpcEndpoint collector) (Some repo))
    (mkUsageService (toRepositoryPricingConfig pricing) true) (NewSessionService None) transport.

Definition StartProviderGateway {R} `{!GlobalRepository R} (d : StartupDeps R)
    (paymentListenAddr pluginListenAddr : string) (serviceProvider : address) (chainID : Z)
    (collector escrow : option address) (rpcEndpoint dataPlaneEndpoint repositoryDSN : string)
    (paymentTransport pluginTransport : ServerTransportConfig) (pricing : option PricingConfig) :
    result go_error (ProviderGateways R) :=
  if String.eqb dataPlaneEndpoint "" then Err (Errorf "<data-plane-endpoint> is required") else
  let? repo := NewRepositoryFromDSN d repositoryDSN in
  let domain := NewDomain chainID (default [] collector) in
  let? paymentGateway := wrap_err "failed to create payment gateway: %w"
    (gateway_New (Some (mkConfig paymentListenAddr serviceProvider domain collector escrow rpcEndpoint pricing ZeroGRT
       dataPlaneEndpoint paymentTransport (mkOperatorConfig "" "") (Some repo.1)))) in
  Ok (mkProviderGateways paymentGateway
        (plugin_services pluginListenAddr serviceProvider domain rpcEndpoint collector repo.1 pricing pluginTransport)
        None).

Definition transport_flags (f : Flags) : ServerTransportConfig :=
  mkTransport (MustGetBool f "plaintext") (MustGetString f "tls-cert-file") (MustGetString f "tls-key-file").

(** The servers the command starts. *)
Definition runProviderGateway {R} `{!GlobalRepository R} (d : StartupDeps R) (f : Flags) :
    result go_error (ProviderGateways R) :=
  let operatorListenAddr := MustGetString f "operator-listen-addr" in
  let serviceProviderHex := MustGetString f "service-provider" in
  let collectorHex := MustGetString f "collector-address" in
  let escrowHex := MustGetString f "escrow-address" in
  let rpcEndpoint := MustGetString f "rpc-endpoint" in
  let dataPlaneEndpoint := MustGetString f "data-plane-endpoint" in
  let pricingConfigPath := MustGetString f "pricing-config" in
  let? _ := ensure (is_set serviceProviderHex) "<service-provider> is required" in
  let? serviceProvider := no_error (NewAddress serviceProviderHex) "invalid <service-provider> %q" in
  let? _ := ensure (is_set collectorHex) "<collector-address> is required" in
  let? collector := no_error (NewAddress collectorHex) "invalid <collector-address> %q" in
  let? _ := ensure (is_set escrowHex) "<escrow-address> is required" in
  let? escrow := no_error (NewAddress escrowHex) "invalid <escrow-address> %q" in
  let? _ := ensure (is_set rpcEndpoint) "<rpc-endpoint> is required" in
  let? _ := ensure (is_set dataPlaneEndpoint) "<data-plane-endpoint> is required" in
  let transportConfig := transport_flags f in
  let? _ := no_error (Transport_Validate transportConfig) "invalid transport configuration" in
  let? pluginTransportConfig := no_error
    (resolvePluginTransportConfig transportConfig
       (mkPluginFlags (MustGetBool f "plugin-plaintext") (MustGetString f "plugin-tls-cert-file")
          (MustGetString f "plugin-tls-key-file"))) "invalid plugin gateway transport configuration" in
  let? operator := no_error
    (resolveOperatorAuthConfig
       (mkOperatorFlags operatorListenAddr (MustGetString f "operator-read-token-env")
          (MustGetString f "admin-write-token-env")) (LookupEnv f)) "invalid operator authentication configuration" in
  let '(operatorAuthConfig, operatorEnabled) := operator in
  let? providerPricingConfig :=
    (if is_set pricingConfigPath
     then no_error (LoadProviderPricingConfig d pricingConfigPath) "failed to load pricing config from %q"
     else Ok DefaultProviderPricingConfig) in
  let? repo := no_error (NewRepositoryFromDSN d (MustGetString f "repository-dsn"))
                 "failed to create repository from DSN %q" in
  let domain := NewDomain (MustGetUint64 f "chain-id") collector in
  let pricing := ToPricingConfig (Some providerPricingConfig) in
  let? paymentGateway := no_error
    (gateway_New (Some (mkConfig (MustGetString f "grpc-listen-addr") serviceProvider domain (Some collector)
       (Some escrow) rpcEndpoint pricing (ppc_RAVRequestThreshold providerPricingConfig) dataPlaneEndpoint
       transportConfig operatorAuthConfig (Some repo.1)))) "failed to create payment gateway" in
  let pluginGateway := plugin_services (MustGetString f "plugin-listen-addr") serviceProvider domain rpcEndpoint
                         (Some collector) repo.1 pricing pluginTransportConfig in
  let? operatorGateway :=
    (if operatorEnabled
     then let? og := no_error (NewOperatorGateway operatorListenAddr (Some paymentGateway) transportConfig)
                       "failed to create operator gateway" in Ok (Some og)
     else Ok None) in
  Ok (mkProviderGateways paymentGateway pluginGateway operatorGateway).

(** ** The consumer sidecar *)

Definition loadConsumerSidecarRuntimeFileConfig {R} (d : StartupDeps R) (path : string) :
    result go_error consumerSidecarRuntimeFileConfig :=
  let? data := wrap_err "reading consumer sidecar config: %w" (su_ReadFile d path) in
  let? cfg := wrap_err "parsing consumer sidecar config: %w" (yaml_sidecar data) in
  Ok (mkFileConfig (TrimSpace (fc_PayerAddress cfg)) (TrimSpace (fc_ReceiverAddress cfg))
        (TrimSpace (fc_DataServiceAddress cfg)) (TrimSpace (fc_OracleEndpoint cfg))
        (TrimSpace (fc_ProviderControlPlaneEndpoint cfg))).

(** A flag that was given, else the value of the file, else the default. *)
Definition resolveString (f : Flags) (file : option consumerSidecarRuntimeFileConfig) (flagName : string)
    (field : consumerSidecarRuntimeFileConfig -> string) : string :=
  if flag_Changed f flagName then MustGetString f flagName
  else match file with
       | Some c => if is_set (field c) then field c else MustGetString f flagName
       | None => MustGetString f flagName
       end.

(** [Config] of the sidecar. *)
Record SidecarConfig : Type := mkSidecarConfig {
  scf_ListenAddr : string;
  scf_SignerKey : PrivateKey;
  scf_Domain : Domain;
  scf_OracleEndpoint : string;
  scf_IngressConfig : option IngressConfig;
  scf_PaymentSessionRoundtripTimeout : Z;
  scf_TransportConfig : ServerTransportConfig
}.

Record SidecarServer : Type := mkSidecarServer {
  ss_ListenAddr : string;
  ss_Sidecar : Sidecar;
  ss_State : SidecarState;
  ss_Ingress : option IngressConfig;
  ss_RoundtripTimeout : Z;
  ss_Transport : ServerTransportConfig
}.

Definition sidecar_New (c : SidecarConfig) : SidecarServer :=
  let timeout := if scf_PaymentSessionRoundtripTimeout c <=? 0 then 30 * 10 ^ 9
                 else scf_PaymentSessionRoundtripTimeout c in
  mkSidecarServer (scf_ListenAddr c) (mkSidecar (mkSigner (scf_Domain c) (scf_SignerKey c)) (scf_OracleEndpoint c))
    (mkSidecarState NewSessionManager ∅) (scf_IngressConfig c) timeout (scf_TransportConfig c).

(** The paths served by the ingress rather than by the control service. *)
Definition isIngressGRPCPath (path : string) : bool :=
  if negb (has_prefix (to_chars "/sf.substreams.rpc.") (to_chars path)) then false
  else bool_decide (path ∈ ["/sf.substreams.rpc.v2.Stream/Blocks"; "/sf.substreams.rpc.v2.EndpointInfo/Info";
                            "/sf.substreams.rpc.v3.Stream/Blocks"; "/sf.substreams.rpc.v4.Stream/Blocks"]%string).

Definition ingress_config (payerHex receiverHex dataServiceHex oracleEndpoint providerEndpoint : string) :
    result go_error (option IngressConfig) :=
  if negb (is_set payerHex || is_set receiverHex || is_set dataServiceHex || is_set oracleEndpoint ||
           is_set providerEndpoint) then Ok None else
  let? _ := ensure (is_set payerHex) "<payer-address> is required when consumer ingress runtime is configured" in
  let? payer := no_error (NewAddress payerHex) "invalid <payer-address> %q" in
  let? _ := ensure (is_set dataServiceHex)
              "<data-service-address> is required when consumer ingress runtime is configured" in
  let? dataService := no_error (NewAddress dataServiceHex) "invalid <data-service-address> %q" in
  let? _ := ensure (is_set oracleEndpoint || is_set providerEndpoint)
              "either <oracle-endpoint> or <provider-control-plane-endpoint> is required when consumer ingress runtime is configured" in
  let? receiver :=
    (if is_set receiverHex
     then let? a := no_error (NewAddress receiverHex) "invalid <receiver-address> %q" in Ok (Some a)
     else Ok None) in
  let? _ := (if is_set providerEndpoint
             then ensure (bool_decide (is_Some receiver))
                    "<receiver-address> is required when <provider-control-plane-endpoint> is set"
             else Ok tt) in
  Ok (Some (mkIngressConfig payer receiver dataService providerEndpoint)).

(** The server the command starts. *)
Definition runConsumerSidecar {R} (d : StartupDeps R) (f : Flags) : result go_error SidecarServer :=
  let configPath := MustGetString f "config" in
  let signerKeyHex := MustGetString f "signer-private-key" in
  let collectorHex := MustGetString f "collector-address" in
  let? fileConfig :=
    (if is_set configPath
     then let? c := no_error (loadConsumerSidecarRuntimeFileConfig d configPath)
                      "failed to load consumer sidecar config from %q" in Ok (Some c)
     else Ok None) in
  let oracleEndpoint := resolveString f fileConfig "oracle-endpoint" fc_OracleEndpoint in
  let providerEndpoint := resolveString f fileConfig "provider-control-plane-endpoint" fc_ProviderControlPlaneEndpoint in
  let payerHex := resolveString f fileConfig "payer-address" fc_PayerAddress in
  let receiverHex := resolveString f fileConfig "receiver-address" fc_ReceiverAddress in
  let dataServiceHex := resolveString f fileConfig "data-service-address" fc_DataServiceAddress in
  let? _ := ensure (is_set signerKeyHex) "<signer-private-key> is required" in
  let? signerKey := no_error (eth_NewPrivateKey signerKeyHex)
                      "invalid <signer-private-key> %q (expected 32-byte hex, with or without 0x prefix)" in
  let? _ := ensure (is_set collectorHex) "<collector-address> is required" in
  let? collector := no_error (NewAddress collectorHex) "invalid <collector-address> %q" in
  let transportConfig := transport_flags f in
  let? _ := no_error (Transport_Validate transportConfig) "invalid transport configuration" in
  let? ingressConfig := ingress_config payerHex receiverHex dataServiceHex oracleEndpoint providerEndpoint in
  Ok (sidecar_New (mkSidecarConfig (MustGetString f "grpc-listen-addr") signerKey
        (NewDomain (MustGetUint64 f "chain-id") collector) oracleEndpoint ingressConfig
        (MustGetDuration f "payment-session-roundtrip-timeout") transportConfig)).

(** ** The oracle *)

Definition LoadCatalog {R} (d : StartupDeps R) (path : string) : result go_error Catalog :=
  let? data := wrap_err "reading oracle config: %w" (su_ReadFile d path) in
  ParseCatalog (yaml_catalog data).

Record OracleServer : Type := mkOracleServer {
  or_ListenAddr : string;
  or_Catalog : Catalog;
  or_Transport : ServerTransportConfig
}.

Definition runOracleServe {R} (d : StartupDeps R) (f : Flags) : result go_error OracleServer :=
  let configPath := MustGetString f "config" in
  let? _ := ensure (is_set configPath) "<config> is required" in
  let transportConfig := transport_flags f in
  let? _ := no_error (Transport_Validate transportConfig) "invalid transport configuration" in
  let? catalog := no_error (LoadCatalog d configPath) "failed to load oracle config from %q" in
  Ok (mkOracleServer (MustGetString f "grpc-listen-addr") catalog transportConfig).
End Startup.

(** ** Proofs *)

(** *** The logged DSN *)

Lemma cut_on_first (c : ascii) (a b : chars) : c ∉ a -> cut_on [c] (a ++ c :: b) = Some (a, b).
Proof.
  induction a as [|x a IH]; intros Hc; cbn [app cut_on strip_prefix].
  - destruct (ascii_dec c c); [done | congruence].
  - apply not_elem_of_cons in Hc as [Hx Hc]. destruct (ascii_dec c x); [congruence |]. by rewrite IH.
Qed.

Definition pg_scheme : chars := to_chars "postgres://".

Lemma cut_postgres (l : chars) : cut_on (to_chars "://") (pg_scheme ++ l) = Some (to_chars "postgres", l).
Proof. reflexivity. Qed.

Lemma cut_on_Some sep l a b : cut_on sep l = Some (a, b) -> exists m, l = a ++ m /\ strip_prefix sep m = Some b.
Proof.
  revert a. induction l as [|c l IH]; intros a; cbn [cut_on]; destruct (strip_prefix sep _) as [r|] eqn:E; try done.
  - intros [= <- <-]. by eexists.
  - intros [= <- <-]. by eexists.
  - destruct (cut_on sep l) as [[a' b']|] eqn:Ec; [|done]. intros [= <- <-].
    destruct (IH _ eq_refl) as (m & -> & Hm). by exists m.
Qed.

Lemma cut_at_scheme (l a b : chars) : cut_on ["@"%char] (pg_scheme ++ l) = Some (a, b) -> exists a', a = pg_scheme ++ a'.
Proof. cbn. destruct (cut_on _ l) as [[a' b']|]; [|done]. intros [= <- _]. by exists a'. Qed.

(** Logging the DSN of a database never panics. *)
Lemma sanitize_total (l : chars) : exists l', sanitizeDSN (pg_scheme ++ l) = Ok l'.
Proof.
  unfold sanitizeDSN. rewrite cut_postgres. destruct (cut_on ["@"%char] _) as [[a b]|] eqn:E; [|eauto].
  destruct (cut_at_scheme _ _ _ E) as [a' ->]. destruct (cut_on_Some _ _ _ _ E) as (m & El & _).
  destruct (_ =? 0)%nat; [eauto |]. unfold slice. rewrite (proj2 (Nat.leb_le _ _)) by (rewrite length_app; cbn; lia).
  rewrite (proj2 (Nat.leb_le _ _)) by (rewrite El, !length_app; lia).
  cbn [andb rbind]. destruct (cut_on [":"%char] _) as [[user ?]|]; eauto.
Qed.

Lemma slice_middle (a m b : chars) : slice (a ++ m ++ b) (length a) (length (a ++ m)) = Ok m.
Proof.
  unfold slice. rewrite !length_app. rewrite (proj2 (Nat.leb_le _ _)) by lia. rewrite (proj2 (Nat.leb_le _ _)) by lia.
  cbn [andb]. rewrite drop_app_length. f_equal. rewrite Nat.add_comm, Nat.add_sub. apply take_app_length.
Qed.

(** A password without an at sign is not logged. *)
Lemma sanitize_hides (user password rest : chars) :
  "@"%char ∉ user -> ":"%char ∉ user -> "@"%char ∉ password ->
  sanitizeDSN (pg_scheme ++ user ++ ":"%char :: password ++ "@"%char :: rest) =
  Ok (pg_scheme ++ user ++ to_chars ":***@" ++ rest).
Proof.
  intros Hu Hc Hp. unfold sanitizeDSN. rewrite cut_postgres.
  set (info := user ++ ":"%char :: password).
  assert (Ei : user ++ ":"%char :: password ++ "@"%char :: rest = info ++ "@"%char :: rest)
    by (unfold info; by rewrite <- app_assoc).
  rewrite Ei, app_assoc, cut_on_first, <- app_assoc; [|unfold pg_scheme, info; set_solver].
  change (length (to_chars "postgres") + 3)%nat with (length pg_scheme).
  assert (Ec : cut_on [":"%char] info = Some (user, password)) by by apply cut_on_first.
  rewrite slice_middle. cbn [rbind]. rewrite Ec, take_app_length. by rewrite length_app.
Qed.

(** The rest of a password after an at sign is. *)
Example sanitize_leaks :
  sanitizeDSN (to_chars "postgres://sds:s3cr@t@db/sds") = Ok (to_chars "postgres://sds:***@t@db/sds").
Proof. reflexivity. Qed.

(** *** Transports and tokens *)

Lemma is_set_spec s : is_set s = true <-> s <> ""%string.
Proof. unfold is_set. destruct (String.eqb_spec s ""); by split. Qed.

Lemma ensured b msg u : ensure b msg = Ok u -> b = true.
Proof. by destruct b. Qed.

Lemma plugin_transport_sound payment pf c :
  Transport_Validate payment = Ok tt -> resolvePluginTransportConfig payment pf = Ok c ->
  Transport_Validate c = Ok tt /\ tc_Plaintext c = pf_Plaintext pf /\
  (hasOverrides pf = false -> c = payment).
Proof.
  intros Hv. unfold resolvePluginTransportConfig. destruct (hasOverrides pf) eqn:Ho; cbn [negb].
  - intros (? & Hc & [= <-])%rbind_Ok. split_and!; [by destruct x | done..].
  - destruct (tc_Plaintext payment) eqn:Ep; [done |]. intros [= <-]. split_and!; try done. rewrite Ep.
    unfold hasOverrides in Ho. by destruct (pf_Plaintext pf).
Qed.

Lemma bearer_env_sound env name tok :
  resolveBearerTokenEnv env name = Ok tok -> env name = Some tok /\ tok <> ""%string.
Proof.
  unfold resolveBearerTokenEnv. destruct (env name) as [v|]; [|done].
  destruct (String.eqb_spec (TrimSpace v) "") as [|Hn]; [done |]. destruct (contains_blank v); [done |].
  intros [= ->]. split; [done |]. by intros ->.
Qed.

(** What the operator configuration admits. *)
Definition operator_tokens (env : string -> option string) (f : operatorAuthFlags) (c : OperatorConfig) : Prop :=
  exists read admin, env (of_ReadTokenEnvName f) = Some read /\ env (of_AdminTokenEnvName f) = Some admin /\
    read <> ""%string /\ admin <> ""%string /\
    forall token, roleForToken c token =
      if String.eqb token admin then Some RoleAdminWrite
      else if String.eqb token read then Some RoleOperatorRead else None.

Lemma operator_auth_sound f env c enabled :
  resolveOperatorAuthConfig f env = Ok (c, enabled) ->
  if enabled then of_ListenAddr f <> ""%string /\ operator_tokens env f c
  else of_ListenAddr f = ""%string /\ forall token, roleForToken c token = None.
Proof.
  unfold resolveOperatorAuthConfig. destruct (String.eqb_spec (of_ListenAddr f) "") as [E|E].
  { intros [= <- <-]. split; [done |]. intros token. unfold roleForToken. simpl. repeat case_match; bool_props; naive_solver. }
  do 2 (destruct (String.eqb _ ""); [done |]).
  intros (read & [Hr Hrn]%bearer_env_sound & (admin & [Ha Han]%bearer_env_sound & [= <- <-])%rbind_Ok)%rbind_Ok.
  split; [done |]. exists read, admin. split_and!; try done. intros token. unfold roleForToken. simpl.
  destruct (String.eqb_spec token ""), (String.eqb_spec token admin), (String.eqb_spec token read),
    (String.eqb_spec admin ""), (String.eqb_spec read ""); simpl; congruence.
Qed.

Section Proofs.
Context `{Uint256Laws} `{EthLaws} `{!Geth} `{!CommandDeps} `{!YAML} `{NetURL} `{!GlobalRepository R}.
Implicit Types (d : StartupDeps R) (f : Flags).

(** *** Prices and thresholds *)

Lemma default_threshold : GRT_BigInt DefaultRAVRequestThreshold = 10 * grtBaseBig.
Proof.
  unfold DefaultRAVRequestThreshold. change (ParseGRT "10 GRT") with (parseDecimalToGRT (dec_nat 10)).
  destruct (parse_integer 10 ltac:(lia) eq_refl) as (g & -> & Hg). exact Hg.
Qed.

Lemma GRT_IsZero_pos g : GRT_IsZero g = false -> 0 < GRT_BigInt g.
Proof.
  unfold GRT_IsZero. rewrite IsZero_spec. intros E%Z.eqb_neq. pose proof (GRT_BigInt_range g). unfold GRT_BigInt in *. lia.
Qed.

(** *** The servers of a provider fit together *)

(** The plugin services authenticate for the provider and under the domain of
    the payment gateway, over its repository; they charge the prices that new
    sessions are opened at; and a request for payment is due at a positive
    amount. *)
Record coherent (p : ProviderGateways R) : Prop := {
  co_provider : as_serviceProvider (pg_Auth (pv_Plugin p)) = gc_serviceProvider (sv_Config (pv_Payment p));
  co_domain : as_domain (pg_Auth (pv_Plugin p)) = gc_domain (sv_Config (pv_Payment p));
  co_repo : as_repository (pg_Auth (pv_Plugin p)) = Some (g_repo (sv_Gateway (pv_Payment p)));
  co_querier : as_collectorQuerier (pg_Auth (pv_Plugin p)) = gc_collectorQuerier (sv_Config (pv_Payment p));
  co_prices : us_Pricing (pg_Usage (pv_Plugin p)) = toRepoPricingConfig (gc_pricingConfig (sv_Config (pv_Payment p)));
  co_runtime : us_Runtime (pg_Usage (pv_Plugin p)) = true;
  co_threshold : exists t, gc_ravRequestThreshold (sv_Config (pv_Payment p)) = Some t /\ 0 < t
}.

Lemma new_gateway_coherent (c : Config R) sv repo addr transport og :
  gateway_New (Some c) = Ok sv -> cf_Repository c = Some repo ->
  coherent (mkProviderGateways sv
    (plugin_services addr (cf_ServiceProvider c) (cf_Domain c) (cf_RPCEndpoint c) (cf_CollectorAddr c) repo
       (cf_PricingConfig c) transport) og).
Proof.
  unfold gateway_New. intros Hn Hr. rewrite Hr in Hn. apply Ok_inj in Hn as <-.
  split; try done. eexists. split; [done |].
  destruct (GRT_IsZero (cf_RAVRequestThreshold c)) eqn:E; [rewrite default_threshold; done | by apply GRT_IsZero_pos].
Qed.

(** C15: the provider command starts servers that fit together and are closed by
    default.  When it starts at all: the plugin services and the payment gateway
    share provider, domain, repository, signer authorization and prices, and ask
    for payment at a positive amount; both contract queriers are configured; every
    transport is a complete TLS configuration or an explicit plain-text one, the
    plugin gateway serving plain text only when its own flag says so; and the
    operator gateway runs exactly when its address is given, then admitting
    exactly the two tokens of the environment, neither of them empty, and
    otherwise the configuration admits no token. *)
Theorem provider_startup_sound d f (p : ProviderGateways R) :
  runProviderGateway d f = Ok p ->
  coherent p /\
  gc_escrowQuerier (sv_Config (pv_Payment p)) = true /\ gc_collectorQuerier (sv_Config (pv_Payment p)) = true /\
  gc_domain (sv_Config (pv_Payment p)) =
    NewDomain (MustGetUint64 f "chain-id") (gc_collectorAddr (sv_Config (pv_Payment p))) /\
  gc_dataPlaneEndpoint (sv_Config (pv_Payment p)) <> ""%string /\
  Transport_Validate (sv_Transport (pv_Payment p)) = Ok tt /\
  tc_Plaintext (sv_Transport (pv_Payment p)) = MustGetBool f "plaintext" /\
  Transport_Validate (pg_Transport (pv_Plugin p)) = Ok tt /\
  tc_Plaintext (pg_Transport (pv_Plugin p)) = MustGetBool f "plugin-plaintext" /\
  match pv_Operator p with
  | Some og => og_ListenAddr og = MustGetString f "operator-listen-addr" /\ og_ListenAddr og <> ""%string /\
      og_Transport og = sv_Transport (pv_Payment p) /\
      operator_tokens (LookupEnv f) (mkOperatorFlags (og_ListenAddr og) (MustGetString f "operator-read-token-env")
        (MustGetString f "admin-write-token-env")) (sv_OperatorAuth (pv_Payment p))
  | None => MustGetString f "operator-listen-addr" = ""%string /\
      forall token, roleForToken (sv_OperatorAuth (pv_Payment p)) token = None
  end.
Proof.
  unfold runProviderGateway.
  intros (? & _ & (sp & _ & (? & _ & (coll & _ & (? & _ & (esc & _ & Hp)%rbind_Ok)%rbind_Ok)%rbind_Ok)%rbind_Ok)%rbind_Ok)%rbind_Ok.
  apply rbind_Ok in Hp as (? & Hrpc%ensured & Hp). apply rbind_Ok in Hp as (? & Hdp%ensured & Hp).
  apply rbind_Ok in Hp as ([] & Ht%no_error_Ok & Hp). apply rbind_Ok in Hp as (pt & Hpt%no_error_Ok & Hp).
  apply rbind_Ok in Hp as ([oc enabled] & Ho%no_error_Ok & Hp). apply rbind_Ok in Hp as (pricing & _ & Hp).
  apply rbind_Ok in Hp as (repo & _ & Hp). apply rbind_Ok in Hp as (sv & Hsv%no_error_Ok & Hp).
  apply rbind_Ok in Hp as (og & Hog & Hp). apply Ok_inj in Hp as <-.
  pose proof (plugin_transport_sound _ _ _ Ht Hpt) as (Hv & Hpl & _). pose proof (operator_auth_sound _ _ _ _ Ho) as Hop.
  split; [exact (new_gateway_coherent _ _ repo.1 _ _ _ Hsv eq_refl) |].
  apply Ok_inj in Hsv as <-. cbn. unfold configured. rewrite Hrpc. cbn [andb].
  split_and!; try done; [by apply is_set_spec |].
  destruct enabled.
  - apply rbind_Ok in Hog as (o & Ho'%no_error_Ok & [= <-]). unfold NewOperatorGateway in Ho'.
    destruct (String.eqb _ ""); [done |]. apply Ok_inj in Ho' as <-. cbn. tauto.
  - by apply Ok_inj in Hog as <-.
Qed.

(** The embedded start has the same coherence, whatever the prices. *)
Lemma embedded_startup_coherent d a1 a2 sp chain coll esc rpc dp dsn t1 t2 pricing p :
  StartProviderGateway d a1 a2 sp chain coll esc rpc dp dsn t1 t2 pricing = Ok p -> coherent p.
Proof.
  unfold StartProviderGateway. destruct (String.eqb dp ""); [done |].
  intros (repo & _ & (sv & Hsv%wrap_err_Ok & [= <-])%rbind_Ok)%rbind_Ok.
  exact (new_gateway_coherent _ _ repo.1 _ _ _ Hsv eq_refl).
Qed.

(** *** The consumer sidecar *)

Lemma ingress_config_sound p r ds o e res :
  ingress_config p r ds o e = Ok res ->
  match res with
  | None => p = ""%string /\ r = ""%string /\ ds = ""%string /\ o = ""%string /\ e = ""%string
  | Some c => NewAddress p = Ok (ic_Payer c) /\ NewAddress ds = Ok (ic_DataService c) /\
      ic_ProviderControlPlaneEndpoint c = e /\
      (forall a, ic_Receiver c = Some a -> NewAddress r = Ok a) /\
      (e <> ""%string -> is_Some (ic_Receiver c)) /\ (e = ""%string -> o <> ""%string)
  end.
Proof.
  unfold ingress_config. destruct (negb _) eqn:En.
  { intros [= <-]. apply negb_true_iff in En. repeat (apply orb_false_iff in En as [En ?]).
    unfold is_set in *. repeat match goal with H : negb _ = false |- _ => apply negb_false_iff, String.eqb_eq in H end. done. }
  intros (? & _ & (payer & Hp%no_error_Ok & (? & _ & (dsv & Hd%no_error_Ok & H')%rbind_Ok)%rbind_Ok)%rbind_Ok)%rbind_Ok.
  apply rbind_Ok in H' as (? & Hoe%ensured & H'). apply rbind_Ok in H' as (rcv & Hrcv & H').
  apply rbind_Ok in H' as (? & Hreq & H'). apply Ok_inj in H' as <-. cbn. split_and!; try done.
  - intros a ->. destruct (is_set r); [|done]. apply rbind_Ok in Hrcv as (a' & Ha%no_error_Ok & [= ->]). done.
  - intros He%is_set_spec. rewrite He in Hreq. apply ensured in Hreq. by apply bool_decide_eq_true in Hreq.
  - intros ->. rewrite orb_false_r in Hoe. by apply is_set_spec.
Qed.

(** The consumer command starts a sidecar that can serve what it is configured
    for.  When it starts at all, its transport is complete, a payment round trip
    has a positive time limit, its signer is the key of the flags under the domain
    of the flags, and it serves streams exactly when one of the five runtime
    settings is given, a flag that was set taking precedence over the file.  Then
    payer and data service are addresses, there is an oracle or a provider to
    talk to, and with a provider endpoint that is not blank every bootstrap
    selects that endpoint and the configured receiver without asking the oracle. *)
Theorem consumer_startup_sound d f (s : SidecarServer) :
  runConsumerSidecar d f = Ok s ->
  exists file,
  let setting := resolveString f file in
  Transport_Validate (ss_Transport s) = Ok tt /\ 0 < ss_RoundtripTimeout s /\
  sc_oracleEndpoint (ss_Sidecar s) = setting "oracle-endpoint" fc_OracleEndpoint /\
  eth_NewPrivateKey (MustGetString f "signer-private-key") = Ok (sg_key (sc_signer (ss_Sidecar s))) /\
  (file = None <-> MustGetString f "config" = ""%string) /\
  match ss_Ingress s with
  | None => setting "payer-address" fc_PayerAddress = ""%string /\ setting "oracle-endpoint" fc_OracleEndpoint = ""%string /\
      setting "provider-control-plane-endpoint" fc_ProviderControlPlaneEndpoint = ""%string
  | Some c =>
      length (ic_Payer c) = 20%nat /\ length (ic_DataService c) = 20%nat /\
      (ic_ProviderControlPlaneEndpoint c = ""%string -> sc_oracleEndpoint (ss_Sidecar s) <> ""%string) /\
      (TrimSpace (ic_ProviderControlPlaneEndpoint c) <> ""%string ->
       exists receiver, ic_Receiver c = Some receiver /\ length receiver = 20%nat /\
       forall discover pkg network,
         resolveProviderSelection (sc_oracleEndpoint (ss_Sidecar s)) discover (ic_Receiver c)
           (ic_ProviderControlPlaneEndpoint c) pkg network =
         Ok (mkSelection (TrimSpace (ic_ProviderControlPlaneEndpoint c)) "" "" None receiver))
  end.
Proof.
  unfold runConsumerSidecar. intros (file & Hfile & Hs)%rbind_Ok. exists file.
  apply rbind_Ok in Hs as (? & _ & Hs). apply rbind_Ok in Hs as (key & Hk%no_error_Ok & Hs).
  apply rbind_Ok in Hs as (? & _ & Hs). apply rbind_Ok in Hs as (coll & _ & Hs).
  apply rbind_Ok in Hs as ([] & Ht%no_error_Ok & Hs). apply rbind_Ok in Hs as (ing & Hi%ingress_config_sound & Hs).
  apply Ok_inj in Hs as <-. cbn. split_and!; try done.
  - destruct (Z.leb_spec (MustGetDuration f "payment-session-roundtrip-timeout") 0); lia.
  - destruct (is_set (MustGetString f "config")) eqn:Ec.
    + apply rbind_Ok in Hfile as (c & _ & [= <-]). apply is_set_spec in Ec. by split.
    + apply Ok_inj in Hfile as <-. unfold is_set in Ec. apply negb_false_iff, String.eqb_eq in Ec. by split.
  - destruct ing as [c|]; [|tauto]. destruct Hi as (Hp & Hd & He & Hr & Hreq & Ho).
    split_and!; [by eapply NewAddress_length.. | by rewrite He |].
    intros Hb. destruct Hreq as [a Ha]; [intros E; by rewrite He, E in Hb |].
    exists a. split_and!; [done | by eapply NewAddress_length, Hr |]. intros. unfold resolveProviderSelection.
    apply is_set_spec in Hb. unfold is_set in Hb. rewrite Hb, Ha. done.
Qed.
End Proofs.

(** ** Concrete starts *)
Module StartupWitness.
Import Reference ContractsReference FundingReference.

(** No file is read. *)
#[export] Instance no_yaml : YAML := {|
  yaml_pricing _ := Err (Errorf "no document");
  yaml_sidecar _ := Err (Errorf "no document");
  yaml_catalog _ := Err (Errorf "no document")
|}.
Definition deps : StartupDeps InMemoryRepository :=
  mkStartupDeps _ NewInMemoryRepository (fun _ => Err (Errorf "no database")) (fun _ => Err (Errorf "no such file")).

Definition provider_strings : gmap string string := list_to_map [
  ("grpc-listen-addr", ":9001"); ("plugin-listen-addr", ":9003"); ("operator-listen-addr", ":9005");
  ("operator-read-token-env", "READ"); ("admin-write-token-env", "ADMIN");
  ("service-provider", pretty (fixed_bytes 20 4)); ("collector-address", pretty (fixed_bytes 20 9));
  ("escrow-address", pretty (fixed_bytes 20 8)); ("rpc-endpoint", "http://node"); ("data-plane-endpoint", "http://data");
  ("plugin-tls-cert-file", "cert.pem"); ("plugin-tls-key-file", "key.pem"); ("repository-dsn", "inmemory://")]%string.
Definition consumer_strings : gmap string string := list_to_map [
  ("grpc-listen-addr", ":9002"); ("signer-private-key", FundingWitness.hex_key 5);
  ("collector-address", pretty (fixed_bytes 20 9)); ("payer-address", pretty (fixed_bytes 20 5));
  ("receiver-address", pretty (fixed_bytes 20 4)); ("data-service-address", pretty (fixed_bytes 20 3));
  ("provider-control-plane-endpoint", "http://provider:9001")]%string.
Definition tokens : gmap string string := list_to_map [("READ", "read-token"); ("ADMIN", "admin-token")]%string.
(** Plain text for the payment gateway and the sidecar only. *)
Definition flags (strings : gmap string string) : Flags :=
  mkFlags (fun n => default ""%string (strings !! n)) (fun n => String.eqb n "plaintext") (fun _ => 42161) (fun _ => 0)
    (fun _ => true) (fun n => tokens !! n).

Definition started {A} (r : result go_error A) : Prop := exists a, r = Ok a.
Lemma started_ok {A} (r : result go_error A) : is_ok r = true -> started r.
Proof. destruct r; [by eexists | done]. Qed.
Lemma provider_started : started (runProviderGateway deps (flags provider_strings)).
Proof. apply started_ok. vm_compute. reflexivity. Qed.
Lemma consumer_started : started (runConsumerSidecar deps (flags consumer_strings)).
Proof. apply started_ok. vm_compute. reflexivity. Qed.
End StartupWitness.

Import Reference ContractsReference FundingReference SimpleURL StartupWitness.

Lemma provider_startup_sound_witness :
  exists p, runProviderGateway deps (flags provider_strings) = Ok p /\ coherent p /\
    tc_Plaintext (pg_Transport (pv_Plugin p)) = false.
Proof.
  destruct provider_started as [p Hp]. exists p. split; [exact Hp |].
  destruct (provider_startup_sound deps (flags provider_strings) p Hp) as (Hc & _ & _ & _ & _ & _ & _ & _ & Ht & _).
  split; [exact Hc | exact Ht].
Defined.

Lemma consumer_startup_sound_witness :
  exists s, runConsumerSidecar deps (flags consumer_strings) = Ok s /\ 0 < ss_RoundtripTimeout s.
Proof.
  destruct consumer_started as [s Hs]. exists s. split; [exact Hs |].
  destruct (consumer_startup_sound deps (flags consumer_strings) s Hs) as (file & _ & Ht & _). exact Ht.
Defined.
