(* ===== verification/OperatorMetrics.v ===== *)
(** The metrics endpoint of the operator gateway
    ([provider/gateway/operator_metrics.go]): counting the sessions and the
    collection records of the repository, and rendering the counts as text.

    [Sprintf_g] is the conversion of a count to a floating-point number and its
    rendering with the verb [%g]. *)
From stdpp Require Import sorting.
From S2P Require Import Prelude.
From S2P Require Import GoStd.
From S2P Require Import External.
From S2P Require Import GRT.
From S2P Require Import Horizon.
From S2P Require Import Proto.
From S2P Require Import Repository.
From S2P Require Import InMemory.
From S2P Require Import Runtime.
From S2P Require Import Gateway.
From S2P Require Import OperatorAuth.
From S2P Require Import Operator.
From S2P Require Import OperatorSessions.
From S2P Require Import Oracle.
From S2P Require Import Accounting.

Record operatorMetricsSnapshot : Type := mkSnapshot {
  ms_sessionsByStatus : gmap string Z;
  ms_endedByReason : gmap string Z;
  ms_collectionsByState : gmap string Z;
  ms_activeWorkers : Z;
  ms_acceptedRAVs : Z;
  ms_lowFundsSessions : Z;
  ms_paymentControlPendingSessions : Z;
  ms_ravRequestEligibleSessions : Z;
  ms_blocksProcessed : Z;
  ms_bytesTransferred : Z;
  ms_requests : Z;
  ms_usageCostRaw : Z
}.

(** [string(session.Status)] and [string(collection.State)]; none is empty, so no
    session and no record is counted as unknown. *)
Definition status_label (s : SessionStatus) : string :=
  match s with
  | SessionStatusActive => "active"
  | SessionStatusPaused => "paused"
  | SessionStatusTerminated => "terminated"
  end.
Definition state_label (s : CollectionState) : string :=
  match s with
  | CollectionStateCollectible => "collectible"
  | CollectionStateCollectPending => "collect_pending"
  | CollectionStateCollected => "collected"
  | CollectionStateCollectFailedRetryable => "collect_failed_retryable"
  end.

Definition endReasonLabel (reason : EndReason) : string :=
  match reason with
  | END_REASON_COMPLETE => "complete"
  | END_REASON_CLIENT_DISCONNECT => "client_disconnect"
  | END_REASON_PROVIDER_STOP => "provider_stop"
  | END_REASON_ERROR => "error"
  | END_REASON_PAYMENT_ISSUE => "payment_issue"
  | END_REASON_UNSPECIFIED => "unspecified"
  end.

(** [m[key]++]. *)
Definition incr (m : gmap string Z) (key : string) : gmap string Z := <[key := default 0 (m !! key) + 1]> m.
Definition one_if (b : bool) : Z := if b then 1 else 0.

Definition emptySnapshot : operatorMetricsSnapshot := mkSnapshot ∅ ∅ ∅ 0 0 0 0 0 0 0 0 0.

Section Metrics.
Context `{Uint256} `{Eth} `{!GlobalRepository R}.
Implicit Types (g : Gateway R) (cfg : GatewayConfig).

(** The body of the loop over the sessions. *)
Definition count_session cfg g (session : Session) (m : operatorMetricsSnapshot) :
    result go_error operatorMetricsSnapshot :=
  let? workers := wrap_err "counting workers for session %q: %w" (WorkerCountBySession (g_repo g) (s_ID session)) in
  let? pending := wrap_err "checking payment control pending for session %q: %w" (paymentControlPending cfg session g) in
  Ok (mkSnapshot
        (incr (ms_sessionsByStatus m) (status_label (s_Status session)))
        (if negb (IsActive session) then incr (ms_endedByReason m) (endReasonLabel (s_EndReason session))
         else ms_endedByReason m)
        (ms_collectionsByState m)
        (ms_activeWorkers m + workers)
        (ms_acceptedRAVs m + one_if (bool_decide (is_Some (s_CurrentRAV session ≫= Message))))
        (ms_lowFundsSessions m + one_if (String.eqb (sessionFundsStatus session) fundsStatusInsufficient))
        (ms_paymentControlPendingSessions m + one_if pending)
        (ms_ravRequestEligibleSessions m + one_if (IsActive session && shouldRequestRAV cfg session))
        (wrap_u64 (ms_blocksProcessed m + s_BlocksProcessed session))
        (wrap_u64 (ms_bytesTransferred m + s_BytesTransferred session))
        (wrap_u64 (ms_requests m + s_Requests session))
        (ms_usageCostRaw m + cloneOrZero (s_TotalCost session))).

Fixpoint count_sessions cfg g (sessions : list Session) (m : operatorMetricsSnapshot) :
    result go_error operatorMetricsSnapshot :=
  match sessions with
  | [] => Ok m
  | session :: sessions => let? m := count_session cfg g session m in count_sessions cfg g sessions m
  end.

Definition count_collection (m : operatorMetricsSnapshot) (c : CollectionRecord) : operatorMetricsSnapshot :=
  mkSnapshot (ms_sessionsByStatus m) (ms_endedByReason m)
    (incr (ms_collectionsByState m) (state_label (cr_State c)))
    (ms_activeWorkers m) (ms_acceptedRAVs m) (ms_lowFundsSessions m) (ms_paymentControlPendingSessions m)
    (ms_ravRequestEligibleSessions m) (ms_blocksProcessed m) (ms_bytesTransferred m) (ms_requests m) (ms_usageCostRaw m).

Definition operatorMetricsSnapshot_of cfg g : result go_error operatorMetricsSnapshot :=
  let sessions := SessionList (g_repo g) (mkSessionFilter None None None) in
  let? collections := wrap_err "listing collections for metrics: %w"
    (CollectionList (g_repo g) (mkCollectionFilter None None None)) in
  let? m := count_sessions cfg g sessions emptySnapshot in
  Ok (fold_left count_collection collections m).

(** ** The text *)

Definition sortedKeys (values : gmap string Z) : list string := sort_strings (map fst (map_to_list values)).
Definition sortedLabelKeys (values : gmap string string) : list string := sort_strings (map fst (map_to_list values)).

(** [strings.ReplaceAll] of one character. *)
Definition replace_char (c : ascii) (by_ : chars) (l : chars) : chars :=
  concat (map (fun x => if ascii_dec x c then by_ else [x]) l).

Definition backslash : ascii := "092"%char.
Definition dquote : ascii := "034"%char.
Definition newline : ascii := "010"%char.

Definition escapePrometheusLabel (value : chars) : chars :=
  let value := replace_char backslash [backslash; backslash] value in
  let value := replace_char newline [backslash; "n"%char] value in
  replace_char dquote [backslash; dquote] value.

(** The verb [%q].  The label values are the names of statuses, reasons and
    states: only quotes, backslashes and line ends are escaped here. *)
Definition quote_char (c : ascii) : chars :=
  if ascii_dec c backslash then [backslash; backslash]
  else if ascii_dec c dquote then [backslash; dquote]
  else if ascii_dec c newline then [backslash; "n"%char] else [c].
Definition Quote (l : chars) : chars := [dquote] ++ concat (map quote_char l) ++ [dquote].

Definition writeMetricHelp (name help : string) : chars :=
  to_chars "# HELP " ++ to_chars name ++ [" "%char] ++ to_chars help ++ [newline].
Definition writeMetricType (name typ : string) : chars :=
  to_chars "# TYPE " ++ to_chars name ++ [" "%char] ++ to_chars typ ++ [newline].

Fixpoint write_labels (labels : gmap string string) (keys : list string) : chars :=
  match keys with
  | [] => []
  | key :: keys =>
      to_chars key ++ ["="%char] ++ Quote (escapePrometheusLabel (to_chars (default ""%string (labels !! key)))) ++
      (match keys with [] => [] | _ => [","%char] end) ++ write_labels labels keys
  end.

Definition writeMetricRaw (name : string) (labels : gmap string string) (value : chars) : chars :=
  to_chars name ++
  (if (size labels =? 0)%nat then [] else ["{"%char] ++ write_labels labels (sortedLabelKeys labels) ++ ["}"%char]) ++
  [" "%char] ++ value ++ [newline].

Context (Sprintf_g : Z -> chars).

Definition writeMetric (name : string) (labels : gmap string string) (value : Z) : chars :=
  writeMetricRaw name labels (Sprintf_g value).

(** The two comment lines and the series of a metric. *)
Definition metric (name help : string) (series : chars) : chars :=
  writeMetricHelp name help ++ writeMetricType name "gauge" ++ series.
Definition by_label (name label : string) (values : gmap string Z) : chars :=
  concat (map (fun key => writeMetric name {[label := key]} (default 0 (values !! key))) (sortedKeys values)).

Definition prometheusText (m : operatorMetricsSnapshot) : chars :=
  metric "sds_provider_sessions" "Current provider sessions by repository status."
    (by_label "sds_provider_sessions" "status" (ms_sessionsByStatus m)) ++
  metric "sds_provider_session_end_reasons" "Current terminated provider sessions by end reason."
    (by_label "sds_provider_session_end_reasons" "reason" (ms_endedByReason m)) ++
  metric "sds_provider_workers_active" "Current active provider runtime workers."
    (writeMetric "sds_provider_workers_active" ∅ (ms_activeWorkers m)) ++
  metric "sds_provider_accepted_ravs" "Current sessions with an accepted RAV snapshot."
    (writeMetric "sds_provider_accepted_ravs" ∅ (ms_acceptedRAVs m)) ++
  metric "sds_provider_collection_records" "Current provider collection lifecycle records by state."
    (by_label "sds_provider_collection_records" "state" (ms_collectionsByState m)) ++
  metric "sds_provider_low_funds_sessions" "Current sessions whose last provider funds assessment is insufficient."
    (writeMetric "sds_provider_low_funds_sessions" ∅ (ms_lowFundsSessions m)) ++
  metric "sds_provider_payment_control_pending_sessions" "Current sessions with provider-side payment control pending."
    (writeMetric "sds_provider_payment_control_pending_sessions" ∅ (ms_paymentControlPendingSessions m)) ++
  metric "sds_provider_rav_request_eligible_sessions"
    "Current sessions whose unbaselined usage has reached the RAV request threshold."
    (writeMetric "sds_provider_rav_request_eligible_sessions" ∅ (ms_ravRequestEligibleSessions m)) ++
  metric "sds_provider_usage_blocks_processed" "Total blocks processed across retained provider sessions."
    (writeMetric "sds_provider_usage_blocks_processed" ∅ (ms_blocksProcessed m)) ++
  metric "sds_provider_usage_bytes_transferred" "Total bytes transferred across retained provider sessions."
    (writeMetric "sds_provider_usage_bytes_transferred" ∅ (ms_bytesTransferred m)) ++
  metric "sds_provider_usage_requests" "Total metered requests across retained provider sessions."
    (writeMetric "sds_provider_usage_requests" ∅ (ms_requests m)) ++
  metric "sds_provider_usage_cost_raw" "Total metered cost across retained provider sessions in raw GRT base units."
    (writeMetricRaw "sds_provider_usage_cost_raw" ∅ (big_String (ms_usageCostRaw m))).

(** ** The handler *)

Record HTTPResponse : Type := mkHTTP { http_Status : Z; http_Headers : gmap string string; http_Body : chars + go_error }.

Definition operator_http_status (e : connect_error) : Z :=
  if bool_decide (e.1 = CodePermissionDenied) then 403 else 401.

Definition prometheusMetrics cfg g : result go_error chars :=
  let? snapshot := operatorMetricsSnapshot_of cfg g in Ok (prometheusText snapshot).

(** [http.Error] answers with the text of the error. *)
Definition metricsHandler cfg (auth : OperatorConfig) (method : string) (h : header) g : HTTPResponse :=
  if negb (String.eqb method "GET")
  then mkHTTP 405 {["Allow"%string := "GET"%string]} (inr (ErrorsNew "method not allowed")) else
  match authorizeRead auth h with
  | Err e => mkHTTP (operator_http_status e) ∅ (inr e.2)
  | Ok _ =>
      match prometheusMetrics cfg g with
      | Err e => mkHTTP 500 ∅ (inr e)
      | Ok body => mkHTTP 200 {["Content-Type"%string := "text/plain; version=0.0.4; charset=utf-8"%string]} (inl body)
      end
  end.
End Metrics.

(** ** Proofs *)

(** How many elements a test holds for, and the sum of a measure. *)
Definition count_if {A} (p : A -> bool) (l : list A) : Z := foldr (fun x n => one_if (p x) + n) 0 l.
Definition sum_of {A} (g : A -> Z) (l : list A) : Z := foldr (fun x n => g x + n) 0 l.

Section Proofs.
Context `{Uint256} `{Eth} `{!GlobalRepository R}.
Implicit Types (g : Gateway R) (cfg : GatewayConfig).

Definition workers_of g (s : Session) : Z :=
  match WorkerCountBySession (g_repo g) (s_ID s) with Ok n => n | Err _ => 0 end.
Definition pending_of cfg g (s : Session) : bool :=
  match paymentControlPending cfg s g with Ok b => b | Err _ => false end.

Lemma incr_lookup m k k' : default 0 (incr m k !! k') = default 0 (m !! k') + one_if (bool_decide (k' = k)).
Proof.
  unfold incr, one_if. case_bool_decide as E; [subst; rewrite lookup_insert_eq | rewrite lookup_insert_ne by done];
    simpl; lia.
Qed.

Lemma wrap_add a b c : wrap_u64 (wrap_u64 (a + b) + c) = wrap_u64 (a + (b + c)).
Proof. unfold wrap_u64. rewrite Zplus_mod_idemp_l. f_equal. lia. Qed.

(** What the loop over the sessions adds. *)
Record counted cfg g (sessions : list Session) (m m' : operatorMetricsSnapshot) : Prop := {
  ct_status k : default 0 (ms_sessionsByStatus m' !! k) =
    default 0 (ms_sessionsByStatus m !! k) + count_if (fun s => bool_decide (k = status_label (s_Status s))) sessions;
  ct_ended k : default 0 (ms_endedByReason m' !! k) = default 0 (ms_endedByReason m !! k) +
    count_if (fun s => negb (IsActive s) && bool_decide (k = endReasonLabel (s_EndReason s))) sessions;
  ct_state : ms_collectionsByState m' = ms_collectionsByState m;
  ct_workers : ms_activeWorkers m' = ms_activeWorkers m + sum_of (workers_of g) sessions;
  ct_accepted : ms_acceptedRAVs m' = ms_acceptedRAVs m +
    count_if (fun s => bool_decide (is_Some (s_CurrentRAV s ≫= Message))) sessions;
  ct_low : ms_lowFundsSessions m' = ms_lowFundsSessions m +
    count_if (fun s => String.eqb (sessionFundsStatus s) fundsStatusInsufficient) sessions;
  ct_pending : ms_paymentControlPendingSessions m' =
    ms_paymentControlPendingSessions m + count_if (pending_of cfg g) sessions;
  ct_eligible : ms_ravRequestEligibleSessions m' = ms_ravRequestEligibleSessions m +
    count_if (fun s => IsActive s && shouldRequestRAV cfg s) sessions;
  ct_blocks : wrap_u64 (ms_blocksProcessed m') = wrap_u64 (ms_blocksProcessed m + sum_of s_BlocksProcessed sessions);
  ct_bytes : wrap_u64 (ms_bytesTransferred m') = wrap_u64 (ms_bytesTransferred m + sum_of s_BytesTransferred sessions);
  ct_requests : wrap_u64 (ms_requests m') = wrap_u64 (ms_requests m + sum_of s_Requests sessions);
  ct_cost : ms_usageCostRaw m' = ms_usageCostRaw m + sum_of (fun s => cloneOrZero (s_TotalCost s)) sessions
}.

Lemma count_sessions_spec cfg g sessions m m' :
  count_sessions cfg g sessions m = Ok m' -> counted cfg g sessions m m'.
Proof.
  revert m. induction sessions as [|s l IH]; intros m; cbn [count_sessions].
  { intros [= <-]. split; intros; simpl; rewrite ?Z.add_0_r; done. }
  intros (m1 & H1 & Hm%IH)%rbind_Ok. unfold count_session in H1.
  apply rbind_Ok in H1 as (w & Hw%wrap_err_Ok & H1). apply rbind_Ok in H1 as (p & Hp%wrap_err_Ok & H1).
  apply Ok_inj in H1 as <-. destruct Hm. cbn -[Z.add] in *.
  assert (Ew : workers_of g s = w) by (unfold workers_of; by rewrite Hw).
  assert (Ep : pending_of cfg g s = p) by (unfold pending_of; by rewrite Hp).
  split; intros; unfold count_if, sum_of in *; cbn [foldr]; rewrite ?Ew, ?Ep; try lia.
  - rewrite ct_status0, incr_lookup. lia.
  - rewrite ct_ended0. destruct (IsActive s); cbn [negb andb]; [simpl; lia | rewrite incr_lookup; lia].
  - done.
  - by rewrite ct_blocks0, wrap_add.
  - by rewrite ct_bytes0, wrap_add.
  - by rewrite ct_requests0, wrap_add.
Qed.

Lemma count_collections_spec (l : list CollectionRecord) m :
  let m' := fold_left count_collection l m in
  (forall k, default 0 (ms_collectionsByState m' !! k) =
     default 0 (ms_collectionsByState m !! k) + count_if (fun c => bool_decide (k = state_label (cr_State c))) l) /\
  m' = mkSnapshot (ms_sessionsByStatus m) (ms_endedByReason m) (ms_collectionsByState m') (ms_activeWorkers m)
         (ms_acceptedRAVs m) (ms_lowFundsSessions m) (ms_paymentControlPendingSessions m)
         (ms_ravRequestEligibleSessions m) (ms_blocksProcessed m) (ms_bytesTransferred m) (ms_requests m)
         (ms_usageCostRaw m).
Proof.
  revert m. induction l as [|c l IH]; intros m; cbn [fold_left].
  - split; [intros; simpl; lia |]. by destruct m.
  - destruct (IH (count_collection m c)) as [Hk He]. split; [|exact He].
    intros k. rewrite Hk. cbn [count_collection ms_collectionsByState]. rewrite incr_lookup. unfold count_if.
    cbn [foldr]. lia.
Qed.


(** *** What is served *)

Lemma status_label_eq a b : bool_decide (status_label a = status_label b) = bool_decide (a = b).
Proof. by destruct a, b. Qed.
Lemma state_label_eq a b : bool_decide (state_label a = state_label b) = bool_decide (a = b).
Proof. by destruct a, b. Qed.
Lemma end_label_eq a b : bool_decide (endReasonLabel a = endReasonLabel b) = bool_decide (a = b).
Proof. by destruct a, b. Qed.

Lemma count_if_ext {A} (p q : A -> bool) l : (forall x, p x = q x) -> count_if p l = count_if q l.
Proof. intros E. unfold count_if. induction l as [|x l IH]; simpl; [done |]. by rewrite E, IH. Qed.

(** The counts of a snapshot are those of the sessions and the records. *)
Record snapshot_of cfg g (sessions : list Session) (collections : list CollectionRecord)
    (m : operatorMetricsSnapshot) : Prop := {
  so_status st : default 0 (ms_sessionsByStatus m !! status_label st) =
    count_if (fun s => bool_decide (st = s_Status s)) sessions;
  so_ended r : default 0 (ms_endedByReason m !! endReasonLabel r) =
    count_if (fun s => negb (IsActive s) && bool_decide (r = s_EndReason s)) sessions;
  so_state st : default 0 (ms_collectionsByState m !! state_label st) =
    count_if (fun c => bool_decide (st = cr_State c)) collections;
  so_workers : ms_activeWorkers m = sum_of (workers_of g) sessions;
  so_accepted : ms_acceptedRAVs m = count_if (fun s => bool_decide (is_Some (s_CurrentRAV s ≫= Message))) sessions;
  so_low : ms_lowFundsSessions m = count_if (fun s => String.eqb (sessionFundsStatus s) fundsStatusInsufficient) sessions;
  so_pending : ms_paymentControlPendingSessions m = count_if (pending_of cfg g) sessions;
  so_eligible : ms_ravRequestEligibleSessions m = count_if (fun s => IsActive s && shouldRequestRAV cfg s) sessions;
  so_blocks : wrap_u64 (ms_blocksProcessed m) = wrap_u64 (sum_of s_BlocksProcessed sessions);
  so_bytes : wrap_u64 (ms_bytesTransferred m) = wrap_u64 (sum_of s_BytesTransferred sessions);
  so_requests : wrap_u64 (ms_requests m) = wrap_u64 (sum_of s_Requests sessions);
  so_cost : ms_usageCostRaw m = sum_of (fun s => cloneOrZero (s_TotalCost s)) sessions
}.

Lemma snapshot_exact cfg g m :
  operatorMetricsSnapshot_of cfg g = Ok m ->
  exists collections, CollectionList (g_repo g) (mkCollectionFilter None None None) = Ok collections /\
    snapshot_of cfg g (SessionList (g_repo g) (mkSessionFilter None None None)) collections m.
Proof.
  unfold operatorMetricsSnapshot_of. set (sessions := SessionList _ _).
  intros (l & Hl%wrap_err_Ok & (m1 & [] %count_sessions_spec & Hm)%rbind_Ok)%rbind_Ok. apply Ok_inj in Hm.
  exists l. split; [done |]. destruct (count_collections_spec l m1) as [Hst He]. rewrite Hm in Hst, He.
  rewrite He. cbn in *. split; cbn; intros; try done.
  - rewrite ct_status0, lookup_empty. cbn. apply count_if_ext. intros. apply status_label_eq.
  - rewrite ct_ended0, lookup_empty. cbn. apply count_if_ext. intros. f_equal. apply end_label_eq.
  - rewrite Hst, ct_state0, lookup_empty. cbn. apply count_if_ext. intros. apply state_label_eq.
Qed.

Lemma series_rendered name label values k n Sprintf_g :
  values !! k = Some n -> exists a b, by_label Sprintf_g name label values = a ++ writeMetric Sprintf_g name {[label := k]} n ++ b.
Proof.
  intros Hk. unfold by_label.
  assert (Hin : k ∈ sortedKeys values).
  { unfold sortedKeys, sort_strings. rewrite merge_sort_Permutation. apply list_elem_of_fmap. exists (k, n).
    split; [done |]. by apply elem_of_map_to_list. }
  apply list_elem_of_split in Hin as (l1 & l2 & ->). rewrite map_app, concat_app. cbn [map concat]. rewrite Hk. cbn.
  by eexists _, _.
Qed.

Lemma status_series Sprintf_g m st n :
  0 < n -> default 0 (ms_sessionsByStatus m !! status_label st) = n ->
  exists a b, prometheusText Sprintf_g m =
    a ++ writeMetric Sprintf_g "sds_provider_sessions" {["status"%string := status_label st]} n ++ b.
Proof.
  intros Hn E. destruct (ms_sessionsByStatus m !! status_label st) as [n'|] eqn:El; simpl in E; [subst | lia].
  destruct (series_rendered "sds_provider_sessions" "status" _ _ _ Sprintf_g El) as (a & b & Eb).
  unfold prometheusText. rewrite Eb. unfold metric at 1. rewrite <- !app_assoc.
  rewrite (app_assoc (writeMetricType _ _) a), (app_assoc (writeMetricHelp _ _) (_ ++ a)). by eexists _, _.
Qed.

End Proofs.

(** A label is escaped twice: a quote in it is read back as a backslash and a
    quote.  No name in use has one. *)
Example label_escaped_twice :
  Quote (escapePrometheusLabel ["a"%char; dquote]) =
  [dquote; "a"%char; backslash; backslash; backslash; dquote; dquote].
Proof. reflexivity. Qed.

(** ** One session *)
Import Reference.

